(* ===== verification/_CoqProject ===== *)
-Q . S2P
Prelude.v
GoStrings.v
GoTime.v
GoDuration.v
CalendarUnits.v
CronSpec.v
CronParser.v
CronChain.v
Cron.v
Decimal.v
DecimalText.v
Runes.v
Common.v
Exception.v
Concurrent.v
Snowflake.v
TimeUtils.v
Sqlc.v
Model.v
SqlBuilder.v
SqlSpec.v
RdbManager.v
RdbProofs.v
RdbRows.v
ModelMemory.v
MongoQuery.v
MongoSpec.v
MongoManager.v
MongoProofs.v
MongoStore.v
Crypto.v
Jwt.v
Request.v
RequestProofs.v
Replay.v
Sdk.v
SdkProofs.v
Pool.v
PoolProofs.v
