(* ===== verification/Prelude.v ===== *)
(** * A verification development for freego

    freego is a Go framework for web services: an HTTP node that authenticates and
    decrypts requests, an object-relational layer over MySQL and Mongo, a job
    scheduler, an identifier generator and the helpers they share.  The development
    models the parts of it that compute or keep state.  Go functions are Gallina
    functions of the same name; a method takes its receiver first; a name that Rocq
    reserves, or that another definition of the file has, ends in an underscore or
    starts with the name of its type.  Paths are below [src/].

    ** How Go is modelled

    - An [int64], [int32] or [uint64] is a [Z], wrapped where the code can overflow
      ([int64], [int32], [uint64], [swrap], [uwrap] below).  A Go [string] or
      byte slice is a list of bytes ([string]), runes are numbers (Runes).
    - A function that can fail has a result in [outcome]: a value, an error, or a
      panic.  Stateful code is a state-passing computation with its own monad
      ([run] in RdbManager, [action] in Request), or takes and returns the state.
    - Objects that are shared through pointers live on a heap (the objects of a
      session in RdbManager, the connections in Pool).
    - Goroutines are transition systems: a step is one access to what the threads
      share, and steps interleave in any order (CronChain, Cron, Concurrent); in
      Replay the steps are the halves of the check of a request.  A data race is the
      end of what a theorem speaks of (Concurrent).
    - The memory of a struct is a list of cells, one for each field (Model); where
      the code stores through raw pointers, it is also a list of bytes (ModelMemory).
    - What the repository only calls (the zone database, JSON, the block cipher and
      the digests, the SQL and Mongo drivers, the cache, the network) is an argument
      or a class of operations; what is relied on is a class of laws, stated after its
      documentation, and each is inhabited by an executable instance that the
      witnesses run.
    - Clocks, random bytes and new identifiers are arguments or part of the state.

    ** The parts

    - Jobs ([job/]).  CronSpec: the bit-set schedule and the constant delay;
      CronParser: the parser of cron expressions; CronChain: the wrappers of jobs and
      the goroutines that run them; Cron: the scheduler, its loop and its clients.
      GoTime, GoDuration and CalendarUnits hold the calendar of Go's package [time].
    - Identifiers ([utils/snowflake]).  Snowflake: generation from clock readings, the
      parts of an identifier and its texts.
    - Helpers ([utils/], [ex/]).  Decimal and DecimalText: decimals of any size;
      Common: conversions, checks, arithmetic on texts, the keys built into the
      program; TimeUtils: times as texts; Exception: errors with a code; Concurrent:
      [Once] and [Map]; Crypto: padding and AES; Jwt: tokens.
    - Data ([ormx/]).  Sqlc: the condition object that callers fill; Model: registered
      models and the conversion of cells; ModelMemory: the same conversion in the bytes
      of a struct; SqlBuilder: conditions as SQL text, and SqlSpec: what that text is;
      RdbManager: the operations of the relational manager, on SqlBuilder and Model;
      MongoQuery: conditions as documents; MongoManager: the operations of the Mongo
      manager, which shares the state of RdbManager.
    - Nodes ([node/]).  Request: a request from its body through the chain of filters
      to the handler and the reply, with Jwt, Crypto and the cache.
    - Connections ([rpcx/pool]).  Pool: the pool, its connections and its clients.

    ** What is proved

    - Schedules and jobs: the timer starts exactly the due entries and moves them on;
      every client of the scheduler is served; [Next] is the least matching instant
      within its bound, where the offset of the zone does not change; expressions parse to what they denote, within bounds; skipped
      and delayed jobs exclude each other (Cron, CronSpec, CronParser, CronChain).
    - Identifiers increase strictly, fit in 63 bits, and their texts round-trip; a call
      returns once the clock moves on (Snowflake).
    - Sessions of the relational manager: a transaction is rolled back when a recorded
      call failed; conditioned writes carry every condition that the builder knows; the
      rows and arguments that move between objects and statements; the pages cover the
      rows (RdbProofs, RdbRows, SqlBuilder, SqlSpec).  The stores through offsets do to
      the bytes of an object what the cells say, with the condition that the wide store
      of a [uint8] field needs (ModelMemory).
    - Mongo: a filter selects what the conditions that count say (MongoSpec, a
      refinement of the conditions against the semantics of the query language);
      transactions are all or nothing, deletes and updates hit the selected documents, fast paging
      asks for the neighbouring page (MongoProofs, run on the store of MongoStore).
    - Requests: the handler of a guarded route runs only for a verified token and a
      signed body; role checks are exact; the chain of filters ends (RequestProofs).
      A signature is accepted once in ten minutes, except for copies that overlap, and
      the client can open the reply (Replay).  Tokens and AES texts round-trip (Jwt, Crypto).
    - Decimals are the rational numbers they stand for: arithmetic, division, rounding
      and every text and binary form; so is the arithmetic on texts
      (Decimal, DecimalText, Common).
    - Concurrency: [Once] runs its function once under any interleaving, and [Map] makes a
      value once up to its first data race (Concurrent); the pool never closes a connection that is held
      (PoolProofs).

    ** Fuel

    [CronSpec.Next] iterates [next_step] a fixed number of times, and
    [Next_least_activation] shows that this is enough.  [DoFilter] has the length of
    the chain as fuel ([chain_ends]); [Pow] of decimals has one turn per halving
    ([Pow_exact]: 17 are enough for exponents below 65536); texts of numbers have the
    number of their digits.  All other recursion is structural.

    ** What is not modelled

    The websocket node, the encipher service, the registration of routes and the
    session store of the node; the caches and the rate limiters, which wrap libraries
    and scripts; the message queue, gRPC and Consul clients, logging and configuration;
    one-time passwords and the maintenance of indexes; the copied HTML library
    [goquery] and its checks; floating-point conversions and the trigonometry of
    decimals; the dialects other than MySQL.  Of [Map] and [Once] only call-backs that
    return are modelled, and a method of the pool is one step. *)

From Stdlib Require Export ZArith Lia Permutation Sorted.
From stdpp Require Export base numbers strings list gmap.

#[global] Open Scope Z_scope.

(** ** Outcomes of Go code

    A Go function that can fail returns a value, returns an error, or panics;
    the three are kept apart. *)

Inductive outcome (E A : Type) : Type :=
  | Ok (a : A)
  | Err (e : E)
  | Panic (why : string).
Arguments Ok {E A} a.
Arguments Err {E A} e.
Arguments Panic {E A} why.

Definition bind_outcome {E A B} (m : outcome E A) (k : A -> outcome E B) : outcome E B :=
  match m with
  | Ok a => k a
  | Err e => Err e
  | Panic w => Panic w
  end.

Definition map_err {E F A} (f : E -> F) (m : outcome E A) : outcome F A :=
  match m with
  | Ok a => Ok a
  | Err e => Err (f e)
  | Panic w => Panic w
  end.

Definition is_ok {E A} (m : outcome E A) : bool :=
  match m with Ok _ => true | _ => false end.

Definition is_panic {E A} (m : outcome E A) : bool :=
  match m with Panic _ => true | _ => false end.

Declare Scope go_scope.
Delimit Scope go_scope with go.
Notation "'let*' x ':=' m 'in' k" := (bind_outcome m (fun x => k))
  (at level 10, x pattern, m at level 100, k at level 200) : go_scope.
#[global] Open Scope go_scope.

Lemma bind_ok_inv {E A B} (m : outcome E A) (k : A -> outcome E B) b :
  bind_outcome m k = Ok b -> exists a, m = Ok a /\ k a = Ok b.
Proof. destruct m; simpl; try discriminate; eauto. Qed.

(** Boolean comparisons of [Z] as propositions, everywhere. *)
Ltac z_bools :=
  repeat match goal with
  | H : (_ && _)%bool = true |- _ => apply andb_prop in H; destruct H
  | H : (_ || _)%bool = false |- _ => apply orb_false_iff in H; destruct H
  | H : (_ <? _) = true |- _ => apply Z.ltb_lt in H
  | H : (_ <? _) = false |- _ => apply Z.ltb_ge in H
  | H : (_ <=? _) = true |- _ => apply Z.leb_le in H
  | H : (_ <=? _) = false |- _ => apply Z.leb_gt in H
  | H : (_ =? _) = true |- _ => apply Z.eqb_eq in H
  | H : (_ =? _) = false |- _ => apply Z.eqb_neq in H
  | H : negb _ = true |- _ => apply negb_true_iff in H
  | H : negb _ = false |- _ => apply negb_false_iff in H
  end.

(** ** Machine integers: Go's conversions and wrap-around at a width *)

(** Two's complement wrap-around to [w] bits. *)
Definition swrap (w x : Z) : Z := (x + 2 ^ (w - 1)) mod 2 ^ w - 2 ^ (w - 1).

(** Unsigned wrap-around to [w] bits. *)
Definition uwrap (w x : Z) : Z := x mod 2 ^ w.

Definition int64 (x : Z) : Z := swrap 64 x.
Definition int32 (x : Z) : Z := swrap 32 x.
Definition uint64 (x : Z) : Z := uwrap 64 x.
Definition uint32 (x : Z) : Z := uwrap 32 x.

Definition max_int64 : Z := 2 ^ 63 - 1.
Definition min_int64 : Z := - 2 ^ 63.
Definition max_int32 : Z := 2 ^ 31 - 1.
Definition min_int32 : Z := - 2 ^ 31.

Definition in_int64 (x : Z) : Prop := min_int64 <= x <= max_int64.
Definition in_int32 (x : Z) : Prop := min_int32 <= x <= max_int32.

Lemma swrap_small w x : 0 < w -> - 2 ^ (w - 1) <= x < 2 ^ (w - 1) -> swrap w x = x.
Proof.
  intros Hw Hx. unfold swrap.
  assert (2 ^ w = 2 * 2 ^ (w - 1)) as E.
  { replace w with (Z.succ (w - 1)) at 1 by lia. rewrite Z.pow_succ_r; lia. }
  rewrite Z.mod_small; lia.
Qed.

Lemma swrap_range w x : 0 < w -> - 2 ^ (w - 1) <= swrap w x < 2 ^ (w - 1).
Proof.
  intros Hw. unfold swrap.
  assert (2 ^ w = 2 * 2 ^ (w - 1)) as E.
  { replace w with (Z.succ (w - 1)) at 1 by lia. rewrite Z.pow_succ_r; lia. }
  assert (0 < 2 ^ w) by (apply Z.pow_pos_nonneg; lia).
  pose proof (Z.mod_pos_bound (x + 2 ^ (w - 1)) (2 ^ w)). lia.
Qed.

Lemma int64_small x : in_int64 x -> int64 x = x.
Proof. intros H. apply swrap_small; [lia|]. unfold in_int64, min_int64, max_int64 in H. simpl. lia. Qed.

Lemma int32_small x : in_int32 x -> int32 x = x.
Proof. intros H. apply swrap_small; [lia|]. unfold in_int32, min_int32, max_int32 in H. simpl. lia. Qed.

Lemma int64_range x : in_int64 (int64 x).
Proof.
  pose proof (swrap_range 64 x ltac:(lia)) as H. unfold in_int64, min_int64, max_int64, int64.
  change (64 - 1) with 63 in H. lia.
Qed.

Lemma int32_range x : in_int32 (int32 x).
Proof.
  pose proof (swrap_range 32 x ltac:(lia)) as H. unfold in_int32, min_int32, max_int32, int32.
  change (32 - 1) with 31 in H. lia.
Qed.

Lemma uint64_small x : 0 <= x < 2 ^ 64 -> uint64 x = x.
Proof. intros H. unfold uint64, uwrap. by rewrite Z.mod_small. Qed.

(** Bits of an unsigned word. *)
Lemma uint64_testbit x j : 0 <= j -> Z.testbit (uint64 x) j = (j <? 64) && Z.testbit x j.
Proof.
  intros Hj. unfold uint64, uwrap. destruct (j <? 64) eqn:E; z_bools; cbn [andb].
  - by rewrite Z.mod_pow2_bits_low by lia.
  - by rewrite Z.mod_pow2_bits_high by lia.
Qed.

Lemma testbit_one_shift i j : 0 <= i -> 0 <= j -> Z.testbit (Z.shiftl 1 i) j = (j =? i).
Proof.
  intros Hi Hj. rewrite Z.shiftl_spec by done. destruct (j =? i) eqn:E; z_bools.
  - by subst; rewrite Z.sub_diag.
  - destruct (Z.lt_ge_cases (j - i) 0); [by rewrite Z.testbit_neg_r|].
    change 1 with (2 ^ 0). rewrite Z.pow2_bits_eqb by lia. apply Z.eqb_neq. lia.
Qed.

Lemma testbit_ones n j : 0 <= n -> 0 <= j -> Z.testbit (2 ^ n - 1) j = (j <? n).
Proof.
  intros Hn Hj. replace (2 ^ n - 1) with (Z.ones n) by (rewrite Z.ones_equiv; lia).
  destruct (j <? n) eqn:E; z_bools; [by rewrite Z.ones_spec_low|by rewrite Z.ones_spec_high].
Qed.

Lemma uint64_range x : 0 <= uint64 x < 2 ^ 64.
Proof. unfold uint64, uwrap. apply Z.mod_pos_bound. done. Qed.

(** A shifted number and one below the shift share no bit. *)
Lemma lor_shiftl_add a b k : 0 <= k -> 0 <= b < 2 ^ k -> Z.lor (Z.shiftl a k) b = a * 2 ^ k + b.
Proof.
  intros Hk Hb. rewrite <- Z.shiftl_mul_pow2 by done.
  assert (Z.land (Z.shiftl a k) b = 0) as H.
  { apply Z.bits_inj_0. intros j. rewrite Z.land_spec. destruct (Z.lt_ge_cases j 0) as [Hj|Hj].
    - by rewrite !Z.testbit_neg_r.
    - destruct (Z.lt_ge_cases j k) as [Hl|Hl]; [by rewrite Z.shiftl_spec_low|].
      rewrite <- (Z.mod_small b (2 ^ k)) by done.
      by rewrite Z.mod_pow2_bits_high, andb_false_r by lia. }
  rewrite <- Z.lxor_lor by done. symmetry. by apply Z.add_nocarry_lxor.
Qed.

Lemma ones_lxor n : Z.lxor (-1) (Z.shiftl (-1) n) = Z.ones n \/ n < 0.
Proof.
  destruct (Z.lt_ge_cases n 0); [by right|left].
  apply Z.bits_inj'. intros j Hj. rewrite Z.lxor_spec, Z.bits_m1, Z.shiftl_spec by done.
  destruct (Z.lt_ge_cases j n).
  - rewrite Z.testbit_neg_r, Z.ones_spec_low by lia. done.
  - rewrite Z.bits_m1, Z.ones_spec_high by lia. done.
Qed.

Create HintDb go_int.
Create Rewrite HintDb go_int.
#[export] Hint Rewrite int64_small int32_small uint64_small
  using (unfold in_int64, in_int32, min_int64, max_int64, min_int32, max_int32; lia) : go_int.
#[export] Hint Resolve int64_range int32_range uint64_range : go_int.

(** ** Loops with binary fuel

    [iter_fuel step p a] runs [step] at most [p] times from [a]; the fuel is a
    binary number, so that a bound of many millions costs nothing to write and
    the loop still evaluates by [vm_compute]. *)

Section Loop.
Context {A R : Type} (step : A -> A + R).

Fixpoint iter_fuel (p : positive) (a : A) : A + R :=
  match p with
  | xH => step a
  | xO q => match iter_fuel q a with inl b => iter_fuel q b | inr r => inr r end
  | xI q =>
      match step a with
      | inr r => inr r
      | inl b => match iter_fuel q b with inl c => iter_fuel q c | inr r => inr r end
      end
  end.

(** A step that keeps an invariant and decreases a measure makes the loop end
    within any fuel above the measure. *)
Lemma iter_fuel_measure (Inv : A -> Prop) (m : A -> Z) (p : positive) (a : A) :
  (forall x y, Inv x -> step x = inl y -> Inv y /\ m y < m x) ->
  Inv a ->
  match iter_fuel p a with
  | inl b => Inv b /\ m b <= m a - Z.pos p
  | inr r => True
  end.
Proof.
  intros Hstep. revert a. induction p as [q IH|q IH|]; intros a Ha; simpl.
  - destruct (step a) as [b|] eqn:E; [|done].
    destruct (Hstep _ _ Ha E) as [Hb Hlt]. specialize (IH b Hb) as IH1.
    destruct (iter_fuel q b) as [c|] eqn:E1; [|done]. destruct IH1 as [Hc Hc'].
    specialize (IH c Hc). destruct (iter_fuel q c); [|done]. destruct IH. split; [done|lia].
  - specialize (IH a Ha) as IH1.
    destruct (iter_fuel q a) as [b|] eqn:E1; [|done]. destruct IH1 as [Hb Hb'].
    specialize (IH b Hb). destruct (iter_fuel q b); [|done]. destruct IH. split; [done|lia].
  - destruct (step a) as [b|] eqn:E; [|done]. destruct (Hstep _ _ Ha E). split; [done|lia].
Qed.

Lemma iter_fuel_total (Inv : A -> Prop) (m : A -> Z) (p : positive) (a : A) :
  (forall x y, Inv x -> step x = inl y -> Inv y /\ m y < m x) ->
  (forall x, Inv x -> 0 <= m x) ->
  Inv a -> m a < Z.pos p ->
  exists r, iter_fuel p a = inr r.
Proof.
  intros Hstep Hpos Ha Hlt. pose proof (iter_fuel_measure Inv m p a Hstep Ha) as H.
  destruct (iter_fuel p a) as [b|r]; [|eauto]. destruct H as [Hb H]. specialize (Hpos b Hb). lia.
Qed.

(** What a step establishes on leaving the loop holds of the loop's result. *)
Lemma iter_fuel_result (Inv : A -> Prop) (Post : R -> Prop) (p : positive) (a : A) :
  (forall x y, Inv x -> step x = inl y -> Inv y) ->
  (forall x r, Inv x -> step x = inr r -> Post r) ->
  Inv a ->
  match iter_fuel p a with inl b => Inv b | inr r => Post r end.
Proof.
  intros Hk Hp. revert a. induction p as [q IH|q IH|]; intros a Ha; simpl.
  - destruct (step a) as [b|] eqn:E; [|by eauto].
    specialize (IH b (Hk _ _ Ha E)) as IH1.
    destruct (iter_fuel q b) as [c|] eqn:E1; [|done]. by apply IH.
  - specialize (IH a Ha) as IH1. destruct (iter_fuel q a) as [b|] eqn:E1; [|done]. by apply IH.
  - destruct (step a) as [b|] eqn:E; eauto.
Qed.
End Loop.

(** Conversion unfolds the loop last: with that much fuel it must not be run to
    compare two open terms. *)
#[global] Strategy 2000 [iter_fuel].

(** ** Shared tactics *)

(** Case analysis on every [match], [if] or [let] scrutinee of the goal. *)
Ltac go_cases :=
  repeat match goal with
  | |- context [match ?x with _ => _ end] => destruct x eqn:?; simplify_eq/=; try done
  end.

Ltac go_cases_in H :=
  repeat match type of H with
  | context [match ?x with _ => _ end] => destruct x eqn:?; simplify_eq/=; try done
  end.

(** Evaluate the closed sums and differences of numerals in the goal and
    the hypotheses. *)
Ltac is_znum x :=
  lazymatch x with
  | Z0 => idtac
  | Zpos ?p => is_pnum p
  | Zneg ?p => is_pnum p
  end
with is_pnum p :=
  lazymatch p with
  | xH => idtac
  | xO ?q => is_pnum q
  | xI ?q => is_pnum q
  end.

Ltac z_eval :=
  repeat match goal with
  | |- context [?x + ?y] =>
      is_znum x; is_znum y; let r := eval vm_compute in (x + y) in change (x + y) with r
  | |- context [?x - ?y] =>
      is_znum x; is_znum y; let r := eval vm_compute in (x - y) in change (x - y) with r
  | H : context [?x + ?y] |- _ =>
      is_znum x; is_znum y; let r := eval vm_compute in (x + y) in change (x + y) with r in H
  | H : context [?x - ?y] |- _ =>
      is_znum x; is_znum y; let r := eval vm_compute in (x - y) in change (x - y) with r in H
  end.

(** ** Finite checks over an interval of integers *)

Fixpoint zrange (lo : Z) (n : nat) : list Z :=
  match n with O => [] | S k => lo :: zrange (lo + 1) k end.

Lemma elem_of_zrange x lo n : x ∈ zrange lo n <-> lo <= x < lo + Z.of_nat n.
Proof.
  revert lo. induction n as [|n IH]; intros lo; simpl.
  - rewrite elem_of_nil. lia.
  - rewrite elem_of_cons, IH. lia.
Qed.

Lemma forallb_zrange (f : Z -> bool) lo n x :
  forallb f (zrange lo n) = true -> lo <= x < lo + Z.of_nat n -> f x = true.
Proof.
  rewrite forallb_forall. intros H Hx. apply H. apply list_elem_of_In. by apply elem_of_zrange.
Qed.
