(* ===== verification/GoStrings.v ===== *)
(** Go strings and the parts of packages [strings] and [strconv] that the
    modelled code uses.  A Go string is a sequence of bytes: a [string] of
    [ascii]. *)

From S2P Require Import Prelude.
From Stdlib Require Import Ascii String.
From stdpp Require Import strings.
#[local] Open Scope string_scope.
#[local] Open Scope Z_scope.

(** ** Bytes *)

Definition slen (s : string) : Z := Z.of_nat (String.length s).

Definition byte_val (c : ascii) : Z := Z.of_N (N_of_ascii c).

Definition ascii_of_Z (z : Z) : ascii := ascii_of_N (Z.to_N z).

Lemma byte_val_ascii z : 0 <= z < 256 -> byte_val (ascii_of_Z z) = z.
Proof.
  intros Hz. unfold byte_val, ascii_of_Z. rewrite N_ascii_embedding; lia.
Qed.

(** [s[i:j]]: Go panics when the bounds are out of range. *)
Definition slice {E} (s : string) (i j : Z) : outcome E string :=
  if (0 <=? i) && (i <=? j) && (j <=? slen s)
  then Ok (String.substring (Z.to_nat i) (Z.to_nat (j - i)) s)
  else Panic "slice bounds out of range".

Fixpoint drop_str (n : nat) (s : string) : string :=
  match n, s with
  | S n, String _ s' => drop_str n s'
  | _, _ => s
  end.

Fixpoint take_str (n : nat) (s : string) : string :=
  match n, s with
  | S n, String c s' => String c (take_str n s')
  | _, _ => ""
  end.

(** [strings.IndexByte]. *)
Fixpoint index_byte (c : ascii) (s : string) : Z :=
  match s with
  | EmptyString => -1
  | String d s' =>
      if Ascii.eqb c d then 0
      else let i := index_byte c s' in if i <? 0 then -1 else i + 1
  end.

(** [strings.HasPrefix] and [strings.HasSuffix]. *)
Definition has_prefix (s p : string) : bool := String.prefix p s.

Fixpoint rev_append_str (s acc : string) : string :=
  match s with EmptyString => acc | String c s' => rev_append_str s' (String c acc) end.

Definition rev_str (s : string) : string := rev_append_str s "".

Definition has_suffix (s p : string) : bool := has_prefix (rev_str s) (rev_str p).

(** [strings.Split] with a one-byte separator: never empty. *)
Fixpoint split_on (c : ascii) (s : string) : list string :=
  match s with
  | EmptyString => [""]
  | String d s' =>
      if Ascii.eqb c d then "" :: split_on c s'
      else match split_on c s' with
           | w :: ws => String d w :: ws
           | [] => [String d ""]
           end
  end.

(** [strings.FieldsFunc] with the test [r == c]. *)
Definition fields_on (c : ascii) (s : string) : list string :=
  List.filter (fun w => negb (String.eqb w "")) (split_on c s).

(** ** Unicode white space

    [space_rune s] is the number of bytes of the white-space rune (in UTF-8)
    at the head of [s], [0] when the head is not white space: [unicode.IsSpace]
    on the ASCII and the other runes it accepts. *)
Definition space_rune (s : string) : nat :=
  match map byte_val (String.list_ascii_of_string (take_str 3 s)) with
  | 9 :: _ | 10 :: _ | 11 :: _ | 12 :: _ | 13 :: _ | 32 :: _ => 1%nat
  | 194 :: 133 :: _ | 194 :: 160 :: _ => 2%nat
  | [225; 154; 128] => 3%nat
  | [226; 128; c] =>
      if ((128 <=? c) && (c <=? 138)) || (c =? 168) || (c =? 169) || (c =? 175) then 3%nat else 0%nat
  | [226; 129; 159] => 3%nat
  | [227; 128; 128] => 3%nat
  | _ => 0%nat
  end.

(** [strings.Fields]: the maximal runs of bytes that are not white space.
    [skip] counts the bytes of a white-space rune still to drop. *)
Fixpoint fields_aux (skip : nat) (cur : string) (s : string) : list string :=
  match s with
  | EmptyString => if String.eqb cur "" then [] else [rev_str cur]
  | String c s' =>
      match skip with
      | S k => fields_aux k cur s'
      | O =>
          match space_rune s with
          | O => fields_aux 0 (String c cur) s'
          | S k =>
              if String.eqb cur "" then fields_aux k "" s'
              else rev_str cur :: fields_aux k "" s'
          end
      end
  end.

Definition fields (s : string) : list string := fields_aux 0 "" s.

(** [strings.TrimSpace]. *)
Fixpoint trim_left_aux (skip : nat) (s : string) : string :=
  match s with
  | EmptyString => ""
  | String _ s' =>
      match skip with
      | S k => trim_left_aux k s'
      | O => match space_rune s with O => s | S k => trim_left_aux k s' end
      end
  end.

(** The shortest prefix of [s] after which only white space follows. *)
Fixpoint trim_right (s : string) : string :=
  match s with
  | EmptyString => ""
  | String c s' => if String.eqb (trim_left_aux 0 s) "" then "" else String c (trim_right s')
  end.

Definition trim_space (s : string) : string := trim_right (trim_left_aux 0 s).

(** [strings.ToLower] on the ASCII letters, and on the two runes outside ASCII
    whose lower case is an ASCII letter (U+0130 and U+212A); every other rune
    has a lower case outside ASCII and is kept. *)
Definition lower_byte (c : ascii) : ascii :=
  let b := byte_val c in
  if (65 <=? b) && (b <=? 90) then ascii_of_Z (b + 32) else c.

Fixpoint to_lower (s : string) : string :=
  match s with
  | EmptyString => ""
  | String c s' =>
      match byte_val c, s' with
      | 196, String d s'' =>
          if byte_val d =? 176 then String "i"%char (to_lower s'') else String c (to_lower s')
      | 226, String d (String e s'') =>
          if (byte_val d =? 132) && (byte_val e =? 170)
          then String "k"%char (to_lower s'') else String c (to_lower s')
      | _, _ => String (lower_byte c) (to_lower s')
      end
  end.

(** ** Numbers in a base *)

Fixpoint to_digits (fuel : nat) (b n : Z) (acc : list Z) : list Z :=
  match fuel with
  | O => n :: acc
  | S f => if n <? b then n :: acc else to_digits f b (n / b) (n mod b :: acc)
  end.

Definition from_digits (b : Z) (l : list Z) : Z := fold_left (fun a d => a * b + d) l 0.

Lemma fold_digits_acc b l a :
  fold_left (fun a d => a * b + d) l a = a * b ^ Z.of_nat (length l) + from_digits b l.
Proof.
  unfold from_digits. revert a. induction l as [|d l IH]; intros a; simpl length.
  - simpl. lia.
  - cbn [fold_left]. rewrite IH, (IH (0 * b + d)).
    rewrite Nat2Z.inj_succ, Z.pow_succ_r by lia. ring.
Qed.

Lemma from_digits_cons b d l :
  from_digits b (d :: l) = d * b ^ Z.of_nat (length l) + from_digits b l.
Proof. unfold from_digits at 1. cbn [fold_left]. rewrite fold_digits_acc. lia. Qed.

Lemma to_digits_value fuel b n acc :
  2 <= b -> 0 <= n ->
  from_digits b (to_digits fuel b n acc) = n * b ^ Z.of_nat (length acc) + from_digits b acc.
Proof.
  intros Hb. revert n acc. induction fuel as [|f IH]; intros n acc Hn; cbn [to_digits].
  - apply from_digits_cons.
  - destruct (n <? b) eqn:E; [apply from_digits_cons|].
    rewrite IH by (apply Z.div_pos; lia). rewrite from_digits_cons.
    cbn [length]. rewrite Nat2Z.inj_succ, Z.pow_succ_r by lia.
    rewrite (Z.div_mod n b) at 3 by lia. ring.
Qed.

(** With enough fuel every digit is below the base. *)
Lemma to_digits_range fuel b n acc :
  2 <= b -> 0 <= n < b ^ (Z.of_nat fuel + 1) ->
  Forall (fun d => 0 <= d < b) acc ->
  Forall (fun d => 0 <= d < b) (to_digits fuel b n acc).
Proof.
  intros Hb. revert n acc. induction fuel as [|f IH]; intros n acc Hn Hacc; cbn [to_digits].
  - constructor; [|done]. replace (Z.of_nat 0 + 1) with 1 in Hn by lia. lia.
  - destruct (n <? b) eqn:E; z_bools.
    + constructor; [lia|done].
    + apply IH.
      * split; [apply Z.div_pos; lia|]. apply Z.div_lt_upper_bound; [lia|].
        rewrite <- Z.pow_succ_r by lia. replace (Z.succ (Z.of_nat f + 1)) with (Z.of_nat (S f) + 1) by lia. lia.
      * constructor; [apply Z.mod_pos_bound; lia|done].
Qed.

(** A fuel that is enough for [n] in every base. *)
Definition digit_fuel (n : Z) : nat := S (Z.to_nat (Z.log2 n)).

Lemma digit_fuel_ok b n : 2 <= b -> 0 <= n -> n < b ^ (Z.of_nat (digit_fuel n) + 1).
Proof.
  intros Hb Hn. unfold digit_fuel.
  destruct (decide (n = 0)) as [->|Hz].
  - apply Z.pow_pos_nonneg; lia.
  - pose proof (Z.log2_spec n ltac:(lia)) as [_ H]. pose proof (Z.log2_nonneg n).
    apply Z.lt_le_trans with (1 := H).
    transitivity (2 ^ (Z.of_nat (S (Z.to_nat (Z.log2 n))) + 1)).
    + apply Z.pow_le_mono_r; lia.
    + apply Z.pow_le_mono_l; lia.
Qed.

(** ** [strconv] in base 10 *)

Inductive num_error := ErrSyntax | ErrRange.

Definition is_digit (c : ascii) : bool := (48 <=? byte_val c) && (byte_val c <=? 57).
Definition digit_char (d : Z) : ascii := ascii_of_Z (48 + d).
Definition digits_string (l : list Z) : string := String.string_of_list_ascii (map digit_char l).

(** The digits of [strconv.FormatInt(n, 10)]. *)
Definition format_nat (n : Z) : string := digits_string (to_digits (digit_fuel n) 10 n []).
Definition format_int (n : Z) : string :=
  if n <? 0 then String "-"%char (format_nat (- n)) else format_nat n.

(** [strconv.ParseUint(s, 10, bits)]: the value so far in [n]; overflow is
    reported as soon as it happens. *)
Fixpoint parse_uint_loop (bits n : Z) (s : string) : outcome num_error Z :=
  match s with
  | EmptyString => Ok n
  | String c s' =>
      if negb (is_digit c) then Err ErrSyntax
      else let n1 := n * 10 + (byte_val c - 48) in
           if 2 ^ bits - 1 <? n1 then Err ErrRange else parse_uint_loop bits n1 s'
  end.

Definition parse_uint (bits : Z) (s : string) : outcome num_error Z :=
  if String.eqb s "" then Err ErrSyntax else parse_uint_loop bits 0 s.

(** [strconv.ParseInt(s, 10, bits)]; [strconv.Atoi] is this at 64 bits. *)
Definition parse_int (bits : Z) (s : string) : outcome num_error Z :=
  match s with
  | EmptyString => Err ErrSyntax
  | String c s' =>
      let neg := Ascii.eqb c "-"%char in
      let body := if neg || Ascii.eqb c "+"%char then s' else s in
      match parse_uint bits body with
      | Ok un =>
          if negb neg && (2 ^ (bits - 1) <=? un) then Err ErrRange
          else if neg && (2 ^ (bits - 1) <? un) then Err ErrRange
          else Ok (if neg then - un else un)
      | Err e => Err e
      | Panic w => Panic w
      end
  end.

Definition atoi (s : string) : outcome num_error Z := parse_int 64 s.

(** *** Round trip of formatting and parsing *)

Lemma digit_char_val d : 0 <= d < 10 -> byte_val (digit_char d) = 48 + d.
Proof. intros. unfold digit_char. apply byte_val_ascii. lia. Qed.

Lemma digit_char_is_digit d : 0 <= d < 10 -> is_digit (digit_char d) = true.
Proof. intros. unfold is_digit. rewrite digit_char_val by done. apply andb_true_iff. split; apply Z.leb_le; lia. Qed.

Lemma from_digits_nonneg b l :
  0 <= b -> Forall (fun d => 0 <= d) l -> 0 <= from_digits b l.
Proof.
  intros Hb Hl. induction Hl as [|d l Hd Hl IH]; [done|].
  rewrite from_digits_cons. pose proof (Z.pow_nonneg b (Z.of_nat (length l)) Hb). nia.
Qed.

Lemma parse_uint_loop_digits bits n l :
  0 <= n -> Forall (fun d => 0 <= d < 10) l ->
  n * 10 ^ Z.of_nat (length l) + from_digits 10 l < 2 ^ bits ->
  parse_uint_loop bits n (digits_string l) = Ok (n * 10 ^ Z.of_nat (length l) + from_digits 10 l).
Proof.
  intros Hn Hl. revert n Hn. induction Hl as [|d l Hd Hl IH]; intros n Hn Hlt.
  - simpl in *. f_equal. unfold from_digits. simpl. lia.
  - assert (0 <= from_digits 10 l) as Hnn.
    { apply from_digits_nonneg; [lia|]. eapply Forall_impl; [exact Hl|]. intros; simpl in *; lia. }
    assert (0 < 10 ^ Z.of_nat (length l)) by (apply Z.pow_pos_nonneg; lia).
    rewrite from_digits_cons in *. cbn [length] in *.
    rewrite Nat2Z.inj_succ, Z.pow_succ_r in * by lia.
    unfold digits_string. cbn [map String.string_of_list_ascii parse_uint_loop].
    rewrite digit_char_is_digit, digit_char_val by done. cbn [negb].
    replace (n * 10 + (48 + d - 48)) with (n * 10 + d) by lia.
    destruct (2 ^ bits - 1 <? n * 10 + d) eqn:E; z_bools; [nia|].
    fold (digits_string l). rewrite IH by nia. f_equal. ring.
Qed.

Lemma to_digits_cons fuel b n acc : exists d l, to_digits fuel b n acc = d :: l.
Proof.
  revert n acc. induction fuel as [|f IH]; intros n acc; simpl; [eauto|].
  destruct (n <? b); eauto.
Qed.

Lemma format_nat_digits n : 0 <= n ->
  exists d l, format_nat n = String (digit_char d) (digits_string l)
    /\ Forall (fun x => 0 <= x < 10) (d :: l) /\ from_digits 10 (d :: l) = n.
Proof.
  intros Hn. unfold format_nat.
  pose proof (to_digits_range (digit_fuel n) 10 n [] ltac:(lia)
    (conj Hn (digit_fuel_ok 10 n ltac:(lia) Hn)) (Forall_nil_2 _)) as Hr.
  pose proof (to_digits_value (digit_fuel n) 10 n [] ltac:(lia) Hn) as Hv.
  destruct (to_digits_cons (digit_fuel n) 10 n []) as (d & l & E). rewrite E in *.
  exists d, l. split; [done|]. split; [done|]. rewrite Hv. simpl length.
  unfold from_digits. simpl. lia.
Qed.

Lemma parse_uint_format bits n :
  0 <= n < 2 ^ bits -> parse_uint bits (format_nat n) = Ok n.
Proof.
  intros Hn. destruct (format_nat_digits n ltac:(lia)) as (d & l & E & Hl & Hv).
  unfold parse_uint. rewrite E. cbn [String.eqb].
  change (String (digit_char d) (digits_string l)) with (digits_string (d :: l)).
  pose proof (parse_uint_loop_digits bits 0 (d :: l) ltac:(lia) Hl) as H.
  rewrite Hv in H. cbn [Z.mul Z.add] in H. rewrite H by lia. done.
Qed.

Lemma digit_char_not_sign d : 0 <= d < 10 ->
  Ascii.eqb (digit_char d) "-"%char = false /\ Ascii.eqb (digit_char d) "+"%char = false.
Proof.
  intros Hd. pose proof (digit_char_val d Hd) as Hv.
  assert (byte_val "-"%char = 45 /\ byte_val "+"%char = 43) as [H1 H2] by done.
  split; apply Ascii.eqb_neq; intros E; rewrite E in Hv; lia.
Qed.

Lemma parse_int_format bits n :
  0 < bits -> - 2 ^ (bits - 1) <= n < 2 ^ (bits - 1) -> parse_int bits (format_int n) = Ok n.
Proof.
  intros Hb Hn.
  assert (2 ^ bits = 2 * 2 ^ (bits - 1)) as E2.
  { replace bits with (Z.succ (bits - 1)) at 1 by lia. rewrite Z.pow_succ_r; lia. }
  unfold format_int. destruct (n <? 0) eqn:En; z_bools.
  - cbn [parse_int]. replace (Ascii.eqb "-"%char "-"%char) with true by done. cbn [orb].
    rewrite parse_uint_format by lia. cbn [negb andb].
    destruct (2 ^ (bits - 1) <? - n) eqn:E; z_bools; [lia|]. f_equal. lia.
  - destruct (format_nat_digits n ltac:(lia)) as (d & l & E & Hl & Hv).
    assert (parse_uint bits (format_nat n) = Ok n) as Hp. { apply parse_uint_format. lia. } rewrite E in *. cbn [parse_int].
    apply Forall_cons_1 in Hl as [Hd _].
    destruct (digit_char_not_sign d Hd) as [-> ->]. cbn [orb]. rewrite Hp. cbn [negb andb].
    destruct (2 ^ (bits - 1) <=? n) eqn:E3; z_bools; [lia|done].
Qed.

Lemma parse_uint_loop_range bits n s v :
  0 <= n <= 2 ^ bits - 1 -> parse_uint_loop bits n s = Ok v -> 0 <= v <= 2 ^ bits - 1.
Proof.
  revert n. induction s as [|c s IH]; intros n Hn; cbn [parse_uint_loop].
  - by intros [= <-].
  - destruct (is_digit c) eqn:Ed; cbn [negb]; [|done].
    unfold is_digit in Ed. z_bools. destruct (2 ^ bits - 1 <? _) eqn:E; [done|]. z_bools.
    apply IH. lia.
Qed.

Lemma parse_int_range bits s v :
  0 < bits -> parse_int bits s = Ok v -> - 2 ^ (bits - 1) <= v < 2 ^ (bits - 1).
Proof.
  intros Hb. destruct s as [|c s]; [done|]. cbn [parse_int].
  destruct (parse_uint bits _) as [un| |] eqn:E; [|done..].
  assert (0 <= un) as Hun.
  { unfold parse_uint in E. destruct (String.eqb _ ""); [done|].
    apply parse_uint_loop_range in E; [lia|]. assert (0 < 2 ^ bits) by (apply Z.pow_pos_nonneg; lia). lia. }
  assert (0 < 2 ^ (bits - 1)) by (apply Z.pow_pos_nonneg; lia).
  destruct (Ascii.eqb c "-"%char); cbn [negb andb];
    [destruct (2 ^ (bits - 1) <? un) eqn:E1|destruct (2 ^ (bits - 1) <=? un) eqn:E1]; try done;
    intros [= <-]; z_bools; lia.
Qed.

Lemma parse_uint_no_panic bits s : is_panic (parse_uint bits s) = false.
Proof.
  unfold parse_uint. destruct (String.eqb s ""); [done|]. generalize 0.
  induction s as [|c s IH]; intros n; cbn [parse_uint_loop]; [done|].
  destruct (is_digit c); cbn [negb]; [|done]. destruct (_ <? _); [done|apply IH].
Qed.

Lemma parse_int_no_panic bits s : is_panic (parse_int bits s) = false.
Proof.
  destruct s as [|c s]; [done|]. cbn [parse_int].
  pose proof (parse_uint_no_panic bits
    (if Ascii.eqb c "-"%char || Ascii.eqb c "+"%char then s else String c s)) as H.
  destruct (parse_uint bits _); [|done..].
  repeat match goal with |- context [if ?b then _ else _] => destruct b end; done.
Qed.

(** ** Splitting what has been joined *)

(** All the bytes of [s] satisfy [f]. *)
Fixpoint all_bytes (f : ascii -> bool) (s : string) : bool :=
  match s with EmptyString => true | String c s' => f c && all_bytes f s' end.

Lemma str_app_assoc s t u : s +:+ t +:+ u = (s +:+ t) +:+ u.
Proof.
  induction s as [|c s IH]; [done|].
  change (String c (s +:+ t +:+ u) = String c ((s +:+ t) +:+ u)). by rewrite IH.
Qed.

Lemma str_app_nil_r s : s +:+ "" = s.
Proof. induction s as [|c s IH]; [done|]. change (String c (s +:+ "") = String c s). by rewrite IH. Qed.

Lemma all_bytes_app f s t : all_bytes f (s +:+ t) = all_bytes f s && all_bytes f t.
Proof.
  induction s as [|c s IH]; [done|].
  change (f c && all_bytes f (s +:+ t) = f c && all_bytes f s && all_bytes f t).
  by rewrite IH, andb_assoc.
Qed.

Lemma all_bytes_impl (f g : ascii -> bool) s :
  (forall c, f c = true -> g c = true) -> all_bytes f s = true -> all_bytes g s = true.
Proof.
  intros H. induction s as [|c s IH]; cbn; [done|]. rewrite !andb_true_iff. intros [? ?]. auto.
Qed.

Definition not_byte (c d : ascii) : bool := negb (Ascii.eqb c d).

Lemma split_on_none c s : all_bytes (not_byte c) s = true -> split_on c s = [s].
Proof.
  induction s as [|d s IH]; cbn [all_bytes split_on]; [done|]. rewrite andb_true_iff. intros [Hd Hs].
  unfold not_byte in Hd. apply negb_true_iff in Hd. by rewrite Hd, IH.
Qed.

Lemma split_on_app c s t :
  all_bytes (not_byte c) s = true -> split_on c (s +:+ String c t) = s :: split_on c t.
Proof.
  induction s as [|d s IH].
  - intros _. change ("" +:+ String c t) with (String c t). cbn [split_on]. by rewrite Ascii.eqb_refl.
  - change (String d s +:+ String c t) with (String d (s +:+ String c t)). cbn [all_bytes split_on].
    rewrite andb_true_iff. intros [Hd Hs]. unfold not_byte in Hd. apply negb_true_iff in Hd.
    by rewrite Hd, IH.
Qed.

(** Words joined by one byte. *)
Fixpoint join (c : ascii) (ws : list string) : string :=
  match ws with
  | [] => ""
  | [w] => w
  | w :: ws' => w +:+ String c (join c ws')
  end.

Lemma split_on_join c ws :
  ws <> [] -> Forall (fun w => all_bytes (not_byte c) w = true) ws -> split_on c (join c ws) = ws.
Proof.
  intros Hne H. induction H as [|w ws Hw Hws IH]; [done|].
  destruct ws as [|w' ws]; cbn [join]; [by apply split_on_none|].
  rewrite split_on_app by done. f_equal. by apply IH.
Qed.

Lemma fields_on_join c ws :
  ws <> [] -> Forall (fun w => all_bytes (not_byte c) w = true /\ w <> "") ws ->
  fields_on c (join c ws) = ws.
Proof.
  intros Hne H. unfold fields_on. rewrite split_on_join; [|done|by eapply Forall_impl; [exact H|intros ? []]].
  clear Hne. induction H as [|w ws [_ Hw] Hws IH]; [done|]. cbn [List.filter].
  destruct (String.eqb w "") eqn:E; [by apply String.eqb_eq in E|]. cbn [negb]. by rewrite IH.
Qed.

(** A printable byte of ASCII, other than space. *)
Definition graphic (c : ascii) : bool := (33 <=? byte_val c) && (byte_val c <=? 126).

Lemma space_rune_graphic c s : graphic c = true -> space_rune (String c s) = O.
Proof.
  unfold graphic. intros H. apply andb_prop in H as [H1 H2]. z_bools.
  unfold space_rune. cbn [take_str String.list_ascii_of_string map].
  remember (byte_val c) as b eqn:Eb. clear Eb.
  assert (In b (zrange 33 94)) as Hin by (apply list_elem_of_In, elem_of_zrange; lia).
  cbn in Hin. repeat (destruct Hin as [<-|Hin]; [done|]). done.
Qed.

Lemma rev_append_str_app s t acc : rev_append_str (s +:+ t) acc = rev_append_str t (rev_append_str s acc).
Proof. revert acc. induction s as [|c s IH]; intros acc; cbn; [done|]. apply IH. Qed.

Lemma rev_append_str_acc s a : rev_append_str s a = rev_append_str s "" +:+ a.
Proof.
  revert a. induction s as [|c s IH]; intros a; cbn [rev_append_str]; [done|].
  rewrite IH, (IH (String c "")), <- str_app_assoc. done.
Qed.

Lemma rev_str_involutive s : rev_str (rev_str s) = s.
Proof.
  unfold rev_str. induction s as [|c s IH]; cbn [rev_append_str]; [done|].
  rewrite (rev_append_str_acc s (String c "")), rev_append_str_app, IH. done.
Qed.

Lemma fields_aux_word w cur s :
  all_bytes graphic w = true -> fields_aux 0 cur (w +:+ s) = fields_aux 0 (rev_append_str w cur) s.
Proof.
  revert cur. induction w as [|c w IH]; intros cur; cbn [all_bytes String.append]; [done|].
  rewrite andb_true_iff. intros [Hc Hw].
  change (String.append (String c w) s) with (String c (w +:+ s)). cbn [fields_aux].
  rewrite space_rune_graphic by done. by rewrite IH.
Qed.

Lemma fields_aux_space cur s : cur <> "" ->
  fields_aux 0 cur (String " "%char s) = rev_str cur :: fields_aux 0 "" s.
Proof.
  intros Hc. cbn [fields_aux].
  assert (space_rune (String " "%char s) = 1%nat) as -> by done.
  destruct (String.eqb cur "") eqn:E; [by apply String.eqb_eq in E|done].
Qed.

Lemma rev_append_nonempty w acc : w <> "" -> rev_append_str w acc <> "".
Proof.
  destruct w as [|c w]; [done|]. intros _. cbn [rev_append_str]. rewrite rev_append_str_acc.
  destruct (rev_append_str w ""); done.
Qed.

(** Words of printable bytes joined by spaces are the fields of the result. *)
Lemma fields_join ws :
  Forall (fun w => all_bytes graphic w = true /\ w <> "") ws -> fields (join " "%char ws) = ws.
Proof.
  intros H. unfold fields. induction H as [|w ws [Hg Hw] Hws IH]; [done|].
  destruct ws as [|w' ws]; cbn [join].
  - rewrite <- (str_app_nil_r w) at 1. rewrite fields_aux_word by done. cbn [fields_aux].
    destruct (String.eqb _ "") eqn:E.
    + apply String.eqb_eq in E. by apply (rev_append_nonempty w "") in Hw.
    + f_equal. fold (rev_str w). apply rev_str_involutive.
  - rewrite fields_aux_word, fields_aux_space by (done || by apply rev_append_nonempty).
    fold (rev_str w). rewrite rev_str_involutive. by f_equal.
Qed.

Lemma index_byte_bounds c s : -1 <= index_byte c s < slen s.
Proof.
  unfold slen. induction s as [|d s IH]; cbn [index_byte String.length]; [lia|].
  rewrite Nat2Z.inj_succ. destruct (Ascii.eqb c d); [lia|].
  destruct (index_byte c s <? 0) eqn:E; z_bools; lia.
Qed.

Lemma slen_app s t : slen (s +:+ t) = slen s + slen t.
Proof. unfold slen. induction s as [|c s IH]; [done|]. change (String c s +:+ t) with (String c (s +:+ t)). cbn [String.length]. lia. Qed.

Lemma substring_app s t : String.substring 0 (String.length s) (s +:+ t) = s.
Proof.
  induction s as [|c s IH]; [by destruct t|]. change (String c s +:+ t) with (String c (s +:+ t)).
  cbn. by rewrite IH.
Qed.

(** ** Slices of a text put together from two *)

Lemma substring_prefix s t : String.substring 0 (String.length s) (s +:+ t) = s.
Proof. apply substring_app. Qed.

Lemma substring_suffix s t : String.substring (String.length s) (String.length t) (s +:+ t) = t.
Proof.
  induction s as [|c s IH]; [|exact IH]. pose proof (substring_app t "") as Ht. by rewrite str_app_nil_r in Ht.
Qed.

Lemma length_app_str s t : String.length (s +:+ t) = (String.length s + String.length t)%nat.
Proof. pose proof (slen_app s t). unfold slen in *. lia. Qed.

Lemma slice_prefix {E} s t : slice (E := E) (s +:+ t) 0 (slen s) = Ok s.
Proof.
  unfold slice. pose proof (slen_app s t). assert (0 <= slen s /\ 0 <= slen t) as [??] by (unfold slen; lia).
  replace ((0 <=? 0) && (0 <=? slen s) && (slen s <=? slen (s +:+ t))) with true
    by (symmetry; rewrite !andb_true_iff, !Z.leb_le; lia).
  rewrite Z.sub_0_r. unfold slen. rewrite Nat2Z.id. by rewrite substring_prefix.
Qed.

Lemma slice_suffix {E} s t : slice (E := E) (s +:+ t) (slen s) (slen (s +:+ t)) = Ok t.
Proof.
  unfold slice. pose proof (slen_app s t). assert (0 <= slen s /\ 0 <= slen t) as [??] by (unfold slen; lia).
  replace ((0 <=? slen s) && (slen s <=? slen (s +:+ t)) && (slen (s +:+ t) <=? slen (s +:+ t))) with true
    by (symmetry; rewrite !andb_true_iff, !Z.leb_le; lia).
  replace (slen (s +:+ t) - slen s) with (slen t) by lia. unfold slen. rewrite !Nat2Z.id. by rewrite substring_suffix.
Qed.

(** ** Texts and the values of their bytes *)

Definition bytes_of (l : list Z) : string := String.string_of_list_ascii (map ascii_of_Z l).
Definition values_of (s : string) : list Z := map byte_val (String.list_ascii_of_string s).

Lemma values_of_bytes l : Forall (fun d => 0 <= d < 256) l -> values_of (bytes_of l) = l.
Proof.
  unfold values_of, bytes_of. rewrite String.list_ascii_of_string_of_list_ascii. induction 1 as [|d l Hd Hl IH]; [done|].
  cbn [map]. by rewrite byte_val_ascii, IH.
Qed.

Lemma bytes_of_values s : bytes_of (values_of s) = s.
Proof.
  unfold bytes_of, values_of. rewrite map_map. rewrite <- (String.string_of_list_ascii_of_string s) at 2. f_equal.
  rewrite <- (map_id (String.list_ascii_of_string s)) at 2. apply map_ext. intros c. unfold ascii_of_Z, byte_val.
  by rewrite N2Z.id, ascii_N_embedding.
Qed.

Lemma values_range s : Forall (fun b => 0 <= b < 256) (values_of s).
Proof.
  unfold values_of. apply Forall_map, Forall_forall. intros c _. unfold byte_val. pose proof (N_ascii_bounded c). lia.
Qed.
