(* ===== verification/GoTime.v ===== *)
(** Package [time] as the modelled code uses it: the proleptic Gregorian
    calendar, locations, instants and their arithmetic.

    An instant is a number of nanoseconds since 1 January of year 1, 00:00:00
    UTC (the zero [time.Time]); a location is the function that gives the
    offset from UTC, in seconds, in force at an instant (the table that
    [Location.lookup] searches).  Instants are unbounded and carry no monotonic
    clock reading. *)

From S2P Require Import Prelude.

(** ** The calendar *)

Module Calendar.
(** A day is numbered from 0 = 1 January of year 1 (a Monday). *)

Definition is_leap (y : Z) : bool :=
  (y mod 4 =? 0) && (negb (y mod 100 =? 0) || (y mod 400 =? 0)).
Definition leap (y : Z) : Z := if is_leap y then 1 else 0.

Definition year_start (y : Z) : Z :=
  let n := y - 1 in 365 * n + n / 4 - n / 100 + n / 400.

(** Cut off the 400-, 100-, 4- and 1-year cycles; the last cycle of each kind
    is one day longer, hence the [min]. *)
Definition year_of (d : Z) : Z :=
  let n400 := d / 146097 in
  let d1 := d - 146097 * n400 in
  let n100 := Z.min (d1 / 36524) 3 in
  let d2 := d1 - 36524 * n100 in
  let n4 := d2 / 1461 in
  let d3 := d2 - 1461 * n4 in
  let n1 := Z.min (d3 / 365) 3 in
  1 + 400 * n400 + 100 * n100 + 4 * n4 + n1.

(** Days before month [m] (1 to 13) in a year with leap day [l]. *)
Definition days_before (l m : Z) : Z :=
  match m with
  | 1 => 0 | 2 => 31 | 3 => 59 + l | 4 => 90 + l | 5 => 120 + l | 6 => 151 + l
  | 7 => 181 + l | 8 => 212 + l | 9 => 243 + l | 10 => 273 + l | 11 => 304 + l
  | 12 => 334 + l | 13 => 365 + l
  | _ => 0
  end.

Definition month_of_yday (l yd : Z) : Z :=
  if yd <? 31 then 1 else if yd <? 59 + l then 2 else if yd <? 90 + l then 3
  else if yd <? 120 + l then 4 else if yd <? 151 + l then 5 else if yd <? 181 + l then 6
  else if yd <? 212 + l then 7 else if yd <? 243 + l then 8 else if yd <? 273 + l then 9
  else if yd <? 304 + l then 10 else if yd <? 334 + l then 11 else 12.

Definition month_of (d : Z) : Z :=
  let y := year_of d in month_of_yday (leap y) (d - year_start y).

Definition mday_of (d : Z) : Z :=
  let y := year_of d in
  let l := leap y in
  let yd := d - year_start y in
  yd - days_before l (month_of_yday l yd) + 1.

Definition weekday_of (d : Z) : Z := (d + 1) mod 7.

(** The day number of a date; months and days out of range are normalised as
    [time.Date] does. *)
Definition days_of (y m day : Z) : Z :=
  let y' := y + (m - 1) / 12 in
  let m' := (m - 1) mod 12 + 1 in
  year_start y' + days_before (leap y') m' + (day - 1).

(** Conversion unfolds the calendar functions last: their closed terms compute,
    the open ones should be compared as they are. *)
#[global] Strategy 1000 [year_of month_of mday_of days_of year_start days_before leap].

Lemma leap_range y : 0 <= leap y <= 1.
Proof. unfold leap. destruct (is_leap y); lia. Qed.

Lemma year_start_succ y : year_start (y + 1) = year_start y + 365 + leap y.
Proof.
  unfold year_start, leap, is_leap.
  destruct (y mod 4 =? 0) eqn:E4, (y mod 100 =? 0) eqn:E100, (y mod 400 =? 0) eqn:E400;
    cbn [andb orb negb]; z_bools; Z.to_euclidean_division_equations; lia.
Qed.

Lemma year_start_mono y y' : y <= y' -> year_start y <= year_start y'.
Proof. intros. unfold year_start. Z.to_euclidean_division_equations; lia. Qed.

Lemma year_start_parts a b c e :
  0 <= b <= 3 -> 0 <= c <= 24 -> 0 <= e <= 3 ->
  year_start (1 + 400 * a + 100 * b + 4 * c + e) = 146097 * a + 36524 * b + 1461 * c + 365 * e.
Proof.
  intros. unfold year_start.
  replace (1 + 400 * a + 100 * b + 4 * c + e - 1) with (400 * a + 100 * b + 4 * c + e) by lia.
  assert ((400 * a + 100 * b + 4 * c + e) / 4 = 100 * a + 25 * b + c) as ->
    by (symmetry; apply Z.div_unique with e; lia).
  assert ((400 * a + 100 * b + 4 * c + e) / 100 = 4 * a + b) as ->
    by (symmetry; apply Z.div_unique with (4 * c + e); lia).
  assert ((400 * a + 100 * b + 4 * c + e) / 400 = a) as ->
    by (symmetry; apply Z.div_unique with (100 * b + 4 * c + e); lia).
  lia.
Qed.

Lemma leap_parts a b c e :
  0 <= b <= 3 -> 0 <= c <= 24 -> e = 3 -> c <> 24 \/ b = 3 ->
  leap (1 + 400 * a + 100 * b + 4 * c + e) = 1.
Proof.
  intros Hb Hc -> Hor. unfold leap, is_leap.
  assert ((1 + 400 * a + 100 * b + 4 * c + 3) mod 4 = 0) as ->
    by (symmetry; apply Z.mod_unique with (100 * a + 25 * b + c + 1); lia).
  destruct Hor as [Hc24| ->].
  - assert ((1 + 400 * a + 100 * b + 4 * c + 3) mod 100 = 4 * c + 4) as ->
      by (symmetry; apply Z.mod_unique with (4 * a + b); lia).
    destruct (4 * c + 4 =? 0) eqn:E; z_bools; [lia|done].
  - destruct (decide (c = 24)) as [->|].
    + assert ((1 + 400 * a + 100 * 3 + 4 * 24 + 3) mod 400 = 0) as ->
        by (symmetry; apply Z.mod_unique with (a + 1); lia).
      cbn. by rewrite orb_true_r.
    + assert ((1 + 400 * a + 100 * 3 + 4 * c + 3) mod 100 = 4 * c + 4) as ->
        by (symmetry; apply Z.mod_unique with (4 * a + 3); lia).
      destruct (4 * c + 4 =? 0) eqn:E; z_bools; [lia|done].
Qed.

Lemma year_of_spec d : year_start (year_of d) <= d < year_start (year_of d + 1).
Proof.
  unfold year_of.
  set (n400 := d / 146097). set (d1 := d - 146097 * n400).
  assert (0 <= d1 < 146097) as H1 by (subst d1 n400; Z.to_euclidean_division_equations; lia).
  set (n100 := Z.min (d1 / 36524) 3). set (d2 := d1 - 36524 * n100).
  assert (0 <= n100 <= 3 /\ 0 <= d2 <= 36524 /\ (n100 < 3 -> d2 < 36524)) as H2
    by (subst d2 n100; Z.to_euclidean_division_equations; lia).
  set (n4 := d2 / 1461). set (d3 := d2 - 1461 * n4).
  assert (0 <= n4 <= 24 /\ 0 <= d3 < 1461 /\ (n4 = 24 -> d3 <= 1460) /\ (n4 = 24 -> n100 < 3 -> d3 < 1460)) as H3
    by (subst d3 n4; Z.to_euclidean_division_equations; lia).
  set (n1 := Z.min (d3 / 365) 3).
  assert (0 <= n1 <= 3 /\ 365 * n1 <= d3 /\ (d3 < 365 * (n1 + 1) \/ (n1 = 3 /\ d3 = 1460))) as H4
    by (subst n1; Z.to_euclidean_division_equations; lia).
  assert (d = 146097 * n400 + 36524 * n100 + 1461 * n4 + d3) as Hd by (subst d3 d2 d1; lia).
  assert (year_start (1 + 400 * n400 + 100 * n100 + 4 * n4 + n1)
          = 146097 * n400 + 36524 * n100 + 1461 * n4 + 365 * n1) as Hy
    by (apply year_start_parts; lia).
  rewrite year_start_succ, Hy.
  assert (d3 = 1460 -> leap (1 + 400 * n400 + 100 * n100 + 4 * n4 + n1) = 1) as Hl
    by (intros; apply leap_parts; lia).
  pose proof (leap_range (1 + 400 * n400 + 100 * n100 + 4 * n4 + n1)). lia.
Qed.

Lemma year_of_unique d y : year_start y <= d < year_start (y + 1) -> year_of d = y.
Proof.
  intros H. pose proof (year_of_spec d) as H'.
  destruct (Z.lt_trichotomy (year_of d) y) as [Hlt|[|Hlt]]; [|done|].
  - pose proof (year_start_mono (year_of d + 1) y ltac:(lia)). lia.
  - pose proof (year_start_mono (y + 1) (year_of d) ltac:(lia)). lia.
Qed.

Lemma month_of_yday_spec l yd :
  0 <= l <= 1 -> 0 <= yd < 365 + l ->
  let m := month_of_yday l yd in
  1 <= m <= 12 /\ days_before l m <= yd < days_before l (m + 1).
Proof.
  intros Hl Hyd. unfold month_of_yday.
  repeat match goal with |- context [if ?b then _ else _] => destruct b eqn:? end;
    z_bools; z_eval; cbn [days_before]; lia.
Qed.

Lemma days_before_mono l m m' :
  0 <= l <= 1 -> 1 <= m -> m < m' <= 13 -> days_before l m + 28 <= days_before l m'.
Proof.
  intros Hl Hm Hm'.
  assert (m = 1 \/ m = 2 \/ m = 3 \/ m = 4 \/ m = 5 \/ m = 6 \/ m = 7 \/ m = 8 \/ m = 9
    \/ m = 10 \/ m = 11 \/ m = 12) as Hc by lia.
  assert (m' = 2 \/ m' = 3 \/ m' = 4 \/ m' = 5 \/ m' = 6 \/ m' = 7 \/ m' = 8 \/ m' = 9
    \/ m' = 10 \/ m' = 11 \/ m' = 12 \/ m' = 13) as Hc' by lia.
  destruct_or? Hc; destruct_or? Hc'; subst; cbn [days_before]; lia.
Qed.

Lemma month_of_yday_unique l yd m :
  0 <= l <= 1 -> 1 <= m <= 12 -> days_before l m <= yd < days_before l (m + 1) ->
  month_of_yday l yd = m.
Proof.
  intros Hl Hm H.
  assert (0 <= yd < 365 + l) as Hyd.
  { split.
    - destruct (decide (m = 1)) as [->|]; [z_eval; cbn [days_before] in H; lia|].
      pose proof (days_before_mono l 1 m Hl ltac:(lia) ltac:(lia)) as H1. cbn [days_before] in H1. lia.
    - destruct (decide (m = 12)) as [->|]; [z_eval; cbn [days_before] in H; lia|].
      pose proof (days_before_mono l (m + 1) 13 Hl ltac:(lia) ltac:(lia)) as H1. cbn [days_before] in H1. lia. }
  destruct (month_of_yday_spec l yd Hl Hyd) as [Hr Hs].
  destruct (Z.lt_trichotomy (month_of_yday l yd) m) as [Hlt|[|Hlt]]; [|done|].
  - destruct (decide (month_of_yday l yd + 1 = m)) as [E|]; [rewrite E in Hs; lia|].
    pose proof (days_before_mono l (month_of_yday l yd + 1) m Hl ltac:(lia) ltac:(lia)). lia.
  - destruct (decide (m + 1 = month_of_yday l yd)) as [E|]; [rewrite <- E in Hs; lia|].
    pose proof (days_before_mono l (m + 1) (month_of_yday l yd) Hl ltac:(lia) ltac:(lia)). lia.
Qed.

(** The first day of the month of [d] and of the month after. *)
Definition month_start (d : Z) : Z := days_of (year_of d) (month_of d) 1.
Definition next_month (d : Z) : Z := days_of (year_of d) (month_of d + 1) 1.

Lemma yday_range d : 0 <= d - year_start (year_of d) < 365 + leap (year_of d).
Proof. pose proof (year_of_spec d) as H. rewrite year_start_succ in H. lia. Qed.

Lemma month_of_range d : 1 <= month_of d <= 12.
Proof. apply month_of_yday_spec; [apply leap_range|apply yday_range]. Qed.

Lemma days_of_norm y m day :
  1 <= m <= 12 -> days_of y m day = year_start y + days_before (leap y) m + (day - 1).
Proof.
  intros Hm. unfold days_of. rewrite Z.div_small, Z.mod_small by lia.
  replace (y + 0) with y by lia. replace (m - 1 + 1) with m by lia. done.
Qed.

Lemma days_of_next y m day :
  1 <= m <= 12 -> days_of y (m + 1) day = year_start y + days_before (leap y) (m + 1) + (day - 1).
Proof.
  intros Hm. destruct (decide (m = 12)) as [->|]; [|apply days_of_norm; lia].
  unfold days_of. replace ((12 + 1 - 1) / 12) with 1 by done.
  replace ((12 + 1 - 1) mod 12 + 1) with 1 by done.
  rewrite year_start_succ. z_eval. cbn [days_before]. lia.
Qed.

Lemma days_of_add y m d k : days_of y m (d + k) = days_of y m d + k.
Proof. unfold days_of. lia. Qed.

Lemma days_of_civil d : days_of (year_of d) (month_of d) (mday_of d) = d.
Proof. rewrite days_of_norm by apply month_of_range. unfold month_of, mday_of. lia. Qed.

Lemma days_of_first d : days_of (year_of d) (month_of d) 1 = d - mday_of d + 1.
Proof. rewrite days_of_norm by apply month_of_range. unfold month_of, mday_of. lia. Qed.

Lemma month_start_mday d : month_start d = d - mday_of d + 1.
Proof. apply days_of_first. Qed.

Lemma month_bounds d : month_start d <= d < next_month d.
Proof.
  unfold month_start, next_month. rewrite days_of_next, days_of_norm by apply month_of_range.
  pose proof (month_of_yday_spec _ _ (leap_range (year_of d)) (yday_range d)) as [_ H].
  unfold month_of. cbn zeta in H. lia.
Qed.

(** The days of one month are those between its first day and the next
    month's. *)
Lemma civil_unique d y m :
  1 <= m <= 12 -> days_of y m 1 <= d < days_of y (m + 1) 1 -> year_of d = y /\ month_of d = m.
Proof.
  intros Hm. rewrite days_of_next, days_of_norm by done. intros H.
  assert (0 <= days_before (leap y) m /\ days_before (leap y) (m + 1) <= 365 + leap y) as Hb.
  { pose proof (leap_range y). split.
    - destruct (decide (m = 1)) as [->|]; [done|].
      pose proof (days_before_mono (leap y) 1 m ltac:(lia) ltac:(lia) ltac:(lia)) as Hx.
      cbn [days_before] in Hx. lia.
    - destruct (decide (m = 12)) as [->|]; [z_eval; cbn [days_before]; lia|].
      pose proof (days_before_mono (leap y) (m + 1) 13 ltac:(lia) ltac:(lia) ltac:(lia)) as Hx.
      cbn [days_before] in Hx. lia. }
  assert (year_of d = y) as Hy by (apply year_of_unique; rewrite year_start_succ; lia).
  split; [done|]. unfold month_of. rewrite Hy.
  apply month_of_yday_unique; [apply leap_range|done|lia].
Qed.

Lemma month_same d d' :
  month_start d <= d' < next_month d -> year_of d' = year_of d /\ month_of d' = month_of d.
Proof. intros H. apply civil_unique; [apply month_of_range|exact H]. Qed.

Lemma first_civil y m :
  1 <= m <= 12 ->
  year_of (days_of y m 1) = y /\ month_of (days_of y m 1) = m /\ mday_of (days_of y m 1) = 1.
Proof.
  intros Hm.
  assert (days_of y m 1 < days_of y (m + 1) 1) as Hlt.
  { rewrite days_of_next, days_of_norm by done. pose proof (leap_range y).
    pose proof (days_before_mono (leap y) m (m + 1)). lia. }
  destruct (civil_unique (days_of y m 1) y m Hm) as [Hy Hmo]; [lia|].
  split; [done|]. split; [done|].
  pose proof (days_of_first (days_of y m 1)) as Hs. rewrite Hy, Hmo in Hs. lia.
Qed.

Lemma next_month_last d : month_of d = 12 -> next_month d = days_of (year_of d + 1) 1 1.
Proof.
  intros E. unfold next_month. rewrite E, days_of_next, days_of_norm by lia.
  rewrite year_start_succ. z_eval. cbn [days_before]. lia.
Qed.

Lemma next_month_civil d :
  month_of (next_month d) = (if month_of d =? 12 then 1 else month_of d + 1)
  /\ year_of (next_month d) = (if month_of d =? 12 then year_of d + 1 else year_of d)
  /\ mday_of (next_month d) = 1.
Proof.
  pose proof (month_of_range d) as Hm. destruct (month_of d =? 12) eqn:E; z_bools.
  - rewrite next_month_last by done.
    destruct (first_civil (year_of d + 1) 1) as (? & ? & ?); [lia|done].
  - unfold next_month. destruct (first_civil (year_of d) (month_of d + 1)) as (? & ? & ?); [lia|done].
Qed.

Lemma mday_range d : 1 <= mday_of d <= 31.
Proof.
  pose proof (month_bounds d) as H. pose proof (month_start_mday d) as Hs.
  unfold next_month, month_start in *. pose proof (month_of_range d) as Hm.
  rewrite days_of_next, days_of_norm in * by done.
  assert (days_before (leap (year_of d)) (month_of d + 1) - days_before (leap (year_of d)) (month_of d) <= 31).
  { pose proof (leap_range (year_of d)).
    assert (month_of d = 1 \/ month_of d = 2 \/ month_of d = 3 \/ month_of d = 4 \/ month_of d = 5
      \/ month_of d = 6 \/ month_of d = 7 \/ month_of d = 8 \/ month_of d = 9
      \/ month_of d = 10 \/ month_of d = 11 \/ month_of d = 12) as Hc by lia.
    destruct_or? Hc; rewrite Hc; z_eval; cbn [days_before]; lia. }
  lia.
Qed.

Lemma month_start_first d : mday_of d = 1 -> month_start d = d.
Proof. rewrite month_start_mday. lia. Qed.

Lemma weekday_range d : 0 <= weekday_of d <= 6.
Proof. unfold weekday_of. pose proof (Z.mod_pos_bound (d + 1) 7). lia. Qed.
End Calendar.

Import Calendar.

(** ** Locations and instants *)

(** [time.Local] is recognised by its pointer; any other location carries its
    name and its offsets. *)
Inductive location :=
  | Local
  | Zone (name : string) (offset : Z -> Z).

Definition is_local (l : location) : bool := match l with Local => true | Zone _ _ => false end.

Definition utc : location := Zone "UTC" (fun _ => 0).

(** The offsets of the machine's own time zone. *)
Class local_zone := local_offset : Z -> Z.

Record time := mk_time { t_ns : Z; t_loc : location }.

Definition nanos : Z := 1000000000.
Definition second_dur : Z := nanos.
Definition minute_dur : Z := 60 * nanos.
Definition hour_dur : Z := 3600 * nanos.

Definition zero_time : time := mk_time 0 utc.

Section Times.
Context {lz : local_zone}.

Definition offset_at (l : location) (s : Z) : Z :=
  match l with Local => local_offset s | Zone _ f => f s end.

(** Seconds since year 1 on the clock of the instant's location. *)
Definition clock (t : time) : Z := t_ns t / nanos + offset_at (t_loc t) (t_ns t / nanos).

Definition t_day (t : time) : Z := clock t / 86400.
Definition t_year (t : time) : Z := year_of (t_day t).
Definition t_month (t : time) : Z := month_of (t_day t).
Definition t_mday (t : time) : Z := mday_of (t_day t).
Definition t_weekday (t : time) : Z := weekday_of (t_day t).
Definition t_hour (t : time) : Z := clock t mod 86400 / 3600.
Definition t_minute (t : time) : Z := clock t mod 3600 / 60.
Definition t_second (t : time) : Z := clock t mod 60.
Definition t_nanosecond (t : time) : Z := t_ns t mod nanos.

Definition is_zero (t : time) : bool := t_ns t =? 0.
Definition after (t u : time) : bool := t_ns u <? t_ns t.
Definition before (t u : time) : bool := t_ns t <? t_ns u.

Definition t_in (t : time) (l : location) : time := mk_time (t_ns t) l.
Definition t_add (t : time) (d : Z) : time := mk_time (t_ns t + d) (t_loc t).

(** [Time.Sub] saturates at the bounds of a [Duration]. *)
Definition t_sub (t u : time) : Z := Z.max min_int64 (Z.min max_int64 (t_ns t - t_ns u)).

(** [time.Date]: the wall clock is first read as UTC, then moved by the offset
    in force there, or by the one in force at the moved instant. *)
Definition date (y m d h mi s ns : Z) (l : location) : time :=
  let wall := days_of y m d * 86400 + h * 3600 + mi * 60 + s in
  let off := offset_at l wall in
  let sec := if off =? 0 then wall else wall - offset_at l (wall - off) in
  mk_time (sec * nanos + ns) l.

Definition add_date (t : time) (y m d : Z) : time :=
  date (t_year t + y) (t_month t + m) (t_mday t + d) (t_hour t) (t_minute t) (t_second t)
    (t_nanosecond t) (t_loc t).

(** [Time.Truncate]: down to a multiple of [d] since the zero time. *)
Definition truncate (t : time) (d : Z) : time :=
  if d <=? 0 then t else mk_time (t_ns t - t_ns t mod d) (t_loc t).

(** ** Locations at a fixed offset *)

Definition fixed_offset (l : location) (o : Z) : Prop := forall s, offset_at l s = o.

Lemma clock_fixed t o : fixed_offset (t_loc t) o -> clock t = t_ns t / nanos + o.
Proof. intros H. unfold clock. by rewrite H. Qed.

Lemma date_fixed y m d h mi s ns l o :
  fixed_offset l o ->
  t_ns (date y m d h mi s ns l)
  = (days_of y m d * 86400 + h * 3600 + mi * 60 + s - o) * nanos + ns.
Proof. intros H. unfold date. rewrite !H. simpl. destruct (o =? 0) eqn:E; z_bools; subst; lia. Qed.

Lemma t_loc_date y m d h mi s ns l : t_loc (date y m d h mi s ns l) = l.
Proof. done. Qed.

(** The clock decomposes into a day and a time of day. *)
Lemma clock_split t :
  clock t = t_day t * 86400 + t_hour t * 3600 + t_minute t * 60 + t_second t.
Proof.
  unfold t_day, t_hour, t_minute, t_second. generalize (clock t). intros c.
  Z.to_euclidean_division_equations; lia.
Qed.

Lemma hour_range t : 0 <= t_hour t <= 23.
Proof. unfold t_hour. generalize (clock t). intros c. Z.to_euclidean_division_equations; lia. Qed.

Lemma minute_range t : 0 <= t_minute t <= 59.
Proof. unfold t_minute. generalize (clock t). intros c. Z.to_euclidean_division_equations; lia. Qed.

Lemma second_range t : 0 <= t_second t <= 59.
Proof. unfold t_second. generalize (clock t). intros c. Z.to_euclidean_division_equations; lia. Qed.

(** A whole second at a fixed offset is determined by its clock. *)
Definition on_second (t : time) : Prop := t_ns t mod nanos = 0.

Lemma on_second_ns t o :
  fixed_offset (t_loc t) o -> on_second t -> t_ns t = (clock t - o) * nanos.
Proof.
  intros Hf Hs. rewrite (clock_fixed t o Hf). unfold on_second, nanos in *.
  Z.to_euclidean_division_equations; lia.
Qed.
End Times.
