(* ===== verification/GoDuration.v ===== *)
(** [time.ParseDuration]: a signed sequence of decimal numbers with units.  The
    fraction of a unit goes through [float64] as in Go; the arithmetic is that
    of [SpecFloat] at binary64. *)

From S2P Require Import Prelude GoStrings.
From Stdlib Require Import Ascii SpecFloat.
#[local] Open Scope string_scope.
#[local] Open Scope Z_scope.

(** ** binary64 *)

Definition f64_of_Z (z : Z) : spec_float := binary_normalize 53 1024 z 0 false.
Definition f64_mul : spec_float -> spec_float -> spec_float := SFmul 53 1024.
Definition f64_div : spec_float -> spec_float -> spec_float := SFdiv 53 1024.

(** Conversion of a finite float to an integer drops the fraction. *)
Definition f64_trunc (x : spec_float) : Z :=
  match x with
  | S754_finite sg m e =>
      let v := if 0 <=? e then Z.pos m * 2 ^ e else Z.pos m / 2 ^ (- e) in
      if sg then - v else v
  | _ => 0
  end.

(** ** Scanning *)

(** Leading digits: the value and the rest; [None] on overflow. *)
Fixpoint leading_int (x : Z) (s : string) : option (Z * string) :=
  match s with
  | String c s' =>
      if is_digit c then
        if 2 ^ 63 / 10 <? x then None
        else let x := x * 10 + (byte_val c - 48) in
             if 2 ^ 63 <? x then None else leading_int x s'
      else Some (x, s)
  | EmptyString => Some (x, s)
  end.

(** Leading digits of a fraction: the value, its scale, and the rest; digits
    past the precision are skipped. *)
Fixpoint leading_fraction (over : bool) (x scale : Z) (s : string) : Z * Z * string :=
  match s with
  | String c s' =>
      if is_digit c then
        if over then leading_fraction true x scale s'
        else if (2 ^ 63 - 1) / 10 <? x then leading_fraction true x scale s'
        else let y := x * 10 + (byte_val c - 48) in
             if 2 ^ 63 <? y then leading_fraction true x scale s'
             else leading_fraction false y (scale * 10) s'
      else (x, scale, s)
  | EmptyString => (x, scale, s)
  end.

(** The bytes up to the next digit or point. *)
Fixpoint leading_unit (s : string) : string * string :=
  match s with
  | String c s' =>
      if is_digit c || Ascii.eqb c "."%char then ("", s)
      else let '(u, r) := leading_unit s' in (String c u, r)
  | EmptyString => ("", "")
  end.

Definition micro_sign (b1 b2 : Z) : string :=
  String (ascii_of_Z b1) (String (ascii_of_Z b2) "s").

Definition unit_map : list (string * Z) :=
  [("ns", 1); ("us", 1000); (micro_sign 194 181, 1000); (micro_sign 206 188, 1000);
   ("ms", 1000000); ("s", 1000000000); ("m", 60000000000); ("h", 3600000000000)].

Fixpoint assoc_str {A} (k : string) (l : list (string * A)) : option A :=
  match l with
  | [] => None
  | (k', v) :: l' => if String.eqb k k' then Some v else assoc_str k l'
  end.

(** One number with its unit, in nanoseconds. *)
Definition duration_term (s : string) : option (Z * string) :=
  match s with
  | EmptyString => None
  | String c _ =>
      if negb (Ascii.eqb c "."%char || is_digit c) then None
      else
        match leading_int 0 s with
        | None => None
        | Some (v, s1) =>
            let pre := negb (slen s1 =? slen s) in
            let '(f, scale, s2, post) :=
              match s1 with
              | String "."%char s1' =>
                  let '(f, scale, r) := leading_fraction false 0 1 s1' in
                  (f, scale, r, negb (slen r =? slen s1'))
              | _ => (0, 1, s1, false)
              end in
            if negb pre && negb post then None
            else
              let '(u, s3) := leading_unit s2 in
              if String.eqb u "" then None
              else match assoc_str u unit_map with
                   | None => None
                   | Some unit =>
                       if 2 ^ 63 / unit <? v then None
                       else
                         let v := v * unit in
                         let v := if 0 <? f
                                  then v + f64_trunc (f64_mul (f64_of_Z f)
                                             (f64_div (f64_of_Z unit) (f64_of_Z scale)))
                                  else v in
                         if 2 ^ 63 <? v then None else Some (v, s3)
                   end
        end
  end.

(** The sum of the terms; each takes at least a byte of [s], the fuel. *)
Fixpoint duration_terms (fuel : nat) (d : Z) (s : string) : option Z :=
  match s with
  | EmptyString => Some d
  | String _ _ =>
      match fuel with
      | O => None
      | S k =>
          match duration_term s with
          | None => None
          | Some (v, r) => if 2 ^ 63 <? d + v then None else duration_terms k (d + v) r
          end
      end
  end.

Definition parse_duration (s : string) : option Z :=
  let '(neg, body) :=
    match s with
    | String "-"%char r => (true, r)
    | String "+"%char r => (false, r)
    | _ => (false, s)
    end in
  if String.eqb body "0" then Some 0
  else if String.eqb body "" then None
  else match duration_terms (String.length body) 0 body with
       | None => None
       | Some d => if neg then Some (- d) else if 2 ^ 63 - 1 <? d then None else Some d
       end.

Example duration_1h30m : parse_duration "1h30m" = Some 5400000000000.
Proof. vm_compute. reflexivity. Qed.

Example duration_fraction : parse_duration "-1.5s" = Some (-1500000000).
Proof. vm_compute. reflexivity. Qed.
