(* ===== verification/CalendarUnits.v ===== *)
(** The nested units of the calendar clock — year, month, day, hour, minute,
    second — as intervals of seconds: the arithmetic behind the search for the
    next activation of a schedule. *)

From S2P Require Import Prelude GoTime.
Import Calendar.

Inductive unit_of_time := UYear | UMonth | UDay | UHour | UMinute | USecond.

Definition rank (k : unit_of_time) : Z :=
  match k with UYear => 0 | UMonth => 1 | UDay => 2 | UHour => 3 | UMinute => 4 | USecond => 5 end.

(** First second of the unit that holds clock [c], and of the unit after it. *)
Definition unit_start (k : unit_of_time) (c : Z) : Z :=
  match k with
  | UYear => year_start (year_of (c / 86400)) * 86400
  | UMonth => month_start (c / 86400) * 86400
  | UDay => c / 86400 * 86400
  | UHour => c / 3600 * 3600
  | UMinute => c / 60 * 60
  | USecond => c
  end.

Definition unit_end (k : unit_of_time) (c : Z) : Z :=
  match k with
  | UYear => year_start (year_of (c / 86400) + 1) * 86400
  | UMonth => next_month (c / 86400) * 86400
  | UDay => (c / 86400 + 1) * 86400
  | UHour => (c / 3600 + 1) * 3600
  | UMinute => (c / 60 + 1) * 60
  | USecond => c + 1
  end.

Lemma day_interval a b c : a * 86400 <= c < b * 86400 <-> a <= c / 86400 < b.
Proof. Z.to_euclidean_division_equations; lia. Qed.

Lemma day_mul d : d * 86400 / 86400 = d.
Proof. apply Z.div_mul. lia. Qed.

Lemma unit_bounds k c : unit_start k c <= c < unit_end k c.
Proof.
  destruct k; cbn [unit_start unit_end]; try (Z.to_euclidean_division_equations; lia).
  - apply day_interval, year_of_spec.
  - apply day_interval, month_bounds.
Qed.

Lemma month_start_same d d' : year_of d = year_of d' -> month_of d = month_of d' ->
  month_start d = month_start d' /\ next_month d = next_month d'.
Proof. intros Hy Hm. unfold month_start, next_month. by rewrite Hy, Hm. Qed.

(** Two clocks in one unit have the same unit. *)
Lemma unit_same k c u :
  unit_start k c <= u < unit_end k c -> unit_start k u = unit_start k c /\ unit_end k u = unit_end k c.
Proof.
  destruct k; cbn [unit_start unit_end]; intros H;
    try (split; Z.to_euclidean_division_equations; lia).
  - apply day_interval, year_of_unique in H. by rewrite H.
  - apply day_interval, month_same in H as [Hy Hm].
    destruct (month_start_same _ _ Hy Hm) as [-> ->]. done.
Qed.

Lemma first_month_start y : month_start (year_start y) = year_start y.
Proof.
  assert (year_start y = days_of y 1 1) as -> by (rewrite days_of_norm by lia; cbn [days_before]; lia).
  destruct (first_civil y 1) as (Hy & Hm & _); [lia|].
  unfold month_start. by rewrite Hy, Hm.
Qed.

Lemma year_of_start y : year_of (year_start y) = y.
Proof. apply year_of_unique. rewrite year_start_succ. pose proof (leap_range y). lia. Qed.

Lemma month_in_year d : year_start (year_of d) <= month_start d /\ next_month d <= year_start (year_of d + 1).
Proof.
  pose proof (month_of_range d) as Hm. pose proof (leap_range (year_of d)) as Hl.
  unfold month_start, next_month. rewrite days_of_next, days_of_norm, year_start_succ by done.
  split.
  - destruct (decide (month_of d = 1)) as [->|]; [cbn [days_before]; lia|].
    pose proof (days_before_mono (leap (year_of d)) 1 (month_of d)) as H. cbn [days_before] in H. lia.
  - destruct (decide (month_of d = 12)) as [->|]; [z_eval; cbn [days_before]; lia|].
    pose proof (days_before_mono (leap (year_of d)) (month_of d + 1) 13) as H.
    cbn [days_before] in H. lia.
Qed.

(** Finer units end earlier and start later. *)
Lemma unit_nested j k c :
  rank j <= rank k -> unit_start j c <= unit_start k c /\ unit_end k c <= unit_end j c.
Proof.
  intros H. pose proof (month_in_year (c / 86400)) as [Hy1 Hy2].
  pose proof (month_bounds (c / 86400)) as Hm. pose proof (year_of_spec (c / 86400)) as Hy.
  destruct j, k; cbn [rank] in H; try lia; cbn [unit_start unit_end];
    try lia; Z.to_euclidean_division_equations; lia.
Qed.

(** The end of a unit is the start of a unit of every finer kind. *)
Lemma unit_end_aligned j k c :
  rank j <= rank k -> unit_start k (unit_end j c) = unit_end j c.
Proof.
  intros H.
  destruct j; cbn [unit_end]; destruct k; cbn [rank] in H; try lia; cbn [unit_start];
    rewrite ?day_mul; try (Z.to_euclidean_division_equations; lia).
  - by rewrite year_of_start.
  - by rewrite first_month_start.
  - rewrite month_start_first; [done|]. apply next_month_civil.
Qed.

(** The start of a unit is aligned for every finer unit too. *)
Lemma unit_start_finer j k c : rank j <= rank k -> unit_start j c = c -> unit_start k c = c.
Proof.
  intros H E. pose proof (unit_nested j k c H). pose proof (unit_bounds k c). lia.
Qed.

(** Past the end of a fine unit, one is at the end of the coarser unit or
    still inside it. *)
Lemma unit_step j k c :
  rank j <= rank k ->
  unit_end k c = unit_end j c \/ unit_start j c <= unit_end k c < unit_end j c.
Proof.
  intros H. pose proof (unit_nested j k c H). pose proof (unit_bounds k c). pose proof (unit_bounds j c). lia.
Qed.
