(* ===== verification/CronSpec.v ===== *)
(** Schedules of package [job] (job/spec.go, job/constantdelay.go): the bit-set
    schedule and its search for the next activation, the constant delay, and the
    interface the scheduler uses.

    The search is the state machine of [Next]'s labelled loops: a phase per
    loop, one [next_step] per iteration.  Its correctness is stated against
    [is_next], the least activation strictly after the given instant. *)

From S2P Require Import Prelude GoTime CalendarUnits.
Import Calendar.

(** ** Bit sets (uint64) *)

Definition starBit : Z := Z.shiftl 1 63.

(** [1<<uint(k) & bits]. *)
Definition bit_and (k bits : Z) : Z := Z.land (uint64 (Z.shiftl 1 k)) bits.

Record bounds := mk_bounds { b_min : Z; b_max : Z; b_names : option (list (string * Z)) }.

Definition seconds : bounds := mk_bounds 0 59 None.
Definition minutes : bounds := mk_bounds 0 59 None.
Definition hours : bounds := mk_bounds 0 23 None.
Definition dom : bounds := mk_bounds 1 31 None.
Definition months : bounds := mk_bounds 1 12 (Some
  [("jan", 1); ("feb", 2); ("mar", 3); ("apr", 4); ("may", 5); ("jun", 6);
   ("jul", 7); ("aug", 8); ("sep", 9); ("oct", 10); ("nov", 11); ("dec", 12)])%string.
Definition dow : bounds := mk_bounds 0 6 (Some
  [("sun", 0); ("mon", 1); ("tue", 2); ("wed", 3); ("thu", 4); ("fri", 5); ("sat", 6)])%string.

Record SpecSchedule := mk_spec {
  Second : Z; Minute : Z; Hour : Z; Dom : Z; Month : Z; Dow : Z; (* uint64 bit sets *)
  Location : location
}.

(** The interface [Schedule]: the next activation of a well-formed schedule is
    later than the given instant, or the zero time when there is none. *)
Class Schedule (S : Type) := {
  sched_next : S -> time -> time;
  sched_ok : S -> Prop;
  sched_later : forall s t, sched_ok s ->
    is_zero (sched_next s t) = false -> before t (sched_next s t) = true
}.

Section Spec.
Context {lz : local_zone}.

(** [dayMatches]: with a star in either field both must match, otherwise one
    is enough. *)
Definition dayMatches (s : SpecSchedule) (t : time) : bool :=
  let domMatch := 0 <? bit_and (t_mday t) (Dom s) in
  let dowMatch := 0 <? bit_and (t_weekday t) (Dow s) in
  if (0 <? Z.land (Dom s) starBit) || (0 <? Z.land (Dow s) starBit)
  then domMatch && dowMatch
  else domMatch || dowMatch.

Definition month_ok (s : SpecSchedule) (t : time) : bool :=
  negb (bit_and (t_month t) (Month s) =? 0).
Definition hour_ok (s : SpecSchedule) (t : time) : bool :=
  negb (bit_and (t_hour t) (Hour s) =? 0).
Definition minute_ok (s : SpecSchedule) (t : time) : bool :=
  negb (bit_and (t_minute t) (Minute s) =? 0).
Definition second_ok (s : SpecSchedule) (t : time) : bool :=
  negb (bit_and (t_second t) (Second s) =? 0).

(** ** [SpecSchedule.Next] *)

Inductive phase := PWrap | PMonth | PDay | PHour | PMinute | PSecond.

Record search := mk_search { ph : phase; cur : time; added : bool }.

(** After a daylight-saving change a day may not start at midnight: an hour
    past noon is moved up to the next midnight, another one back. *)
Definition to_midnight (t : time) : time :=
  if t_hour t =? 0 then t
  else if 12 <? t_hour t then t_add t ((24 - t_hour t) * hour_dur)
  else t_add t (- t_hour t * hour_dur).

(** One iteration of one of the loops; [inr] is a return. *)
Definition next_step (s : SpecSchedule) (loc : location) (yearLimit : Z) (st : search)
  : search + option time :=
  let t := cur st in
  match ph st with
  | PWrap => if yearLimit <? t_year t then inr None else inl (mk_search PMonth t (added st))
  | PMonth =>
      if month_ok s t then inl (mk_search PDay t (added st))
      else
        let t := if added st then t else date (t_year t) (t_month t) 1 0 0 0 0 loc in
        let t := add_date t 0 1 0 in
        inl (mk_search (if t_month t =? 1 then PWrap else PMonth) t true)
  | PDay =>
      if dayMatches s t then inl (mk_search PHour t (added st))
      else
        let t := if added st then t else date (t_year t) (t_month t) (t_mday t) 0 0 0 0 loc in
        let t := to_midnight (add_date t 0 0 1) in
        inl (mk_search (if t_mday t =? 1 then PWrap else PDay) t true)
  | PHour =>
      if hour_ok s t then inl (mk_search PMinute t (added st))
      else
        let t := if added st then t
                 else date (t_year t) (t_month t) (t_mday t) (t_hour t) 0 0 0 loc in
        let t := t_add t hour_dur in
        inl (mk_search (if t_hour t =? 0 then PWrap else PHour) t true)
  | PMinute =>
      if minute_ok s t then inl (mk_search PSecond t (added st))
      else
        let t := if added st then t else truncate t minute_dur in
        let t := t_add t minute_dur in
        inl (mk_search (if t_minute t =? 0 then PWrap else PMinute) t true)
  | PSecond =>
      if second_ok s t then inr (Some t)
      else
        let t := if added st then t else truncate t second_dur in
        let t := t_add t second_dur in
        inl (mk_search (if t_second t =? 0 then PWrap else PSecond) t true)
  end.

(** The upcoming second, in the schedule's location. *)
Definition next_start (s : SpecSchedule) (t : time) : time :=
  let t := if is_local (Location s) then t else t_in t (Location s) in
  t_add t (second_dur - t_nanosecond t).

Definition next_loc (s : SpecSchedule) (t : time) : location :=
  if is_local (Location s) then t_loc t else Location s.

(** Enough for the six years the search can visit, a second at a time. *)
Definition next_fuel : positive := 2 ^ 31.

(** [None] when the fuel is used up before the search returns. *)
Definition Next (s : SpecSchedule) (t : time) : option time :=
  let t0 := next_start s t in
  match iter_fuel (next_step s (next_loc s t) (t_year t0 + 5)) next_fuel (mk_search PWrap t0 false) with
  | inl _ => None
  | inr None => Some zero_time
  | inr (Some r) => Some (t_in r (t_loc t))
  end.

(** ** What an activation is *)

Definition matches (s : SpecSchedule) (t : time) : bool :=
  month_ok s t && dayMatches s t && hour_ok s t && minute_ok s t && second_ok s t.

(** The fields of a schedule as sets of numbers; the bit 63 is the star.  An
    instant is in the schedule when its clock is in every set, and its day in both
    day sets, or in one of them when neither has a star. *)
Definition fires (s : SpecSchedule) (t : time) : Prop :=
  let has field k := Z.testbit field k = true in
  has (Month s) (t_month t) /\
  (has (Dom s) 63 \/ has (Dow s) 63 -> has (Dom s) (t_mday t) /\ has (Dow s) (t_weekday t)) /\
  (has (Dom s) (t_mday t) \/ has (Dow s) (t_weekday t)) /\
  has (Hour s) (t_hour t) /\ has (Minute s) (t_minute t) /\ has (Second s) (t_second t).

(** An activation of [s] seen from [t]'s location: a whole second that matches
    every field on the clock of the schedule's location. *)
Definition activation (s : SpecSchedule) (t u : time) : Prop :=
  on_second u /\ t_ns t < t_ns u /\ fires s (t_in u (next_loc s t)).

Definition is_next (s : SpecSchedule) (t r : time) : Prop :=
  activation s t r /\ forall u, activation s t u -> t_ns r <= t_ns u.

(** No activation before the end of the fifth year after the start. *)
Definition none_before_limit (s : SpecSchedule) (t : time) : Prop :=
  forall u, activation s t u -> t_year (next_start s t) + 5 < t_year (t_in u (next_loc s t)).
End Spec.

(** ** Bits *)

Lemma bit_and_value k bits : 0 <= k < 64 -> bit_and k bits = if Z.testbit bits k then 2 ^ k else 0.
Proof.
  intros Hk. unfold bit_and. apply Z.bits_inj'. intros j Hj.
  rewrite Z.land_spec, uint64_testbit, testbit_one_shift by lia.
  destruct (Z.eqb_spec j k) as [->|Hne].
  - replace (k <? 64) with true by (symmetry; apply Z.ltb_lt; lia). cbn [andb]. destruct (Z.testbit bits k); [by rewrite Z.pow2_bits_true by lia|by rewrite Z.testbit_0_l].
  - rewrite andb_false_r. cbn [andb]. destruct (Z.testbit bits k); [by rewrite Z.pow2_bits_false by lia|by rewrite Z.testbit_0_l].
Qed.

Lemma bit_and_pos k bits : 0 <= k < 64 -> (0 <? bit_and k bits) = Z.testbit bits k.
Proof. intros Hk. rewrite bit_and_value by done. destruct (Z.testbit bits k); [|done]. apply Z.ltb_lt. lia. Qed.

Lemma bit_and_nonzero k bits : 0 <= k < 64 -> negb (bit_and k bits =? 0) = Z.testbit bits k.
Proof.
  intros Hk. rewrite bit_and_value by done. destruct (Z.testbit bits k); [|done].
  apply negb_true_iff, Z.eqb_neq. pose proof (Z.pow_pos_nonneg 2 k). lia.
Qed.

Lemma star_bit bits : (0 <? Z.land bits starBit) = Z.testbit bits 63.
Proof.
  rewrite <- (bit_and_pos 63 bits) by lia. unfold bit_and, starBit. by rewrite Z.land_comm.
Qed.

(** The clock of an instant is within the bits of a field. *)
Lemma matches_fires `{lz : local_zone} s t : matches s t = true <-> fires s t.
Proof.
  assert (0 <= t_month t < 64) by (pose proof (month_of_range (t_day t)); unfold t_month; lia).
  assert (0 <= t_mday t < 64) by (pose proof (mday_range (t_day t)); unfold t_mday; lia).
  assert (0 <= t_weekday t < 64) by (unfold t_weekday, weekday_of; Z.to_euclidean_division_equations; lia).
  assert (0 <= t_hour t < 64) by (unfold t_hour; Z.to_euclidean_division_equations; lia).
  assert (0 <= t_minute t < 64) by (unfold t_minute; Z.to_euclidean_division_equations; lia).
  assert (0 <= t_second t < 64) by (unfold t_second; Z.to_euclidean_division_equations; lia).
  unfold matches, fires, month_ok, dayMatches, hour_ok, minute_ok, second_ok.
  rewrite !bit_and_nonzero, !bit_and_pos, !star_bit by done.
  destruct (Z.testbit (Dom s) 63), (Z.testbit (Dow s) 63); cbn [orb];
    rewrite ?andb_true_iff, ?orb_true_iff; naive_solver.
Qed.

(** ** [ConstantDelaySchedule] *)

Record ConstantDelaySchedule := mk_delay { Delay : Z }.

(** [Every]: at least a second, less the part below a second. *)
Definition Every (duration : Z) : ConstantDelaySchedule :=
  let duration := if duration <? second_dur then second_dur else duration in
  mk_delay (duration - Z.rem duration second_dur).

Definition delay_next (s : ConstantDelaySchedule) (t : time) : time :=
  t_add t (Delay s - t_nanosecond t).

#[export] Instance phase_eq_dec : EqDecision phase.
Proof. solve_decision. Defined.

(** ** The search, seen on the clock of a fixed-offset location *)

Definition phase_unit (p : phase) : unit_of_time :=
  match p with
  | PWrap => UYear | PMonth => UMonth | PDay => UDay
  | PHour => UHour | PMinute => UMinute | PSecond => USecond
  end.

Definition next_phase (p : phase) : phase :=
  match p with
  | PWrap => PMonth | PMonth => PDay | PDay => PHour | PHour => PMinute | _ => PSecond
  end.

(** The first second of the year after the limit [lim]. *)
Definition horizon (lim : Z) : Z := year_start (lim + 1) * 86400.

Lemma horizon_year lim c : c < horizon lim <-> year_of (c / 86400) <= lim.
Proof.
  unfold horizon. pose proof (year_of_spec (c / 86400)) as H. split; intros Hc.
  - destruct (decide (year_of (c / 86400) <= lim)) as [|Hn]; [done|].
    pose proof (year_start_mono (lim + 1) (year_of (c / 86400)) ltac:(lia)).
    Z.to_euclidean_division_equations; lia.
  - pose proof (year_start_mono (year_of (c / 86400) + 1) (lim + 1) ltac:(lia)).
    Z.to_euclidean_division_equations; lia.
Qed.

Section Search.
Context {lz : local_zone} (s : SpecSchedule) (loc : location) (o : Z).
Hypothesis Hfix : fixed_offset loc o.
Hypothesis Ho : o mod 60 = 0.

Definition at_clock (c : Z) : time := mk_time ((c - o) * nanos) loc.

Lemma clock_at c : clock (at_clock c) = c.
Proof.
  rewrite (clock_fixed _ o) by done. cbn [t_ns at_clock]. rewrite Z.div_mul by done. lia.
Qed.

Definition field_ok (k : unit_of_time) (c : Z) : bool :=
  let t := at_clock c in
  match k with
  | UYear => true
  | UMonth => month_ok s t
  | UDay => dayMatches s t
  | UHour => hour_ok s t
  | UMinute => minute_ok s t
  | USecond => second_ok s t
  end.

Lemma field_ok_same k c u :
  unit_start k c <= u < unit_end k c -> field_ok k u = field_ok k c.
Proof.
  intros H. destruct k; cbn [field_ok]; [done|..].
  - cbn [unit_start unit_end] in H. apply day_interval, month_same in H as [_ Hm].
    unfold month_ok, t_month, t_day. by rewrite !clock_at, Hm.
  - cbn [unit_start unit_end] in H. unfold dayMatches, t_mday, t_weekday, t_day. rewrite !clock_at.
    replace (u / 86400) with (c / 86400) by (Z.to_euclidean_division_equations; lia). done.
  - cbn [unit_start unit_end] in H. unfold hour_ok, t_hour. rewrite !clock_at.
    replace (u mod 86400 / 3600) with (c mod 86400 / 3600)
      by (Z.to_euclidean_division_equations; lia). done.
  - cbn [unit_start unit_end] in H. unfold minute_ok, t_minute. rewrite !clock_at.
    replace (u mod 3600 / 60) with (c mod 3600 / 60)
      by (Z.to_euclidean_division_equations; lia). done.
  - cbn [unit_start unit_end] in H. replace u with c by lia. done.
Qed.

Definition clock_match (c : Z) : bool :=
  field_ok UMonth c && field_ok UDay c && field_ok UHour c && field_ok UMinute c && field_ok USecond c.

Lemma clock_match_at c : clock_match c = matches s (at_clock c).
Proof. done. Qed.

Lemma clock_match_field k c : clock_match c = true -> field_ok k c = true.
Proof.
  unfold clock_match. rewrite !andb_true_iff. intros [[[[]]]]. by destruct k.
Qed.

(** An instant on the second is given by its clock. *)
Lemma time_at t : t_loc t = loc -> on_second t -> t = at_clock (clock t).
Proof.
  intros Hl Hs. destruct t as [ns l]. cbn in Hl. subst l.
  unfold at_clock. f_equal. by rewrite <- (on_second_ns (mk_time ns loc) o).
Qed.

Lemma date_at y m d h mi sec :
  date y m d h mi sec 0 loc = at_clock (days_of y m d * 86400 + h * 3600 + mi * 60 + sec).
Proof.
  unfold at_clock. rewrite <- (t_loc_date y m d h mi sec 0 loc) at 2.
  pose proof (date_fixed y m d h mi sec 0 loc o Hfix) as H.
  destruct (date y m d h mi sec 0 loc) as [ns l] eqn:E. cbn [t_ns t_loc] in *.
  f_equal. rewrite H. lia.
Qed.

Lemma on_second_at c : on_second (at_clock c).
Proof. unfold on_second. cbn [t_ns at_clock]. apply Z.mod_mul. done. Qed.

Lemma nanosecond_at c : t_nanosecond (at_clock c) = 0.
Proof. apply on_second_at. Qed.

Lemma add_date_at c y m d :
  add_date (at_clock c) y m d
  = at_clock (days_of (t_year (at_clock c) + y) (t_month (at_clock c) + m) (t_mday (at_clock c) + d) * 86400
              + c mod 86400).
Proof.
  unfold add_date. rewrite nanosecond_at. cbn [t_loc at_clock]. rewrite date_at. f_equal.
  pose proof (clock_split (at_clock c)) as H. rewrite clock_at in H.
  unfold t_day in H. rewrite clock_at in H. rewrite (Z.mod_eq c 86400) by lia. lia.
Qed.

Lemma t_add_at c d : t_add (at_clock c) (d * nanos) = at_clock (c + d).
Proof. unfold t_add, at_clock. cbn [t_ns t_loc]. f_equal. lia. Qed.

(** [Truncate] to the second or the minute goes to the start of the unit. *)
Lemma truncate_second_at c : truncate (at_clock c) second_dur = at_clock c.
Proof.
  unfold truncate. replace (second_dur <=? 0) with false by done.
  pose proof (on_second_at c) as H. unfold on_second in H. unfold second_dur. rewrite H.
  unfold at_clock. cbn [t_ns t_loc]. f_equal. lia.
Qed.

Lemma truncate_minute_at c : truncate (at_clock c) minute_dur = at_clock (c / 60 * 60).
Proof.
  unfold truncate. replace (minute_dur <=? 0) with false by done.
  unfold at_clock, minute_dur. cbn [t_ns t_loc]. f_equal.
  rewrite Z.mul_mod_distr_r by done.
  rewrite Zminus_mod, Ho, Z.sub_0_r, Z.mod_mod by lia.
  rewrite (Z.mod_eq c 60) by lia. lia.
Qed.

Lemma civil_at c : t_year (at_clock c) = year_of (c / 86400)
  /\ t_month (at_clock c) = month_of (c / 86400) /\ t_mday (at_clock c) = mday_of (c / 86400).
Proof. unfold t_year, t_month, t_mday, t_day. by rewrite clock_at. Qed.

(** *** One iteration that does not match moves to the end of the unit *)

Lemma month_move c : unit_start UMonth c = c ->
  add_date (at_clock c) 0 1 0 = at_clock (unit_end UMonth c).
Proof.
  intros E. rewrite add_date_at. destruct (civil_at c) as (-> & -> & ->). f_equal.
  cbn [unit_start unit_end] in *.
  assert (c mod 86400 = 0) as -> by (Z.to_euclidean_division_equations; lia).
  assert (mday_of (c / 86400) = 1) as ->.
  { pose proof (month_start_mday (c / 86400)). Z.to_euclidean_division_equations; lia. }
  unfold next_month. rewrite !Z.add_0_r. done.
Qed.

Lemma day_move c : unit_start UDay c = c ->
  add_date (at_clock c) 0 0 1 = at_clock (unit_end UDay c).
Proof.
  intros E. rewrite add_date_at. destruct (civil_at c) as (-> & -> & ->). f_equal.
  cbn [unit_start unit_end] in *.
  assert (c mod 86400 = 0) as -> by (Z.to_euclidean_division_equations; lia).
  by rewrite !Z.add_0_r, days_of_add, days_of_civil.
Qed.

Lemma to_midnight_at c : c mod 86400 = 0 -> to_midnight (at_clock c) = at_clock c.
Proof. intros E. unfold to_midnight, t_hour. rewrite clock_at, E. done. Qed.

(** What the search keeps at each iteration: the clock is on the second; when
    some part has been reset, a field that does not match is at the start of
    its unit. *)
Record on_track (k : unit_of_time) (st : search) (c : Z) : Prop := {
  ot_cur : cur st = at_clock c;
  ot_reset : added st = true -> field_ok k c = false -> unit_start k c = c
}.

(** A move of phase [p] from [c]: to the end of the unit, back to the top
    exactly when a coarser unit may have changed. *)
Definition moved (p : phase) (c : Z) (st' : search) : Prop :=
  cur st' = at_clock (unit_end (phase_unit p) c) /\ added st' = true /\
  (ph st' = PWrap \/
   (ph st' = p /\ forall j, rank j < rank (phase_unit p) ->
      unit_start j c <= unit_end (phase_unit p) c < unit_end j c)).

Lemma no_wrap k c c' j :
  c' = unit_end k c -> rank j < rank k ->
  (forall i, rank i = rank k - 1 -> c' <> unit_end i c) ->
  unit_start j c <= c' < unit_end j c.
Proof.
  intros -> Hj Hne.
  destruct (unit_step j k c) as [E|]; [lia| |done]. exfalso.
  assert (exists i, rank i = rank k - 1) as [i Hi].
  { destruct k; cbn [rank] in *; try (exists UYear; done) || (exists UMonth; done)
      || (exists UDay; done) || (exists UHour; done) || (exists UMinute; done).
    destruct j; cbn [rank] in Hj; lia. }
  apply (Hne i Hi).
  pose proof (unit_nested i k c ltac:(lia)). pose proof (unit_nested j i c ltac:(lia)). lia.
Qed.

Lemma rank_inj i j : rank i = rank j -> i = j.
Proof. destruct i, j; cbn [rank]; intros; try done; lia. Qed.

Lemma moved_intro p q c wrap :
  p <> PWrap ->
  rank q = rank (phase_unit p) - 1 ->
  (wrap = false -> unit_end (phase_unit p) c <> unit_end q c) ->
  moved p c (mk_search (if wrap then PWrap else p) (at_clock (unit_end (phase_unit p) c)) true).
Proof.
  intros Hp Hq Hw. split; [done|]. split; [done|]. cbn [ph]. destruct wrap; [by left|right].
  split; [done|]. intros j Hj. apply (no_wrap (phase_unit p) c); [done|done|].
  intros i Hi. assert (i = q) as -> by (apply rank_inj; lia). by apply Hw.
Qed.

Lemma unit_end_start k c : unit_end k (unit_start k c) = unit_end k c.
Proof. apply unit_same. pose proof (unit_bounds k c). lia. Qed.

Lemma unit_start_start k c : unit_start k (unit_start k c) = unit_start k c.
Proof. apply unit_same. pose proof (unit_bounds k c). lia. Qed.

(** The reset at the first move of a phase, whether it is taken or not. *)
Lemma reset_at k st c t1 :
  on_track k st c -> field_ok k c = false -> t1 = at_clock (unit_start k c) ->
  (if added st then cur st else t1) = at_clock (unit_start k c).
Proof.
  intros [Hc Hr] Hf ->. destruct (added st) eqn:E; [|done]. by rewrite Hc, Hr.
Qed.

Lemma reset_month c : date (t_year (at_clock c)) (t_month (at_clock c)) 1 0 0 0 0 loc
  = at_clock (unit_start UMonth c).
Proof.
  destruct (civil_at c) as (-> & -> & _). rewrite date_at. f_equal.
  cbn [unit_start]. unfold month_start. lia.
Qed.

Lemma reset_day c : date (t_year (at_clock c)) (t_month (at_clock c)) (t_mday (at_clock c)) 0 0 0 0 loc
  = at_clock (unit_start UDay c).
Proof.
  destruct (civil_at c) as (-> & -> & ->). rewrite date_at, days_of_civil. f_equal.
  cbn [unit_start]. lia.
Qed.

Lemma reset_hour c :
  date (t_year (at_clock c)) (t_month (at_clock c)) (t_mday (at_clock c)) (t_hour (at_clock c)) 0 0 0 loc
  = at_clock (unit_start UHour c).
Proof.
  destruct (civil_at c) as (-> & -> & ->). rewrite date_at, days_of_civil. f_equal.
  cbn [unit_start]. unfold t_hour. rewrite clock_at. Z.to_euclidean_division_equations; lia.
Qed.

Section Moves.
Context (lim : Z) (st : search) (c : Z).

Lemma step_month : ph st = PMonth -> on_track UMonth st c -> field_ok UMonth c = false ->
  exists st', next_step s loc lim st = inl st' /\ moved PMonth c st'.
Proof.
  intros Hp Hon Hf. unfold next_step. rewrite Hp.
  pose proof (ot_cur _ _ _ Hon) as Hc. cbn [field_ok] in Hf. rewrite Hc, Hf, <- Hc.
  rewrite (reset_at _ _ _ _ Hon Hf) by (rewrite Hc; apply reset_month).
  rewrite month_move by apply unit_start_start. rewrite unit_end_start.
  eexists. split; [done|]. refine (moved_intro PMonth UYear c _ _ eq_refl _); [done|].
  cbn [phase_unit]. intros Hw E. rewrite E in Hw. cbn [unit_end] in Hw.
  destruct (civil_at (year_start (year_of (c / 86400) + 1) * 86400)) as (_ & Hm & _).
  rewrite Hm, day_mul in Hw. z_bools. apply Hw.
  pose proof (first_civil (year_of (c / 86400) + 1) 1 ltac:(lia)) as (_ & H1 & _).
  rewrite days_of_norm in H1 by lia. cbn [days_before] in H1. rewrite <- H1 at 2. f_equal. lia.
Qed.

Lemma step_day : ph st = PDay -> on_track UDay st c -> field_ok UDay c = false ->
  exists st', next_step s loc lim st = inl st' /\ moved PDay c st'.
Proof.
  intros Hp Hon Hf. unfold next_step. rewrite Hp.
  pose proof (ot_cur _ _ _ Hon) as Hc. cbn [field_ok] in Hf. rewrite Hc, Hf, <- Hc.
  rewrite (reset_at _ _ _ _ Hon Hf) by (rewrite Hc; apply reset_day).
  rewrite day_move by apply unit_start_start. rewrite unit_end_start.
  rewrite to_midnight_at by (cbn [unit_end]; apply Z.mod_mul; lia).
  eexists. split; [done|]. refine (moved_intro PDay UMonth c _ _ eq_refl _); [done|].
  cbn [phase_unit]. intros Hw E. rewrite E in Hw. cbn [unit_end] in Hw.
  destruct (civil_at (next_month (c / 86400) * 86400)) as (_ & _ & Hm).
  rewrite Hm, day_mul in Hw. z_bools. apply Hw. apply next_month_civil.
Qed.

Lemma step_hour : ph st = PHour -> on_track UHour st c -> field_ok UHour c = false ->
  exists st', next_step s loc lim st = inl st' /\ moved PHour c st'.
Proof.
  intros Hp Hon Hf. unfold next_step. rewrite Hp.
  pose proof (ot_cur _ _ _ Hon) as Hc. cbn [field_ok] in Hf. rewrite Hc, Hf, <- Hc.
  rewrite (reset_at _ _ _ _ Hon Hf) by (rewrite Hc; apply reset_hour).
  change hour_dur with (3600 * nanos). rewrite t_add_at.
  replace (unit_start UHour c + 3600) with (unit_end UHour c) by (cbn [unit_start unit_end]; lia).
  eexists. split; [done|]. refine (moved_intro PHour UDay c _ _ eq_refl _); [done|].
  cbn [phase_unit]. intros Hw E. rewrite E in Hw. unfold t_hour in Hw.
  rewrite clock_at in Hw. z_bools. apply Hw. cbn [unit_end].
  by rewrite Z.mod_mul.
Qed.

Lemma step_minute : ph st = PMinute -> on_track UMinute st c -> field_ok UMinute c = false ->
  exists st', next_step s loc lim st = inl st' /\ moved PMinute c st'.
Proof.
  intros Hp Hon Hf. unfold next_step. rewrite Hp.
  pose proof (ot_cur _ _ _ Hon) as Hc. cbn [field_ok] in Hf. rewrite Hc, Hf, <- Hc.
  rewrite (reset_at _ _ _ _ Hon Hf) by (rewrite Hc; apply truncate_minute_at).
  change minute_dur with (60 * nanos). rewrite t_add_at.
  replace (unit_start UMinute c + 60) with (unit_end UMinute c) by (cbn [unit_start unit_end]; lia).
  eexists. split; [done|]. refine (moved_intro PMinute UHour c _ _ eq_refl _); [done|].
  cbn [phase_unit]. intros Hw E. rewrite E in Hw. unfold t_minute in Hw.
  rewrite clock_at in Hw. z_bools. apply Hw. cbn [unit_end].
  by rewrite Z.mod_mul.
Qed.

Lemma step_second : ph st = PSecond -> on_track USecond st c -> field_ok USecond c = false ->
  exists st', next_step s loc lim st = inl st' /\ moved PSecond c st'.
Proof.
  intros Hp Hon Hf. unfold next_step. rewrite Hp.
  pose proof (ot_cur _ _ _ Hon) as Hc. cbn [field_ok] in Hf. rewrite Hc, Hf, <- Hc.
  rewrite (reset_at _ _ _ _ Hon Hf) by (rewrite Hc; apply truncate_second_at).
  replace (t_add (at_clock (unit_start USecond c)) second_dur) with (at_clock (unit_end USecond c))
    by (rewrite <- (Z.mul_1_l second_dur); symmetry; apply t_add_at).
  eexists. split; [done|]. refine (moved_intro PSecond UMinute c _ _ eq_refl _); [done|].
  cbn [phase_unit]. intros Hw E. rewrite E in Hw. unfold t_second in Hw.
  rewrite clock_at in Hw. z_bools. apply Hw. cbn [unit_end].
  by rewrite Z.mod_mul.
Qed.
End Moves.

Lemma step_move lim st c p :
  ph st = p -> p <> PWrap -> on_track (phase_unit p) st c -> field_ok (phase_unit p) c = false ->
  exists st', next_step s loc lim st = inl st' /\ moved p c st'.
Proof.
  destruct p; cbn [phase_unit]; [done|..]; intros;
    [by apply step_month|by apply step_day|by apply step_hour|by apply step_minute|by apply step_second].
Qed.

(** *** The invariant of the search from clock [c0], with year limit [lim] *)

Section Run.
Context (c0 lim : Z).

Record good (st : search) (c : Z) : Prop := {
  g_cur : cur st = at_clock c;
  g_from : c0 <= c <= horizon lim;
  g_skipped : forall u, c0 <= u < c -> clock_match u = false;
  g_fields : forall k, rank k < rank (phase_unit (ph st)) -> field_ok k c = true;
  g_year : ph st <> PWrap -> year_of (c / 86400) <= lim;
  g_reset : added st = true -> forall k, field_ok k c = false -> unit_start k c = c
}.

Definition search_inv (st : search) : Prop := exists c, good st c.

(** The phases after the last field are not reached; a phase that matches
    hands over to the next. *)
Lemma good_advance st c p :
  good st c -> ph st = p -> p <> PSecond -> field_ok (phase_unit p) c = true ->
  (p = PWrap -> year_of (c / 86400) <= lim) ->
  good (mk_search (next_phase p) (at_clock c) (added st)) c.
Proof.
  intros [Hc Hf Hs Hk Hy Hr] Hp Hn Hok Hl. split; cbn [ph cur added]; [done|done|done|..|done].
  - intros k Hk'. destruct (decide (rank k < rank (phase_unit p))); [by apply Hk; rewrite Hp|].
    assert (k = phase_unit p) as -> by (apply rank_inj; destruct p; cbn in *; try done; lia).
    done.
  - intros _. destruct (decide (p = PWrap)); [by apply Hl|]. apply Hy. by rewrite Hp.
Qed.

Lemma good_moved st c st' p :
  good st c -> ph st = p -> p <> PWrap -> field_ok (phase_unit p) c = false -> moved p c st' ->
  good st' (unit_end (phase_unit p) c).
Proof.
  intros [Hc Hf Hs Hk Hy Hr] Hp Hn Hbad (Hcur & Hadd & Hph).
  pose proof (unit_bounds (phase_unit p) c) as Hb.
  assert (year_of (c / 86400) <= lim) as Hyc by (apply Hy; by rewrite Hp).
  assert (unit_end (phase_unit p) c <= horizon lim) as Hh.
  { etransitivity; [apply (unit_nested UYear); destruct p; cbn; lia|]. cbn [unit_end]. unfold horizon.
    apply Z.mul_le_mono_nonneg_r; [lia|]. apply year_start_mono. lia. }
  assert (forall k, ph st' = p -> rank k < rank (phase_unit p) ->
            field_ok k (unit_end (phase_unit p) c) = true) as Hkeep.
  { intros k Hp' Hlt. destruct Hph as [E|[_ Hin]]; [congruence|].
    rewrite (field_ok_same k c) by (by apply Hin). apply Hk. by rewrite Hp. }
  split; [done|lia|..].
  - intros u Hu. destruct (decide (u < c)); [apply Hs; lia|].
    destruct (clock_match u) eqn:E; [|done].
    apply (clock_match_field (phase_unit p)) in E. rewrite (field_ok_same _ c) in E by lia. congruence.
  - intros k Hlt. destruct Hph as [E|[E Hin]]; rewrite E in Hlt.
    + destruct k; cbn in Hlt; lia.
    + by apply Hkeep.
  - intros Hw. destruct Hph as [E|[E Hin]]; [congruence|].
    apply horizon_year. apply Z.lt_le_trans with (unit_end UYear c).
    + apply Hin. destruct p; cbn; lia || done.
    + cbn [unit_end]. unfold horizon. apply Z.mul_le_mono_nonneg_r; [lia|]. apply year_start_mono. lia.
  - intros _ k Hk'.
    destruct (decide (rank (phase_unit p) <= rank k)) as [|Hlt]; [by apply unit_end_aligned|].
    destruct (unit_step k (phase_unit p) c ltac:(lia)) as [E|Hin].
    + rewrite E. by apply unit_end_aligned.
    + exfalso. rewrite (field_ok_same k c _ Hin) in Hk'. rewrite Hk in Hk' by (rewrite Hp; lia). done.
Qed.

Definition progress (st : search) : Z :=
  6 * (horizon lim - clock (cur st)) + (5 - rank (phase_unit (ph st))).

(** One iteration keeps the invariant and makes progress, or returns an
    activation that nothing precedes, or gives up past the limit. *)
Lemma next_step_good st c : good st c ->
  match next_step s loc lim st with
  | inl st' => (exists c', good st' c' /\ c <= c') /\ progress st' < progress st
  | inr (Some r) => r = at_clock c /\ clock_match c = true
  | inr None => lim < year_of (c / 86400)
  end.
Proof.
  intros Hg. pose proof (g_cur _ _ Hg) as Hc.
  destruct (field_ok (phase_unit (ph st)) c) eqn:Hok.
  - assert (forall p, ph st = p -> p <> PSecond -> (p = PWrap -> year_of (c / 86400) <= lim) ->
      (exists c', good (mk_search (next_phase p) (cur st) (added st)) c' /\ c <= c')
      /\ progress (mk_search (next_phase p) (cur st) (added st)) < progress st) as Hadv.
    { intros p Hp Hn Hl. rewrite Hc. split.
      - exists c. split; [|lia]. apply good_advance; [done|done|done|by rewrite <- Hp|done].
      - unfold progress. rewrite Hc, Hp. cbn [cur ph]. destruct p; cbn; try done; lia. }
    destruct (civil_at c) as (Hyr & _ & _).
    unfold next_step. destruct (ph st) eqn:Hp; cbn [phase_unit field_ok] in Hok; rewrite ?Hc, ?Hok, <- ?Hc.
    + rewrite Hc, Hyr. destruct (lim <? year_of (c / 86400)) eqn:E; z_bools; [done|].
      rewrite <- Hc. by apply (Hadv PWrap).
    + by apply (Hadv PMonth).
    + by apply (Hadv PDay).
    + by apply (Hadv PHour).
    + by apply (Hadv PMinute).
    + split; [done|]. unfold clock_match.
      rewrite !andb_true_iff. split_and!; [apply (g_fields _ _ Hg); rewrite Hp; done..|done].
  - assert (ph st <> PWrap) as Hn by (intros E; rewrite E in Hok; done).
    destruct (step_move lim st c _ eq_refl Hn) as (st' & -> & Hm); [|done|].
    { split; [done|]. intros Ha Hf. by apply (g_reset _ _ Hg). }
    pose proof (good_moved st c st' _ Hg eq_refl Hn Hok Hm) as Hg'.
    pose proof (unit_bounds (phase_unit (ph st)) c). split.
    + eexists. split; [exact Hg'|lia].
    + destruct Hm as (Hcur & _). unfold progress. rewrite Hcur, Hc, !clock_at.
      assert (0 <= rank (phase_unit (ph st')) /\ rank (phase_unit (ph st)) <= 5) by (destruct (ph st), (ph st'); cbn; lia).
      lia.
Qed.

Lemma progress_pos st : search_inv st -> 0 <= progress st.
Proof.
  intros [c Hg]. unfold progress. rewrite (g_cur _ _ Hg), clock_at.
  pose proof (g_from _ _ Hg). destruct (ph st); cbn; lia.
Qed.

(** What the search returns. *)
Definition search_post (r : option time) : Prop :=
  match r with
  | Some r => exists c, r = at_clock c /\ c0 <= c /\ clock_match c = true
              /\ forall u, c0 <= u < c -> clock_match u = false
  | None => forall u, c0 <= u -> clock_match u = true -> lim < year_of (u / 86400)
  end.

Lemma search_correct st p :
  search_inv st -> progress st < Z.pos p ->
  exists r, iter_fuel (next_step s loc lim) p st = inr r /\ search_post r.
Proof.
  intros Hi Hp.
  assert (forall x y, search_inv x -> next_step s loc lim x = inl y ->
            search_inv y /\ progress y < progress x) as Hstep.
  { intros x y [c Hg] E. pose proof (next_step_good x c Hg) as H. rewrite E in H.
    destruct H as [(c' & Hg' & _) Hlt]. split; [by exists c'|done]. }
  destruct (iter_fuel_total (next_step s loc lim) search_inv progress p st) as [r Hr];
    [done|apply progress_pos|done|done|].
  exists r. split; [done|].
  pose proof (iter_fuel_result (next_step s loc lim) search_inv search_post p st) as H.
  rewrite Hr in H. apply H; [|clear -Hfix Ho|done].
  - intros x y Hx E. by apply (Hstep x y).
  - intros x r [c Hg] E. pose proof (next_step_good x c Hg) as Hn. rewrite E in Hn.
    destruct r as [r|]; cbn [search_post].
    + destruct Hn as [-> Hm]. exists c. pose proof (g_from _ _ Hg). split; [done|].
      split; [lia|]. split; [done|]. apply (g_skipped _ _ Hg).
    + intros u Hu Hm. destruct (decide (u < c)) as [|Hge].
      * rewrite (g_skipped _ _ Hg) in Hm by lia. done.
      * destruct (decide (lim < year_of (u / 86400))) as [|Hle]; [done|]. exfalso.
        apply Z.lt_nge in Hn. apply Hn. apply horizon_year. apply Z.le_lt_trans with u; [lia|].
        apply horizon_year. lia.
Qed.
End Run.
End Search.

(** ** [Next] at a fixed offset *)

Section NextSpec.
Context {lz : local_zone} (s : SpecSchedule) (t : time) (o : Z).
Hypothesis Hfix : fixed_offset (next_loc s t) o.
Hypothesis Ho : o mod 60 = 0.

Let loc : location := next_loc s t.
Let start : Z := clock (next_start s t).

Lemma next_start_at : next_start s t = at_clock loc o start.
Proof.
  apply time_at; [exact Hfix| |].
  - unfold next_start, loc, next_loc. by destruct (is_local (Location s)).
  - unfold on_second, next_start, t_nanosecond.
    destruct (is_local (Location s)); cbn [t_ns t_add t_in]; unfold second_dur, nanos;
      Z.to_euclidean_division_equations; lia.
Qed.

Lemma next_start_ns : t_ns (next_start s t) = (t_ns t / nanos + 1) * nanos.
Proof.
  unfold next_start, t_nanosecond. destruct (is_local (Location s)); cbn [t_ns t_add t_in];
    unfold second_dur, nanos; Z.to_euclidean_division_equations; lia.
Qed.

Lemma at_clock_ns c : t_ns (at_clock loc o c) = (c - o) * nanos.
Proof. done. Qed.

(** An activation, on the clock of the schedule's location. *)
Lemma activation_clock u : activation s t u ->
  exists c, t_in u loc = at_clock loc o c /\ start <= c /\ clock_match s loc o c = true.
Proof.
  intros (Hsec & Hlt & Hm). exists (clock (t_in u loc)).
  pose proof (time_at loc o Hfix (t_in u loc) eq_refl Hsec) as E. split; [exact E|].
  split; [|by rewrite clock_match_at, <- E; apply matches_fires].
  assert (t_ns (next_start s t) <= t_ns u) as Hle.
  { rewrite next_start_ns. unfold on_second, nanos in *. Z.to_euclidean_division_equations; lia. }
  assert (t_ns u = t_ns (t_in u loc)) as Eu by done.
  rewrite next_start_at, Eu, E, !at_clock_ns in Hle. unfold nanos in Hle. lia.
Qed.

Lemma clock_activation c :
  start <= c -> clock_match s loc o c = true -> activation s t (t_in (at_clock loc o c) (t_loc t)).
Proof.
  intros Hc Hm. split; [apply on_second_at|]. split.
  - assert (t_ns t < t_ns (next_start s t)) as Hlt.
    { rewrite next_start_ns. unfold nanos. Z.to_euclidean_division_equations; lia. }
    rewrite next_start_at, at_clock_ns in Hlt. cbn [t_ns t_in at_clock]. unfold nanos in *. lia.
  - rewrite clock_match_at in Hm. apply matches_fires. exact Hm.
Qed.

Lemma six_years y : year_start (y + 6) - year_start y <= 2196.
Proof.
  replace (y + 6) with (y + 1 + 1 + 1 + 1 + 1 + 1) by lia. rewrite !year_start_succ.
  pose proof (leap_range y). pose proof (leap_range (y + 1)). pose proof (leap_range (y + 1 + 1)).
  pose proof (leap_range (y + 1 + 1 + 1)). pose proof (leap_range (y + 1 + 1 + 1 + 1)).
  pose proof (leap_range (y + 1 + 1 + 1 + 1 + 1)). lia.
Qed.

Let lim : Z := t_year (next_start s t) + 5.

Lemma search_start : good s loc o start lim (mk_search PWrap (next_start s t) false) start.
Proof.
  split; cbn [ph cur added]; try done.
  - apply next_start_at.
  - split; [lia|]. apply Z.lt_le_incl, horizon_year.
    change lim with (year_of (start / 86400) + 5). lia.
  - intros u Hu. lia.
  - intros k Hk. destruct k; cbn in Hk; lia.
Qed.

Lemma enough_fuel : progress lim (mk_search PWrap (next_start s t) false) < Z.pos next_fuel.
Proof.
  unfold progress, horizon. cbn [cur ph phase_unit rank]. fold start.
  change lim with (year_of (start / 86400) + 5). set (y := year_of (start / 86400)).
  pose proof (six_years y) as H6. pose proof (year_of_spec (start / 86400)) as [Hy _]. fold y in Hy.
  replace (y + 5 + 1) with (y + 6) by lia.
  assert (year_start y * 86400 <= start) by (Z.to_euclidean_division_equations; lia).
  change (Z.pos next_fuel) with 2147483648. lia.
Qed.

(** The search returns, within its fuel: an activation that no other precedes,
    or the zero time. *)
Lemma Next_spec : exists r, Next s t = Some r /\
  ((r = zero_time /\ none_before_limit s t) \/ (t_loc r = t_loc t /\ is_next s t r)).
Proof.
  destruct (search_correct s loc o Hfix Ho start lim (mk_search PWrap (next_start s t) false) next_fuel)
    as (r & Hr & Hpost); [exists start; apply search_start|apply enough_fuel|].
  unfold Next. fold loc lim. rewrite Hr.
  destruct r as [r|]; cbn [search_post] in Hpost; eexists; (split; [done|]).
  - right. destruct Hpost as (c & -> & Hc & Hm & Hmin). split; [done|].
    split; [by apply clock_activation|]. intros u Hu.
    destruct (activation_clock u Hu) as (cu & Eu & Hcu & Hmu).
    assert (c <= cu) as Hle.
    { destruct (decide (c <= cu)) as [|Hn]; [done|]. rewrite Hmin in Hmu by lia. done. }
    assert (t_ns u = t_ns (t_in u loc)) as -> by done. rewrite Eu.
    cbn [t_ns t_in at_clock]. unfold nanos. lia.
  - left. split; [done|]. intros u Hu.
    destruct (activation_clock u Hu) as (cu & Eu & Hcu & Hmu).
    fold loc. rewrite Eu. destruct (civil_at loc o Hfix cu) as (-> & _ & _). by apply Hpost.
Qed.
End NextSpec.

(** *** Theorems *)

(** C4: for a schedule read in a location with one fixed offset, of whole minutes,
    [Next] always returns, and returns the earliest whole second after [t] whose
    clock matches all the fields of the schedule — or the zero time, and then there
    is no such second before the end of the fifth year after the start.  Where the
    offset changes this can fail ([midnight_gap_skipped]). *)
Theorem Next_least_activation `{lz : local_zone} (s : SpecSchedule) (t : time) (o : Z) :
  fixed_offset (next_loc s t) o -> o mod 60 = 0 ->
  exists r, Next s t = Some r /\
    ((r = zero_time /\ none_before_limit s t) \/ (t_loc r = t_loc t /\ is_next s t r)).
Proof. intros Hf Ho. exact (Next_spec s t o Hf Ho). Qed.

(** The schedule of 29 February at midnight, from January 2023, in Shanghai. *)
Lemma Next_least_activation_witness :
  let _ : local_zone := fun _ => 0 in
  let shanghai := Zone "Asia/Shanghai" (fun _ => 28800) in
  let s := mk_spec 1 1 1 (2 ^ 29) (2 ^ 2) (2 ^ 63 + 127) shanghai in
  let t := date 2023 1 15 10 20 30 5 utc in
  fixed_offset (next_loc s t) 28800 /\ 28800 mod 60 = 0 /\
  exists r, Next s t = Some r /\
    ((r = zero_time /\ none_before_limit s t) \/ (t_loc r = t_loc t /\ is_next s t r)).
Proof.
  intros lz shanghai s t. split; [done|]. split; [done|].
  apply (Next_least_activation s t 28800); done.
Defined.

(** In Beirut the clock went from midnight to one on 27 March 2022.  The day before,
    [AddDate] gives one o'clock of that day; the hour that is then taken away leads
    back to the day before, and the next turn passes the day of the change: noon of
    27 March is an activation, but [Next] returns the one a year later. *)
Definition beirut : location := Zone "Asia/Beirut" (fun x => if x <? 63783928800 then 7200 else 10800).
Definition noon_27_march : SpecSchedule := mk_spec 1 1 (2 ^ 12) (2 ^ 27) (2 ^ 3) (2 ^ 63 + 127) beirut.

Example midnight_gap_skipped :
  let _ : local_zone := fun _ => 0 in
  let t := date 2022 3 25 8 0 0 0 beirut in
  let noon := date 2022 3 27 12 0 0 0 beirut in
  activation noon_27_march t noon /\ t_ns noon = 63783968400 * nanos /\
  (t_ns <$> Next noon_27_march t) = Some (t_ns (date 2023 3 27 12 0 0 0 beirut)).
Proof.
  intros lz t noon. split; [|split; vm_compute; reflexivity].
  split; [vm_compute; reflexivity|]. split; [vm_compute; reflexivity|]. apply matches_fires. vm_compute. reflexivity.
Qed.

(** The next activation, as the scheduler calls it. *)
Definition spec_next `{lz : local_zone} (s : SpecSchedule) (t : time) : time :=
  match Next s t with Some r => r | None => zero_time end.

Lemma spec_next_eq `{lz : local_zone} s t r : Next s t = Some r -> spec_next s t = r.
Proof. unfold spec_next. by intros ->. Qed.

Definition spec_ok (s : SpecSchedule) : Prop :=
  exists n off o, Location s = Zone n off /\ (forall x, off x = o) /\ o mod 60 = 0.

Lemma spec_next_later `{lz : local_zone} s t :
  spec_ok s -> is_zero (spec_next s t) = false -> before t (spec_next s t) = true.
Proof.
  intros (n & off & o & El & Hoff & Ho).
  assert (fixed_offset (next_loc s t) o) as Hf by (unfold next_loc; rewrite El; exact Hoff).
  destruct (Next_spec s t o Hf Ho) as (r & Hr & H). rewrite (spec_next_eq s t r Hr).
  destruct H as [[-> _]|[_ [(_ & Hlt & _) _]]]; intros Hz.
  - discriminate Hz.
  - by apply Z.ltb_lt.
Qed.

#[export] Instance spec_schedule `{lz : local_zone} : Schedule SpecSchedule :=
  {| sched_next := spec_next; sched_ok := spec_ok; sched_later := spec_next_later |}.

(** [Every] rounds a positive delay down to whole seconds, one second at least. *)
Lemma Every_delay d :
  second_dur <= Delay (Every d) /\ Delay (Every d) mod second_dur = 0.
Proof.
  unfold Every. cbn [Delay].
  set (e := if d <? second_dur then second_dur else d).
  assert (second_dur <= e) as He by (subst e; destruct (d <? second_dur) eqn:E; z_bools; lia).
  clearbody e. unfold second_dur, nanos in *. Z.to_euclidean_division_equations; lia.
Qed.

(** The next activation of a constant delay is on a whole second, strictly
    later than [t], and at most the delay after it. *)
Theorem Every_next (d : Z) (t : time) :
  on_second (delay_next (Every d) t) /\
  t_ns t < t_ns (delay_next (Every d) t) <= t_ns t + Delay (Every d).
Proof.
  destruct (Every_delay d) as [H1 H2]. unfold delay_next, on_second, t_nanosecond.
  cbn [t_ns t_add]. unfold second_dur, nanos in *. Z.to_euclidean_division_equations; lia.
Qed.

Definition delay_ok (s : ConstantDelaySchedule) : Prop := second_dur <= Delay s.

Lemma delay_next_later s t :
  delay_ok s -> is_zero (delay_next s t) = false -> before t (delay_next s t) = true.
Proof.
  intros H _. apply Z.ltb_lt. unfold delay_ok, delay_next, t_nanosecond in *. cbn [t_ns t_add].
  unfold second_dur, nanos in *. pose proof (Z.mod_pos_bound (t_ns t) 1000000000). lia.
Qed.

#[export] Instance delay_schedule : Schedule ConstantDelaySchedule :=
  {| sched_next := delay_next; sched_ok := delay_ok; sched_later := delay_next_later |}.

(** The schedules a parser returns, and the interface they share. *)
Inductive any_schedule := Spec (s : SpecSchedule) | ConstantDelay (s : ConstantDelaySchedule).

#[export] Instance parsed_schedule `{lz : local_zone} : Schedule any_schedule := {|
  sched_next a := match a with Spec s => sched_next s | ConstantDelay s => sched_next s end;
  sched_ok a := match a with Spec s => sched_ok s | ConstantDelay s => sched_ok s end;
  sched_later a := match a with Spec s => sched_later s | ConstantDelay s => sched_later s end
|}.
