(* ===== verification/CronParser.v ===== *)
(** The cron expression parser of package [job] (job/parser.go): fields and
    their ranges to bit sets, optional fields and defaults, time zones and
    descriptors.

    [time.LoadLocation] reads the zone database of the machine and is an
    argument, [load_location]. *)

From S2P Require Import Prelude GoStrings GoTime GoDuration CronSpec.
From Stdlib Require Import Ascii.
#[local] Open Scope string_scope.
#[local] Open Scope Z_scope.

(** ** Errors *)

Inductive parse_error :=
  | EmptySpec
  | BadLocation (name : string)
  | DescriptorNotAccepted (spec : string)
  | MultipleOptionals
  | FieldCount (min max count : Z)
  | UnknownOptional
  | NotAnInt (expr : string) (e : num_error)
  | NegativeNumber (num : Z) (expr : string)
  | TooManyHyphens (expr : string)
  | TooManySlashes (expr : string)
  | BelowMinimum (start min : Z) (expr : string)
  | AboveMaximum (end_ max : Z) (expr : string)
  | BeyondEnd (start end_ : Z) (expr : string)
  | ZeroStep (expr : string)
  | BadDuration (descriptor : string)
  | UnrecognizedDescriptor (descriptor : string).

Abbreviation parse_result := (outcome parse_error).

(** ** Options: a bit set *)

Definition opt_Second : Z := Z.shiftl 1 0.
Definition opt_SecondOptional : Z := Z.shiftl 1 1.
Definition opt_Minute : Z := Z.shiftl 1 2.
Definition opt_Hour : Z := Z.shiftl 1 3.
Definition opt_Dom : Z := Z.shiftl 1 4.
Definition opt_Month : Z := Z.shiftl 1 5.
Definition opt_Dow : Z := Z.shiftl 1 6.
Definition opt_DowOptional : Z := Z.shiftl 1 7.
Definition opt_Descriptor : Z := Z.shiftl 1 8.

Definition places : list Z := [opt_Second; opt_Minute; opt_Hour; opt_Dom; opt_Month; opt_Dow].
Definition defaults : list string := ["0"; "0"; "0"; "*"; "*"; "*"].

Definition has_opt (options o : Z) : bool := 0 <? Z.land options o.

Record Parser := mk_parser { options : Z }.

Definition count_optionals (opts : Z) : Z :=
  (if has_opt opts opt_SecondOptional then 1 else 0) + (if has_opt opts opt_DowOptional then 1 else 0).

(** [NewParser]. *)
Definition NewParser (opts : Z) : parse_result Parser :=
  if 1 <? count_optionals opts then Panic "multiple optionals may not be configured"
  else Ok (mk_parser opts).

(** ** Bit sets *)

Definition max_uint64 : Z := 2 ^ 64 - 1.

(** [^x] on uint64. *)
Definition not64 (x : Z) : Z := uint64 (Z.lnot x).

(** The loop [for i := min; i <= max; i += step { bits |= 1 << i }]; [None] when
    the fuel runs out. *)
Fixpoint bits_loop (fuel : nat) (i max step bits : Z) : option Z :=
  if i <=? max then
    match fuel with
    | O => None
    | S k => bits_loop k (uint64 (i + step)) max step (Z.lor bits (uint64 (Z.shiftl 1 i)))
    end
  else Some bits.

(** [getBits]; the loop runs at most once per value of the range. *)
Definition getBits (min max step : Z) : parse_result Z :=
  if step =? 1 then
    Ok (Z.land (not64 (uint64 (Z.shiftl max_uint64 (max + 1)))) (uint64 (Z.shiftl max_uint64 min)))
  else
    match bits_loop (Z.to_nat (max - min + 1)) min max step 0 with
    | Some bits => Ok bits
    | None => Panic "getBits does not return"
    end.

(** [all]. *)
Definition all (r : bounds) : parse_result Z :=
  let* bits := getBits (b_min r) (b_max r) 1 in Ok (Z.lor bits starBit).

(** ** Numbers and ranges *)

(** [mustParseInt]. *)
Definition mustParseInt (expr : string) : parse_result Z :=
  let* num := map_err (NotAnInt expr) (atoi expr) in
  if num <? 0 then Err (NegativeNumber num expr) else Ok (uint64 num).

(** [parseIntOrName]. *)
Definition parseIntOrName (expr : string) (names : option (list (string * Z))) : parse_result Z :=
  match names with
  | Some l =>
      match assoc_str (to_lower expr) l with
      | Some namedInt => Ok namedInt
      | None => mustParseInt expr
      end
  | None => mustParseInt expr
  end.

(** The range before the step: start, end, and the star bit. *)
Definition low_high (expr : string) (lowAndHigh : list string) (r : bounds) : parse_result (Z * Z * Z) :=
  let low := hd "" lowAndHigh in
  if String.eqb low "*" || String.eqb low "?" then Ok (b_min r, b_max r, starBit)
  else
    let* start := parseIntOrName low (b_names r) in
    match lowAndHigh with
    | [_] => Ok (start, start, 0)
    | [_; high] => let* end_ := parseIntOrName high (b_names r) in Ok (start, end_, 0)
    | _ => Err (TooManyHyphens expr)
    end.

(** [getRange]: number | number "-" number [ "/" number ]. *)
Definition getRange (expr : string) (r : bounds) : parse_result Z :=
  let rangeAndStep := split_on "/"%char expr in
  let lowAndHigh := split_on "-"%char (hd "" rangeAndStep) in
  let singleDigit := (length lowAndHigh =? 1)%nat in
  let* (start, end_, extra) := low_high expr lowAndHigh r in
  let* (end_, step, extra) :=
    match rangeAndStep with
    | [_] => Ok (end_, 1, extra)
    | [_; st] =>
        let* step := mustParseInt st in
        Ok (if singleDigit then b_max r else end_, step, if 1 <? step then 0 else extra)
    | _ => Err (TooManySlashes expr)
    end in
  if start <? b_min r then Err (BelowMinimum start (b_min r) expr)
  else if b_max r <? end_ then Err (AboveMaximum end_ (b_max r) expr)
  else if end_ <? start then Err (BeyondEnd start end_ expr)
  else if step =? 0 then Err (ZeroStep expr)
  else let* bits := getBits start end_ step in Ok (Z.lor bits extra).

(** The union of the ranges of a field. *)
Fixpoint get_ranges (bits : Z) (ranges : list string) (r : bounds) : parse_result Z :=
  match ranges with
  | [] => Ok bits
  | expr :: rest => let* bit := getRange expr r in get_ranges (Z.lor bits bit) rest r
  end.

(** [getField]: a comma-separated list of ranges. *)
Definition getField (field : string) (r : bounds) : parse_result Z :=
  get_ranges 0 (fields_on ","%char field) r.

(** ** Fields, optional fields and defaults *)

(** Each place takes the next given field if it is configured, else its default. *)
Fixpoint expand_fields (opts : Z) (places : list Z) (defaults given : list string) : parse_result (list string) :=
  match places, defaults with
  | p :: ps, d :: ds =>
      if has_opt opts p then
        match given with
        | f :: fs => let* rest := expand_fields opts ps ds fs in Ok (f :: rest)
        | [] => Panic "index out of range"
        end
      else let* rest := expand_fields opts ps ds given in Ok (d :: rest)
  | _, _ => Ok []
  end.

(** An optional field counts as configured. *)
Definition effective_options (opts : Z) : Z :=
  let opts := if has_opt opts opt_SecondOptional then Z.lor opts opt_Second else opts in
  if has_opt opts opt_DowOptional then Z.lor opts opt_Dow else opts.

(** [normalizeFields]. *)
Definition normalizeFields (fields : list string) (opts : Z) : parse_result (list string) :=
  let optionals := count_optionals opts in
  let opts' := effective_options opts in
  if 1 <? optionals then Err MultipleOptionals
  else
    let max := Z.of_nat (length (List.filter (has_opt opts') places)) in
    let min := max - optionals in
    let count := Z.of_nat (length fields) in
    if (count <? min) || (max <? count) then Err (FieldCount min max count)
    else
      let* fields :=
        if (min <? max) && (count =? min) then
          if has_opt opts' opt_DowOptional then Ok (app fields [nth 5 defaults ""])
          else if has_opt opts' opt_SecondOptional then Ok (nth 0 defaults "" :: fields)
          else Err UnknownOptional
        else Ok fields in
      expand_fields opts' places defaults fields.

(** ** Descriptors *)

Definition one_bit (n : Z) : Z := uint64 (Z.shiftl 1 n).

Definition every : string := "@every ".

(** [parseDescriptor]. *)
Definition parseDescriptor (descriptor : string) (loc : location) : parse_result any_schedule :=
  let s0 := one_bit (b_min seconds) in
  let m0 := one_bit (b_min minutes) in
  let h0 := one_bit (b_min hours) in
  let* all_hours := all hours in
  let* all_dom := all dom in
  let* all_months := all months in
  let* all_dow := all dow in
  if String.eqb descriptor "@yearly" || String.eqb descriptor "@annually" then
    Ok (Spec (mk_spec s0 m0 h0 (one_bit (b_min dom)) (one_bit (b_min months)) all_dow loc))
  else if String.eqb descriptor "@monthly" then
    Ok (Spec (mk_spec s0 m0 h0 (one_bit (b_min dom)) all_months all_dow loc))
  else if String.eqb descriptor "@weekly" then
    Ok (Spec (mk_spec s0 m0 h0 all_dom all_months (one_bit (b_min dow)) loc))
  else if String.eqb descriptor "@daily" || String.eqb descriptor "@midnight" then
    Ok (Spec (mk_spec s0 m0 h0 all_dom all_months all_dow loc))
  else if String.eqb descriptor "@hourly" then
    Ok (Spec (mk_spec s0 m0 all_hours all_dom all_months all_dow loc))
  else if has_prefix descriptor every then
    match parse_duration (drop_str (String.length every) descriptor) with
    | Some duration => Ok (ConstantDelay (Every duration))
    | None => Err (BadDuration descriptor)
    end
  else Err (UnrecognizedDescriptor descriptor).

(** ** [Parser.Parse] *)

Section Parse.
Variable load_location : string -> option location.

(** The location and the rest of a spec that starts with a time zone. *)
Definition parse_zone (spec : string) : parse_result (location * string) :=
  if has_prefix spec "TZ=" || has_prefix spec "CRON_TZ=" then
    let i := index_byte " "%char spec in
    let eq := index_byte "="%char spec in
    let* name := slice spec (eq + 1) i in
    match load_location name with
    | Some loc => let* rest := slice spec i (slen spec) in Ok (loc, trim_space rest)
    | None => Err (BadLocation name)
    end
  else Ok (Local, spec).

(** The six fields, in order; the first error wins. *)
Definition parse_fields (fields : list string) (loc : location) : parse_result any_schedule :=
  match fields with
  | [f0; f1; f2; f3; f4; f5] =>
      let* second := getField f0 seconds in
      let* minute := getField f1 minutes in
      let* hour := getField f2 hours in
      let* dayofmonth := getField f3 dom in
      let* month := getField f4 months in
      let* dayofweek := getField f5 dow in
      Ok (Spec (mk_spec second minute hour dayofmonth month dayofweek loc))
  | _ => Panic "index out of range"
  end.

Definition Parse (p : Parser) (spec : string) : parse_result any_schedule :=
  if slen spec =? 0 then Err EmptySpec
  else
    let* (loc, spec) := parse_zone spec in
    if has_prefix spec "@" then
      if Z.land (options p) opt_Descriptor =? 0 then Err (DescriptorNotAccepted spec)
      else parseDescriptor spec loc
    else
      let* fields := normalizeFields (fields spec) (options p) in
      parse_fields fields loc.

(** [ParseStandard]. *)
Definition standard_options : Z :=
  Z.lor (Z.lor (Z.lor (Z.lor (Z.lor opt_Minute opt_Hour) opt_Dom) opt_Month) opt_Dow) opt_Descriptor.

Definition ParseStandard (standardSpec : string) : parse_result any_schedule :=
  let* standardParser := NewParser standard_options in Parse standardParser standardSpec.
End Parse.

(** ** [getBits] *)

(** The values a range stands for. *)
Definition in_range (min max step j : Z) : bool :=
  (min <=? j) && (j <=? max) && ((j - min) mod step =? 0).

Lemma in_range_step i max step j :
  1 <= step -> in_range i max step j = (j =? i) && (i <=? max) || in_range (i + step) max step j.
Proof.
  intros Hs. unfold in_range. destruct (j =? i) eqn:E; z_bools.
  - subst j. rewrite Z.sub_diag, Z.mod_0_l, Z.leb_refl by lia.
    replace (i + step <=? i) with false by (symmetry; apply Z.leb_gt; lia).
    destruct (i <=? max); done.
  - replace ((j - (i + step)) mod step) with ((j - i) mod step).
    2: { replace (j - (i + step)) with (j - i + (-1) * step) by lia. by rewrite Z.mod_add by lia. }
    cbn [andb orb]. destruct ((j - i) mod step =? 0) eqn:Em; rewrite ?andb_true_r, ?andb_false_r; [|done].
    z_bools. destruct (j <=? max); rewrite ?andb_true_r, ?andb_false_r; [|done].
    destruct (i <=? j) eqn:E1, (i + step <=? j) eqn:E2; z_bools; try done; exfalso; [|lia].
    rewrite Z.mod_small in Em; lia.
Qed.

Lemma bits_loop_spec fuel i max step bits :
  0 <= i -> max <= 63 -> 1 <= step < 2 ^ 63 -> max - i < Z.of_nat fuel ->
  exists b, bits_loop fuel i max step bits = Some b /\
    forall j, 0 <= j -> Z.testbit b j = Z.testbit bits j || in_range i max step j.
Proof.
  intros Hi Hmax Hstep. revert i bits Hi. induction fuel as [|f IH]; intros i bits Hi Hf.
  - exists bits. cbn [bits_loop]. rewrite (proj2 (Z.leb_gt i max)) by lia. split; [done|].
    intros j Hj. replace (in_range i max step j) with false; [by rewrite orb_false_r|].
    unfold in_range. symmetry. destruct (i <=? j) eqn:E1, (j <=? max) eqn:E2; z_bools; try done; lia.
  - cbn [bits_loop]. destruct (i <=? max) eqn:E; z_bools.
    + rewrite !uint64_small; [| |lia].
      2: { split; [by apply Z.shiftl_nonneg|]. rewrite Z.shiftl_1_l. apply Z.pow_lt_mono_r; lia. }
      destruct (IH (i + step) (Z.lor bits (Z.shiftl 1 i))) as (b & -> & Hb); [lia|lia|].
      exists b. split; [done|]. intros j Hj. rewrite Hb by done.
      rewrite Z.lor_spec, testbit_one_shift by done.
      rewrite (in_range_step i) by lia. rewrite (proj2 (Z.leb_le i max)), andb_true_r by done.
      by rewrite orb_assoc.
    + exists bits. split; [done|]. intros j Hj.
      replace (in_range i max step j) with false; [by rewrite orb_false_r|].
      unfold in_range. symmetry. destruct (i <=? j) eqn:E1, (j <=? max) eqn:E2; z_bools; try done; lia.
Qed.

Lemma getBits_shift min max :
  0 <= min -> min <= max <= 63 ->
  exists b, getBits min max 1 = Ok b /\ forall j, 0 <= j -> Z.testbit b j = in_range min max 1 j.
Proof.
  intros Hmin Hmax. eexists. split; [reflexivity|]. intros j Hj. unfold not64, max_uint64.
  rewrite Z.land_spec, !uint64_testbit, Z.lnot_spec, uint64_testbit, !Z.shiftl_spec by done.
  unfold in_range. rewrite Z.mod_1_r, andb_true_r.
  destruct (j <? 64) eqn:E; z_bools; cbn [andb].
  - destruct (min <=? j) eqn:E1, (j <=? max) eqn:E2; z_bools.
    + rewrite (Z.testbit_neg_r _ (j - (max + 1))) by lia. rewrite testbit_ones by lia.
      apply Z.ltb_lt. lia.
    + rewrite (testbit_ones 64 (j - (max + 1))) by lia.
      rewrite (proj2 (Z.ltb_lt (j - (max + 1)) 64)) by lia. done.
    + rewrite (Z.testbit_neg_r _ (j - min)) by lia. by rewrite andb_false_r.
    + lia.
  - symmetry. apply andb_false_iff. right. apply Z.leb_gt. lia.
Qed.

Lemma getBits_ok min max step :
  0 <= min -> min <= max <= 63 -> 1 <= step < 2 ^ 63 ->
  exists b, getBits min max step = Ok b /\ forall j, 0 <= j -> Z.testbit b j = in_range min max step j.
Proof.
  intros Hmin Hmax Hstep. destruct (decide (step = 1)) as [->|Hne]; [by apply getBits_shift|].
  unfold getBits. rewrite (proj2 (Z.eqb_neq step 1)) by done.
  destruct (bits_loop_spec (Z.to_nat (max - min + 1)) min max step 0) as (b & -> & Hb); [lia..|].
  exists b. split; [done|]. intros j Hj. rewrite Hb by done. by rewrite Z.bits_0.
Qed.

(** ** Well-formed bounds, and what a range stands for *)

(** A name is not the numeral of a number. *)
Definition name_ok (k : string) : bool :=
  match k with String c _ => negb (is_digit c) | EmptyString => true end.

Definition bounds_ok (r : bounds) : Prop :=
  0 <= b_min r /\ b_min r <= b_max r <= 62 /\
  match b_names r with Some l => forallb (fun kv => name_ok (fst kv)) l = true | None => True end.

Lemma all_bounds_ok : Forall bounds_ok [seconds; minutes; hours; dom; months; dow].
Proof. repeat constructor; cbn; done || lia. Qed.

(** The sets a field may denote: within the bounds, plus the star bit. *)
Definition within (r : bounds) (bits : Z) : Prop :=
  forall j, 0 <= j -> Z.testbit bits j = true -> b_min r <= j <= b_max r \/ j = 63.

Lemma testbit_starBit j : 0 <= j -> Z.testbit starBit j = (j =? 63).
Proof. intros. apply testbit_one_shift; lia. Qed.

Lemma mustParseInt_ok expr v : mustParseInt expr = Ok v -> 0 <= v < 2 ^ 63.
Proof.
  unfold mustParseInt, atoi. destruct (parse_int 64 expr) as [n| |] eqn:E; [|done..].
  apply parse_int_range in E; [|lia]. cbn [map_err bind_outcome].
  destruct (n <? 0) eqn:E0; [done|]. z_bools. change (64 - 1) with 63 in E. intros [= <-].
  rewrite uint64_small; lia.
Qed.

Lemma mustParseInt_no_panic expr : is_panic (mustParseInt expr) = false.
Proof.
  unfold mustParseInt, atoi. pose proof (parse_int_no_panic 64 expr) as H.
  destruct (parse_int 64 expr); cbn in *; [|done..]. by destruct (_ <? 0).
Qed.

Lemma parseIntOrName_no_panic expr names : is_panic (parseIntOrName expr names) = false.
Proof.
  unfold parseIntOrName. destruct names as [l|]; [destruct (assoc_str _ l)|];
    done || apply mustParseInt_no_panic.
Qed.

Lemma bind_no_panic {E A B} (m : outcome E A) (k : A -> outcome E B) :
  is_panic m = false -> (forall a, m = Ok a -> is_panic (k a) = false) ->
  is_panic (bind_outcome m k) = false.
Proof. destruct m; cbn; intros H1 H2; [by apply H2|done|done]. Qed.

Lemma low_high_no_panic expr l r : is_panic (low_high expr l r) = false.
Proof.
  unfold low_high. destruct (_ || _)%bool; [done|].
  apply bind_no_panic; [apply parseIntOrName_no_panic|intros start _].
  destruct l as [|? [|? [|? ?]]]; [done|done| |done].
  apply bind_no_panic; [apply parseIntOrName_no_panic|done].
Qed.

Lemma low_high_extra expr l r s e x : low_high expr l r = Ok (s, e, x) -> x = 0 \/ x = starBit.
Proof.
  unfold low_high. destruct (_ || _)%bool; [intros [= _ _ <-]; by right|].
  destruct (parseIntOrName (hd "" l) (b_names r)) as [st| |]; [|done..]. cbn [bind_outcome].
  destruct l as [|? [|h [|? ?]]]; [done|intros [= _ _ <-]; by left| |done].
  destruct (parseIntOrName h (b_names r)); [|done..]. cbn. intros [= _ _ <-]. by left.
Qed.

(** The step of a range: the end it implies, the step, and the star bit left. *)
Definition range_step (rangeAndStep : list string) (single : bool) (expr : string) (r : bounds)
  (end_ extra : Z) : parse_result (Z * Z * Z) :=
  match rangeAndStep with
  | [_] => Ok (end_, 1, extra)
  | [_; st] =>
      let* step := mustParseInt st in
      Ok (if single then b_max r else end_, step, if 1 <? step then 0 else extra)
  | _ => Err (TooManySlashes expr)
  end.

Lemma range_step_ok l single expr r e x e' st x' :
  range_step l single expr r e x = Ok (e', st, x') ->
  0 <= st < 2 ^ 63 /\ (x' = 0 \/ x' = x).
Proof.
  unfold range_step. destruct l as [|? [|w [|? ?]]]; [done| | |done].
  - intros [= <- <- <-]. lia.
  - destruct (mustParseInt w) as [v| |] eqn:E; [|done..]. cbn. intros [= <- <- <-].
    apply mustParseInt_ok in E. destruct (1 <? v); auto.
Qed.

Lemma range_step_no_panic l single expr r e x : is_panic (range_step l single expr r e x) = false.
Proof.
  unfold range_step. destruct l as [|? [|w [|? ?]]]; [done|done| |done].
  apply bind_no_panic; [apply mustParseInt_no_panic|done].
Qed.

(** The checks at the end of [getRange]. *)
Definition range_check (start end_ step extra : Z) (expr : string) (r : bounds) : parse_result Z :=
  if start <? b_min r then Err (BelowMinimum start (b_min r) expr)
  else if b_max r <? end_ then Err (AboveMaximum end_ (b_max r) expr)
  else if end_ <? start then Err (BeyondEnd start end_ expr)
  else if step =? 0 then Err (ZeroStep expr)
  else let* bits := getBits start end_ step in Ok (Z.lor bits extra).

Lemma getRange_split expr r :
  getRange expr r =
  let l := split_on "/"%char expr in
  let lh := split_on "-"%char (hd "" l) in
  let* (start, end_, extra) := low_high expr lh r in
  let* (end_, step, extra) := range_step l (length lh =? 1)%nat expr r end_ extra in
  range_check start end_ step extra expr r.
Proof. reflexivity. Qed.

(** The checks pass exactly on a non-empty range within the bounds. *)
Lemma range_check_spec start end_ step extra expr r :
  bounds_ok r -> 0 <= step < 2 ^ 63 ->
  match range_check start end_ step extra expr r with
  | Ok b => b_min r <= start <= end_ /\ end_ <= b_max r /\ 1 <= step /\
            forall j, 0 <= j -> Z.testbit b j = in_range start end_ step j || Z.testbit extra j
  | Err _ => start < b_min r \/ b_max r < end_ \/ end_ < start \/ step = 0
  | Panic _ => False
  end.
Proof.
  intros (Hmin & Hmax & _) Hst. unfold range_check.
  destruct (start <? b_min r) eqn:E1; z_bools; [by left|].
  destruct (b_max r <? end_) eqn:E2; z_bools; [by right; left|].
  destruct (end_ <? start) eqn:E3; z_bools; [by right; right; left|].
  destruct (step =? 0) eqn:E4; z_bools; [by right; right; right|].
  destruct (getBits_ok start end_ step) as (b & -> & Hb); [lia..|]. cbn [bind_outcome].
  split_and!; [lia..|]. intros j Hj. by rewrite Z.lor_spec, Hb.
Qed.

Lemma getRange_within expr r b : bounds_ok r -> getRange expr r = Ok b -> within r b.
Proof.
  intros Hr. rewrite getRange_split. cbn zeta. intros H.
  apply bind_ok_inv in H as ([[s e] x] & Hlh & H).
  apply bind_ok_inv in H as ([[e' st] x'] & Hst & H).
  apply low_high_extra in Hlh. apply range_step_ok in Hst as [Hst Hx'].
  pose proof (range_check_spec s e' st x' expr r Hr Hst) as Hc. rewrite H in Hc.
  destruct Hc as (Hs & He & _ & Hb). intros j Hj Ht. rewrite Hb in Ht by done.
  apply orb_prop in Ht as [Ht|Ht].
  - left. unfold in_range in Ht. z_bools. lia.
  - right. assert (x' = 0 \/ x' = starBit) as [->| ->]
      by (destruct Hlh as [->| ->], Hx' as [->| ->]; auto).
    + by rewrite Z.bits_0 in Ht.
    + rewrite testbit_starBit in Ht by done. by z_bools.
Qed.

Lemma getRange_no_panic expr r : bounds_ok r -> is_panic (getRange expr r) = false.
Proof.
  intros Hr. rewrite getRange_split. cbn zeta.
  apply bind_no_panic; [apply low_high_no_panic|intros [[s e] x] _].
  apply bind_no_panic; [apply range_step_no_panic|intros [[e' st] x'] Hst].
  apply range_step_ok in Hst as [Hst _].
  pose proof (range_check_spec s e' st x' expr r Hr Hst) as H. by destruct (range_check _ _ _ _ _ _).
Qed.

Lemma getField_within field r b : bounds_ok r -> getField field r = Ok b -> within r b.
Proof.
  intros Hr. unfold getField. generalize (fields_on ","%char field) as l. intros l.
  assert (within r 0) as H0 by (intros j _ H; by rewrite Z.bits_0 in H). revert H0.
  generalize 0. induction l as [|e l IH]; intros b0 H0; cbn [get_ranges]; [by intros [= <-]|].
  intros H. apply bind_ok_inv in H as (b1 & H1 & H). apply (IH (Z.lor b0 b1)); [|done].
  apply (getRange_within _ _ _ Hr) in H1. intros j Hj. rewrite Z.lor_spec. intros Ht.
  apply orb_prop in Ht as [Ht|Ht]; [by apply H0|by apply H1].
Qed.

Lemma getField_no_panic field r : bounds_ok r -> is_panic (getField field r) = false.
Proof.
  intros Hr. unfold getField. generalize (fields_on ","%char field) as l, 0.
  induction l as [|e l IH]; intros b; cbn [get_ranges]; [done|].
  apply bind_no_panic; [by apply getRange_no_panic|intros; apply IH].
Qed.

(** ** Six fields *)

Lemma expand_fields_ok opts ps ds given :
  length ds = length ps -> length given = length (List.filter (has_opt opts) ps) ->
  exists l, expand_fields opts ps ds given = Ok l /\ length l = length ps.
Proof.
  revert ds given. induction ps as [|p ps IH]; intros [|d ds] given Hd Hg; try done; [by exists []|].
  cbn [expand_fields List.filter] in *. injection Hd as Hd. destruct (has_opt opts p).
  - destruct given as [|g given]; [done|]. injection Hg as Hg.
    destruct (IH ds given Hd Hg) as (l & -> & Hl). exists (g :: l). cbn. by rewrite Hl.
  - destruct (IH ds given Hd Hg) as (l & -> & Hl). exists (d :: l). cbn. by rewrite Hl.
Qed.

Lemma count_optionals_range opts : 0 <= count_optionals opts.
Proof. unfold count_optionals. repeat destruct (has_opt _ _); lia. Qed.

(** Normalised fields are six, and the function never panics. *)
Lemma normalizeFields_six given opts :
  match normalizeFields given opts with
  | Ok l => length l = 6%nat
  | Err _ => True
  | Panic _ => False
  end.
Proof.
  unfold normalizeFields. cbn zeta.
  set (opts' := effective_options opts).
  pose proof (count_optionals_range opts) as H0.
  destruct (1 <? count_optionals opts) eqn:E1; z_bools; [done|].
  set (n := length (List.filter (has_opt opts') places)).
  assert (forall l, length l = n ->
    match expand_fields opts' places defaults l with
    | Ok l => length l = 6%nat | Err _ => True | Panic _ => False end) as Hexp.
  { intros l Hl. destruct (expand_fields_ok opts' places defaults l eq_refl Hl) as (r & -> & Hr). done. }
  destruct ((_ <? _) || (_ <? _))%bool eqn:E2; [done|]. z_bools.
  destruct ((_ <? _) && (_ =? _))%bool eqn:E3.
  - z_bools. destruct (has_opt opts' opt_DowOptional); [|destruct (has_opt opts' opt_SecondOptional); [|done]];
      cbn [bind_outcome]; apply Hexp; [rewrite length_app|]; cbn [length]; lia.
  - cbn [bind_outcome]. apply Hexp.
    apply andb_false_iff in E3 as [E3|E3]; z_bools; lia.
Qed.

Lemma parse_fields_no_panic l loc : length l = 6%nat -> is_panic (parse_fields l loc) = false.
Proof.
  destruct l as [|f0 [|f1 [|f2 [|f3 [|f4 [|f5 [|? ?]]]]]]]; try done. intros _. cbn [parse_fields].
  pose proof all_bounds_ok as Hb. rewrite !Forall_cons in Hb. destruct Hb as (?&?&?&?&?&?&_).
  repeat (apply bind_no_panic; [by apply getField_no_panic|intros ? _]). done.
Qed.

Lemma parseDescriptor_no_panic d loc : is_panic (parseDescriptor d loc) = false.
Proof.
  unfold parseDescriptor.
  repeat (apply bind_no_panic; [vm_compute; reflexivity|intros ? _]).
  repeat match goal with |- context [if ?b then _ else _] => destruct b; [done|] end.
  destruct (has_prefix d every); [|done]. by destruct (parse_duration _).
Qed.

Section ParseFacts.
Variable load_location : string -> option location.

Lemma parse_zone_panic spec :
  is_panic (parse_zone load_location spec)
  = (has_prefix spec "TZ=" || has_prefix spec "CRON_TZ=")
    && (index_byte " "%char spec <=? index_byte "="%char spec).
Proof.
  unfold parse_zone. destruct (_ || _)%bool; [cbn [andb]|done].
  pose proof (index_byte_bounds " "%char spec) as Hi. pose proof (index_byte_bounds "="%char spec) as He.
  destruct (index_byte " "%char spec <=? index_byte "="%char spec) eqn:E; z_bools.
  - unfold slice at 1. rewrite (proj2 (Z.leb_gt (index_byte "="%char spec + 1) (index_byte " "%char spec))) by lia.
    by rewrite andb_false_r.
  - unfold slice at 1. rewrite !(proj2 (Z.leb_le _ _)) by lia. cbn [andb bind_outcome].
    destruct (load_location _); [|done]. unfold slice. by rewrite !(proj2 (Z.leb_le _ _)) by lia.
Qed.

(** [Parse] never panics (no index out of range, no loop that does not
    return), except on a spec that starts with [TZ=] or [CRON_TZ=] and whose
    first space does not come after its first [=]. *)
Theorem Parse_panics (p : Parser) (spec : string) :
  is_panic (Parse load_location p spec)
  = (has_prefix spec "TZ=" || has_prefix spec "CRON_TZ=")
    && (index_byte " "%char spec <=? index_byte "="%char spec).
Proof.
  unfold Parse. destruct (slen spec =? 0) eqn:E0.
  { destruct spec; [done|]. z_bools. unfold slen in E0. cbn in E0. lia. }
  rewrite <- parse_zone_panic.
  destruct (parse_zone load_location spec) as [[loc rest]| |]; [|done..].
  cbn [bind_outcome is_panic]. destruct (has_prefix rest "@").
  - destruct (Z.land (options p) opt_Descriptor =? 0); [done|apply parseDescriptor_no_panic].
  - pose proof (normalizeFields_six (fields rest) (options p)) as H.
    destruct (normalizeFields _ _) as [l| |]; [|done..]. by apply parse_fields_no_panic.
Qed.

(** A parsed schedule only names values within the bounds of its fields. *)
Definition spec_within (s : SpecSchedule) : Prop :=
  within seconds (Second s) /\ within minutes (Minute s) /\ within hours (Hour s) /\
  within dom (Dom s) /\ within months (Month s) /\ within dow (Dow s).

Lemma parse_fields_within l loc s : parse_fields l loc = Ok (Spec s) -> spec_within s.
Proof.
  destruct l as [|f0 [|f1 [|f2 [|f3 [|f4 [|f5 [|? ?]]]]]]]; try done. cbn [parse_fields].
  pose proof all_bounds_ok as Hb. rewrite !Forall_cons in Hb. destruct Hb as (?&?&?&?&?&?&_).
  intros Hp. repeat (apply bind_ok_inv in Hp as (? & ? & Hp)). injection Hp as <-.
  split_and!; cbn; by eapply getField_within.
Qed.

Lemma parseDescriptor_within d loc s : parseDescriptor d loc = Ok (Spec s) -> spec_within s.
Proof.
  assert (forall r, bounds_ok r -> within r (one_bit (b_min r))) as Hone.
  { intros r (H0 & H1 & _) j Hj Ht. unfold one_bit in Ht.
    rewrite uint64_testbit, testbit_one_shift in Ht by lia. z_bools. lia. }
  assert (forall r bits, bounds_ok r -> all r = Ok bits -> within r bits) as Hall.
  { intros r bits (H0 & H1 & _) H j Hj Ht. unfold all in H.
    destruct (getBits_ok (b_min r) (b_max r) 1) as (b & Eb & Hb); [lia..|].
    rewrite Eb in H. injection H as <-. rewrite Z.lor_spec, Hb, testbit_starBit in Ht by done.
    apply orb_prop in Ht as [Ht|Ht]; unfold in_range in *; z_bools; lia. }
  pose proof all_bounds_ok as Hb. rewrite !Forall_cons in Hb. destruct Hb as (?&?&?&?&?&?&_).
  unfold parseDescriptor. intros Hp. repeat (apply bind_ok_inv in Hp as (? & ? & Hp)).
  repeat match type of Hp with
  | (if ?b then Ok _ else _) = _ =>
      destruct b; [injection Hp as <-; split_and!; cbn; by (apply Hone || eapply Hall)|]
  end.
  destruct (has_prefix d every); [|done]. by destruct (parse_duration _).
Qed.

(** C31: a parsed schedule only names values within the bounds of its fields;
    the only other bit a field may hold is the star bit. *)
Theorem Parse_within (p : Parser) (spec : string) (s : SpecSchedule) :
  Parse load_location p spec = Ok (Spec s) -> spec_within s.
Proof.
  unfold Parse. destruct (slen spec =? 0); [done|]. intros H.
  apply bind_ok_inv in H as ([loc rest] & _ & H).
  destruct (has_prefix rest "@").
  - destruct (Z.land (options p) opt_Descriptor =? 0); [done|]. by eapply parseDescriptor_within.
  - apply bind_ok_inv in H as (l & _ & H). by eapply parse_fields_within.
Qed.
End ParseFacts.

Lemma Parse_within_witness :
  exists s, ParseStandard (fun _ => None) "*/5 1-3,7 ? jan-MAR sun" = Ok (Spec s) /\ spec_within s.
Proof.
  eexists. split; [vm_compute; reflexivity|].
  apply (Parse_within (fun _ => None) (mk_parser standard_options) "*/5 1-3,7 ? jan-MAR sun").
  vm_compute. reflexivity.
Defined.

(** A spec that names a time zone but has no space after it makes [Parse] panic. *)
Example Parse_zone_panics ll p : is_panic (Parse ll p "TZ=UTC") = true.
Proof. reflexivity. Qed.

(** A field of separators only is accepted and denotes no value at all. *)
Example empty_field_accepted : getField "," minutes = Ok 0.
Proof. reflexivity. Qed.

(** ** Round trip: the expressions of the language, printed and parsed

    A range as a value, what it denotes within bounds, and its text. *)

Inductive range_base := BAll (question : bool) | BOne (n : Z) | BSpan (a b : Z).
Record range_expr := mk_range { base : range_base; step_of : option Z }.

Definition render_base (b : range_base) : string :=
  match b with
  | BAll q => if q then "?" else "*"
  | BOne n => format_int n
  | BSpan a b => format_int a +:+ String "-"%char (format_int b)
  end.

Definition render (e : range_expr) : string :=
  match step_of e with
  | None => render_base (base e)
  | Some st => render_base (base e) +:+ String "/"%char (format_int st)
  end.

Definition range_valid (r : bounds) (e : range_expr) : Prop :=
  match base e with
  | BAll _ => True
  | BOne n => b_min r <= n <= b_max r
  | BSpan a b => b_min r <= a <= b /\ b <= b_max r
  end /\
  match step_of e with Some st => 1 <= st < 2 ^ 63 | None => True end.

Definition denotes (r : bounds) (e : range_expr) (j : Z) : bool :=
  let st := default 1 (step_of e) in
  match base e with
  | BAll _ => in_range (b_min r) (b_max r) st j || ((j =? 63) && (st =? 1))
  | BOne n => in_range n (match step_of e with Some _ => b_max r | None => n end) st j
  | BSpan a b => in_range a b st j
  end.

(** *** The bytes of numerals and ranges *)

Lemma digits_only (l : list Z) :
  Forall (fun d => 0 <= d < 10) l -> all_bytes is_digit (digits_string l) = true.
Proof.
  induction 1 as [|d l Hd Hl IH]; [done|].
  change (is_digit (digit_char d) && all_bytes is_digit (digits_string l) = true).
  by rewrite digit_char_is_digit, IH.
Qed.

Lemma format_int_digits n : 0 <= n ->
  exists c s, format_int n = String c s /\ is_digit c = true /\ all_bytes is_digit (format_int n) = true.
Proof.
  intros Hn. unfold format_int. rewrite (proj2 (Z.ltb_ge n 0)) by lia.
  destruct (format_nat_digits n Hn) as (d & l & E & Hl & _).
  exists (digit_char d), (digits_string l). rewrite E. split; [done|].
  pose proof (digits_only _ Hl) as Ha. split; [|exact Ha].
  apply Forall_cons_1 in Hl as [Hd _]. by apply digit_char_is_digit.
Qed.

Lemma digit_not_byte c d : is_digit c = false -> is_digit d = true -> not_byte c d = true.
Proof.
  intros Hc Hd. unfold not_byte. destruct (Ascii.eqb c d) eqn:E; [|done].
  apply Ascii.eqb_eq in E as ->. congruence.
Qed.

Lemma format_int_not_byte c n : 0 <= n -> is_digit c = false -> all_bytes (not_byte c) (format_int n) = true.
Proof.
  intros Hn Hc. destruct (format_int_digits n Hn) as (_ & _ & _ & _ & H).
  eapply all_bytes_impl; [|exact H]. intros d Hd. by apply digit_not_byte.
Qed.

Lemma to_lower_digit c s : is_digit c = true -> exists s', to_lower (String c s) = String c s'.
Proof.
  intros Hc. pose proof Hc as Hd. unfold is_digit in Hd. apply andb_prop in Hd as [H1 H2]. z_bools.
  assert (lower_byte c = c) as Hl.
  { unfold lower_byte. rewrite (proj2 (Z.leb_gt 65 (byte_val c))) by lia. done. }
  cbn [to_lower]. rewrite Hl.
  destruct (byte_val c) as [|p|p] eqn:E; [eauto| |eauto].
  assert (Z.pos p <> 196 /\ Z.pos p <> 226) as [Hn1 Hn2] by lia. clear -Hn1 Hn2.
  repeat (destruct p as [p|p|]; eauto; try lia).
Qed.

Lemma assoc_digit {A} c s (l : list (string * A)) :
  is_digit c = true -> forallb (fun kv => name_ok (fst kv)) l = true ->
  assoc_str (String c s) l = None.
Proof.
  intros Hc. induction l as [|[k v] l IH]; cbn [forallb assoc_str fst]; [done|].
  rewrite andb_true_iff. intros [Hk Hl].
  destruct (String.eqb (String c s) k) eqn:E; [|by apply IH].
  apply String.eqb_eq in E as <-. cbn in Hk. by rewrite Hc in Hk.
Qed.

Lemma mustParseInt_format n : 0 <= n < 2 ^ 63 -> mustParseInt (format_int n) = Ok n.
Proof.
  intros Hn. unfold mustParseInt, atoi.
  rewrite parse_int_format by (change (64 - 1) with 63; lia). cbn [map_err bind_outcome].
  rewrite (proj2 (Z.ltb_ge n 0)) by lia. by rewrite uint64_small by lia.
Qed.

Lemma parseIntOrName_format r n :
  bounds_ok r -> 0 <= n < 2 ^ 63 -> parseIntOrName (format_int n) (b_names r) = Ok n.
Proof.
  intros (_ & _ & Hnames) Hn. unfold parseIntOrName.
  destruct (b_names r) as [l|]; [|by apply mustParseInt_format].
  destruct (format_int_digits n ltac:(lia)) as (c & s & E & Hc & _).
  rewrite E. destruct (to_lower_digit c s Hc) as [s' ->]. rewrite assoc_digit by done.
  rewrite <- E. by apply mustParseInt_format.
Qed.

Lemma format_not_star n : 0 <= n -> String.eqb (format_int n) "*" || String.eqb (format_int n) "?" = false.
Proof.
  intros Hn. destruct (format_int_digits n Hn) as (c & s & -> & Hc & _). cbn [String.eqb].
  destruct (Ascii.eqb c "*"%char) eqn:E1; [by apply Ascii.eqb_eq in E1 as ->|].
  destruct (Ascii.eqb c "?"%char) eqn:E2; [by apply Ascii.eqb_eq in E2 as ->|]. done.
Qed.

Definition base_words (b : range_base) : list string :=
  match b with
  | BAll q => [if q then "?" else "*"]
  | BOne n => [format_int n]
  | BSpan a b => [format_int a; format_int b]
  end.

Definition nonneg_base (b : range_base) : Prop :=
  match b with BAll _ => True | BOne n => 0 <= n | BSpan a b => 0 <= a /\ 0 <= b end.

Lemma split_base b : nonneg_base b -> split_on "-"%char (render_base b) = base_words b.
Proof.
  destruct b as [q|n|a b]; cbn [nonneg_base render_base base_words]; intros H.
  - by destruct q.
  - apply split_on_none. by apply format_int_not_byte.
  - destruct H as [Ha Hb]. rewrite split_on_app by (by apply format_int_not_byte). f_equal.
    apply split_on_none. by apply format_int_not_byte.
Qed.

Lemma render_base_not_byte c b :
  nonneg_base b -> is_digit c = false -> c <> "-"%char -> c <> "*"%char -> c <> "?"%char ->
  all_bytes (not_byte c) (render_base b) = true.
Proof.
  intros Hb Hc H1 H2 H3.
  assert (forall d, c <> d -> not_byte c d = true) as Hne.
  { intros d Hd. unfold not_byte. by apply negb_true_iff, Ascii.eqb_neq. }
  destruct b as [q|n|a b]; cbn [nonneg_base render_base] in *.
  - destruct q; cbn [all_bytes]; by rewrite Hne.
  - by apply format_int_not_byte.
  - rewrite all_bytes_app. cbn [all_bytes]. rewrite Hne by done.
    by rewrite !format_int_not_byte by (done || lia).
Qed.

Definition step_words (e : range_expr) : list string :=
  render_base (base e) :: match step_of e with Some st => [format_int st] | None => [] end.

Lemma split_render e :
  nonneg_base (base e) -> match step_of e with Some st => 0 <= st | None => True end ->
  split_on "/"%char (render e) = step_words e.
Proof.
  intros Hb Hst. unfold render, step_words. destruct (step_of e) as [st|].
  - rewrite split_on_app by (by apply render_base_not_byte). f_equal.
    apply split_on_none. by apply format_int_not_byte.
  - apply split_on_none. by apply render_base_not_byte.
Qed.

Lemma low_high_base expr b r :
  bounds_ok r -> range_valid r (mk_range b None) ->
  low_high expr (base_words b) r =
  Ok (match b with
      | BAll _ => (b_min r, b_max r, starBit)
      | BOne n => (n, n, 0)
      | BSpan a c => (a, c, 0)
      end).
Proof.
  intros Hr [Hv _]. pose proof Hr as (H0 & H1 & _). unfold low_high.
  destruct b as [q|n|a c]; cbn [base base_words hd] in *.
  - by destruct q.
  - rewrite format_not_star by lia. by rewrite parseIntOrName_format by (done || lia).
  - rewrite format_not_star by lia. by rewrite !parseIntOrName_format by (done || lia).
Qed.

Lemma base_words_single b : (length (base_words b) =? 1)%nat = match b with BSpan _ _ => false | _ => true end.
Proof. by destruct b. Qed.

(** A valid range parses to the bits of what it denotes. *)
Lemma getRange_render r e :
  bounds_ok r -> range_valid r e ->
  exists b, getRange (render e) r = Ok b /\ forall j, 0 <= j -> Z.testbit b j = denotes r e j.
Proof.
  intros Hr Hv. pose proof Hr as (H0 & H1 & _). destruct e as [b st].
  assert (range_valid r (mk_range b None)) as Hvb by (split; [apply Hv|done]).
  destruct Hv as [Hv Hst]. cbn [base step_of] in *.
  assert (nonneg_base b) as Hb by (destruct b; cbn [nonneg_base] in *; done || lia).
  rewrite getRange_split. cbn zeta.
  assert (match st with Some n => 0 <= n | None => True end) as Hst' by (destruct st; [lia|done]).
  rewrite split_render by done.
  unfold step_words. cbn [base step_of hd]. rewrite split_base, low_high_base, base_words_single by done.
  set (q := match b with BAll _ => _ | _ => _ end).
  assert (exists s0 e0 x0, q = (s0, e0, x0)) as (s0 & e0 & x0 & Eq) by (destruct q as [[? ?] ?]; eauto).
  rewrite Eq. cbn [bind_outcome].
  assert (exists e1 st1 x1,
    range_step (render_base b :: match st with Some n => [format_int n] | None => [] end)
      match b with BSpan _ _ => false | _ => true end (render (mk_range b st)) r e0 x0 = Ok (e1, st1, x1)
    /\ st1 = default 1 st
    /\ e1 = (match st with Some _ => match b with BSpan _ _ => e0 | _ => b_max r end | None => e0 end)
    /\ x1 = (if 1 <? default 1 st then 0 else x0)) as (e1 & st1 & x1 & -> & Hst1 & He1 & Hx1).
  { destruct st as [n|]; cbn [range_step from_option id]; [|by eauto 10].
    rewrite mustParseInt_format by lia. cbn [bind_outcome]. do 3 eexists. split; [reflexivity|].
    split; [done|]. by destruct b. }
  assert (1 <= st1 < 2 ^ 63) as Hs1 by (subst st1; destruct st; cbn [from_option id]; lia).
  assert (b_min r <= s0 <= e1 /\ e1 <= b_max r) as [Hs0 He0].
  { subst q e1. cbn [base] in Hv. destruct b; injection Eq as <- <- <-; destruct st; cbn [from_option id]; lia. }
  cbn [bind_outcome].
  pose proof (range_check_spec s0 e1 st1 x1 (render (mk_range b st)) r Hr ltac:(lia)) as Hc.
  destruct (range_check _ _ _ _ _ _) as [bits| |]; [|lia|done].
  exists bits. split; [done|]. intros j Hj. destruct Hc as (_ & _ & _ & ->); [|done].
  subst q st1 e1 x1. unfold denotes. cbn [base step_of].
  destruct b; injection Eq as <- <- <-; destruct st as [k|]; cbn [from_option id];
    try (destruct (1 <? _); rewrite ?Z.bits_0, ?orb_false_r; done).
  - destruct (1 <? k) eqn:En; z_bools; rewrite ?Z.bits_0, ?testbit_starBit by done.
    + rewrite (proj2 (Z.eqb_neq k 1)) by lia. by rewrite andb_false_r.
    + rewrite (proj2 (Z.eqb_eq k 1)) by lia. by rewrite andb_true_r.
  - rewrite testbit_starBit by done. by rewrite andb_true_r.
Qed.

(** *** Fields and whole specs *)

Definition render_field (es : list range_expr) : string := join ","%char (map render es).

Definition field_denotes (r : bounds) (es : list range_expr) (j : Z) : bool :=
  existsb (fun e => denotes r e j) es.

Definition field_valid (r : bounds) (es : list range_expr) : Prop :=
  es <> [] /\ Forall (range_valid r) es.

Definition range_byte (c : ascii) : bool := graphic c && not_byte ","%char c.

Lemma is_digit_range_byte c : is_digit c = true -> range_byte c = true.
Proof.
  intros Hc. unfold range_byte. rewrite (digit_not_byte ","%char c) by done.
  unfold is_digit in Hc. unfold graphic. z_bools.
  rewrite !(proj2 (Z.leb_le _ _)) by lia. done.
Qed.

Lemma format_int_range_byte n : 0 <= n -> all_bytes range_byte (format_int n) = true.
Proof.
  intros Hn. destruct (format_int_digits n Hn) as (_ & _ & _ & _ & H).
  eapply all_bytes_impl; [|exact H]. apply is_digit_range_byte.
Qed.

Lemma render_range_byte r e : bounds_ok r -> range_valid r e -> all_bytes range_byte (render e) = true.
Proof.
  intros (H0 & _) [Hb Hs]. unfold render.
  assert (all_bytes range_byte (render_base (base e)) = true) as Hbase.
  { destruct (base e) as [q|n|a b]; cbn [render_base]; [by destruct q|apply format_int_range_byte; lia|].
    rewrite all_bytes_app. cbn [all_bytes]. by rewrite !format_int_range_byte by lia. }
  destruct (step_of e) as [st|]; [|done].
  rewrite all_bytes_app, Hbase. cbn [all_bytes]. by rewrite format_int_range_byte by lia.
Qed.

(** The text of a range starts with a digit or a star. *)
Definition start_byte (c : ascii) : bool :=
  is_digit c || Ascii.eqb c "*"%char || Ascii.eqb c "?"%char.

Lemma render_start r e : bounds_ok r -> range_valid r e ->
  exists c s, render e = String c s /\ start_byte c = true.
Proof.
  intros (H0 & _) [Hb _].
  assert (exists c s, render_base (base e) = String c s /\ start_byte c = true) as (c & s & E & Hc).
  { destruct (base e) as [q|n|a b]; cbn [render_base].
    - destruct q; eexists _, _; (split; [reflexivity|done]).
    - destruct (format_int_digits n ltac:(lia)) as (c & s & -> & Hc & _). exists c, s.
      split; [done|]. unfold start_byte. by rewrite Hc.
    - destruct (format_int_digits a ltac:(lia)) as (c & s & -> & Hc & _).
      exists c, (s +:+ String "-"%char (format_int b)). split; [done|]. unfold start_byte. by rewrite Hc. }
  unfold render. rewrite E. destruct (step_of e) as [st|]; [|by exists c, s].
  exists c, (s +:+ String "/"%char (format_int st)). done.
Qed.

Lemma getField_render r es :
  bounds_ok r -> field_valid r es ->
  exists b, getField (render_field es) r = Ok b /\ forall j, 0 <= j -> Z.testbit b j = field_denotes r es j.
Proof.
  intros Hr [Hne Hv]. unfold getField, render_field. rewrite fields_on_join.
  - clear Hne. assert (forall b0, exists b, get_ranges b0 (map render es) r = Ok b /\
      forall j, 0 <= j -> Z.testbit b j = Z.testbit b0 j || field_denotes r es j) as Hgen.
    { induction Hv as [|e es He Hes IH]; intros b0; cbn [map get_ranges].
      - exists b0. split; [done|]. intros j Hj. by rewrite orb_false_r.
      - destruct (getRange_render r e Hr He) as (b & -> & Hb). cbn [bind_outcome].
        destruct (IH (Z.lor b0 b)) as (b' & -> & Hb'). exists b'. split; [done|].
        intros j Hj. rewrite Hb', Z.lor_spec, Hb by done. unfold field_denotes. cbn [existsb].
        by rewrite orb_assoc. }
    destruct (Hgen 0) as (b & -> & Hb).
    exists b. split; [done|]. intros j Hj. by rewrite Hb, Z.bits_0.
  - by destruct es.
  - apply Forall_map. eapply Forall_impl; [exact Hv|]. intros e He. split.
    + eapply all_bytes_impl; [|by apply (render_range_byte r)]. intros c Hc.
      apply andb_prop in Hc. apply Hc.
    + destruct (render_start r e Hr He) as (c & s & -> & _). done.
Qed.

Lemma join_start c w ws d s : w = String d s -> exists s', join c (w :: ws) = String d s'.
Proof. intros ->. destruct ws as [|w' ws]; cbn [join]; eauto. Qed.

Lemma render_field_graphic r es : bounds_ok r -> field_valid r es ->
  all_bytes graphic (render_field es) = true /\
  exists c s, render_field es = String c s /\ start_byte c = true.
Proof.
  intros Hr [Hne Hv]. destruct es as [|e es]; [done|].
  apply Forall_cons in Hv as [He Hes]. split.
  - unfold render_field. cbn [map]. clear Hne. revert e He.
    induction Hes as [|e' es He' Hes IH]; intros e He; cbn [map join].
    + eapply all_bytes_impl; [|by apply (render_range_byte r)]. intros c Hc. by apply andb_prop in Hc as [? ?].
    + rewrite all_bytes_app. cbn [all_bytes]. apply andb_true_iff. split.
      * eapply all_bytes_impl; [|by apply (render_range_byte r)]. intros c Hc. by apply andb_prop in Hc as [? ?].
      * apply andb_true_iff. split; [done|]. by apply IH.
  - destruct (render_start r e Hr He) as (c & s & E & Hc).
    destruct (join_start ","%char (render e) (map render es) c s E) as [s' Es].
    exists c, s'. done.
Qed.

(** Six fields given for six configured places are taken as they are. *)
Definition takes_six (opts : Z) : Prop :=
  forallb (has_opt (effective_options opts)) places = true /\ count_optionals opts <= 1.

Lemma normalizeFields_full given opts :
  takes_six opts -> length given = 6%nat -> normalizeFields given opts = Ok given.
Proof.
  intros [Hall Hopt] Hlen. unfold normalizeFields. cbn zeta.
  rewrite (proj2 (Z.ltb_ge 1 (count_optionals opts))) by lia.
  pose proof (count_optionals_range opts) as H0.
  set (opts' := effective_options opts) in *.
  cbn [forallb places] in Hall. rewrite !andb_true_iff in Hall. destruct Hall as (H1&H2&H3&H4&H5&H6&_).
  assert (List.filter (has_opt opts') places = places) as ->.
  { cbn [List.filter places]. by rewrite H1, H2, H3, H4, H5, H6. }
  rewrite Hlen. cbn [length places].
  rewrite (proj2 (Z.ltb_ge (Z.of_nat 6) (Z.of_nat 6 - count_optionals opts))) by lia.
  replace (Z.of_nat 6 <? Z.of_nat 6) with false by done. cbn [orb].
  assert ((Z.of_nat 6 - count_optionals opts <? Z.of_nat 6) && (Z.of_nat 6 =? Z.of_nat 6 - count_optionals opts)
    = false) as ->.
  { apply andb_false_iff. destruct (decide (count_optionals opts = 0)) as [E|]; [left|right].
    - apply Z.ltb_ge. lia.
    - apply Z.eqb_neq. lia. }
  cbn [bind_outcome].
  destruct given as [|f0 [|f1 [|f2 [|f3 [|f4 [|f5 [|? ?]]]]]]]; try done.
  cbn [expand_fields places defaults]. by rewrite H1, H2, H3, H4, H5, H6.
Qed.

Record spec_expr := mk_spec_expr {
  e_second : list range_expr; e_minute : list range_expr; e_hour : list range_expr;
  e_dom : list range_expr; e_month : list range_expr; e_dow : list range_expr
}.

Definition spec_words (e : spec_expr) : list string :=
  map render_field [e_second e; e_minute e; e_hour e; e_dom e; e_month e; e_dow e].

Definition render_spec (e : spec_expr) : string := join " "%char (spec_words e).

Definition spec_valid (e : spec_expr) : Prop :=
  field_valid seconds (e_second e) /\ field_valid minutes (e_minute e) /\ field_valid hours (e_hour e) /\
  field_valid dom (e_dom e) /\ field_valid months (e_month e) /\ field_valid dow (e_dow e).

(** The bits of a field are those its expression denotes. *)
Definition field_is (r : bounds) (es : list range_expr) (bits : Z) : Prop :=
  forall j, 0 <= j -> Z.testbit bits j = field_denotes r es j.

Definition spec_is (e : spec_expr) (s : SpecSchedule) : Prop :=
  field_is seconds (e_second e) (Second s) /\ field_is minutes (e_minute e) (Minute s) /\
  field_is hours (e_hour e) (Hour s) /\ field_is dom (e_dom e) (Dom s) /\
  field_is months (e_month e) (Month s) /\ field_is dow (e_dow e) (Dow s).

Lemma spec_words_ok e : spec_valid e ->
  Forall (fun w => all_bytes graphic w = true /\ exists c s, w = String c s /\ start_byte c = true) (spec_words e).
Proof.
  pose proof all_bounds_ok as Hb. rewrite !Forall_cons in Hb. destruct Hb as (?&?&?&?&?&?&_).
  intros (?&?&?&?&?&?). unfold spec_words. cbn [map].
  repeat (apply Forall_cons; split; [eapply render_field_graphic; [|eassumption]; assumption|]). by apply Forall_nil.
Qed.

Lemma start_byte_prefix c s : start_byte c = true ->
  has_prefix (String c s) "TZ=" = false /\ has_prefix (String c s) "CRON_TZ=" = false
  /\ has_prefix (String c s) "@" = false.
Proof.
  intros Hc. unfold has_prefix. cbn [String.prefix].
  assert (forall d, start_byte d = false -> (if ascii_dec d c then true else false) = false) as Hd.
  { intros d Hd. destruct (ascii_dec d c) as [->|]; [congruence|done]. }
  pose proof (Hd "T"%char eq_refl) as H1. pose proof (Hd "C"%char eq_refl) as H2.
  pose proof (Hd "@"%char eq_refl) as H3.
  destruct (ascii_dec "T" c), (ascii_dec "C" c), (ascii_dec "@" c); done.
Qed.

(** C30: printing a valid expression for each of the six fields and parsing the
    text with a parser configured for six fields gives the schedule, in local
    time, whose bit sets hold exactly what the expressions denote. *)
Theorem Parse_render ll (p : Parser) (e : spec_expr) :
  takes_six (options p) -> spec_valid e ->
  exists s, Parse ll p (render_spec e) = Ok (Spec s) /\ Location s = Local /\ spec_is e s.
Proof.
  intros Hp He. pose proof (spec_words_ok e He) as Hw.
  assert (exists c s, render_spec e = String c s /\ start_byte c = true) as (c & str & Ec & Hc).
  { unfold render_spec, spec_words in *. cbn [map] in *.
    apply Forall_cons in Hw as [[_ (c & s & E & Hc)] _].
    destruct (join_start " "%char _ (map render_field [e_minute e; e_hour e; e_dom e; e_month e; e_dow e]) c s E)
      as [s' Es]. by exists c, s'. }
  destruct (start_byte_prefix c str Hc) as (Ht & Hct & Hat).
  unfold Parse, parse_zone. rewrite Ec. cbn [slen String.length].
  replace (slen (String c str) =? 0) with false by done. rewrite Ht, Hct. cbn [orb bind_outcome].
  rewrite Hat, <- Ec. unfold render_spec. rewrite fields_join.
  2: { eapply Forall_impl; [exact Hw|]. intros w [Hg (d & s & -> & _)]. done. }
  rewrite normalizeFields_full by done. cbn [bind_outcome spec_words map parse_fields].
  pose proof all_bounds_ok as Hb. rewrite !Forall_cons in Hb. destruct Hb as (B0&B1&B2&B3&B4&B5&_).
  destruct He as (V0&V1&V2&V3&V4&V5).
  destruct (getField_render _ _ B0 V0) as (b0 & -> & F0). destruct (getField_render _ _ B1 V1) as (b1 & -> & F1).
  destruct (getField_render _ _ B2 V2) as (b2 & -> & F2). destruct (getField_render _ _ B3 V3) as (b3 & -> & F3).
  destruct (getField_render _ _ B4 V4) as (b4 & -> & F4). destruct (getField_render _ _ B5 V5) as (b5 & -> & F5).
  eexists. split; [reflexivity|]. split; [done|]. by split_and!.
Qed.

(** The parser of [cron.go]: the day of week may be left out. *)
Definition second_options : Z :=
  Z.lor (Z.lor (Z.lor (Z.lor (Z.lor (Z.lor opt_Second opt_Minute) opt_Hour) opt_Dom) opt_Month)
    opt_DowOptional) opt_Descriptor.

Lemma Parse_render_witness :
  let e := mk_spec_expr [mk_range (BAll false) (Some 5)] [mk_range (BOne 3) None; mk_range (BSpan 7 20) (Some 4)]
             [mk_range (BAll false) None] [mk_range (BAll true) None] [mk_range (BOne 2) (Some 3)]
             [mk_range (BSpan 1 5) None] in
  render_spec e = "*/5 3,7-20/4 * ? 2/3 1-5" /\
  exists s, Parse (fun _ => None) (mk_parser second_options) (render_spec e) = Ok (Spec s)
    /\ Location s = Local /\ spec_is e s.
Proof.
  intros e. split; [vm_compute; reflexivity|].
  apply (Parse_render (fun _ => None) (mk_parser second_options) e).
  - split; [vm_compute; reflexivity|vm_compute; discriminate].
  - unfold spec_valid, field_valid, range_valid, e.
    cbn [e_second e_minute e_hour e_dom e_month e_dow]. repeat split; try discriminate;
      repeat constructor; cbn; lia.
Defined.
