(* ===== verification/CronChain.v ===== *)
(** * Job wrappers and the goroutines that run wrapped jobs ([src/job/chain.go])

    A [Job] is the closure tree the wrappers of chain.go build around a
    submitted function; a [JobWrapper] is a Go function from jobs to jobs that
    may allocate.  The state the closures share is explicit: [tokens] holds the
    one-place channels of [SkipIfStillRunning] whose token is in the buffer,
    [locked] the mutexes of [DelayIfStillRunning] that are held, [fresh] is the
    next identity to allocate.

    A running job is a goroutine: what it does next and the frames of the
    wrappers it is inside of.  [thread_step] makes one move of one goroutine, and
    [sys_step] interleaves the goroutines [startJob] created, in any order. *)

From S2P Require Import Prelude.

#[local] Open Scope nat_scope.

(** ** Jobs and wrappers *)

Inductive Job :=
  | FuncJob (f : nat)             (* a submitted function *)
  | RecoverJob (j : Job)
  | DelayJob (mu : nat) (j : Job)
  | SkipJob (ch : nat) (j : Job).

Record shared := mk_shared {
  tokens : gset nat;
  locked : gset nat;
  fresh : nat
}.

Definition JobWrapper := Job -> shared -> Job * shared.

(** [NewChain(w1, ..., wn).Then(j)]: the loop applies the wrappers from the last
    one to the first. *)
Abbreviation Chain := (list JobWrapper).

Definition Then (c : Chain) (j : Job) (w : shared) : Job * shared :=
  foldl (fun jw i => match c !! (length c - i - 1) with
                     | Some m => m jw.1 jw.2
                     | None => jw
                     end) (j, w) (seq 0 (length c)).

Definition Recover : JobWrapper := fun j w => (RecoverJob j, w).

(** The mutex is made when a job is wrapped: one for each job. *)
Definition DelayIfStillRunning : JobWrapper := fun j w =>
  (DelayJob (fresh w) j, mk_shared (tokens w) (locked w) (S (fresh w))).

(** The channel is made, and its token put in, when the wrapper is made: one
    for all the jobs it wraps. *)
Definition SkipIfStillRunning (w : shared) : JobWrapper * shared :=
  let ch := fresh w in
  ((fun j w' => (SkipJob ch j, w')), mk_shared ({[ch]} ∪ tokens w) (locked w) (S ch)).

(** ** Goroutines *)

Inductive frame :=
  | RecoverFrame                  (* the deferred recover *)
  | UnlockFrame (mu : nat)        (* the deferred [mu.Unlock()] *)
  | PutFrame (ch : nat).          (* the [ch <- v] that follows [j.Run()] *)

Inductive control :=
  | Enter (j : Job)               (* about to call [j.Run()] *)
  | Body (f : nat)                (* inside a submitted function *)
  | Return                        (* returning *)
  | Unwind.                       (* panicking *)

Abbreviation thread := (control * list frame)%type.

(** One move; [panics] says how a submitted function ends.  [None]: the
    goroutine is blocked or has no move left. *)
Definition thread_step (panics : bool) (w : shared) (t : thread) : option (shared * thread) :=
  match t with
  | (Enter (FuncJob f), k) => Some (w, (Body f, k))
  | (Enter (RecoverJob j), k) => Some (w, (Enter j, RecoverFrame :: k))
  | (Enter (DelayJob mu j), k) =>
      if decide (mu ∈ locked w) then None
      else Some (mk_shared (tokens w) ({[mu]} ∪ locked w) (fresh w), (Enter j, UnlockFrame mu :: k))
  | (Enter (SkipJob ch j), k) =>
      if decide (ch ∈ tokens w)
      then Some (mk_shared (tokens w ∖ {[ch]}) (locked w) (fresh w), (Enter j, PutFrame ch :: k))
      else Some (w, (Return, k))
  | (Body f, k) => Some (w, (if panics then Unwind else Return, k))
  | (Return, RecoverFrame :: k) => Some (w, (Return, k))
  | (Unwind, RecoverFrame :: k) => Some (w, (Return, k))
  | (Return, UnlockFrame mu :: k) =>
      Some (mk_shared (tokens w) (locked w ∖ {[mu]}) (fresh w), (Return, k))
  | (Unwind, UnlockFrame mu :: k) =>
      Some (mk_shared (tokens w) (locked w ∖ {[mu]}) (fresh w), (Unwind, k))
  | (Return, PutFrame ch :: k) =>
      if decide (ch ∈ tokens w) then None
      else Some (mk_shared ({[ch]} ∪ tokens w) (locked w) (fresh w), (Return, k))
  | (Unwind, PutFrame _ :: k) => Some (w, (Unwind, k))
  | (Return, []) | (Unwind, []) => None
  end.

#[global] Arguments thread_step : simpl never.

Record sys := mk_sys {
  mem : shared;
  threads : list thread;
  jobWaiter : nat                 (* the wait group of cron.go *)
}.

(** What can happen next: [startJob] makes a goroutine, a goroutine makes a
    move, or one that has returned leaves the wait group. *)
Inductive event :=
  | EStart (j : Job)
  | EMove (i : nat) (panics : bool)
  | EDone (i : nat).

Definition startJob (j : Job) (s : sys) : sys :=
  mk_sys (mem s) (threads s ++ [(Enter j, [])]) (S (jobWaiter s)).

(** An unrecovered panic ends the process. *)
Definition crashed (s : sys) : bool :=
  existsb (fun t => match t with (Unwind, []) => true | _ => false end) (threads s).

Definition sys_step (e : event) (s : sys) : option sys :=
  if crashed s then None else
  match e with
  | EStart j => Some (startJob j s)
  | EMove i panics =>
      t ← threads s !! i;
      '(w, t') ← thread_step panics (mem s) t;
      Some (mk_sys w (<[i := t']> (threads s)) (jobWaiter s))
  | EDone i =>
      match threads s !! i with
      | Some (Return, []) => Some (mk_sys (mem s) (delete i (threads s)) (pred (jobWaiter s)))
      | _ => None
      end
  end.

Fixpoint run_events (es : list event) (s : sys) : option sys :=
  match es with
  | [] => Some s
  | e :: es => s' ← sys_step e s; run_events es s'
  end.

(** ** Who holds what *)

Definition holds (ch : nat) (f : frame) : bool :=
  match f with PutFrame c => bool_decide (c = ch) | _ => false end.

Definition locks (mu : nat) (f : frame) : bool :=
  match f with UnlockFrame m => bool_decide (m = mu) | _ => false end.

Fixpoint count {A} (p : A -> bool) (l : list A) : nat :=
  match l with
  | [] => 0
  | x :: l => (if p x then 1 else 0) + count p l
  end.

Definition frames (s : sys) : list frame := concat (map snd (threads s)).

(** The goroutines inside the body that channel [ch] guards, and inside the
    section that mutex [mu] guards. *)
Definition inside (ch : nat) (s : sys) : nat := count (holds ch) (frames s).
Definition holders (mu : nat) (s : sys) : nat := count (locks mu) (frames s).

Definition b2n (b : bool) : nat := if b then 1 else 0.

(** Every channel has at most one token, in its buffer or with a goroutine; a
    mutex is held exactly when one goroutine will unlock it; the wait group counts
    the goroutines. *)
Record sys_ok (s : sys) : Prop := {
  ok_token : forall ch, b2n (bool_decide (ch ∈ tokens (mem s))) + inside ch s <= 1;
  ok_mutex : forall mu, b2n (bool_decide (mu ∈ locked (mem s))) = holders mu s;
  ok_waiter : jobWaiter s = length (threads s)
}.

(** ** Counting frames *)

Lemma count_app {A} (p : A -> bool) l1 l2 : count p (l1 ++ l2) = count p l1 + count p l2.
Proof. induction l1; simpl; lia. Qed.

Lemma count_insert_frames p (ts : list thread) i c k c' k' :
  ts !! i = Some (c, k) ->
  count p (concat (map snd (<[i := (c', k')]> ts))) + count p k
  = count p (concat (map snd ts)) + count p k'.
Proof.
  revert i. induction ts as [|t ts IH]; intros [|i] H; simplify_eq/=.
  - rewrite !count_app. lia.
  - rewrite !count_app. specialize (IH _ H). lia.
Qed.

Lemma count_delete_frames p (ts : list thread) i c :
  ts !! i = Some (c, []) ->
  count p (concat (map snd (delete i ts))) = count p (concat (map snd ts)).
Proof.
  revert i. induction ts as [|t ts IH]; intros [|i] H; simplify_eq/=; [done|].
  rewrite !count_app. by rewrite (IH _ H).
Qed.

Lemma count_lookup_frames p (ts : list thread) i c k :
  ts !! i = Some (c, k) -> count p k <= count p (concat (map snd ts)).
Proof.
  revert i. induction ts as [|t ts IH]; intros [|i] H; simplify_eq/=; rewrite count_app; [lia|].
  specialize (IH _ H). lia.
Qed.

Lemma frames_start j s : frames (startJob j s) = frames s.
Proof. unfold frames. simpl. by rewrite map_app, concat_app, app_nil_r. Qed.

(** A move changes the frames of one goroutine only. *)
Lemma inside_move ch s i c k w c' k' n :
  threads s !! i = Some (c, k) ->
  inside ch (mk_sys w (<[i := (c', k')]> (threads s)) n) + count (holds ch) k
  = inside ch s + count (holds ch) k'.
Proof. apply count_insert_frames. Qed.

Lemma holders_move mu s i c k w c' k' n :
  threads s !! i = Some (c, k) ->
  holders mu (mk_sys w (<[i := (c', k')]> (threads s)) n) + count (locks mu) k
  = holders mu s + count (locks mu) k'.
Proof. apply count_insert_frames. Qed.

(** One move, as a change of the tokens and mutexes that matches the change of
    the frames of the goroutine. *)
Lemma thread_step_balance panics w c k w' c' k' :
  thread_step panics w (c, k) = Some (w', (c', k')) ->
  (forall ch, b2n (bool_decide (ch ∈ tokens w')) + count (holds ch) k'
              <= b2n (bool_decide (ch ∈ tokens w)) + count (holds ch) k) /\
  (forall mu, count (locks mu) k <= b2n (bool_decide (mu ∈ locked w)) ->
              b2n (bool_decide (mu ∈ locked w')) + count (locks mu) k
              = b2n (bool_decide (mu ∈ locked w)) + count (locks mu) k').
Proof.
  intros H.
  destruct c as [[f|j|mu j|ch j]|f| |]; [| | | | |destruct k as [|[|mu|ch] k]..]; unfold thread_step in H;
    repeat case_decide; simplify_eq; (split; [intros x|intros x Hx]); simpl in *;
    repeat (case_bool_decide; simpl in *); try lia;
    exfalso; rewrite ?elem_of_union, ?elem_of_difference, ?elem_of_singleton in *; intuition congruence.
Qed.

Lemma crashed_ok e s s' : sys_step e s = Some s' -> crashed s = false.
Proof. unfold sys_step. by destruct (crashed s). Qed.

Lemma b2n_le b : b2n b <= 1.
Proof. destruct b; simpl; lia. Qed.

(** Every event keeps the invariant. *)
Lemma sys_step_ok e s s' : sys_ok s -> sys_step e s = Some s' -> sys_ok s'.
Proof.
  intros [Ht Hm Hw] H. unfold sys_step in H. destruct (crashed s); [done|].
  destruct e as [j|i b|i].
  - simplify_eq. split; [intros ch; specialize (Ht ch)|intros mu; specialize (Hm mu)|].
    + unfold inside in *. by rewrite frames_start.
    + unfold holders in *. by rewrite frames_start.
    + simpl. rewrite length_app. simpl. lia.
  - destruct (threads s !! i) as [[c k]|] eqn:Hi; simpl in H; [|done].
    destruct (thread_step b (mem s) (c, k)) as [[w [c' k']]|] eqn:E; cbn in H; [|done].
    injection H as <-. apply thread_step_balance in E as [Hch Hmu]. split.
    + intros ch. specialize (Ht ch). specialize (Hch ch).
      pose proof (inside_move ch s i c k w c' k' (jobWaiter s) Hi) as M. simpl. lia.
    + intros mu. specialize (Hm mu). specialize (Hmu mu).
      pose proof (holders_move mu s i c k w c' k' (jobWaiter s) Hi) as M. simpl.
      pose proof (count_lookup_frames (locks mu) _ _ _ _ Hi) as L. fold (frames s) in L.
      fold (holders mu s) in L. specialize (Hmu ltac:(lia)). lia.
    + simpl. by rewrite length_insert.
  - destruct (threads s !! i) as [[[] [|]]|] eqn:Hi; simplify_eq/=.
    pose proof (fun p => count_delete_frames p _ _ _ Hi) as D. split.
    + intros ch. specialize (Ht ch). unfold inside, frames in *. simpl. by rewrite D.
    + intros mu. specialize (Hm mu). unfold holders, frames in *. simpl. by rewrite D.
    + simpl. rewrite length_delete; [lia|eauto].
Qed.

Lemma run_events_ok es s s' : sys_ok s -> run_events es s = Some s' -> sys_ok s'.
Proof.
  revert s. induction es as [|e es IH]; intros s Hs H; simplify_eq/=; [done|].
  destruct (sys_step e s) eqn:E; simpl in H; [|done]. eauto using sys_step_ok.
Qed.

(** ** What the wrappers promise *)

(** No goroutine yet: the state when the chain has been built. *)
Definition initial (w : shared) : sys := mk_sys w [] 0.

Lemma initial_ok w : locked w = ∅ -> sys_ok (initial w).
Proof.
  intros H. split; [intros ch|intros mu|done]; unfold inside, holders; simpl.
  - pose proof (b2n_le (bool_decide (ch ∈ tokens w))). lia.
  - rewrite H. by rewrite bool_decide_eq_false_2 by set_solver.
Qed.

Lemma reachable_ok w es s :
  locked w = ∅ -> run_events es (initial w) = Some s -> sys_ok s.
Proof. intros H. apply run_events_ok. by apply initial_ok. Qed.

(** The loop that indexes the wrappers from the end is a right fold. *)
Lemma Then_go (c : Chain) jw n :
  n <= length c ->
  foldl (fun jw i => match c !! (length c - i - 1) with
                     | Some m => m jw.1 jw.2
                     | None => jw
                     end) jw (seq 0 n)
  = foldr (fun (m : JobWrapper) jw => m jw.1 jw.2) jw (drop (length c - n) c).
Proof.
  revert jw. induction n as [|n IH]; intros jw H.
  - simpl. by rewrite drop_ge by lia.
  - rewrite seq_S, foldl_app, IH by lia. simpl.
    destruct (c !! (length c - n - 1)) as [m|] eqn:E.
    + replace (length c - S n) with (length c - n - 1) by lia.
      rewrite (drop_S (c : list JobWrapper) (m : JobWrapper) _ E). simpl. by replace (S (length c - n - 1)) with (length c - n) by lia.
    + apply (lookup_ge_None (c : list JobWrapper)) in E. lia.
Qed.

Lemma Then_foldr c j w : Then c j w = foldr (fun (m : JobWrapper) jw => m jw.1 jw.2) (j, w) c.
Proof. unfold Then. rewrite Then_go by done. by rewrite Nat.sub_diag. Qed.

(** A lost token stays lost. *)
Definition token_lost (ch : nat) (s : sys) : Prop := (ch ∉ tokens (mem s)) /\ inside ch s = 0.

Lemma token_lost_step ch e s s' : token_lost ch s -> sys_step e s = Some s' -> token_lost ch s'.
Proof.
  intros [Ht Hi] H. unfold sys_step in H. destruct (crashed s); [done|]. destruct e as [j|i b|i].
  - simplify_eq. split; [done|]. unfold inside in *. by rewrite frames_start.
  - destruct (threads s !! i) as [[c k]|] eqn:Hk; cbn in H; [|done].
    destruct (thread_step b (mem s) (c, k)) as [[w [c' k']]|] eqn:E; cbn in H; [|done].
    injection H as <-. apply thread_step_balance in E as [E _]. specialize (E ch).
    pose proof (inside_move ch s i c k w c' k' (jobWaiter s) Hk) as M.
    pose proof (count_lookup_frames (holds ch) _ _ _ _ Hk) as L. fold (frames s) in L.
    fold (inside ch s) in L. rewrite (bool_decide_eq_false_2 (ch ∈ tokens (mem s))) in E by done.
    simpl in E. split; [|lia]. intros Hc. simpl in Hc. rewrite bool_decide_eq_true_2 in E by done.
    simpl in E. lia.
  - destruct (threads s !! i) as [[[] [|]]|] eqn:Hk; simplify_eq/=. split; [done|].
    unfold inside, frames in *. simpl. by rewrite (count_delete_frames _ _ _ _ Hk).
Qed.

Lemma token_lost_run ch es s s' : token_lost ch s -> run_events es s = Some s' -> token_lost ch s'.
Proof.
  revert s. induction es as [|e es IH]; intros s Hs H; simplify_eq/=; [done|].
  destruct (sys_step e s) eqn:E; simpl in H; [|done]. eauto using token_lost_step.
Qed.

Lemma skip_without_token b w ch j k :
  ch ∉ tokens w -> thread_step b w (Enter (SkipJob ch j), k) = Some (w, (Return, k)).
Proof. intros H. unfold thread_step. by rewrite decide_False. Qed.

(** C9: [SkipIfStillRunning] lets at most one goroutine at a time into the jobs
    of one wrapper, whatever the interleaving; while one is inside, an invocation
    of any job of that wrapper returns at once without running it.  After a panic
    has unwound past the wrapper the token is gone and all later invocations are
    skipped for ever. *)
Theorem skip_exclusive w es s ch :
  locked w = ∅ -> run_events es (initial w) = Some s ->
  inside ch s <= 1 /\
  (inside ch s = 1 -> forall b j k,
     thread_step b (mem s) (Enter (SkipJob ch j), k) = Some (mem s, (Return, k))) /\
  (ch ∉ tokens (mem s) -> inside ch s = 0 -> forall es' s', run_events es' s = Some s' ->
     inside ch s' = 0 /\ forall b j k,
     thread_step b (mem s') (Enter (SkipJob ch j), k) = Some (mem s', (Return, k))).
Proof.
  intros Hw Hr. pose proof (reachable_ok _ _ _ Hw Hr) as [Ht _ _]. specialize (Ht ch). split_and!.
  - lia.
  - intros Hi b j k. apply skip_without_token. intros Hc.
    rewrite bool_decide_eq_true_2 in Ht by done. simpl in Ht. lia.
  - intros Hc Hi es' s' H'.
    destruct (token_lost_run ch es' s s') as [Hc' Hi']; [done|done|].
    split; [done|]. intros. by apply skip_without_token.
Qed.

(** Two jobs of one [SkipIfStillRunning] wrapper under [Recover]: the first runs
    and panics, the second never runs. *)
Definition skip_demo : Chain * shared :=
  let '(m, w) := SkipIfStillRunning (mk_shared ∅ ∅ 0) in ([Recover; m], w).

Definition skip_events : list event :=
  let job f := fst (Then skip_demo.1 (FuncJob f) skip_demo.2) in
  EStart (job 1) :: repeat (EMove 0 true) 6 ++ [EDone 0].

Lemma skip_exclusive_witness :
  exists s, run_events skip_events (initial skip_demo.2) = Some s /\
  inside 0 s <= 1 /\ forall es' s', run_events es' s = Some s' ->
    forall b k, thread_step b (mem s') (Enter (SkipJob 0 (FuncJob 2)), k) = Some (mem s', (Return, k)).
Proof.
  eexists. split; [vm_compute; reflexivity|].
  match goal with |- inside 0 ?s <= _ /\ _ =>
    pose proof (skip_exclusive skip_demo.2 skip_events s 0 eq_refl ltac:(vm_compute; reflexivity)) as (H1 & _ & H2)
  end.
  split; [exact H1|]. intros es' s' Hr b k.
  apply (H2 ltac:(vm_compute; set_solver) ltac:(vm_compute; reflexivity) es' s' Hr).
Defined.

(** C22: the mutex of a job wrapped by [DelayIfStillRunning] is held exactly when
    one goroutine is inside that job; no panic leaks it.  So the runs of the
    job never overlap, and one waits only while another is inside. *)
Theorem delay_exclusive w es s mu :
  locked w = ∅ -> run_events es (initial w) = Some s ->
  holders mu s <= 1 /\
  forall b j k, thread_step b (mem s) (Enter (DelayJob mu j), k) = None <-> holders mu s = 1.
Proof.
  intros Hw Hr. pose proof (reachable_ok _ _ _ Hw Hr) as [_ Hm _]. specialize (Hm mu).
  pose proof (b2n_le (bool_decide (mu ∈ locked (mem s)))). split; [lia|].
  intros b j k. rewrite <- Hm. unfold thread_step. destruct (decide _) as [E|E].
  - by rewrite bool_decide_eq_true_2.
  - by rewrite bool_decide_eq_false_2.
Qed.

Definition delay_demo : Job * shared := Then [DelayIfStillRunning; Recover] (FuncJob 7) (mk_shared ∅ ∅ 3).

Lemma delay_exclusive_witness :
  exists s, run_events [EStart delay_demo.1; EMove 0 true; EMove 0 true; EMove 0 true; EStart delay_demo.1]
              (initial delay_demo.2) = Some s /\
  holders 3 s = 1 /\ thread_step false (mem s) (Enter delay_demo.1, []) = None.
Proof.
  eexists. split; [vm_compute; reflexivity|].
  match goal with |- holders 3 ?s = _ /\ _ =>
    destruct (delay_exclusive delay_demo.2 [EStart delay_demo.1; EMove 0 true; EMove 0 true; EMove 0 true; EStart delay_demo.1]
      s 3 eq_refl ltac:(vm_compute; reflexivity)) as [_ H2]
  end.
  split; [vm_compute; reflexivity|]. apply H2. vm_compute. reflexivity.
Defined.

(** A goroutine whose outermost frame is a deferred recover, or that has not
    reached it yet. *)
Definition recovering (t : thread) : bool :=
  match t with
  | (Enter (RecoverJob _), []) => true
  | (Return, []) => true
  | (_, k) => match last k with Some RecoverFrame => true | _ => false end
  end.

Lemma last_cons_frame (f : frame) (k : list frame) : last (f :: k) = match last k with Some x => Some x | None => Some f end.
Proof. destruct k as [|g k]; [done|]. rewrite last_cons_cons. by destruct (last_is_Some (g :: k)) as [_ [x ->]]. Qed.

Lemma recovering_step b w t w' t' :
  recovering t = true -> thread_step b w t = Some (w', t') -> recovering t' = true.
Proof.
  intros Hr H. destruct t as [c k].
  destruct c as [[f|j|mu j|ch j]|f| |]; [| | | | |destruct k as [|[|mu|ch] k]..];
    unfold thread_step in H; repeat case_decide; simplify_eq; try done;
    try (destruct b); unfold recovering in *; rewrite ?last_cons_frame in *;
    repeat case_match; simplify_eq/=; try congruence;
    match goal with H : last (_ :: _) = None |- _ => by apply last_None in H end.
Qed.

Lemma recovering_run es s s' :
  (forall j, EStart j ∈ es -> exists j', j = RecoverJob j') ->
  Forall (fun t => recovering t = true) (threads s) ->
  run_events es s = Some s' -> Forall (fun t => recovering t = true) (threads s').
Proof.
  revert s. induction es as [|e es IH]; intros s He Hs H; simplify_eq/=; [done|].
  destruct (sys_step e s) as [s1|] eqn:E; cbn in H; [|done].
  apply (IH s1); [set_solver| |done]. unfold sys_step in E. destruct (crashed s); [done|].
  destruct e as [j|i b|i].
  - injection E as <-. apply Forall_app. split; [done|]. constructor; [|done].
    destruct (He j) as [j' ->]; [set_solver|done].
  - destruct (threads s !! i) as [t|] eqn:Hi; cbn in E; [|done].
    destruct (thread_step b (mem s) t) as [[w' t']|] eqn:Et; cbn in E; [|done].
    injection E as <-. apply Forall_insert; [done|].
    eapply recovering_step; [|exact Et]. exact (Forall_lookup_1 _ _ _ _ Hs Hi).
  - destruct (threads s !! i) as [[[] [|]]|] eqn:Hi; simplify_eq/=. by apply Forall_delete.
Qed.

(** With a chain that starts with [Recover] no job ends the process: whatever
    the submitted functions do and however the goroutines interleave, no goroutine
    is left with a panic. *)
Theorem recover_never_crashes c w0 es s :
  (forall j, EStart j ∈ es -> exists f w, j = (Then (Recover :: c) (FuncJob f) w).1) ->
  run_events es (initial w0) = Some s ->
  crashed s = false.
Proof.
  intros He H.
  assert (Forall (fun t => recovering t = true) (threads s)) as Hs.
  { apply (recovering_run es (initial w0)); [|by constructor|exact H]. intros j Hj.
    destruct (He j Hj) as (f & w & ->). rewrite Then_foldr. simpl. eauto. }
  unfold crashed. destruct (existsb _ _) eqn:E; [|done].
  apply existsb_exists in E as (t & Ht & Hc). apply list_elem_of_In in Ht.
  rewrite Forall_forall in Hs. specialize (Hs t Ht).
  by destruct t as [[| | |] [|]].
Qed.

Lemma recover_never_crashes_witness :
  exists s, run_events skip_events (initial skip_demo.2) = Some s /\ crashed s = false.
Proof.
  eexists. split; [vm_compute; reflexivity|].
  apply (recover_never_crashes (drop 1 skip_demo.1) skip_demo.2 skip_events); [|vm_compute; reflexivity].
  intros j Hj. exists 1, skip_demo.2. apply list_elem_of_In in Hj.
  vm_compute in Hj. decompose [or] Hj; try discriminate; try contradiction; by simplify_eq.
Defined.
