(* ===== verification/Cron.v ===== *)
(** * The scheduler ([src/job/cron.go], [src/job/option.go])

    A [Cron] value is the struct of cron.go together with what its goroutines
    share: the state of the goroutine of [run] ([loop]), the request a client is
    blocked on while it holds [runningMu] ([pending]), the clock, and the
    goroutines of the started jobs ([jobs], see CronChain.v).

    [cron_step] makes one atomic move: a client call, the receipt of a client's
    request by the loop, one phase of the loop, the passing of time, or a move of
    a job.  The unbuffered channels [add], [remove], [snapshot] and [stop] are
    rendezvous: a call that sends on one holds [runningMu] until the loop receives,
    so no other call happens in between, but the timer may.  [sort.Sort] is not
    stable: a sorting move carries the permutation it performed, and any one that
    sorts by [byTime] is allowed. *)

From stdpp Require Import sorting.
From S2P Require Import Prelude GoTime CronSpec CronParser CronChain.

(** ** Entries *)

Record Entry (S : Type) := mk_entry {
  ID : Z;
  e_Schedule : S;
  e_Next : time;                  (* zero when not started or unsatisfiable *)
  e_Prev : time;                  (* zero when never run *)
  WrappedJob : Job;
  e_Job : Job
}.
Arguments mk_entry {S}. Arguments ID {S}. Arguments e_Schedule {S}. Arguments e_Next {S}.
Arguments e_Prev {S}. Arguments WrappedJob {S}. Arguments e_Job {S}.

(** The goroutine of [run]: not there, spawned, at the head of the outer loop
    with its variable [now], or in [select] with a timer set to fire at the reading
    [fires] of the clock. *)
Inductive loop_state :=
  | NoLoop
  | Starting
  | Sorting (now : time)
  | Selecting (now : time) (fires : Z).

(** A client blocked on one of the channels. *)
Inductive request (S : Type) :=
  | AddReq (e : Entry S)
  | RemoveReq (id : Z)
  | SnapshotReq
  | StopReq.
Arguments AddReq {S}. Arguments RemoveReq {S}. Arguments SnapshotReq {S}. Arguments StopReq {S}.

Record Cron (S : Type) := mk_cron {
  entries : list (Entry S);
  chain : list JobWrapper;
  running : bool;
  location : GoTime.location;
  parser : Parser;
  nextID : Z;
  loop : loop_state;
  pending : option (request S);
  clk : Z;
  jobs : sys
}.
Arguments mk_cron {S}. Arguments entries {S}. Arguments chain {S}. Arguments running {S}.
Arguments location {S}. Arguments parser {S}. Arguments nextID {S}. Arguments loop {S}.
Arguments pending {S}. Arguments clk {S}. Arguments jobs {S}.

Section Scheduler.
Context {S : Type}.
Implicit Types (c : Cron S) (e : Entry S) (es : list (Entry S)).

Definition set_entries c es : Cron S :=
  mk_cron es (chain c) (running c) (location c) (parser c) (nextID c) (loop c) (pending c) (clk c) (jobs c).
Definition set_running c b l : Cron S :=
  mk_cron (entries c) (chain c) b (location c) (parser c) (nextID c) l (pending c) (clk c) (jobs c).
Definition set_nextID c i : Cron S :=
  mk_cron (entries c) (chain c) (running c) (location c) (parser c) i (loop c) (pending c) (clk c) (jobs c).
Definition set_loop c l : Cron S :=
  mk_cron (entries c) (chain c) (running c) (location c) (parser c) (nextID c) l (pending c) (clk c) (jobs c).
Definition set_pending c r : Cron S :=
  mk_cron (entries c) (chain c) (running c) (location c) (parser c) (nextID c) (loop c) r (clk c) (jobs c).
Definition set_clk c t : Cron S :=
  mk_cron (entries c) (chain c) (running c) (location c) (parser c) (nextID c) (loop c) (pending c) t (jobs c).
Definition set_jobs c s : Cron S :=
  mk_cron (entries c) (chain c) (running c) (location c) (parser c) (nextID c) (loop c) (pending c) (clk c) s.

(** [byTime.Less], with the zero time at the end. *)
Definition Less e1 e2 : bool :=
  if is_zero (e_Next e1) then false
  else if is_zero (e_Next e2) then true
  else before (e_Next e1) (e_Next e2).

(** [sort.Sort]: no element is less than the one before it. *)
Fixpoint is_sorted es : bool :=
  match es with
  | e1 :: ((e2 :: _) as rest) => negb (Less e2 e1) && is_sorted rest
  | _ => true
  end.

Definition permuted (p : list nat) es : option (list (Entry S)) :=
  if decide (p ≡ₚ seq 0 (length es)) then Some (omap (fun i => es !! i) p) else None.

(** ** Construction and options *)

Definition Option := Cron S -> Cron S.

Definition WithLocation (loc : GoTime.location) : Option := fun c =>
  mk_cron (entries c) (chain c) (running c) loc (parser c) (nextID c) (loop c) (pending c) (clk c) (jobs c).

Definition WithParser (p : Parser) : Option := fun c =>
  mk_cron (entries c) (chain c) (running c) (location c) p (nextID c) (loop c) (pending c) (clk c) (jobs c).

Definition WithChain (wrappers : list JobWrapper) : Option := fun c =>
  mk_cron (entries c) wrappers (running c) (location c) (parser c) (nextID c) (loop c) (pending c) (clk c) (jobs c).

Definition six_fields (dow : Z) : Z :=
  Z.lor (Z.lor (Z.lor (Z.lor (Z.lor (Z.lor opt_Second opt_Minute) opt_Hour) opt_Dom) opt_Month) dow) opt_Descriptor.

Definition WithSeconds : parse_result Option :=
  let* p := NewParser (six_fields opt_Dow) in Ok (WithParser p).

Definition secondParser : parse_result Parser := NewParser (six_fields opt_DowOptional).

(** [New]; the channels, the mutex and the wait group start empty. *)
Definition New (standardParser : Parser) (w : shared) (t : Z) (opts : list Option) : Cron S :=
  foldl (fun c opt => opt c)
    (mk_cron [] [] false Local standardParser 0 NoLoop None t (initial w)) opts.

Definition NewJob (standardParser : Parser) (w : shared) (t : Z) : parse_result (Cron S) :=
  let* p := secondParser in Ok (New standardParser w t [WithParser p; WithChain []]).

(** ** Client calls, up to the point where they block *)

Definition Schedule_ c (s : S) (cmd : Job) : Z * Cron S :=
  let id := int64 (nextID c + 1) in
  let '(wrapped, w) := Then (chain c) cmd (mem (jobs c)) in
  let entry := mk_entry id s zero_time zero_time wrapped cmd in
  let c := set_jobs (set_nextID c id) (mk_sys w (threads (jobs c)) (jobWaiter (jobs c))) in
  (id, if running c then set_pending c (Some (AddReq entry))
       else set_entries c (entries c ++ [entry])).

Definition removeEntry (id : Z) es : list (Entry S) :=
  filter (fun e => ID e <> id) es.

Definition Remove c (id : Z) : Cron S :=
  if running c then set_pending c (Some (RemoveReq id))
  else set_entries c (removeEntry id (entries c)).

Definition entrySnapshot c : list (Entry S) := entries c.

(** [Entries]: the snapshot, or [None] and the request the call is blocked on. *)
Definition Entries c : option (list (Entry S)) * Cron S :=
  if running c then (None, set_pending c (Some SnapshotReq)) else (Some (entrySnapshot c), c).

(** The search of [Entry] in a snapshot; [None] is the zero entry. *)
Definition find_entry (id : Z) es : option (Entry S) :=
  head (filter (fun e => ID e = id) es).

Definition Start c : Cron S := if running c then c else set_running c true Starting.

Definition Stop c : Cron S := if running c then set_pending c (Some StopReq) else c.

(** ** The loop *)

Context `{Schedule S}.

Definition now c : time := t_in (mk_time (clk c) Local) (location c).

Definition next_entry (t : time) e : Entry S :=
  mk_entry (ID e) (e_Schedule e) (sched_next (e_Schedule e) t) (e_Prev e) (WrappedJob e) (e_Job e).

(** Sets the timer for the first entry, or for a long time. *)
Definition timer (t : time) es : Z :=
  match es with
  | [] => 100000 * hour_dur
  | e :: _ => if is_zero (e_Next e) then 100000 * hour_dur else t_sub (e_Next e) t
  end.

Definition arm c (t : time) : Cron S := set_loop c (Selecting t (clk c + timer t (entries c))).

(** The entries of a wake at [t], each started and moved to its next activation,
    up to the first one that is not due. *)
Fixpoint run_due (t : time) es (s : sys) : list (Entry S) * sys :=
  match es with
  | [] => ([], s)
  | e :: rest =>
      if after (e_Next e) t || is_zero (e_Next e) then (es, s)
      else
        let s := startJob (WrappedJob e) s in
        let e' := mk_entry (ID e) (e_Schedule e) (sched_next (e_Schedule e) t) (e_Next e) (WrappedJob e) (e_Job e) in
        let '(rest', s') := run_due t rest s in
        (e' :: rest', s')
  end.

(** The moves. *)
Inductive move :=
  | Elapse (d : Z)                 (* time passes *)
  | CallSchedule (s : S) (j : Job) | CallRemove (id : Z) | CallEntries | CallStart | CallStop
  | Begin                          (* the head of [run] *)
  | Sort (p : list nat)            (* [sort.Sort], and the timer is set *)
  | Wake                           (* [case now = <-timer.C] *)
  | Receive                        (* the loop receives the pending request *)
  | JobMove (ev : event).          (* a goroutine of a job *)

(** The receiving cases of the [select]. *)
Definition receive (r : request S) (t : time) (f : Z) c : Cron S :=
  let c := set_pending c None in
  match r with
  | AddReq e =>
      let t := now c in
      set_loop (set_entries c (entries c ++ [next_entry t e])) (Sorting t)
  | SnapshotReq => set_loop c (Selecting t f)
  | StopReq => set_running c false NoLoop
  | RemoveReq id => set_loop (set_entries c (removeEntry id (entries c))) (Sorting (now c))
  end.

(** A call needs [runningMu], which a blocked call holds. *)
Definition call c (k : Cron S -> Cron S) : option (Cron S) :=
  match pending c with None => Some (k c) | Some _ => None end.

Definition cron_step (m : move) c : option (Cron S) :=
  if crashed (jobs c) then None else
  match m with
  | Elapse d => if 0 <=? d then Some (set_clk c (clk c + d)) else None
  | CallSchedule s j => call c (fun c => (Schedule_ c s j).2)
  | CallRemove id => call c (fun c => Remove c id)
  | CallEntries => call c (fun c => (Entries c).2)
  | CallStart => call c Start
  | CallStop => call c Stop
  | Begin =>
      match loop c with
      | Starting =>
          let t := now c in
          Some (set_loop (set_entries c (map (next_entry t) (entries c))) (Sorting t))
      | _ => None
      end
  | Sort p =>
      match loop c with
      | Sorting t =>
          es ← permuted p (entries c);
          if is_sorted es then Some (arm (set_entries c es) t) else None
      | _ => None
      end
  | Wake =>
      match loop c with
      | Selecting _ f =>
          if f <=? clk c then
            let t := now c in
            let '(es, s) := run_due t (entries c) (jobs c) in
            Some (set_loop (set_jobs (set_entries c es) s) (Sorting t))
          else None
      | _ => None
      end
  | Receive =>
      match loop c, pending c with
      | Selecting t f, Some r => Some (receive r t f c)
      | _, _ => None
      end
  | JobMove ev =>
      match ev with
      | EStart _ => None           (* only the loop starts jobs *)
      | _ => s ← sys_step ev (jobs c); Some (set_jobs c s)
      end
  end.

Fixpoint run_moves (ms : list move) c : option (Cron S) :=
  match ms with
  | [] => Some c
  | m :: ms => c' ← cron_step m c; run_moves ms c'
  end.
End Scheduler.
Arguments move : clear implicits.

(** [AddJob] and [AddFunc]: the schedule comes from the parser; an error leaves
    the scheduler as it was. *)
Section Parsed.
Context (load_location : string -> option GoTime.location).

Definition AddJob (c : Cron any_schedule) (spec : string) (cmd : Job) : parse_result (Z * Cron any_schedule) :=
  let* s := Parse load_location (parser c) spec in Ok (Schedule_ c s cmd).

Definition AddFunc (c : Cron any_schedule) (spec : string) (f : nat) : parse_result (Z * Cron any_schedule) :=
  AddJob c spec (FuncJob f).

(** [Run]: adds the tasks to a new scheduler, drops the errors, and starts it. *)
Definition add_task (c : parse_result (Cron any_schedule)) (task : string * nat) : parse_result (Cron any_schedule) :=
  let* c := c in
  match AddFunc c task.1 task.2 with
  | Ok (_, c') => Ok c'
  | Err _ => Ok c
  | Panic w => Panic w
  end.

Definition Run (standardParser : Parser) (w : shared) (t : Z) (task : list (string * nat)) :
    parse_result (option (Cron any_schedule)) :=
  match task with
  | [] => Ok None
  | _ => let* c := foldl add_task (NewJob standardParser w t) task in Ok (Some (Start c))
  end.
End Parsed.

(** ** The order of the entries *)

Section Order.
Context {S : Type}.
Implicit Types (e : Entry S) (es : list (Entry S)).

(** [Less] compares the keys, the zero time being the greatest. *)
Definition key_le e1 e2 : Prop :=
  is_zero (e_Next e2) = true \/ (is_zero (e_Next e1) = false /\ t_ns (e_Next e1) <= t_ns (e_Next e2)).

Lemma not_Less e1 e2 : Less e2 e1 = false <-> key_le e1 e2.
Proof.
  unfold Less, key_le, before. destruct (is_zero (e_Next e2)), (is_zero (e_Next e1)); intuition (try congruence);
  apply Z.ltb_ge; assumption.
Qed.

#[global] Instance key_le_dec : RelDecision key_le.
Proof. intros e1 e2. unfold key_le. apply _. Defined.

#[global] Instance key_le_trans : Transitive key_le.
Proof.
  intros e1 e2 e3. unfold key_le. intros [H1|[H1 H2]] [H3|[H3 H4]]; try (by left); [congruence|].
  right. split; [done|lia].
Qed.

#[global] Instance key_le_total : Total key_le.
Proof.
  intros e1 e2. unfold key_le. destruct (is_zero (e_Next e2)) eqn:E2, (is_zero (e_Next e1)) eqn:E1; try tauto.
  destruct (Z.le_ge_cases (t_ns (e_Next e1)) (t_ns (e_Next e2))); tauto.
Qed.

Lemma is_sorted_Sorted es : is_sorted es = true <-> Sorted key_le es.
Proof.
  induction es as [|e1 [|e2 es] IH].
  - split; [constructor|done].
  - split; [repeat constructor|done].
  - change (is_sorted (e1 :: e2 :: es)) with (negb (Less e2 e1) && is_sorted (e2 :: es)).
    rewrite andb_true_iff, negb_true_iff, not_Less, IH. split.
    + intros [H1 H2]. constructor; [done|]. by constructor.
    + intros H. inversion H as [|? ? H1 H2]; subst. inversion H2; subst. done.
Qed.

Lemma is_sorted_strongly es : is_sorted es = true -> StronglySorted key_le es.
Proof. intros H. apply Sorted_StronglySorted; [exact key_le_trans|]. by apply is_sorted_Sorted. Qed.

Lemma omap_seq es : omap (fun i => es !! i) (seq 0 (length es)) = es.
Proof.
  assert (forall pre, omap (fun i => (pre ++ es)%list !! i) (seq (length pre) (length es)) = es) as H.
  { induction es as [|e es IH]; intros pre; [done|]. simpl.
    rewrite list_lookup_middle by done. f_equal. specialize (IH (pre ++ [e])%list).
    rewrite length_app, <- app_assoc in IH. simpl in IH. by rewrite Nat.add_1_r in IH. }
  exact (H []).
Qed.

Lemma permuted_perm p es es' : permuted p es = Some es' -> es' ≡ₚ es.
Proof.
  unfold permuted. case_decide as Hp; [|done]. intros [= <-].
  transitivity (omap (fun i => es !! i) (seq 0 (length es))); [by rewrite Hp|by rewrite omap_seq].
Qed.

Definition pair_le (a b : nat * Entry S) : Prop := key_le a.2 b.2.

#[global] Instance pair_le_dec : RelDecision pair_le.
Proof. intros a b. unfold pair_le. apply _. Defined.

#[global] Instance pair_le_total : Total pair_le.
Proof. intros a b. apply key_le_total. Qed.

Lemma omap_pairs es (ps : list (nat * Entry S)) :
  Forall (fun a => es !! a.1 = Some a.2) ps -> omap (fun i => es !! i) ps.*1 = ps.*2.
Proof. induction 1 as [|a ps Ha _ IH]; [done|]. simpl. rewrite Ha. by f_equal. Qed.

Lemma Sorted_pairs (ps : list (nat * Entry S)) : Sorted pair_le ps -> Sorted key_le ps.*2.
Proof.
  induction 1 as [|a ps _ IH Hd]; simpl; constructor; [done|].
  destruct Hd; simpl; by constructor.
Qed.

(** There is always a permutation that sorts. *)
Lemma sortable es : exists p es', permuted p es = Some es' /\ is_sorted es' = true.
Proof.
  set (ps := zip (seq 0 (length es)) es). set (ms := merge_sort pair_le ps).
  assert (ms ≡ₚ ps) as Hms by apply merge_sort_Permutation.
  assert (ms.*1 ≡ₚ seq 0 (length es)) as Hp.
  { rewrite Hms. unfold ps. rewrite fst_zip; [done|by rewrite length_seq]. }
  assert (Forall (fun a => es !! a.1 = Some a.2) ms) as Hf.
  { rewrite Hms. apply Forall_lookup. intros i [j e] Hi. unfold ps in Hi.
    apply lookup_zip_Some in Hi as [Hj He]. by apply lookup_seq in Hj as [-> _]. }
  exists ms.*1, ms.*2. split.
  - unfold permuted. rewrite decide_True by done. by rewrite (omap_pairs es ms).
  - apply is_sorted_Sorted, Sorted_pairs. apply (Sorted_merge_sort _ _).
Qed.
End Order.

(** ** The invariant of the scheduler *)

Section Invariant.
Context {S : Type} `{Schedule S}.
Implicit Types (c : Cron S) (e : Entry S) (es : list (Entry S)).

Definition pending_ids (r : option (request S)) : list Z :=
  match r with Some (AddReq e) => [ID e] | _ => [] end.

(** The entries of the scheduler, and the one being added. *)
Definition all_ids c : list Z := (map ID (entries c) ++ pending_ids (pending c))%list.

(** The activation of an entry was computed by its schedule at a past instant. *)
Definition scheduled (t : Z) e : Prop :=
  exists u, t_ns u <= t /\ e_Next e = sched_next (e_Schedule e) u.

Definition loop_ok c : Prop :=
  match loop c with
  | NoLoop | Starting => True
  | Sorting t => t_ns t <= clk c /\ Forall (scheduled (clk c)) (entries c)
  | Selecting t f =>
      Forall (scheduled (clk c)) (entries c) /\ is_sorted (entries c) = true /\
      exists a, t_ns t <= a <= clk c /\ f = a + timer t (entries c)
  end.

(** [n] more calls cannot overflow [nextID]. *)
Record cron_ok (n : nat) c : Prop := {
  ok_next : 0 <= nextID c /\ nextID c + Z.of_nat n <= max_int64;
  ok_nodup : NoDup (all_ids c);
  ok_range : Forall (fun i => 1 <= i <= nextID c) (all_ids c);
  ok_pending : pending c <> None -> running c = true;
  ok_running : running c = true <-> loop c <> NoLoop;
  ok_loop : loop_ok c
}.

Lemma scheduled_mono t t' e : t <= t' -> scheduled t e -> scheduled t' e.
Proof. intros Ht (u & Hu & E). exists u. split; [lia|done]. Qed.

Lemma loop_ok_elapse c d : 0 <= d -> loop_ok c -> loop_ok (set_clk c (clk c + d)).
Proof.
  intros Hd. unfold loop_ok. simpl.
  assert (Forall (scheduled (clk c)) (entries c) -> Forall (scheduled (clk c + d)) (entries c)) as Hf.
  { intros Hs. eapply Forall_impl; [exact Hs|]. intros e. apply scheduled_mono. lia. }
  destruct (loop c) as [| |t|t f]; [done|done| |].
  - intros [Ht Hs]. split; [lia|auto].
  - intros (Hs & Hsort & a & Ha & ->). split_and!; [auto|done|]. exists a. split; [lia|done].
Qed.

Lemma removeEntry_ids id es : map ID (removeEntry id es) = filter (fun i => i <> id) (map ID es).
Proof.
  unfold removeEntry. induction es as [|e es IH]; [done|]. simpl. rewrite !filter_cons.
  destruct (decide (ID e <> id)); simpl; by rewrite IH.
Qed.

(** The entries that are due at a wake, and what becomes of them. *)
Definition due (t : time) e : bool := negb (after (e_Next e) t || is_zero (e_Next e)).

Definition fired (t : time) e : Entry S :=
  mk_entry (ID e) (e_Schedule e) (sched_next (e_Schedule e) t) (e_Next e) (WrappedJob e) (e_Job e).

Lemma due_antitone t e1 e2 : key_le e1 e2 -> due t e1 = false -> due t e2 = false.
Proof.
  unfold due, key_le, after. rewrite !negb_false_iff, !orb_true_iff, !Z.ltb_lt.
  intros [Hz|[Hz Hle]]; [by right|]. intros [Ha|Ha]; [left; lia|congruence].
Qed.

Lemma none_due t es :
  Forall (fun e => due t e = false) es ->
  filter (fun e => due t e = true) es = [] /\ map (fun e => if due t e then fired t e else e) es = es.
Proof.
  induction 1 as [|e es He _ [IH1 IH2]]; [done|]. simpl. rewrite filter_cons, He, IH1, IH2. done.
Qed.

Definition started t es : list thread := map (fun e => (Enter (WrappedJob e), [])) (filter (fun e => due t e = true) es).

(** On sorted entries the loop that stops at the first entry not due runs all the
    entries that are. *)
Lemma run_due_sorted t es s :
  StronglySorted key_le es ->
  (run_due t es s).1 = map (fun e => if due t e then fired t e else e) es /\
  threads (run_due t es s).2 = (threads s ++ started t es)%list /\
  mem (run_due t es s).2 = mem s.
Proof.
  revert s. induction es as [|e es IH]; intros s Hs; [by rewrite app_nil_r|].
  inversion Hs as [|? ? Hes Hall]; subst. unfold started. simpl. rewrite filter_cons.
  destruct (after (e_Next e) t || is_zero (e_Next e)) eqn:E.
  - assert (due t e = false) as Hd by (unfold due; by rewrite E). rewrite Hd. simpl.
    assert (Forall (fun e => due t e = false) es) as Hf.
    { eapply Forall_impl; [exact Hall|]. intros e' He. by eapply due_antitone. }
    destruct (none_due t es Hf) as [-> ->]. by rewrite app_nil_r.
  - assert (due t e = true) as Hd by (unfold due; by rewrite E). rewrite Hd.
    destruct (IH (startJob (WrappedJob e) s) Hes) as (H1 & H2 & H3).
    destruct (run_due t es (startJob (WrappedJob e) s)) as [es' s']. simpl in *.
    rewrite H1, H2, H3. split_and!; [done| |done]. by rewrite <- app_assoc.
Qed.

Lemma map_fired_ids t es : map ID (map (fun e => if due t e then fired t e else e) es) = map ID es.
Proof. rewrite map_map. apply map_ext. intros e. by destruct (due t e). Qed.

Lemma removeEntry_sub id es : map ID (removeEntry id es) ⊆+ map ID es.
Proof.
  rewrite removeEntry_ids. induction (map ID es) as [|i l IH]; [done|].
  rewrite filter_cons. destruct (decide _); [by apply submseteq_skip|by apply submseteq_cons].
Qed.

Lemma NoDup_sub {A} (l k : list A) : l ⊆+ k -> NoDup k -> NoDup l.
Proof.
  intros Hs Hk. apply submseteq_Permutation in Hs as [r Hr]. rewrite Hr in Hk. rewrite NoDup_app in Hk. tauto.
Qed.

(** A step that adds no identity keeps the invariant if the loop's part holds. *)
Lemma keep_ids n c c' :
  cron_ok (1 + n)%nat c -> nextID c' = nextID c -> all_ids c' ⊆+ all_ids c ->
  (pending c' <> None -> running c' = true) -> (running c' = true <-> loop c' <> NoLoop) ->
  loop_ok c' -> cron_ok n c'.
Proof.
  intros [Hn Hd Hr _ _ _] En Hs Hp Hrun Hl. split; try done.
  - rewrite En. lia.
  - by eapply NoDup_sub.
  - rewrite En. rewrite Forall_forall in *. intros i Hi. apply Hr. by eapply elem_of_submseteq.
Qed.

Lemma add_ids n c id :
  cron_ok (1 + n)%nat c -> id = int64 (nextID c + 1) -> pending c = None ->
  NoDup (map ID (entries c) ++ [id]) /\ id = nextID c + 1 /\
  Forall (fun i => 1 <= i <= id) (map ID (entries c) ++ [id]).
Proof.
  intros [Hn Hd Hr _ _ _] -> Hpend. unfold all_ids in *. rewrite Hpend, app_nil_r in *.
  rewrite int64_small by (unfold in_int64, min_int64, max_int64 in *; lia).
  split_and!; [|done|].
  - apply NoDup_app. split_and!; [done| |apply NoDup_singleton]. intros i Hi Hi'.
    apply list_elem_of_singleton in Hi' as ->. rewrite Forall_forall in Hr. specialize (Hr _ Hi). lia.
  - apply Forall_app. split; [|constructor; [lia|constructor]].
    eapply Forall_impl; [exact Hr|]. simpl. lia.
Qed.

Lemma not_running n c : cron_ok n c -> running c = false -> loop c = NoLoop.
Proof.
  intros Hok Er. pose proof (ok_running _ _ Hok) as [_ Hl]. destruct (loop c); [done|..];
    rewrite Hl in Er; done.
Qed.

Lemma CallSchedule_ok n c s j :
  cron_ok (1 + n)%nat c -> pending c = None -> cron_ok n (Schedule_ c s j).2.
Proof.
  intros Hok Hp. destruct (add_ids n c _ Hok eq_refl Hp) as (Hd & E & Hf). pose proof Hok as [Hn _ _ _ Hrun Hl].
  unfold Schedule_. destruct (Then (chain c) j (mem (jobs c))) as [wj w].
  destruct (running c) eqn:Er; split; simpl; rewrite ?Er; try done;
    unfold all_ids; simpl; rewrite ?Hp, ?app_nil_r, ?map_app; try done.
  all: try (rewrite E; lia).
  all: try (by rewrite Er).
  unfold loop_ok. simpl. by rewrite (not_running _ _ Hok Er).
Qed.

Lemma Receive_ok n c r t f :
  cron_ok (1 + n)%nat c -> loop c = Selecting t f -> pending c = Some r -> cron_ok n (receive r t f c).
Proof.
  intros Hok Hl Hp. pose proof (ok_running _ _ Hok) as Hrun. pose proof (ok_loop _ _ Hok) as Hlo.
  pose proof (ok_pending _ _ Hok) as Hpe. rewrite Hp, Hl in *. unfold loop_ok in Hlo. rewrite Hl in Hlo.
  destruct Hlo as (Hs & Hsort & Ha). specialize (Hpe ltac:(done)).
  assert (forall x, Forall (scheduled (clk c)) x -> loop_ok (set_loop (set_entries (set_pending c None) x) (Sorting (now c)))) as Hsorting.
  { intros x Hx. unfold loop_ok. simpl. done. }
  destruct r as [e|id| |]; simpl; (apply (keep_ids n c); [done|done| |done| |]); try done.
  - unfold all_ids. rewrite Hp. simpl. by rewrite map_app, app_nil_r.
  - apply Hsorting. apply Forall_app. split; [done|]. constructor; [|done]. exists (now c). by split.
  - unfold all_ids. rewrite Hp. simpl. rewrite !app_nil_r. apply removeEntry_sub.
  - apply Hsorting. rewrite Forall_forall in *. intros e He.
    apply list_elem_of_filter in He as [_ He]. auto.
  - unfold all_ids. by rewrite Hp.
  - unfold all_ids. by rewrite Hp.
Qed.

Lemma scheduled_fired c t es :
  t_ns t <= clk c -> Forall (scheduled (clk c)) es ->
  Forall (scheduled (clk c)) (map (fun e => if due t e then fired t e else e) es).
Proof.
  intros Ht. induction 1 as [|e es He _ IH]; constructor; [|done].
  destruct (due t e); [|done]. by exists t.
Qed.

(** What a wake does, in closed form. *)
Lemma wake_eq n c c' :
  cron_ok n c -> cron_step Wake c = Some c' ->
  entries c' = map (fun e => if due (now c) e then fired (now c) e else e) (entries c) /\
  threads (jobs c') = (threads (jobs c) ++ started (now c) (entries c))%list /\
  loop c' = Sorting (now c) /\ nextID c' = nextID c /\ pending c' = pending c /\
  running c' = running c /\ clk c' = clk c /\
  exists t f, loop c = Selecting t f /\ f <= clk c.
Proof.
  intros Hok Hw. unfold cron_step in Hw. destruct (crashed (jobs c)); [done|].
  destruct (loop c) as [| | |t f] eqn:El; try done. destruct (f <=? clk c) eqn:Ef; [|done]. z_bools.
  pose proof (ok_loop _ _ Hok) as Hl. unfold loop_ok in Hl. rewrite El in Hl. destruct Hl as (_ & Hs & _).
  apply is_sorted_strongly in Hs. destruct (run_due_sorted (now c) _ (jobs c) Hs) as (H1 & H2 & _).
  destruct (run_due (now c) (entries c) (jobs c)) as [es s]. simpl in *. simplify_eq/=.
  split_and!; eauto.
Qed.

Lemma Wake_ok n c c' : cron_ok (1 + n)%nat c -> cron_step Wake c = Some c' -> cron_ok n c'.
Proof.
  intros Hok Hw. destruct (wake_eq _ _ _ Hok Hw) as (E1 & _ & E3 & E4 & E5 & E6 & E7 & t & f & El & _).
  apply (keep_ids n c); [done|done| | | |].
  - unfold all_ids. by rewrite E1, E5, map_fired_ids.
  - rewrite E5, E6. apply (ok_pending _ _ Hok).
  - rewrite E6, E3. split; [done|]. intros _. apply (ok_running _ _ Hok). by rewrite El.
  - unfold loop_ok. rewrite E3, E7, E1. split; [done|]. apply scheduled_fired; [done|].
    pose proof (ok_loop _ _ Hok) as Hl. unfold loop_ok in Hl. rewrite El in Hl. tauto.
Qed.

Lemma Sort_ok n c p c' : cron_ok (1 + n)%nat c -> cron_step (Sort p) c = Some c' -> cron_ok n c'.
Proof.
  intros Hok Hs. unfold cron_step in Hs. destruct (crashed (jobs c)); [done|].
  destruct (loop c) as [| |t|] eqn:El; try done.
  destruct (permuted p (entries c)) as [es|] eqn:Ep; cbn in Hs; [|done].
  destruct (is_sorted es) eqn:Es; [|done]. injection Hs as <-. apply permuted_perm in Ep.
  pose proof (ok_loop _ _ Hok) as Hl. unfold loop_ok in Hl. rewrite El in Hl. destruct Hl as [Ht Hf].
  apply (keep_ids n c); [done|done| | | |].
  - unfold all_ids. simpl. by rewrite Ep.
  - apply (ok_pending _ _ Hok).
  - simpl. split; [done|]. intros _. apply (ok_running _ _ Hok). by rewrite El.
  - unfold loop_ok. simpl. split_and!; [by rewrite Ep|done|]. exists (clk c). split; [lia|done].
Qed.

Lemma Begin_ok n c c' : cron_ok (1 + n)%nat c -> cron_step Begin c = Some c' -> cron_ok n c'.
Proof.
  intros Hok Hs. unfold cron_step in Hs. destruct (crashed (jobs c)); [done|].
  destruct (loop c) eqn:El; try done. injection Hs as <-.
  apply (keep_ids n c); [done|done| | | |].
  - unfold all_ids. simpl. by rewrite map_map.
  - apply (ok_pending _ _ Hok).
  - simpl. split; [done|]. intros _. apply (ok_running _ _ Hok). by rewrite El.
  - unfold loop_ok. simpl. split; [done|]. apply Forall_forall. intros e He.
    rewrite list_elem_of_In, in_map_iff in He. destruct He as (e' & <- & _). by exists (now c).
Qed.

(** The calls that change nothing but the pending request. *)
Lemma pend_ok n c r :
  cron_ok (1 + n)%nat c -> pending_ids r = [] -> running c = true -> cron_ok n (set_pending c r).
Proof.
  intros Hok Hr Hrun. apply (keep_ids n c); try done; try apply Hok.
  unfold all_ids. simpl. rewrite Hr, app_nil_r. by apply submseteq_inserts_r.
Qed.

Lemma cron_ok_weaken n c : cron_ok (1 + n)%nat c -> cron_ok n c.
Proof. intros Hok. apply (keep_ids n c); try done; apply Hok. Qed.

Lemma call_ok n c k c' :
  call c k = Some c' -> (pending c = None -> cron_ok n (k c)) -> cron_ok n c'.
Proof. unfold call. destruct (pending c); [done|]. intros [= <-]. auto. Qed.

Lemma cron_step_ok n m c c' : cron_ok (1 + n)%nat c -> cron_step m c = Some c' -> cron_ok n c'.
Proof.
  intros Hok Hs. destruct m as [d|s j|id| | | | |p| | |ev];
    try (by eauto using Sort_ok, Begin_ok, Wake_ok);
    unfold cron_step in Hs; destruct (crashed (jobs c)); try done;
    try (eapply call_ok; [exact Hs|]; intros Hp).
  - destruct (0 <=? d) eqn:E; z_bools; [|done]. injection Hs as <-.
    apply (keep_ids n c); try done; try apply Hok. apply loop_ok_elapse; [done|apply Hok].
  - by apply CallSchedule_ok.
  - unfold Remove. destruct (running c) eqn:Er; [by apply pend_ok|].
    apply (keep_ids n c); try done; try apply Hok.
    + unfold all_ids. simpl. apply submseteq_skips_r, removeEntry_sub.
    + unfold loop_ok. simpl. by rewrite (not_running _ _ Hok Er).
  - unfold Entries. destruct (running c) eqn:Er; [by apply pend_ok|]. by apply cron_ok_weaken.
  - unfold Start. destruct (running c) eqn:Er; [by apply cron_ok_weaken|].
    by apply (keep_ids n c).
  - unfold Stop. destruct (running c) eqn:Er; [by apply pend_ok|]. by apply cron_ok_weaken.
  - destruct (loop c) as [| | |t f] eqn:El; try done. destruct (pending c) eqn:Ep; [|done].
    injection Hs as <-. by apply Receive_ok.
  - destruct ev; [done|..]; destruct (sys_step _ _); cbn in Hs; try done; injection Hs as <-;
      apply (keep_ids n c); try done; apply Hok.
Qed.

Lemma run_moves_ok ms n c c' :
  cron_ok (length ms + n)%nat c -> run_moves ms c = Some c' -> cron_ok n c'.
Proof.
  revert c. induction ms as [|m ms IH]; intros c Hok Hr; simplify_eq/=; [done|].
  destruct (cron_step m c) as [c1|] eqn:E; cbn in Hr; [|done].
  apply (IH c1); [|done]. by eapply cron_step_ok.
Qed.

(** The options the package offers. *)
Definition package_option (o : Option) : Prop :=
  (exists l, o = WithLocation l) \/ (exists p, o = WithParser p) \/ (exists ws, o = @WithChain S ws).

Lemma New_ok n p w t opts :
  Forall package_option opts -> Z.of_nat n <= max_int64 -> cron_ok n (New p w t opts).
Proof.
  intros Ho Hn. unfold New.
  assert (cron_ok n (@mk_cron S [] [] false Local p 0 NoLoop None t (initial w))) as Hok.
  { split; simpl; try done; try lia; by constructor. }
  revert Hok. generalize (@mk_cron S [] [] false Local p 0 NoLoop None t (initial w)).
  induction Ho as [|o opts Ho _ IH]; intros c Hok; [done|]. simpl. apply IH.
  destruct Hok. destruct Ho as [[l ->]|[[q ->]|[ws ->]]]; by split.
Qed.

(** Only [Schedule] brings an identity, the next one. *)
Lemma step_ids n m c c' i :
  cron_ok (1 + n)%nat c -> cron_step m c = Some c' ->
  nextID c <= nextID c' /\ (i ∈ all_ids c' -> i ∈ all_ids c \/ nextID c < i).
Proof.
  intros Hok Hs.
  assert (nextID c' = nextID c -> all_ids c' ⊆+ all_ids c ->
    nextID c <= nextID c' /\ (i ∈ all_ids c' -> i ∈ all_ids c \/ nextID c < i)) as Hkeep.
  { intros -> Hsub. split; [lia|]. intros Hi. left. by eapply elem_of_submseteq. }
  destruct m as [d|s j|id| | | | |p| | |ev].
  8:{ apply Hkeep; unfold cron_step in Hs; destruct (crashed (jobs c)), (loop c) as [| |t|]; try done;
      destruct (permuted p (entries c)) as [es|] eqn:Ep; cbn in Hs; try done;
      destruct (is_sorted es); try done; injection Hs as <-; [done|].
      unfold all_ids. simpl. by rewrite (permuted_perm _ _ _ Ep). }
  8:{ destruct (wake_eq _ _ _ Hok Hs) as (E1 & _ & _ & E4 & E5 & _). apply Hkeep; [done|].
      unfold all_ids. by rewrite E1, E5, map_fired_ids. }
  all: unfold cron_step, call in Hs; destruct (crashed (jobs c)); try done.
  all: try (destruct (pending c) eqn:Ep; [done|injection Hs as <-]).
  - destruct (0 <=? d); [|done]. injection Hs as <-. by apply Hkeep.
  - destruct (add_ids n c _ Hok eq_refl Ep) as (_ & E & _).
    assert (all_ids (Schedule_ c s j).2 = map ID (entries c) ++ [nextID c + 1])%list as ->.
    { unfold Schedule_, all_ids. rewrite E. destruct (Then _ _ _). destruct (running c) eqn:Er; simpl;
        rewrite ?Er; simpl; [done|]. by rewrite map_app, Ep, app_nil_r. }
    unfold Schedule_. destruct (Then _ _ _). split; [destruct (running c) eqn:Er; simpl; rewrite ?Er; simpl; lia|].
    rewrite elem_of_app, list_elem_of_singleton. unfold all_ids. rewrite Ep, app_nil_r.
    intros [?| ->]; [by left|right; lia].
  - apply Hkeep; unfold Remove; destruct (running c); try done; unfold all_ids; simpl; rewrite Ep.
    + done.
    + apply submseteq_skips_r, removeEntry_sub.
  - apply Hkeep; unfold Entries; destruct (running c); try done; unfold all_ids; simpl; by rewrite Ep.
  - apply Hkeep; unfold Start; by destruct (running c).
  - apply Hkeep; unfold Stop; destruct (running c); try done; unfold all_ids; simpl; by rewrite Ep.
  - destruct (loop c); try done. injection Hs as <-. apply Hkeep; [done|]. unfold all_ids. simpl. by rewrite map_map.
  - destruct (loop c); try done. destruct (pending c) as [r|] eqn:Ep; [|done]. injection Hs as <-.
    apply Hkeep; destruct r; try done; unfold all_ids; simpl; rewrite Ep, ?app_nil_r; try done.
    + simpl. by rewrite map_app.
    + apply removeEntry_sub.
  - apply Hkeep; destruct ev; try done; destruct (sys_step _ _); cbn in Hs; try done; by injection Hs as <-.
Qed.

Lemma gone_for_ever ms n c c' i :
  cron_ok (length ms + n)%nat c -> run_moves ms c = Some c' -> i <= nextID c -> i ∉ all_ids c -> i ∉ all_ids c'.
Proof.
  revert c. induction ms as [|m ms IH]; intros c Hok Hr Hle Hi; simplify_eq/=; [done|].
  destruct (cron_step m c) as [c1|] eqn:E; cbn in Hr; [|done].
  pose proof (cron_step_ok _ _ _ _ Hok E) as Hok1.
  destruct (step_ids _ _ _ _ i Hok E) as [Hle' Hi'].
  apply (IH c1); [done|done|lia|]. intros Hi1. destruct (Hi' Hi1); [done|lia].
Qed.

(** [run_moves] from a new scheduler. *)
Definition reaches (ms : list (move S)) (w : shared) (t : Z) (opts : list Option) (p : Parser) c : Prop :=
  Forall package_option opts /\ run_moves ms (New p w t opts) = Some c.

Lemma reaches_ok ms w t opts p c :
  reaches ms w t opts p c -> Z.of_nat (length ms) <= max_int64 -> cron_ok 0 c.
Proof.
  intros [Ho Hr] Hn. eapply run_moves_ok; [|exact Hr]. apply New_ok; [done|]. by rewrite Nat.add_0_r.
Qed.
End Invariant.

(** ** What the scheduler promises *)

Section Promises.
Context {S : Type} `{Schedule S}.
Implicit Types (c : Cron S) (e : Entry S).

(** C3: whatever the calls and the interleaving, when the timer of the loop fires
    the loop starts the jobs of exactly the entries that are due, once each, in the
    order of their activations, moves each to its next activation after the wake and
    leaves the others alone; afterwards no entry is due.  The timer never fires
    before the first activation (unless that is more than 292 years away). *)
Theorem Wake_runs_due ms w t0 opts p c c' :
  reaches ms w t0 opts p c -> Z.of_nat (length ms) <= max_int64 ->
  cron_step Wake c = Some c' ->
  threads (jobs c') = (threads (jobs c) ++ started (now c) (entries c))%list /\
  StronglySorted key_le (entries c) /\
  entries c' = map (fun e => if due (now c) e then fired (now c) e else e) (entries c) /\
  (Forall (fun e => sched_ok (e_Schedule e)) (entries c) ->
     Forall (fun e => due (now c) e = false) (entries c')) /\
  (forall e rest t f, entries c = e :: rest -> loop c = Selecting t f ->
     is_zero (e_Next e) = false -> t_ns (e_Next e) - t_ns t <= max_int64 -> due (now c) e = true).
Proof.
  intros Hr Hn Hw. pose proof (reaches_ok _ _ _ _ _ _ Hr Hn) as Hok.
  destruct (wake_eq _ _ _ Hok Hw) as (E1 & E2 & _ & _ & _ & _ & _ & t & f & El & Hf).
  pose proof (ok_loop _ _ Hok) as Hl. unfold loop_ok in Hl. rewrite El in Hl.
  destruct Hl as (_ & Hs & a & Ha & ->). split_and!; [done|by apply is_sorted_strongly|done| |].
  - rewrite E1. intros Hall. clear -Hall. induction Hall as [|e es He _ IH]; constructor; [|done].
    destruct (due (now c) e) eqn:Ed; [|done]. unfold due. apply negb_false_iff, orb_true_iff. simpl.
    destruct (is_zero _) eqn:Ez; [by right|left].
    pose proof (sched_later _ _ He Ez) as Hb. done.
  - intros e rest t' f' Ee El' Hz Hlt. rewrite El in El'. injection El' as <- <-. rewrite Ee in Hf. simpl in Hf. rewrite Hz in Hf.
    unfold due, after. rewrite Hz, orb_false_r. apply negb_true_iff, Z.ltb_ge.
    unfold t_sub in Hf. unfold now. simpl. unfold min_int64 in Hf. lia.
Qed.

(** The identities of the entries are distinct and at most [nextID], the one
    being added included. *)
Theorem ids_distinct ms w t0 opts p c :
  reaches ms w t0 opts p c -> Z.of_nat (length ms) <= max_int64 ->
  NoDup (all_ids c) /\ Forall (fun i => 1 <= i <= nextID c) (all_ids c).
Proof. intros Hr Hn. destruct (reaches_ok _ _ _ _ _ _ Hr Hn). done. Qed.

(** Once an entry has been removed its identity is never seen again: not among
    the entries, so its job is never started, and not given to another entry. *)
Theorem removed_for_ever ms w t0 opts p c id c1 ms' c' :
  reaches ms w t0 opts p c -> Z.of_nat (length ms + (1 + length ms')) <= max_int64 ->
  id <= nextID c ->
  (running c = false /\ cron_step (CallRemove id) c = Some c1) \/
  (pending c = Some (RemoveReq id) /\ cron_step Receive c = Some c1) ->
  run_moves ms' c1 = Some c' -> id ∉ all_ids c'.
Proof.
  intros [Ho Hr] Hn Hid Hrem Hr'.
  assert (cron_ok (1 + (length ms' + 0)) c) as Hok.
  { eapply run_moves_ok; [|exact Hr]. apply New_ok; [done|]. by rewrite Nat.add_0_r. }
  assert (exists m, cron_step m c = Some c1 /\ id ∉ all_ids c1) as (m & Hs & Hni).
  { assert (id ∉ map ID (removeEntry id (entries c))) as Hf.
    { rewrite removeEntry_ids, list_elem_of_filter. tauto. }
    destruct Hrem as [[Hrun Hs]|[Hp Hs]]; eexists; (split; [exact Hs|]);
      unfold cron_step, call in Hs; destruct (crashed (jobs c)); try done.
    - destruct (pending c) eqn:Ep; [done|]. injection Hs as <-. unfold Remove. rewrite Hrun.
      unfold all_ids. simpl. by rewrite Ep, app_nil_r.
    - destruct (loop c); try done. rewrite Hp in Hs. injection Hs as <-. unfold all_ids. simpl.
      by rewrite app_nil_r. }
  eapply gone_for_ever; [|exact Hr'| |exact Hni].
  - eapply cron_step_ok; [exact Hok|exact Hs].
  - destruct (step_ids _ _ _ _ id Hok Hs). lia.
Qed.

(** The moves of the loop that need no one else. *)
Definition loop_move (m : move S) : bool :=
  match m with Begin | Sort _ | Receive => true | _ => false end.

Lemma served_selecting c t f r :
  crashed (jobs c) = false -> loop c = Selecting t f -> pending c = Some r ->
  cron_step Receive c = Some (receive r t f c) /\ pending (receive r t f c) = None.
Proof. intros Hc Hl Hp. unfold cron_step. rewrite Hc, Hl, Hp. split; [done|]. by destruct r. Qed.

Lemma served_sorting c t r :
  crashed (jobs c) = false -> loop c = Sorting t -> pending c = Some r ->
  exists p c', run_moves [Sort p; Receive] c = Some c' /\ pending c' = None.
Proof.
  intros Hc Hl Hp. destruct (sortable (entries c)) as (p & es & Hperm & Hs).
  set (c1 := arm (set_entries c es) t).
  assert (cron_step (Sort p) c = Some c1) as E.
  { unfold cron_step. by rewrite Hc, Hl, Hperm; cbn; rewrite Hs. }
  destruct (served_selecting c1 t (clk c + timer t es) r) as [E1 E2]; [done..|].
  exists p, (receive r t (clk c + timer t es) c1). split; [|done].
  cbn [run_moves]. rewrite E. cbn. cbn in E1. by rewrite E1.
Qed.

(** C12: a client blocked on a channel of the scheduler is always served: whatever
    happened before, at most three moves of the loop alone receive its request (timer
    events aside, and as long as the process has not crashed). *)
Theorem request_served ms w t0 opts p c r :
  reaches ms w t0 opts p c -> Z.of_nat (length ms) <= max_int64 ->
  pending c = Some r -> crashed (jobs c) = false ->
  exists ms' c', Forall (fun m => loop_move m = true) ms' /\ (length ms' <= 3)%nat /\
    run_moves ms' c = Some c' /\ pending c' = None.
Proof.
  intros Hr Hn Hp Hc. pose proof (reaches_ok _ _ _ _ _ _ Hr Hn) as Hok.
  destruct (loop c) as [| |t|t f] eqn:El.
  - pose proof (ok_pending _ _ Hok) as Hpe. rewrite Hp in Hpe.
    pose proof (proj1 (ok_running _ _ Hok) (Hpe ltac:(done))). done.
  - set (c1 := set_loop (set_entries c (map (next_entry (now c)) (entries c))) (Sorting (now c))).
    destruct (served_sorting c1 (now c) r) as (q & c' & Hm & Hp'); [done..|].
    exists [Begin; Sort q; Receive], c'. split_and!; [by repeat constructor|simpl; lia| |done].
    change (run_moves ([Begin] ++ [Sort q; Receive])%list c = Some c'). cbn [run_moves app].
    assert (cron_step Begin c = Some c1) as -> by (unfold cron_step; by rewrite Hc, El). exact Hm.
  - destruct (served_sorting c t r) as (q & c' & Hm & Hp'); [done..|].
    exists [Sort q; Receive], c'. split_and!; [by repeat constructor|simpl; lia|done|done].
  - destruct (served_selecting c t f r) as [Hm Hp']; [done..|].
    exists [Receive], (receive r t f c). split_and!; [by repeat constructor|simpl; lia| |done].
    cbn [run_moves]. by rewrite Hm.
Qed.
End Promises.

(** ** Tasks *)

Section Tasks.
Context (load_location : string -> option GoTime.location).

(** The parser of [Run] and [NewJob]. *)
Definition six_field_parser : Parser := mk_parser (six_fields opt_DowOptional).

Definition task_entry (x : string * nat) : option (any_schedule * Job) :=
  match Parse load_location six_field_parser x.1 with
  | Ok s => Some (s, FuncJob x.2)
  | _ => None
  end.

Definition submitted (e : Entry any_schedule) : any_schedule * Job := (e_Schedule e, e_Job e).

Lemma add_task_ok c x :
  running c = false -> parser c = six_field_parser ->
  is_panic (Parse load_location six_field_parser x.1) = false ->
  exists c', add_task load_location (Ok c) x = Ok c' /\ running c' = false /\ parser c' = six_field_parser /\
    map submitted (entries c') = (map submitted (entries c) ++ option_list (task_entry x))%list.
Proof.
  intros Hr Hp Hx. unfold add_task, AddFunc, AddJob, task_entry. cbn [bind_outcome]. rewrite Hp.
  destruct (Parse _ _ _) as [s| |]; cbn [bind_outcome]; [|exists c; split_and!; try done; by rewrite app_nil_r|done].
  destruct (Schedule_ c s (FuncJob x.2)) as [i c1] eqn:E. exists c1. split; [done|].
  unfold Schedule_ in E. destruct (Then _ _ _) as [wj w]. cbn in E. rewrite Hr in E. injection E as _ <-.
  split_and!; [done|done|]. cbn. by rewrite map_app.
Qed.

Lemma add_tasks c task :
  running c = false -> parser c = six_field_parser ->
  (forall x, x ∈ task -> is_panic (Parse load_location six_field_parser x.1) = false) ->
  exists c', foldl (add_task load_location) (Ok c) task = Ok c' /\ running c' = false /\
    map submitted (entries c') = (map submitted (entries c) ++ omap task_entry task)%list.
Proof.
  revert c. induction task as [|x task IH]; intros c Hr Hp Hx.
  - exists c. split_and!; [done|done|]. by rewrite app_nil_r.
  - destruct (add_task_ok c x Hr Hp ltac:(apply Hx; set_solver)) as (c1 & E & Hr1 & Hp1 & Hm1).
    destruct (IH c1 Hr1 Hp1 ltac:(set_solver)) as (c' & E' & Hr' & Hm').
    exists c'. split_and!; [cbn [foldl]; by rewrite E|done|].
    rewrite Hm', Hm1, <- app_assoc. cbn. by destruct (task_entry x).
Qed.

(** [Run] adds, in order, the tasks whose specification parses and silently
    drops the others; then the scheduler is started. *)
Theorem Run_adds p w t task :
  task <> [] ->
  (forall x, x ∈ task -> is_panic (Parse load_location six_field_parser x.1) = false) ->
  exists c, Run load_location p w t task = Ok (Some c) /\ running c = true /\ loop c = Starting /\
    map submitted (entries c) = omap task_entry task.
Proof.
  intros Hne Hx. unfold Run, NewJob.
  assert (secondParser = Ok six_field_parser) as -> by (vm_compute; reflexivity).
  destruct (add_tasks (New p w t [WithParser six_field_parser; WithChain []]) task eq_refl eq_refl Hx)
    as (c & E1 & E2 & E3).
  exists (set_running c true Starting). destruct task; [done|].
  cbn [bind_outcome]. rewrite E1. cbn [bind_outcome]. unfold Start. rewrite E2. split_and!; [done..|exact E3].
Qed.
End Tasks.

(** ** Examples *)

Definition no_zones : string -> option GoTime.location := fun _ => None.

Lemma Run_adds_witness :
  exists c, Run no_zones (mk_parser 0) (mk_shared ∅ ∅ 0) 0
              [("*/5 * * * * ?", 1%nat); ("no such spec", 2%nat)]%string = Ok (Some c) /\
  map e_Job (entries c) = [FuncJob 1].
Proof.
  destruct (Run_adds no_zones (mk_parser 0) (mk_shared ∅ ∅ 0) 0
              [("*/5 * * * * ?", 1%nat); ("no such spec", 2%nat)]%string) as (c & E & _ & _ & Hm).
  - done.
  - intros x Hx. apply list_elem_of_In in Hx. destruct Hx as [<-|[<-|[]]]; vm_compute; reflexivity.
  - exists c. split; [exact E|].
    assert (map e_Job (entries c) = map snd (map submitted (entries c))) as ->
      by by rewrite map_map.
    rewrite Hm. vm_compute. reflexivity.
Defined.

(** A scheduler with two delays, of two seconds and of one, that has slept. *)
Definition demo_moves : list (move ConstantDelaySchedule) :=
  [CallSchedule (mk_delay (2 * second_dur)) (FuncJob 1); CallSchedule (mk_delay second_dur) (FuncJob 2);
   CallStart; Begin; Sort [1; 0]%nat; CallRemove 1; Elapse second_dur].

Definition demo_new : Cron ConstantDelaySchedule := New (mk_parser 0) (mk_shared ∅ ∅ 0) (1000 * second_dur) [].

Definition demo : option (Cron ConstantDelaySchedule) := run_moves demo_moves demo_new.

Lemma demo_reaches :
  exists c, demo = Some c /\ reaches demo_moves (mk_shared ∅ ∅ 0) (1000 * second_dur) [] (mk_parser 0) c.
Proof. eexists. split; [vm_compute; reflexivity|]. split; [constructor|vm_compute; reflexivity]. Defined.

Lemma Wake_runs_due_witness :
  exists c c', demo = Some c /\ cron_step Wake c = Some c' /\
  started (now c) (entries c) = [(Enter (FuncJob 2), [])] /\
  threads (jobs c') = (threads (jobs c) ++ started (now c) (entries c))%list.
Proof.
  eexists. eexists. split; [vm_compute; reflexivity|]. split; [vm_compute; reflexivity|].
  split; [vm_compute; reflexivity|].
  eapply (Wake_runs_due demo_moves (mk_shared ∅ ∅ 0) (1000 * second_dur) [] (mk_parser 0)).
  - split; [constructor|vm_compute; reflexivity].
  - vm_compute. discriminate.
  - vm_compute. reflexivity.
Defined.

Lemma ids_distinct_witness : exists c, demo = Some c /\ NoDup (all_ids c) /\ all_ids c = [2; 1].
Proof.
  eexists. split; [vm_compute; reflexivity|]. split; [|vm_compute; reflexivity].
  eapply (ids_distinct demo_moves (mk_shared ∅ ∅ 0) (1000 * second_dur) [] (mk_parser 0)).
  - split; [constructor|vm_compute; reflexivity].
  - vm_compute. discriminate.
Defined.

Lemma removed_for_ever_witness :
  exists c c1, demo = Some c /\ cron_step Receive c = Some c1 /\
  forall ms' c', (length ms' <= 100)%nat -> run_moves ms' c1 = Some c' -> 1 ∉ all_ids c'.
Proof.
  eexists. eexists. split; [vm_compute; reflexivity|]. split; [vm_compute; reflexivity|].
  intros ms' c' Hlen Hr.
  eapply (removed_for_ever demo_moves (mk_shared ∅ ∅ 0) (1000 * second_dur) [] (mk_parser 0) _ 1 _ ms');
    [split; [constructor|vm_compute; reflexivity]| | |right; split; vm_compute; reflexivity|exact Hr].
  - change (length demo_moves) with 7%nat. unfold max_int64. lia.
  - vm_compute. discriminate.
Defined.

Lemma request_served_witness :
  exists c ms' c', demo = Some c /\ pending c = Some (RemoveReq 1) /\
  run_moves ms' c = Some c' /\ pending c' = None.
Proof.
  eexists.
  edestruct (request_served demo_moves (mk_shared ∅ ∅ 0) (1000 * second_dur) [] (mk_parser 0))
    as (ms' & c' & _ & _ & Hm & Hp);
    [split; [constructor|vm_compute; reflexivity]| | | |exists ms', c'; split_and!; [| |exact Hm|exact Hp]];
    vm_compute; try reflexivity; discriminate.
Defined.
