(* ===== verification/Decimal.v ===== *)
(** * Decimals ([src/utils/decimal/decimal.go])

    A [Decimal] is an integer of any size and an exponent of 32 bits; a nil integer
    counts as 0 wherever the code initialises it, which is everywhere below.  What
    the operations mean is said with the code's own [Rat]: the rational number that
    a decimal stands for.  Floating-point numbers and the functions that need them
    are left out. *)

From Stdlib Require Import QArith Qround Qpower Qabs Lqa.
From S2P Require Import Prelude.

#[local] Open Scope Z_scope.

Record Decimal := mk_decimal { d_value : Z; d_exp : Z }.

#[export] Instance Decimal_eq_dec : EqDecision Decimal.
Proof. solve_decision. Defined.

Definition New (value exp : Z) : Decimal := mk_decimal value exp.
Definition Zero : Decimal := New 0 1.
Definition fiveDec : Decimal := New 5 0.
Definition DivisionPrecision : Z := 16.

(** ** Arithmetic *)

(** [Quo] of a big integer cuts towards zero. *)
Definition rescale (d : Decimal) (exp : Z) : Decimal :=
  let expScale := 10 ^ Z.abs (exp - d_exp d) in
  mk_decimal (if d_exp d <? exp then Z.quot (d_value d) expScale
              else if exp <? d_exp d then d_value d * expScale
              else d_value d) exp.

Definition Abs (d : Decimal) : Decimal := mk_decimal (Z.abs (d_value d)) (d_exp d).
Definition Neg (d : Decimal) : Decimal := mk_decimal (- d_value d) (d_exp d).

Definition Add (d d2 : Decimal) : Decimal :=
  let baseScale := Z.min (d_exp d) (d_exp d2) in
  mk_decimal (d_value (rescale d baseScale) + d_value (rescale d2 baseScale)) baseScale.

Definition Sub (d d2 : Decimal) : Decimal :=
  let baseScale := Z.min (d_exp d) (d_exp d2) in
  mk_decimal (d_value (rescale d baseScale) - d_value (rescale d2 baseScale)) baseScale.

Definition Mul (d d2 : Decimal) : outcome string Decimal :=
  let expInt64 := d_exp d + d_exp d2 in
  if (max_int32 <? expInt64) || (expInt64 <? min_int32) then Panic "exponent overflows an int32!"
  else Ok (mk_decimal (d_value d * d_value d2) expInt64).

Definition Shift (d : Decimal) (shift : Z) : Decimal := mk_decimal (d_value d) (int32 (d_exp d + shift)).

(** The difference of the exponents is taken at 32 bits before the test of its
    range, which so never fails. *)
Definition QuoRem (d d2 : Decimal) (precision : Z) : outcome string (Decimal * Decimal) :=
  if d_value d2 =? 0 then Panic "decimal division by 0"
  else
    let scale := int32 (- precision) in
    let e := int32 (int32 (d_exp d - d_exp d2) - scale) in
    if (max_int32 <? e) || (e <? min_int32) then Panic "overflow in decimal QuoRem"
    else
      let '(aa, bb, scalerest) :=
        if e <? 0 then (d_value d, d_value d2 * 10 ^ (- e), d_exp d)
        else (10 ^ e * d_value d, d_value d2, int32 (scale + d_exp d2)) in
      Ok (mk_decimal (Z.quot aa bb) scale, mk_decimal (Z.rem aa bb) scalerest).

Definition Cmp (d d2 : Decimal) : comparison :=
  if d_exp d =? d_exp d2 then d_value d ?= d_value d2
  else
    let baseExp := Z.min (d_exp d) (d_exp d2) in
    d_value (rescale d baseExp) ?= d_value (rescale d2 baseExp).

Definition is_cmp (c1 c2 : comparison) : bool :=
  match c1, c2 with Eq, Eq | Lt, Lt | Gt, Gt => true | _, _ => false end.

Definition Equal (d d2 : Decimal) : bool := is_cmp (Cmp d d2) Eq.
Definition Equals (d d2 : Decimal) : bool := Equal d d2.
Definition GreaterThan (d d2 : Decimal) : bool := is_cmp (Cmp d d2) Gt.
Definition GreaterThanOrEqual (d d2 : Decimal) : bool := is_cmp (Cmp d d2) Gt || is_cmp (Cmp d d2) Eq.
Definition LessThan (d d2 : Decimal) : bool := is_cmp (Cmp d d2) Lt.
Definition LessThanOrEqual (d d2 : Decimal) : bool := is_cmp (Cmp d d2) Lt || is_cmp (Cmp d d2) Eq.

Definition Sign (d : Decimal) : Z := Z.sgn (d_value d).
Definition IsPositive (d : Decimal) : bool := Sign d =? 1.
Definition IsNegative (d : Decimal) : bool := Sign d =? -1.
Definition IsZero (d : Decimal) : bool := Sign d =? 0.
Definition Exponent (d : Decimal) : Z := d_exp d.
Definition Coefficient (d : Decimal) : Z := d_value d.

(** [Int64] of a big integer keeps its low 64 bits. *)
Definition IntPart (d : Decimal) : Z := int64 (d_value (rescale d 0)).

Definition Rat (d : Decimal) : Q :=
  if d_exp d <=? 0 then d_value d # Z.to_pos (10 ^ (- d_exp d))
  else inject_Z (d_value d * 10 ^ d_exp d).

Definition DivRound (d d2 : Decimal) (precision : Z) : outcome string Decimal :=
  let* (q, r) := QuoRem d d2 precision in
  let r2 := mk_decimal (Z.abs (d_value r) * 2) (int32 (d_exp r + precision)) in
  if is_cmp (Cmp r2 (Abs d2)) Lt then Ok q
  else if Sign d * Sign d2 <? 0 then Ok (Sub q (New 1 (int32 (- precision))))
  else Ok (Add q (New 1 (int32 (- precision)))).

Definition Div (d d2 : Decimal) : outcome string Decimal := DivRound d d2 DivisionPrecision.

Definition Truncate (d : Decimal) (precision : Z) : Decimal :=
  if (0 <=? precision) && (d_exp d <? - precision) then rescale d (- precision) else d.

Definition Mod (d d2 : Decimal) : outcome string Decimal :=
  let* q := Div d d2 in
  let* p := Mul d2 (Truncate q 0) in
  Ok (Sub d p).

(** The exponent is halved until its integer part is 0. *)
Fixpoint Pow (fuel : nat) (d d2 : Decimal) : option (outcome string Decimal) :=
  match fuel with
  | O => None
  | S fuel =>
      if IntPart d2 =? 0 then Some (Ok (New 1 0))
      else
        match Div d2 (New 2 0) with
        | Ok half =>
            temp ← Pow fuel d half;
            Some (let* temp := temp in
                  let* square := Mul temp temp in
                  if Z.rem (IntPart d2) 2 =? 0 then Ok square
                  else if 0 <? IntPart d2 then Mul square d
                  else Div square d)
        | Err e => Some (Err e)
        | Panic w => Some (Panic w)
        end
  end.

(** ** Rounding *)

Definition Round (d : Decimal) (places : Z) : Decimal :=
  let ret := rescale d (int32 (int32 (- places) - 1)) in
  let v := if Z.sgn (d_value ret) <? 0 then d_value ret - 5 else d_value ret + 5 in
  let q := v / 10 in
  mk_decimal (if (Z.sgn q <? 0) && negb (v mod 10 =? 0) then q + 1 else q) (int32 (d_exp ret + 1)).

Definition RoundBank (d : Decimal) (places : Z) : Decimal :=
  let round := Round d places in
  let remainder := Abs (Sub d round) in
  let half := New 5 (int32 (int32 (- places) - 1)) in
  if is_cmp (Cmp remainder half) Eq && Z.odd (d_value round) then
    mk_decimal (if Z.sgn (d_value round) <? 0 then d_value round + 1 else d_value round - 1) (d_exp round)
  else round.

(** [10^-int64(orgExp)] is an exclusive or. *)
Definition cash15 (d : Decimal) : outcome string Decimal :=
  if d_exp d <? 0 then
    let dOne := New (Z.lxor 10 (- d_exp d)) (d_exp d) in
    let* m := Mod (mk_decimal (d_value d) 0) fiveDec in
    if Equal m Zero then Ok (Sub (mk_decimal (d_value d) (d_exp d)) dOne) else Ok d
  else Ok d.

Definition cash_interval (d : Decimal) (interval : Z) : outcome string (Decimal * Z) :=
  if interval =? 5 then Ok (d, 20)
  else if interval =? 10 then Ok (d, 10)
  else if interval =? 15 then let* d := cash15 d in Ok (d, 10)
  else if interval =? 25 then Ok (d, 4)
  else if interval =? 50 then Ok (d, 2)
  else if interval =? 100 then Ok (d, 1)
  else Panic "Decimal does not support this Cash rounding interval".

Definition RoundCash (d : Decimal) (interval : Z) : outcome string Decimal :=
  let* (d, iVal) := cash_interval d interval in
  let dVal := mk_decimal iVal 0 in
  let* m := Mul d dVal in
  let* q := Div (Round m 0) dVal in
  Ok (Truncate q 2).

Definition Floor (d : Decimal) : Decimal :=
  if 0 <=? d_exp d then d else mk_decimal (d_value d / 10 ^ (- d_exp d)) 0.

Definition Ceil (d : Decimal) : Decimal :=
  if 0 <=? d_exp d then d
  else
    let exp := 10 ^ (- d_exp d) in
    mk_decimal (if d_value d mod exp =? 0 then d_value d / exp else d_value d / exp + 1) 0.

(** ** Lists *)

Definition Min (first : Decimal) (rest : list Decimal) : Decimal :=
  foldl (fun ans item => if is_cmp (Cmp item ans) Lt then item else ans) first rest.
Definition Max (first : Decimal) (rest : list Decimal) : Decimal :=
  foldl (fun ans item => if is_cmp (Cmp item ans) Gt then item else ans) first rest.
Definition Sum (first : Decimal) (rest : list Decimal) : Decimal := foldl Add first rest.
Definition Avg (first : Decimal) (rest : list Decimal) : outcome string Decimal :=
  Div (Sum first rest) (New (Z.of_nat (length rest) + 1) 0).

Example Div_doc : Div (New 2 0) (New 3 0) = Ok (New 6666666666666667 (-16)).
Proof. vm_compute. reflexivity. Qed.

Example Round_doc : Round (New 545 (-2)) 1 = New 55 (-1) /\ RoundBank (New 545 (-2)) 1 = New 54 (-1) /\ RoundBank (New 555 0) (-1) = New 56 1.
Proof. vm_compute. by split_and!. Qed.

(** The quotient is rounded before it is cut: the remainder has the wrong sign. *)
Example Mod_negative : Mod (New 99999999999999999 (-17)) (New 1 0) = Ok (New (-1) (-17)).
Proof. vm_compute. reflexivity. Qed.

(** 3.45 becomes 3.40, as the documentation says; but 3.40 does not stay. *)
Example RoundCash_15 :
  RoundCash (New 345 (-2)) 15 = Ok (New 340 (-2)) /\ RoundCash (New 340 (-2)) 15 = Ok (New 330 (-2)).
Proof. vm_compute. by split. Qed.

(** ** Decimals as rational numbers *)

Definition p10 (e : Z) : Q := (inject_Z 10 ^ e)%Q.

Lemma p10_pos e : (0 < p10 e)%Q.
Proof. by apply Qpower_0_lt. Qed.

Lemma p10_nonzero e : ~ (p10 e == 0)%Q.
Proof. apply Qpower_not_0. by intros H. Qed.

Lemma p10_plus e f : (p10 (e + f) == p10 e * p10 f)%Q.
Proof. apply Qpower_plus. by intros H. Qed.

Lemma p10_Z e : 0 <= e -> (p10 e == inject_Z (10 ^ e))%Q.
Proof. intros He. symmetry. by apply Zpower_Qpower. Qed.

Lemma p10_opp e : (p10 (- e) == / p10 e)%Q.
Proof. apply Qpower_opp. Qed.

Lemma Rat_spec d : (Rat d == inject_Z (d_value d) * p10 (d_exp d))%Q.
Proof.
  unfold Rat. destruct (Z.leb_spec (d_exp d) 0) as [Hle|Hgt].
  - rewrite Qmake_Qdiv. assert (0 < 10 ^ (- d_exp d)) by (apply Z.pow_pos_nonneg; lia).
    rewrite Z2Pos.id by done. rewrite <- p10_Z by lia. rewrite p10_opp. unfold Qdiv. by rewrite Qinv_involutive.
  - rewrite inject_Z_mult. by rewrite p10_Z by lia.
Qed.

(** A decimal on a finer scale. *)
Lemma Rat_scale d e : e <= d_exp d -> (Rat d == inject_Z (d_value d * 10 ^ (d_exp d - e)) * p10 e)%Q.
Proof.
  intros He. rewrite Rat_spec, inject_Z_mult, <- p10_Z by lia. rewrite <- Qmult_assoc, <- p10_plus.
  by replace (d_exp d - e + e) with (d_exp d) by lia.
Qed.

Lemma rescale_down d e : e <= d_exp d -> rescale d e = mk_decimal (d_value d * 10 ^ (d_exp d - e)) e.
Proof.
  intros He. unfold rescale. f_equal. destruct (Z.ltb_spec (d_exp d) e); [lia|].
  destruct (Z.ltb_spec e (d_exp d)).
  - do 2 f_equal. lia.
  - replace (d_exp d - e) with 0 by lia. cbn. lia.
Qed.

Lemma rescale_exact d e : e <= d_exp d -> (Rat (rescale d e) == Rat d)%Q.
Proof. intros He. rewrite (Rat_scale d e He), Rat_spec, rescale_down by done. reflexivity. Qed.

Lemma Qcompare_scale a b e : ((inject_Z a * p10 e ?= inject_Z b * p10 e)%Q = (a ?= b)%Z).
Proof.
  pose proof (p10_pos e) as Hp. destruct (Z.compare_spec a b) as [->|Hlt|Hgt].
  - by apply Qeq_alt.
  - apply Qlt_alt. apply Qmult_lt_r; [done|]. by rewrite <- Zlt_Qlt.
  - apply Qgt_alt. apply Qmult_lt_r; [done|]. by rewrite <- Zlt_Qlt.
Qed.

Lemma Cmp_Rat d d2 : Cmp d d2 = (Rat d ?= Rat d2)%Q.
Proof.
  unfold Cmp. destruct (Z.eqb_spec (d_exp d) (d_exp d2)) as [E|_].
  - by rewrite !Rat_spec, E, Qcompare_scale.
  - set (e := Z.min _ _). rewrite !rescale_down by lia. cbn [d_value].
    by rewrite (Rat_scale d e), (Rat_scale d2 e), Qcompare_scale by lia.
Qed.

Lemma Add_Rat d d2 : (Rat (Add d d2) == Rat d + Rat d2)%Q.
Proof.
  unfold Add. set (e := Z.min _ _). rewrite !rescale_down by lia. rewrite Rat_spec. cbn [d_value d_exp].
  rewrite (Rat_scale d e), (Rat_scale d2 e) by lia. rewrite inject_Z_plus. ring.
Qed.

Lemma Sub_Rat d d2 : (Rat (Sub d d2) == Rat d - Rat d2)%Q.
Proof.
  unfold Sub. set (e := Z.min _ _). rewrite !rescale_down by lia. rewrite Rat_spec. cbn [d_value d_exp].
  rewrite (Rat_scale d e), (Rat_scale d2 e) by lia. unfold Z.sub. rewrite inject_Z_plus, inject_Z_opp. ring.
Qed.

Lemma Neg_Rat d : (Rat (Neg d) == - Rat d)%Q.
Proof. rewrite !Rat_spec. cbn [Neg d_value d_exp]. rewrite inject_Z_opp. ring. Qed.

Lemma Rat_sign d : (Rat d ?= 0)%Q = (d_value d ?= 0)%Z.
Proof. rewrite Rat_spec, <- (Qmult_0_l (p10 (d_exp d))). by rewrite <- (Qcompare_scale _ _ (d_exp d)). Qed.

Lemma Abs_Rat d : (Rat (Abs d) == Qabs (Rat d))%Q.
Proof.
  rewrite !Rat_spec, Qabs_Qmult. cbn [Abs d_value d_exp]. rewrite (Qabs_pos (p10 _)) by (apply Qlt_le_weak, p10_pos). reflexivity.
Qed.

Lemma Mul_Rat d d2 : in_int32 (d_exp d + d_exp d2) -> exists p, Mul d d2 = Ok p /\ d_exp p = d_exp d + d_exp d2 /\ (Rat p == Rat d * Rat d2)%Q.
Proof.
  intros [H1 H2]. unfold Mul. replace ((max_int32 <? _) || _) with false.
  2: { symmetry. apply orb_false_iff. rewrite !Z.ltb_ge. lia. }
  eexists. split; [reflexivity|]. split; [done|]. rewrite !Rat_spec. cbn [d_value d_exp]. rewrite inject_Z_mult, p10_plus. ring.
Qed.

Lemma Shift_Rat d n : in_int32 (d_exp d + n) -> (Rat (Shift d n) == Rat d * p10 n)%Q.
Proof. intros H. rewrite !Rat_spec. unfold Shift. cbn [d_value d_exp]. rewrite int32_small by done. rewrite p10_plus. ring. Qed.

(** C19: the arithmetic of decimals is that of the rational numbers they stand for:
    sums, differences, negation, the absolute value and comparisons always, and
    products and shifts as long as the exponent stays within 32 bits; beyond it a
    product panics. *)
Theorem decimal_arithmetic d d2 n :
  (Rat (Add d d2) == Rat d + Rat d2)%Q /\ (Rat (Sub d d2) == Rat d - Rat d2)%Q /\
  (Rat (Neg d) == - Rat d)%Q /\ (Rat (Abs d) == Qabs (Rat d))%Q /\
  Cmp d d2 = (Rat d ?= Rat d2)%Q /\ Sign d = match (Rat d ?= 0)%Q with Lt => -1 | Eq => 0 | Gt => 1 end /\
  (if bool_decide (min_int32 <= d_exp d + d_exp d2 <= max_int32)
   then exists p, Mul d d2 = Ok p /\ (Rat p == Rat d * Rat d2)%Q else is_panic (Mul d d2) = true) /\
  (in_int32 (d_exp d + n) -> (Rat (Shift d n) == Rat d * p10 n)%Q).
Proof.
  split_and!; [apply Add_Rat|apply Sub_Rat|apply Neg_Rat|apply Abs_Rat|apply Cmp_Rat| | |apply Shift_Rat].
  - rewrite Rat_sign. unfold Sign. by destruct (d_value d).
  - case_bool_decide as Hr.
    + destruct (Mul_Rat d d2 Hr) as (p & Hp & _ & Hq). by exists p.
    + unfold Mul. case_match eqn:E; [done|]. z_bools. lia.
Qed.

Lemma decimal_arithmetic_witness : (Rat (Shift (New 5 (-1)) 3) == Rat (New 5 (-1)) * p10 3)%Q.
Proof. destruct (decimal_arithmetic (New 5 (-1)) Zero 3) as (_ & _ & _ & _ & _ & _ & _ & H). apply H. split; vm_compute; discriminate. Defined.

(** ** Rounding a rational number *)

Definition half_away (x : Q) : Z := if (x ?= 0)%Q is Lt then - Qfloor (- x + (1 # 2)) else Qfloor (x + (1 # 2)).

#[export] Instance half_away_proper : Proper (Qeq ==> eq) half_away.
Proof. intros x y E. unfold half_away. rewrite E. destruct (y ?= 0)%Q; by rewrite E. Qed.

Lemma half_away_frac a b : 0 < b ->
  half_away (inject_Z a / inject_Z b) = if a <? 0 then - ((2 * - a + b) / (2 * b)) else (2 * a + b) / (2 * b).
Proof.
  intros Hb. assert (inject_Z a / inject_Z b == a # Z.to_pos b)%Q as ->.
  { rewrite Qmake_Qdiv, Z2Pos.id by done. reflexivity. }
  unfold half_away. replace (a # Z.to_pos b ?= 0)%Q with (a ?= 0)%Z by (unfold Qcompare; cbn; by rewrite Z.mul_1_r).
  assert (forall z, Qfloor ((z # Z.to_pos b) + (1 # 2)) = (2 * z + b) / (2 * b)) as Hf.
  { intros z. unfold Qplus. cbn [Qfloor Qnum Qden]. rewrite Pos2Z.inj_mul, Z2Pos.id by done. f_equal; lia. }
  destruct (Z.ltb_spec a 0) as [Hlt|Hge].
  - rewrite (proj2 (Z.compare_lt_iff a 0) Hlt). f_equal. apply (Hf (- a)).
  - destruct (Z.compare_spec a 0); try lia; apply Hf.
Qed.

(** A quotient and what is left of it decide the rounding. *)
Lemma half_away_quot a b : b <> 0 ->
  half_away (inject_Z a / inject_Z b) =
  if 2 * Z.abs (Z.rem a b) <? Z.abs b then Z.quot a b
  else if Z.sgn a * Z.sgn b <? 0 then Z.quot a b - 1 else Z.quot a b + 1.
Proof.
  intros Hb. assert (forall a b, 0 < b -> half_away (inject_Z a / inject_Z b) =
    if 2 * Z.abs (Z.rem a b) <? b then Z.quot a b else if a <? 0 then Z.quot a b - 1 else Z.quot a b + 1) as Hpos.
  { clear. intros a b Hb. rewrite half_away_frac by done.
    assert (forall n, 0 <= n -> (2 * n + b) / (2 * b) = if 2 * (n mod b) <? b then n / b else n / b + 1) as Hd.
    { intros n Hn. pose proof (Z.div_mod n b ltac:(lia)). pose proof (Z.mod_pos_bound n b Hb).
      destruct (Z.ltb_spec (2 * (n mod b)) b); symmetry.
      - apply (Z.div_unique_pos _ _ _ (2 * (n mod b) + b)); lia.
      - apply (Z.div_unique_pos _ _ _ (2 * (n mod b) - b)); lia. }
    destruct (Z.ltb_spec a 0).
    - assert (exists m, a = - m /\ 0 <= m) as (m & -> & Hm) by (exists (- a); lia). rewrite Z.opp_involutive, Hd by lia.
      rewrite Z.rem_opp_l, Z.quot_opp_l, Z.abs_opp, Z.quot_div_nonneg, Z.rem_mod_nonneg by lia.
      pose proof (Z.mod_pos_bound m b Hb). rewrite Z.abs_eq by lia. destruct (_ <? b); lia.
    - rewrite Hd by lia. rewrite Z.quot_div_nonneg, Z.rem_mod_nonneg by lia. pose proof (Z.mod_pos_bound a b Hb). by rewrite Z.abs_eq by lia. }
  destruct (Z.lt_ge_cases 0 b) as [Hp|Hn].
  - rewrite Hpos, (Z.abs_eq b), (Z.sgn_pos b) by lia. rewrite Z.mul_1_r.
    by replace (Z.sgn a <? 0) with (a <? 0) by (destruct a; reflexivity).
  - assert (inject_Z a / inject_Z b == inject_Z (- a) / inject_Z (- b))%Q as ->.
    { rewrite !inject_Z_opp. field. intros E. apply Hb. unfold Qeq in E. cbn in E. lia. }
    rewrite Hpos by lia. rewrite Z.rem_opp_opp, Z.quot_opp_opp by lia. rewrite Z.abs_opp, (Z.abs_neq b), (Z.sgn_neg b) by lia.
    by replace (Z.sgn a * -1 <? 0) with (- a <? 0) by (destruct a; reflexivity).
Qed.

(** ** Division *)

(** The exponents that a division goes through stay within 32 bits. *)
Record div_range (d d2 : Decimal) (precision : Z) : Prop := {
  range_scale : in_int32 (- precision);
  range_e : in_int32 (d_exp d - d_exp d2 + precision);
  range_rest : in_int32 (d_exp d2 - precision);
  range_left : in_int32 (d_exp d + precision);
  range_d2 : in_int32 (d_exp d2)
}.

Lemma int32_minus x y : int32 (int32 x - y) = int32 (x - y).
Proof.
  unfold int32, swrap. f_equal. set (h := 2 ^ (32 - 1)). set (n := (x + h) mod 2 ^ 32).
  replace (n - h - y + h) with (n - y) by lia. unfold n. rewrite Zminus_mod_idemp_l. f_equal. lia.
Qed.

(** The integers whose quotient is taken. *)
Definition numerator (d d2 : Decimal) (precision : Z) : Z :=
  let e := d_exp d - d_exp d2 + precision in if e <? 0 then d_value d else 10 ^ e * d_value d.
Definition denominator (d d2 : Decimal) (precision : Z) : Z :=
  let e := d_exp d - d_exp d2 + precision in if e <? 0 then d_value d2 * 10 ^ (- e) else d_value d2.
Definition rest_exp (d d2 : Decimal) (precision : Z) : Z :=
  if d_exp d - d_exp d2 + precision <? 0 then d_exp d else d_exp d2 - precision.

Section Division.
Variables (d d2 : Decimal) (p : Z).
Hypothesis nonzero : d_value d2 <> 0.
Hypothesis range : div_range d d2 p.

Lemma QuoRem_ok :
  QuoRem d d2 p = Ok (mk_decimal (Z.quot (numerator d d2 p) (denominator d d2 p)) (- p),
                      mk_decimal (Z.rem (numerator d d2 p) (denominator d d2 p)) (rest_exp d d2 p)).
Proof.
  destruct range as [H1 H2 H3 _ _]. unfold QuoRem, numerator, denominator, rest_exp.
  rewrite (proj2 (Z.eqb_neq _ _) nonzero). rewrite int32_minus. rewrite (int32_small (- p)) by done.
  replace (d_exp d - d_exp d2 - - p) with (d_exp d - d_exp d2 + p) by lia. rewrite (int32_small (_ + p)) by done.
  destruct H2 as [H2l H2u]. replace ((max_int32 <? _) || _) with false by (symmetry; apply orb_false_iff; rewrite !Z.ltb_ge; lia).
  destruct (_ <? 0); [done|]. replace (- p + d_exp d2) with (d_exp d2 - p) by lia. by rewrite int32_small.
Qed.

Lemma denominator_nonzero : denominator d d2 p <> 0.
Proof.
  unfold denominator. destruct (Z.ltb_spec (d_exp d - d_exp d2 + p) 0); [|done].
  assert (0 < 10 ^ (- (d_exp d - d_exp d2 + p))) by (apply Z.pow_pos_nonneg; lia). nia.
Qed.

Lemma inject_nonzero z : z <> 0 -> ~ (inject_Z z == 0)%Q.
Proof. intros Hz E. apply Hz. unfold Qeq in E. cbn in E. lia. Qed.

Lemma Rat_nonzero x : d_value x <> 0 -> ~ (Rat x == 0)%Q.
Proof. intros Hx. rewrite Rat_spec. intros E. apply Qmult_integral in E as [E|E]; [by apply (inject_nonzero _ Hx)|by apply (p10_nonzero _ E)]. Qed.

Lemma quotient_Rat : (inject_Z (numerator d d2 p) / inject_Z (denominator d d2 p) == Rat d / Rat d2 * p10 p)%Q.
Proof.
  pose proof denominator_nonzero as Hd. pose proof (inject_nonzero _ nonzero). rewrite !Rat_spec. unfold numerator, denominator in *.
  set (e := d_exp d - d_exp d2 + p) in *. assert (d_exp d = d_exp d2 + e + - p) as -> by lia. rewrite !p10_plus, p10_opp.
  pose proof (p10_nonzero (d_exp d2)). pose proof (p10_nonzero p). destruct (Z.ltb_spec e 0).
  - rewrite inject_Z_mult, <- p10_Z by lia. rewrite p10_opp. pose proof (p10_nonzero e). field. by split_and!.
  - rewrite inject_Z_mult, <- p10_Z by lia. field. by split_and!.
Qed.

Lemma numerator_Rat : (Rat d == inject_Z (numerator d d2 p) * p10 (rest_exp d d2 p))%Q.
Proof.
  unfold numerator, rest_exp. set (e := d_exp d - d_exp d2 + p). destruct (Z.ltb_spec e 0); [apply Rat_spec|].
  rewrite (Rat_scale d (d_exp d2 - p)) by lia. replace (d_exp d - (d_exp d2 - p)) with e by lia. by rewrite Z.mul_comm.
Qed.

Lemma denominator_Rat : (Rat d2 * p10 (- p) == inject_Z (denominator d d2 p) * p10 (rest_exp d d2 p))%Q.
Proof.
  unfold denominator, rest_exp. set (e := d_exp d - d_exp d2 + p). rewrite Rat_spec, <- Qmult_assoc, <- p10_plus.
  destruct (Z.ltb_spec e 0); [|reflexivity]. rewrite inject_Z_mult, <- p10_Z, <- Qmult_assoc, <- p10_plus by lia.
  by replace (d_exp d2 + - p) with (- e + d_exp d) by lia.
Qed.

Lemma sign_quotient : Z.sgn (numerator d d2 p) * Z.sgn (denominator d d2 p) = Sign d * Sign d2.
Proof.
  unfold numerator, denominator, Sign. set (e := d_exp d - d_exp d2 + p). destruct (Z.ltb_spec e 0); rewrite Z.sgn_mul, (Z.sgn_pos (10 ^ _)) by (apply Z.pow_pos_nonneg; lia); lia.
Qed.

(** The test on the remainder compares it with half of the divisor. *)
Lemma rest_test :
  is_cmp (Cmp (mk_decimal (Z.abs (Z.rem (numerator d d2 p) (denominator d d2 p)) * 2) (int32 (rest_exp d d2 p + p))) (Abs d2)) Lt =
  (2 * Z.abs (Z.rem (numerator d d2 p) (denominator d d2 p)) <? Z.abs (denominator d d2 p)).
Proof.
  destruct range as [_ _ _ H4 H5]. rewrite Cmp_Rat. set (r := Z.rem _ _). rewrite !Rat_spec. cbn [Abs d_value d_exp].
  assert (in_int32 (rest_exp d d2 p + p)) as Hr.
  { unfold rest_exp. destruct (_ <? 0); [done|]. by replace (d_exp d2 - p + p) with (d_exp d2) by lia. }
  rewrite int32_small by done. unfold rest_exp, denominator. set (e := d_exp d - d_exp d2 + p). destruct (Z.ltb_spec e 0) as [He|He].
  - assert (p10 (d_exp d2) == inject_Z (10 ^ (- e)) * p10 (d_exp d + p))%Q as ->.
    { rewrite <- p10_Z, <- p10_plus by lia. unfold e. by replace (- (d_exp d - d_exp d2 + p) + (d_exp d + p)) with (d_exp d2) by lia. }
    rewrite Qmult_assoc, <- inject_Z_mult, Qcompare_scale, Z.abs_mul, (Z.abs_eq (10 ^ _)) by (apply Z.pow_nonneg; lia).
    rewrite (Z.mul_comm 2). unfold Z.ltb. by destruct (_ ?= _).
  - replace (d_exp d2 - p + p) with (d_exp d2) by lia. rewrite Qcompare_scale, (Z.mul_comm 2). unfold Z.ltb. by destruct (_ ?= _).
Qed.

Lemma DivRound_ok : DivRound d d2 p = Ok (mk_decimal (half_away (Rat d / Rat d2 * p10 p)%Q) (- p)).
Proof.
  unfold DivRound. rewrite QuoRem_ok. cbn [bind_outcome d_value d_exp]. rewrite rest_test.
  rewrite <- quotient_Rat, half_away_quot by apply denominator_nonzero. rewrite sign_quotient.
  destruct (_ <? _); [done|]. rewrite int32_small by apply range.
  destruct (_ <? 0); unfold Add, Sub; cbn [d_exp New]; rewrite Z.min_id, !rescale_down by (cbn; lia); cbn [d_value d_exp New];
    by rewrite Z.sub_diag, Z.mul_1_r.
Qed.
End Division.

(** C18: division by a decimal that is not zero.  [QuoRem] cuts the quotient at the
    precision, towards zero, and what is left is exact, has the sign of the
    dividend and is less than one unit; [DivRound] takes the nearest multiple of
    the unit, and of two that are equally near the one further from zero.
    Division by zero panics. *)
Theorem decimal_division d d2 p :
  div_range d d2 p ->
  if d_value d2 =? 0 then is_panic (DivRound d d2 p) = true
  else
    (exists q r, QuoRem d d2 p = Ok (q, r) /\ d_exp q = - p /\
       (Rat d == Rat d2 * Rat q + Rat r)%Q /\ (Qabs (Rat r) < Qabs (Rat d2) * p10 (- p))%Q /\ (0 <= Rat d * Rat r)%Q) /\
    DivRound d d2 p = Ok (mk_decimal (half_away (Rat d / Rat d2 * p10 p)%Q) (- p)).
Proof.
  intros Hr. destruct (Z.eqb_spec (d_value d2) 0) as [E|Hne].
  { unfold DivRound, QuoRem. by rewrite E. }
  split; [|by apply DivRound_ok]. rewrite QuoRem_ok by done. do 2 eexists. split; [reflexivity|]. split; [done|].
  pose proof (denominator_nonzero d d2 p Hne) as Hd. pose proof (numerator_Rat d d2 p) as Hn. pose proof (denominator_Rat d d2 p) as Hden.
  set (n := numerator d d2 p) in *. set (m := denominator d d2 p) in *. pose proof (p10_pos (rest_exp d d2 p)) as Hp.
  rewrite !(Rat_spec (mk_decimal _ _)). cbn [d_value d_exp]. split_and!.
  - rewrite Hn. rewrite (Z.quot_rem n m Hd) at 1. rewrite inject_Z_plus, inject_Z_mult.
    transitivity (inject_Z (Z.quot n m) * (Rat d2 * p10 (- p)) + inject_Z (Z.rem n m) * p10 (rest_exp d d2 p))%Q; [rewrite Hden; ring|ring].
  - rewrite <- (Qabs_pos (p10 (- p))) by (apply Qlt_le_weak, p10_pos). rewrite <- Qabs_Qmult, Hden, !Qabs_Qmult.
    rewrite (Qabs_pos (p10 _)) by (by apply Qlt_le_weak). apply Qmult_lt_r; [done|]. change (inject_Z (Z.abs (Z.rem n m)) < inject_Z (Z.abs m))%Q.
    rewrite <- Zlt_Qlt. by apply Z.rem_bound_abs.
  - assert (Rat d * (inject_Z (Z.rem n m) * p10 (rest_exp d d2 p)) ==
            inject_Z (n * Z.rem n m) * (p10 (rest_exp d d2 p) * p10 (rest_exp d d2 p)))%Q as -> by (rewrite Hn, inject_Z_mult; ring).
    apply Qmult_le_0_compat; [|apply Qmult_le_0_compat; by apply Qlt_le_weak]. change 0%Q with (inject_Z 0). rewrite <- Zle_Qle.
    rewrite Z.mul_comm. by apply Z.rem_sign_mul.
Qed.

Lemma decimal_division_witness : DivRound (New 2 0) (New (-3) 0) 2 = Ok (mk_decimal (half_away (Rat (New 2 0) / Rat (New (-3) 0) * p10 2)%Q) (-2)).
Proof.
  assert (div_range (New 2 0) (New (-3) 0) 2) as Hr by (split; split; vm_compute; discriminate).
  exact (proj2 (decimal_division (New 2 0) (New (-3) 0) 2 Hr)).
Defined.

(** ** Rounding decimals *)

(** The nearest integer, and of two the even one. *)
Definition half_even (x : Q) : Z :=
  match (x - inject_Z (Qfloor x) ?= 1 # 2)%Q with
  | Lt => Qfloor x
  | Gt => Qfloor x + 1
  | Eq => if Z.even (Qfloor x) then Qfloor x else Qfloor x + 1
  end.

#[export] Instance half_even_proper : Proper (Qeq ==> eq) half_even.
Proof. intros x y E. unfold half_even. rewrite (Qfloor_comp x y E). by setoid_rewrite E. Qed.

Lemma frac_Rat d k : 0 <= k -> d_exp d = - k -> (Rat d == inject_Z (d_value d) / inject_Z (10 ^ k))%Q.
Proof. intros Hk He. rewrite Rat_spec, He, p10_opp, p10_Z by done. reflexivity. Qed.

Lemma Qfloor_frac a b : 0 < b -> Qfloor (inject_Z a / inject_Z b) = a / b.
Proof.
  intros Hb. assert (inject_Z a / inject_Z b == a # Z.to_pos b)%Q as ->; [|cbn; by rewrite Z2Pos.id].
  rewrite Qmake_Qdiv, Z2Pos.id by done. reflexivity.
Qed.

(** [Round] works on the number cut one digit further, which is enough. *)
Lemma round_digit v : 
  (let w := if Z.sgn v <? 0 then v - 5 else v + 5 in
   if (Z.sgn (w / 10) <? 0) && negb (w mod 10 =? 0) then w / 10 + 1 else w / 10) =
  if v <? 0 then - ((- v + 5) / 10) else (v + 5) / 10.
Proof.
  cbn zeta. replace (Z.sgn v <? 0) with (v <? 0) by (by destruct v). destruct (Z.ltb_spec v 0).
  - set (n := - v + 5). replace (v - 5) with (- n) by lia. assert (6 <= n) by lia.
    assert (- n / 10 < 0) by (apply Z.div_lt_upper_bound; lia). rewrite (Z.sgn_neg (- n / 10)) by done. cbn [andb Z.ltb Z.compare].
    destruct (Z.eqb_spec (- n mod 10) 0) as [E|E].
    + rewrite Z.div_opp_l_z by (try lia; by apply Z.mod_opp_l_z in E; rewrite ?Z.opp_involutive in E).
      done.
    + rewrite Z.div_opp_l_nz; [cbn [negb]; lia|done|]. intros E2. apply E. by apply Z.mod_opp_l_z.
  - assert (0 <= (v + 5) / 10) by (apply Z.div_pos; lia). by replace (Z.sgn ((v + 5) / 10) <? 0) with false by (symmetry; apply Z.ltb_ge; lia).
Qed.

Lemma cut_round v k : 0 <= k ->
  (let w := Z.quot v (10 ^ k) in if w <? 0 then - ((- w + 5) / 10) else (w + 5) / 10) =
  half_away (inject_Z v / inject_Z (10 ^ (k + 1))).
Proof.
  intros Hk. assert (0 < 10 ^ k) by (apply Z.pow_pos_nonneg; lia). rewrite half_away_frac by (apply Z.pow_pos_nonneg; lia).
  rewrite Z.pow_add_r by lia. change (10 ^ 1) with 10. cbn zeta.
  assert (forall n, 0 <= n -> (2 * n + 10 ^ k * 10) / (2 * (10 ^ k * 10)) = (n / 10 ^ k + 5) / 10) as Hd.
  { intros n Hn. replace (2 * n + 10 ^ k * 10) with (2 * (n + 5 * 10 ^ k)) by lia. rewrite Z.div_mul_cancel_l by lia.
    rewrite <- Z.div_div by lia. by rewrite Z.div_add by lia. }
  destruct (Z.ltb_spec v 0).
  - assert (exists m, v = - m /\ 0 <= m) as (m & -> & Hm) by (exists (- v); lia). rewrite Z.opp_involutive, Hd by done.
    rewrite Z.quot_opp_l, Z.quot_div_nonneg, Z.opp_involutive by lia. assert (0 <= m / 10 ^ k) by (apply Z.div_pos; lia).
    destruct (Z.ltb_spec (- (m / 10 ^ k)) 0); [done|]. by assert (m / 10 ^ k = 0) as -> by lia.
  - rewrite Hd by lia. rewrite Z.quot_div_nonneg by lia. assert (0 <= v / 10 ^ k) by (apply Z.div_pos; lia).
    by replace (v / 10 ^ k <? 0) with false by (symmetry; apply Z.ltb_ge; lia).
Qed.

Lemma rescale_value d e :
  d_value (rescale d e) = if d_exp d <? e then Z.quot (d_value d) (10 ^ (e - d_exp d)) else d_value d * 10 ^ (d_exp d - e).
Proof.
  destruct (Z.ltb_spec (d_exp d) e) as [Hlt|Hge]; [|by rewrite rescale_down].
  unfold rescale. cbn [d_value]. rewrite (proj2 (Z.ltb_lt _ _) Hlt). by rewrite Z.abs_eq by lia.
Qed.

Lemma Round_ok d places :
  in_int32 (- places - 1) -> in_int32 (- places) -> Round d places = mk_decimal (half_away (Rat d * p10 places)%Q) (- places).
Proof.
  intros H1 H2. unfold Round. rewrite (int32_small (- places)), (int32_small (- places - 1)) by done.
  rewrite round_digit. cbn [rescale d_exp]. replace (- places - 1 + 1) with (- places) by lia. rewrite (int32_small (- places)) by done. f_equal.
  rewrite rescale_value. set (e := - places - 1). destruct (Z.ltb_spec (d_exp d) e) as [Hlt|Hge].
  - rewrite cut_round by lia. apply half_away_proper. rewrite Rat_spec, <- Qmult_assoc, <- p10_plus.
    replace (d_exp d + places) with (- (e - d_exp d + 1)) by lia. rewrite p10_opp, p10_Z by lia. reflexivity.
  - pose proof (cut_round (d_value d * 10 ^ (d_exp d - e)) 0 ltac:(lia)) as Hc. rewrite Z.quot_1_r in Hc. cbn zeta in Hc. rewrite Hc.
    apply half_away_proper. rewrite (Rat_scale d e), <- Qmult_assoc, <- p10_plus by lia. by replace (e + places) with (-1) by lia.
Qed.

Lemma Qfloor_unique y n : (inject_Z n <= y)%Q -> (y < inject_Z n + 1)%Q -> Qfloor y = n.
Proof.
  intros H1 H2. pose proof (Qfloor_le y) as H3. pose proof (Qlt_floor y) as H4. rewrite inject_Z_plus in H4. change (inject_Z 1) with 1%Q in H4.
  assert (inject_Z n < inject_Z (Qfloor y + 1))%Q as H5 by (rewrite inject_Z_plus; change (inject_Z 1) with 1%Q; lra).
  assert (inject_Z (Qfloor y) < inject_Z (n + 1))%Q as H6 by (rewrite inject_Z_plus; change (inject_Z 1) with 1%Q; lra).
  rewrite <- Zlt_Qlt in H5, H6. lia.
Qed.

(** [half_away] by the fraction above the floor. *)
Lemma half_away_floor x :
  half_away x = match (x - inject_Z (Qfloor x) ?= 1 # 2)%Q with
                | Lt => Qfloor x
                | Gt => Qfloor x + 1
                | Eq => if (x ?= 0)%Q is Lt then Qfloor x else Qfloor x + 1
                end.
Proof.
  pose proof (Qfloor_le x) as H1. pose proof (Qlt_floor x) as H2. rewrite inject_Z_plus in H2. change (inject_Z 1) with 1%Q in H2.
  set (f := Qfloor x) in *. unfold half_away.
  destruct (Qcompare_spec (x - inject_Z f) (1 # 2)) as [E|E|E]; destruct (x ?= 0)%Q;
    try (apply Qfloor_unique; rewrite ?inject_Z_plus; change (inject_Z 1) with 1%Q; lra).
  - rewrite (Qfloor_unique _ (- f)); [lia|rewrite inject_Z_opp; lra..].
  - rewrite (Qfloor_unique _ (- f)); [lia|rewrite inject_Z_opp; lra..].
  - rewrite (Qfloor_unique _ (- f - 1)); [lia|unfold Z.sub; rewrite inject_Z_plus, inject_Z_opp; change (inject_Z (- (1))) with (- 1)%Q; lra..].
Qed.

Lemma half_even_away x :
  half_even x =
  let z := half_away x in
  if is_cmp (Qabs (x - inject_Z z) ?= 1 # 2)%Q Eq && Z.odd z then (if Z.sgn z <? 0 then z + 1 else z - 1) else z.
Proof.
  cbn zeta. rewrite half_away_floor. unfold half_even. pose proof (Qfloor_le x) as H1. pose proof (Qlt_floor x) as H2.
  rewrite inject_Z_plus in H2. change (inject_Z 1) with 1%Q in H2. set (f := Qfloor x) in *.
  assert (forall z, ~ (Qabs (x - inject_Z z) == 1 # 2)%Q -> is_cmp (Qabs (x - inject_Z z) ?= 1 # 2)%Q Eq = false) as Hno.
  { intros z Hz. destruct (Qcompare_spec (Qabs (x - inject_Z z)) (1 # 2)); [done|done..]. }
  assert (forall z, (Qabs (x - inject_Z z) == 1 # 2)%Q -> is_cmp (Qabs (x - inject_Z z) ?= 1 # 2)%Q Eq = true) as Hyes.
  { intros z Hz. by apply Qeq_alt in Hz as ->. }
  destruct (Qcompare_spec (x - inject_Z f) (1 # 2)) as [E|E|E].
  - destruct (Qcompare_spec x 0) as [Ex|Ex|Ex].
    2: { rewrite Hyes by (rewrite Qabs_pos; lra). cbn [andb]. assert (f < 0).
         { assert (inject_Z f < inject_Z 0)%Q as Hf by (change (inject_Z 0) with 0%Q; lra). by rewrite <- Zlt_Qlt in Hf. }
         rewrite (Z.sgn_neg f) by done. rewrite <- Z.negb_even. by destruct (Z.even f). }
    all: assert (inject_Z (-1) < inject_Z f)%Q as Hf by (change (inject_Z (-1)) with (-1)%Q; lra); rewrite <- Zlt_Qlt in Hf;
      rewrite Hyes by (rewrite inject_Z_plus, Qabs_neg; change (inject_Z 1) with 1%Q; lra); cbn [andb];
      rewrite Z.odd_add; change (Z.odd 1) with true; rewrite xorb_true_r, Z.negb_odd; destruct (Z.even f); [|done];
      rewrite Z.sgn_pos by lia; cbn; lia.
  - rewrite Hno; [done|]. rewrite Qabs_pos; lra.
  - rewrite Hno; [done|]. rewrite inject_Z_plus, Qabs_neg; change (inject_Z 1) with 1%Q; lra.
Qed.

Lemma RoundBank_ok d places :
  in_int32 (- places - 1) -> in_int32 (- places) -> RoundBank d places = mk_decimal (half_even (Rat d * p10 places)%Q) (- places).
Proof.
  intros H1 H2. unfold RoundBank. rewrite Round_ok by done. rewrite (int32_small (- places)), (int32_small (- places - 1)) by done.
  cbn [d_value d_exp]. rewrite half_even_away. cbn zeta. set (x := (Rat d * p10 places)%Q). set (z := half_away x).
  replace (Cmp _ _) with (Qabs (x - inject_Z z) ?= 1 # 2)%Q; [by destruct (_ && _)|].
  unfold New. rewrite Cmp_Rat, Abs_Rat, Sub_Rat, !(Rat_spec (mk_decimal _ _)). cbn [d_value d_exp].
  assert (Rat d == x * p10 (- places))%Q as ->.
  { unfold x. rewrite p10_opp. field. apply p10_nonzero. }
  assert (x * p10 (- places) - inject_Z z * p10 (- places) == (x - inject_Z z) * p10 (- places))%Q as -> by ring.
  rewrite Qabs_Qmult, (Qabs_pos (p10 _)) by (apply Qlt_le_weak, p10_pos).
  assert (inject_Z 5 * p10 (- places - 1) == (1 # 2) * p10 (- places))%Q as ->.
  { unfold Z.sub. rewrite p10_plus. change (p10 (- (1))) with (/ 10)%Q. change (inject_Z 5) with 5%Q. field. }
  pose proof (p10_pos (- places)). destruct (Qcompare_spec (Qabs (x - inject_Z z)) (1 # 2)) as [E|E|E]; symmetry.
  - apply Qeq_alt. by rewrite E.
  - apply Qlt_alt. by apply Qmult_lt_r.
  - apply Qgt_alt. by apply Qmult_lt_r.
Qed.

Lemma Floor_Rat d : (Rat (Floor d) == inject_Z (Qfloor (Rat d)))%Q.
Proof.
  unfold Floor. destruct (Z.leb_spec 0 (d_exp d)) as [Hge|Hlt].
  - rewrite (Rat_scale d 0) by lia. rewrite Z.sub_0_r. change (p10 0) with 1%Q. rewrite Qmult_1_r. by rewrite Qfloor_Z.
  - rewrite Rat_spec. cbn [d_value d_exp]. change (p10 0) with 1%Q. rewrite Qmult_1_r.
    rewrite (frac_Rat d (- d_exp d)) by lia. by rewrite Qfloor_frac by (apply Z.pow_pos_nonneg; lia).
Qed.

Lemma Qceiling_frac a b : 0 < b -> Qceiling (inject_Z a / inject_Z b) = if a mod b =? 0 then a / b else a / b + 1.
Proof.
  intros Hb. unfold Qceiling. assert (- (inject_Z a / inject_Z b) == inject_Z (- a) / inject_Z b)%Q as ->.
  { rewrite inject_Z_opp. unfold Qdiv. ring. }
  rewrite Qfloor_frac by done. destruct (Z.eqb_spec (a mod b) 0) as [E|E].
  - rewrite Z.div_opp_l_z by (lia || done). lia.
  - rewrite Z.div_opp_l_nz by (lia || done). lia.
Qed.

Lemma Ceil_Rat d : (Rat (Ceil d) == inject_Z (Qceiling (Rat d)))%Q.
Proof.
  unfold Ceil. destruct (Z.leb_spec 0 (d_exp d)) as [Hge|Hlt].
  - rewrite (Rat_scale d 0) by lia. rewrite Z.sub_0_r. change (p10 0) with 1%Q. rewrite Qmult_1_r. by rewrite Qceiling_Z.
  - rewrite Rat_spec. cbn [d_value d_exp]. change (p10 0) with 1%Q. rewrite Qmult_1_r.
    rewrite (frac_Rat d (- d_exp d)) by lia. by rewrite Qceiling_frac by (apply Z.pow_pos_nonneg; lia).
Qed.

(** A rational number without its fraction. *)
Definition cut (x : Q) : Z := if (x ?= 0)%Q is Lt then Qceiling x else Qfloor x.

#[export] Instance cut_proper : Proper (Qeq ==> eq) cut.
Proof. intros x y E. unfold cut. rewrite (Qfloor_comp x y E), (Qceiling_comp x y E). by setoid_rewrite E. Qed.

Lemma cut_Z z : cut (inject_Z z) = z.
Proof. unfold cut. rewrite Qfloor_Z, Qceiling_Z. by destruct (_ ?= _)%Q. Qed.

Lemma cut_frac a b : 0 < b -> cut (inject_Z a / inject_Z b) = Z.quot a b.
Proof.
  intros Hb. unfold cut. assert ((inject_Z a / inject_Z b ?= 0)%Q = (a ?= 0)) as ->.
  { assert (inject_Z a / inject_Z b == a # Z.to_pos b)%Q as -> by (rewrite Qmake_Qdiv, Z2Pos.id by done; reflexivity).
    unfold Qcompare. cbn. by rewrite Z.mul_1_r. }
  rewrite Qfloor_frac, Qceiling_frac by done. destruct (Z.compare_spec a 0) as [->|Hlt|Hgt].
  - by rewrite Z.quot_0_l, Zdiv_0_l by lia.
  - assert (exists m, a = - m /\ 0 <= m) as (m & -> & Hm) by (exists (- a); lia). rewrite Z.quot_opp_l, Z.quot_div_nonneg by lia.
    destruct (Z.eqb_spec (m mod b) 0) as [E|E].
    + rewrite (Z_mod_zero_opp_full m b E). cbn [Z.eqb]. by rewrite Z.div_opp_l_z by (lia || done).
    + rewrite Z.div_opp_l_nz, Z_mod_nz_opp_full by (lia || done). pose proof (Z.mod_pos_bound m b Hb).
      destruct (Z.eqb_spec (b - m mod b) 0); lia.
  - by rewrite Z.quot_div_nonneg by lia.
Qed.

Lemma Truncate_Rat d places : 0 <= places -> (Rat (Truncate d places) == inject_Z (cut (Rat d * p10 places)) * p10 (- places))%Q.
Proof.
  intros Hp. unfold Truncate. rewrite (proj2 (Z.leb_le _ _) Hp). cbn [andb]. destruct (Z.ltb_spec (d_exp d) (- places)) as [Hlt|Hge].
  - rewrite Rat_spec, rescale_value, (proj2 (Z.ltb_lt _ _) Hlt). cbn [rescale d_exp].
    rewrite <- cut_frac by (apply Z.pow_pos_nonneg; lia). apply Qmult_comp; [|reflexivity]. apply inject_Z_injective, cut_proper.
    rewrite Rat_spec, <- Qmult_assoc, <- p10_plus. replace (d_exp d + places) with (- (- places - d_exp d)) by lia.
    rewrite p10_opp, p10_Z by lia. reflexivity.
  - rewrite (Rat_scale d (- places)) by lia. apply Qmult_comp; [|reflexivity]. apply inject_Z_injective. symmetry.
    rewrite <- Qmult_assoc, <- p10_plus. replace (- places + places) with 0 by lia. change (p10 0) with 1%Q.
    by rewrite Qmult_1_r, cut_Z.
Qed.

(** C17: [Round], [RoundBank], [Floor], [Ceil] and [Truncate] round the number itself, not a
    number already rounded: to the nearest multiple of the unit, with a tie going
    away from zero or to the even neighbour; to the integer below, or above; and
    towards zero. *)
Theorem decimal_rounding d places :
  in_int32 (- places - 1) -> in_int32 (- places) ->
  Round d places = mk_decimal (half_away (Rat d * p10 places)%Q) (- places) /\
  RoundBank d places = mk_decimal (half_even (Rat d * p10 places)%Q) (- places) /\
  (Rat (Floor d) == inject_Z (Qfloor (Rat d)))%Q /\ (Rat (Ceil d) == inject_Z (Qceiling (Rat d)))%Q /\
  (0 <= places -> (Rat (Truncate d places) == inject_Z (cut (Rat d * p10 places)) * p10 (- places))%Q).
Proof. intros H1 H2. split_and!; [by apply Round_ok|by apply RoundBank_ok|apply Floor_Rat|apply Ceil_Rat|apply Truncate_Rat]. Qed.

Lemma decimal_rounding_witness : Round (New (-545) (-2)) 1 = mk_decimal (half_away (Rat (New (-545) (-2)) * p10 1)%Q) (-1).
Proof. apply (decimal_rounding (New (-545) (-2)) 1); split; vm_compute; discriminate. Defined.

(** ** Cash rounding and powers *)

Lemma half_away_Z z : half_away (inject_Z z) = z.
Proof.
  rewrite half_away_floor, Qfloor_Z. assert (inject_Z z - inject_Z z == 0)%Q as -> by ring. reflexivity.
Qed.

(** A division whose quotient needs no more digits than the precision is exact. *)
Lemma Div_exact d d2 q :
  d_value d2 <> 0 -> div_range d d2 DivisionPrecision -> (Rat d / Rat d2 * p10 DivisionPrecision == inject_Z q)%Q ->
  Div d d2 = Ok (mk_decimal q (- DivisionPrecision)).
Proof. intros Hne Hr Hq. unfold Div. rewrite DivRound_ok by done. by rewrite Hq, half_away_Z. Qed.

Lemma small_range a b : -100 <= a <= 100 -> -100 <= b <= 100 -> div_range (mk_decimal 0 a) (mk_decimal 0 b) DivisionPrecision.
Proof. intros Ha Hb. unfold DivisionPrecision. split; unfold in_int32, min_int32, max_int32; cbn [d_exp]; lia. Qed.

Lemma div_range_exp d d2 d' d2' p : d_exp d = d_exp d' -> d_exp d2 = d_exp d2' -> div_range d d2 p -> div_range d' d2' p.
Proof. intros E1 E2 [H1 H2 H3 H4 H5]. split; by rewrite <- ?E1, <- ?E2. Qed.

(** Cash rounding to 5, 10, 25, 50 and 100 gives the nearest multiple of the unit, a tie
    going away from zero; the number that is multiplied, rounded, divided and cut
    on the way loses nothing else. *)
Theorem cash_rounding d interval n :
  (interval, n) ∈ [(5, 20); (10, 10); (25, 4); (50, 2); (100, 1)] -> in_int32 (d_exp d) ->
  exists r, RoundCash d interval = Ok r /\ (Rat r == inject_Z (half_away (Rat d * inject_Z n)) / inject_Z n)%Q.
Proof.
  intros Hin He. assert (exists k, n * k = 100 /\ 0 < n /\ cash_interval d interval = Ok (d, n)) as (k & Hk & Hn & Hi).
  { repeat (apply elem_of_cons in Hin as [[= -> ->]|Hin]; [eexists; split; [|split; [|reflexivity]]; [|lia]; first [by instantiate (1 := 5)|
      by instantiate (1 := 10)|by instantiate (1 := 25)|by instantiate (1 := 50)|by instantiate (1 := 100)]|]). by apply elem_of_nil in Hin. }
  unfold RoundCash. rewrite Hi. cbn [bind_outcome].
  destruct (Mul_Rat d (mk_decimal n 0)) as (m & -> & _ & Hm); [cbn; by rewrite Z.add_0_r|]. cbn [bind_outcome].
  assert (in_int32 (- 0 - 1)) as H1 by (split; vm_compute; discriminate). assert (in_int32 (- 0)) as H0 by (split; vm_compute; discriminate).
  rewrite (Round_ok m 0 H1 H0). change (- 0) with 0.
  assert (half_away (Rat m * p10 0) = half_away (Rat d * inject_Z n)) as ->.
  { apply half_away_proper. rewrite Hm, (Rat_spec (mk_decimal n 0)). cbn [d_value d_exp]. change (p10 0) with 1%Q. ring. }
  set (z := half_away (Rat d * inject_Z n)). pose proof (inject_nonzero n ltac:(lia)) as Hn0.
  assert (inject_Z n * inject_Z k == 100)%Q as HkQ by (rewrite <- inject_Z_mult, Hk; reflexivity).
  rewrite (Div_exact _ _ (z * (k * 10 ^ 14))).
  - cbn [bind_outcome]. eexists. split; [reflexivity|]. rewrite (Truncate_Rat _ 2 ltac:(lia)).
    rewrite (Rat_spec (mk_decimal _ _)). cbn [d_value d_exp]. unfold DivisionPrecision.
    assert (inject_Z (z * (k * 10 ^ 14)) * p10 (- 16) * p10 2 == inject_Z (z * k))%Q as ->.
    { rewrite !inject_Z_mult. change (p10 (-16)) with (1 # 10000000000000000)%Q. change (p10 2) with 100%Q. change (inject_Z (10 ^ 14)) with 100000000000000%Q. field. }
    rewrite cut_Z, inject_Z_mult. change (p10 (- (2))) with (1 # 100)%Q. assert (inject_Z k == 100 / inject_Z n)%Q as -> by (rewrite <- HkQ; field; done). field. done.
  - cbn. lia.
  - by apply (div_range_exp (mk_decimal 0 0) (mk_decimal 0 0)), small_range.
  - rewrite !(Rat_spec (mk_decimal _ _)). cbn [d_value d_exp]. change (p10 0) with 1%Q. unfold DivisionPrecision. rewrite !inject_Z_mult.
    assert (inject_Z k == 100 / inject_Z n)%Q as -> by (rewrite <- HkQ; field; done).
    change (p10 16) with 10000000000000000%Q. change (inject_Z (10 ^ 14)) with 100000000000000%Q. field. done.
Qed.

Lemma cash_rounding_witness : exists r, RoundCash (New 343 (-2)) 5 = Ok r /\ (Rat r == inject_Z (half_away (Rat (New 343 (-2)) * inject_Z 20)) / inject_Z 20)%Q.
Proof. apply (cash_rounding (New 343 (-2)) 5 20); [by left|split; vm_compute; discriminate]. Defined.

(** The exponent [n / 2 ^ k] as a decimal. *)
Definition halved (x : Decimal) (n k : Z) : Prop := (Rat x == inject_Z n / inject_Z (2 ^ k))%Q /\ -16 <= d_exp x <= 0.

Lemma pow2_pos k : 0 <= k -> 0 < 2 ^ k.
Proof. intros Hk. by apply Z.pow_pos_nonneg. Qed.

Lemma halved_int x n k : 0 <= k -> 0 <= n < 2 ^ 16 -> halved x n k -> IntPart x = n / 2 ^ k.
Proof.
  intros Hk Hn [Hx He]. pose proof (pow2_pos k Hk). unfold IntPart. pose proof (Truncate_Rat x 0 ltac:(lia)) as Ht.
  rewrite Hx in Ht. change (p10 (- 0)) with 1%Q in Ht. change (p10 0) with 1%Q in Ht. rewrite !Qmult_1_r, cut_frac, Z.quot_div_nonneg in Ht by lia.
  assert (Rat (rescale x 0) == Rat (Truncate x 0))%Q as E.
  { unfold Truncate. cbn [Z.leb Z.compare andb]. change (- 0) with 0. destruct (Z.ltb_spec (d_exp x) 0); [done|]. apply rescale_exact. lia. }
  rewrite Ht, Rat_spec in E. cbn [rescale d_exp] in E. change (p10 0) with 1%Q in E. rewrite Qmult_1_r in E. apply (proj1 (inject_Z_injective _ _)) in E.
  unfold rescale in E. cbn [d_value] in E. unfold rescale. cbn [d_value]. rewrite E. apply int64_small.
  assert (0 <= n / 2 ^ k) by (apply Z.div_pos; lia). assert (n / 2 ^ k <= n) by (apply Z.div_le_upper_bound; nia).
  unfold in_int64, min_int64, max_int64. lia.
Qed.

Lemma halved_next x n k : 0 <= k < 16 -> halved x n k ->
  exists h, Div x (New 2 0) = Ok h /\ halved h n (k + 1).
Proof.
  intros Hk [Hx He]. pose proof (pow2_pos k ltac:(lia)) as Hp. pose proof (inject_nonzero (2 ^ k) ltac:(lia)) as Hp0.
  pose proof (inject_nonzero (2 ^ (k + 1)) ltac:(pose proof (pow2_pos (k + 1) ltac:(lia)); lia)) as Hp1.
  assert (2 ^ (k + 1) * (2 ^ (15 - k) * 5 ^ 16) = 10 ^ 16) as Hten.
  { rewrite Z.mul_assoc, <- Z.pow_add_r by lia. replace (k + 1 + (15 - k)) with 16 by lia. reflexivity. }
  assert (Rat x / Rat (New 2 0) * p10 DivisionPrecision == inject_Z (n * (2 ^ (15 - k) * 5 ^ 16)))%Q as Hq.
  { rewrite Hx, (Rat_spec (New 2 0)), (p10_Z DivisionPrecision) by done. cbn [New d_value d_exp]. change (p10 0) with 1%Q. unfold DivisionPrecision.
    rewrite <- Hten, Z.pow_add_r, !inject_Z_mult by lia. change (2 ^ 1) with 2. field. exact Hp0. }
  exists (mk_decimal (n * (2 ^ (15 - k) * 5 ^ 16)) (- DivisionPrecision)). split.
  - apply Div_exact; [done| |exact Hq]. by apply (div_range_exp (mk_decimal 0 (d_exp x)) (mk_decimal 0 0)), small_range; [..|lia|].
  - split; [|cbn; unfold DivisionPrecision; lia]. rewrite Rat_spec. cbn [d_value d_exp]. rewrite p10_opp, (p10_Z DivisionPrecision) by done.
    unfold DivisionPrecision. rewrite <- Hten, !inject_Z_mult. field. split_and!; [done|..]; apply inject_nonzero; [lia|].
    pose proof (pow2_pos (15 - k) ltac:(lia)). lia.
Qed.

Lemma Mul_range a e b f : in_int32 (e + f) -> Mul (mk_decimal a e) (mk_decimal b f) = Ok (mk_decimal (a * b) (e + f)).
Proof.
  intros [H1 H2]. unfold Mul. cbn [d_exp d_value]. by replace ((max_int32 <? _) || _) with false by (symmetry; apply orb_false_iff; rewrite !Z.ltb_ge; lia).
Qed.

Lemma smaller_range e n j : in_int32 (e * n) -> 0 <= j <= n -> in_int32 (e * j).
Proof. unfold in_int32, min_int32, max_int32. intros H Hj. destruct (Z.le_gt_cases 0 e); nia. Qed.

(** One turn of the recursion: the square of what half of the exponent gives. *)
Lemma Pow_step fuel d x half m :
  IntPart x = m -> 0 < m -> in_int32 (d_exp d * m) -> Div x (New 2 0) = Ok half ->
  Pow fuel d half = Some (Ok (mk_decimal (d_value d ^ (m / 2)) (d_exp d * (m / 2)))) ->
  Pow (S fuel) d x = Some (Ok (mk_decimal (d_value d ^ m) (d_exp d * m))).
Proof.
  intros Hm Hpos Hr Hd Hp. cbn [Pow]. rewrite Hm, Hd, Hp. rewrite (proj2 (Z.eqb_neq m 0)) by lia. cbn [mbind option_bind].
  pose proof (Z.div_mod m 2 ltac:(lia)) as Hdm. pose proof (Z.mod_pos_bound m 2 ltac:(lia)).
  assert (0 <= m / 2) by (apply Z.div_pos; lia). cbn [bind_outcome].
  assert (in_int32 (d_exp d * (m / 2) + d_exp d * (m / 2))) as Hr2.
  { replace (d_exp d * (m / 2) + d_exp d * (m / 2)) with (d_exp d * (2 * (m / 2))) by lia. apply (smaller_range _ m); [done|lia]. }
  rewrite Mul_range by done. cbn [bind_outcome]. rewrite Z.rem_mod_nonneg by lia. do 2 f_equal. destruct (Z.eqb_spec (m mod 2) 0) as [E|E].
  - assert (m = 2 * (m / 2)) as Em by lia. set (h := m / 2) in *. rewrite Em. f_equal; f_equal; [rewrite <- Z.pow_add_r by lia; f_equal; lia|lia].
  - rewrite (proj2 (Z.ltb_lt 0 m)) by done. destruct d as [v e]. cbn [d_value d_exp] in *.
    set (h := m / 2) in *. assert (m = 2 * h + 1) as Em by lia.
    assert (e * h + e * h + e = e * m) as Ee by (rewrite Em; lia).
    rewrite Mul_range, Ee by (by rewrite Ee). do 2 f_equal. rewrite <- Z.pow_add_r by lia.
    rewrite Z.mul_comm, <- Z.pow_succ_r by lia. f_equal. lia.
Qed.

Lemma Pow_halved d n : 0 <= n < 2 ^ 16 -> in_int32 (d_exp d * n) -> forall fuel k x,
  0 <= k -> k + Z.of_nat fuel = 16 -> halved x n k ->
  Pow (S fuel) d x = Some (Ok (mk_decimal (d_value d ^ (n / 2 ^ k)) (d_exp d * (n / 2 ^ k)))).
Proof.
  intros Hn Hr. induction fuel as [|fuel IH]; intros k x Hk Hf Hx; pose proof (halved_int x n k Hk Hn Hx) as Hint.
  - replace k with 16 in * by lia. rewrite Z.div_small in * by lia. cbn [Pow]. rewrite Hint. cbn. by rewrite Z.mul_0_r.
  - pose proof (pow2_pos k Hk). assert (0 <= n / 2 ^ k) by (apply Z.div_pos; lia).
    destruct (Z.eq_dec (n / 2 ^ k) 0) as [E|E].
    { rewrite E in *. cbn [Pow]. rewrite Hint. cbn. by rewrite Z.mul_0_r. }
    destruct (halved_next x n k) as (h & Hdiv & Hh); [lia|done|].
    apply (Pow_step _ d x h); [done|lia| |done|].
    + apply (smaller_range _ n); [done|]. split; [lia|]. apply Z.div_le_upper_bound; nia.
    + rewrite Z.div_div by lia. replace (2 ^ k * 2) with (2 ^ (k + 1)) by (rewrite Z.pow_add_r by lia; lia). apply IH; [lia|lia|done].
Qed.

(** A whole power below 65536 is exact, and 17 turns of the recursion are enough
    for it, as long as the exponent of the result fits. *)
Theorem Pow_exact d n : 0 <= n < 2 ^ 16 -> in_int32 (d_exp d * n) ->
  Pow 17 d (New n 0) = Some (Ok (mk_decimal (d_value d ^ n) (d_exp d * n))).
Proof.
  intros Hn Hr. rewrite (Pow_halved d n Hn Hr 16 0); [by rewrite Z.div_1_r|lia|done|].
  split; [|cbn; lia]. rewrite Rat_spec. cbn [New d_value d_exp]. change (p10 0) with 1%Q. change (2 ^ 0) with 1. unfold Qdiv. reflexivity.
Qed.

Lemma Pow_exact_witness : Pow 17 (New (-15) (-1)) (New 3 0) = Some (Ok (mk_decimal (-3375) (-3))).
Proof. apply (Pow_exact (New (-15) (-1)) 3); [lia|split; vm_compute; discriminate]. Defined.
