(* ===== verification/DecimalText.v ===== *)
(** * The texts of decimals ([src/utils/decimal/decimal.go])

    Parsing and printing, in plain, JSON and binary form, and the two interfaces to a
    database.  The encoding of a big integer is the one of Go's library: a byte
    with the version and the sign, then the bytes of the absolute value. *)

From Stdlib Require Import Ascii QArith.
From S2P Require Import Prelude GoStrings Decimal.

#[local] Open Scope string_scope.
#[local] Open Scope Z_scope.

(** ** Texts *)

Definition is_e (c : ascii) : bool := Ascii.eqb c "E"%char || Ascii.eqb c "e"%char.

(** [strings.IndexAny(value, "Ee")], with the text before and after it. *)
Fixpoint cut_e (s : string) : option (string * string) :=
  match s with
  | "" => None
  | String c r => if is_e c then Some ("", r) else p ← cut_e r; Some (String c p.1, p.2)
  end.

(** [strings.TrimRight(s, "0")]. *)
Fixpoint trim_zeros (s : string) : string :=
  match s with
  | "" => ""
  | String c r => match trim_zeros r with
                  | "" => if Ascii.eqb c "0"%char then "" else String c ""
                  | t => String c t
                  end
  end.

(** [SetString] of a big integer in base 10. *)
Fixpoint big_digits (s : string) (n : Z) : option Z :=
  match s with
  | "" => Some n
  | String c r => if is_digit c then big_digits r (n * 10 + (byte_val c - 48)) else None
  end.

Definition SetString (s : string) : option Z :=
  match s with
  | "" => None
  | String c r =>
      let neg := Ascii.eqb c "-"%char in
      match (if neg || Ascii.eqb c "+"%char then r else s) with
      | "" => None
      | body => n ← big_digits body 0; Some (if neg then - n else n)
      end
  end.

(** [value] is the input without its exponent. *)
Definition int_and_exp (original value intString : string) (exp : Z) : outcome string Decimal :=
  match SetString intString with
  | None => Err ("can't convert " +:+ value +:+ " to decimal")
  | Some dValue =>
      if (exp <? min_int32) || (max_int32 <? exp)
      then Err ("can't convert " +:+ original +:+ " to decimal: fractional part too long")
      else Ok (mk_decimal dValue exp)
  end.

Definition with_point (original value : string) (exp : Z) : outcome string Decimal :=
  match split_on "."%char value with
  | [_] => int_and_exp original value value exp
  | [p0; p1] => let decimalPart := trim_zeros p1 in int_and_exp original value (p0 +:+ decimalPart) (exp - slen decimalPart)
  | _ => Err ("can't convert " +:+ value +:+ " to decimal: too many .s")
  end.

Definition NewFromString (value : string) : outcome string Decimal :=
  match cut_e value with
  | None => with_point value value 0
  | Some (before, after) =>
      match parse_int 32 after with
      | Err ErrRange => Err ("can't convert " +:+ value +:+ " to decimal: fractional part too long")
      | Err ErrSyntax => Err ("can't convert " +:+ value +:+ " to decimal: exponent is not numeric")
      | Panic w => Panic w
      | Ok expInt => with_point value before expInt
      end
  end.

Definition RequireFromString (value : string) : outcome string Decimal :=
  match NewFromString value with Err e => Panic e | r => r end.

Definition zeros (n : nat) : string := digits_string (repeat 0 n).

(** The method [string]. *)
Definition text (d : Decimal) (trimTrailingZeros : bool) : string :=
  if 0 <=? d_exp d then format_int (d_value (rescale d 0))
  else
    let str := format_nat (Z.abs (d_value d)) in
    let n := Z.to_nat (- d_exp d) in
    let '(intPart, fractionalPart) :=
      if (n <? String.length str)%nat then
        (take_str (String.length str - n) str, drop_str (String.length str - n) str)
      else ("0", zeros (n - String.length str) +:+ str) in
    let fractionalPart := if trimTrailingZeros then trim_zeros fractionalPart else fractionalPart in
    let number := intPart +:+ (if 0 <? slen fractionalPart then "." +:+ fractionalPart else "") in
    if d_value d <? 0 then "-" +:+ number else number.

Definition String_ (d : Decimal) : string := text d true.
Definition StringFixed (d : Decimal) (places : Z) : string := text (Round d places) false.
Definition StringFixedBank (d : Decimal) (places : Z) : string := text (RoundBank d places) false.
Definition StringFixedCash (d : Decimal) (interval : Z) : outcome string string :=
  let* r := RoundCash d interval in Ok (text r false).
Definition StringScaled (d : Decimal) (exp : Z) : string := String_ (rescale d exp).

(** ** Bytes *)

Definition quote : ascii := ascii_of_Z 34.

(** The last byte of a text goes away. *)
Fixpoint but_last (s : string) : string :=
  match s with "" => "" | String _ "" => "" | String c r => String c (but_last r) end.

Definition unquoteIfQuoted (s : string) : string :=
  match s with
  | String q (String _ (String _ _) as r) => if Ascii.eqb q quote && has_suffix s (String quote "") then but_last r else s
  | _ => s
  end.

(** A call that fails leaves the zero decimal behind. *)
Definition UnmarshalJSON (d : Decimal) (b : string) : outcome string Decimal :=
  if String.eqb b "null" then Ok d else NewFromString (unquoteIfQuoted b).

Definition MarshalJSON (d : Decimal) : string := String quote (String_ d +:+ String quote "").

Definition UnmarshalText (b : string) : outcome string Decimal := NewFromString b.
Definition MarshalText (d : Decimal) : string := String_ d.

(** [binary.BigEndian]. *)
Definition PutUint32 (x : Z) : string :=
  String (ascii_of_Z (x / 16777216)) (String (ascii_of_Z (x / 65536 mod 256)) (String (ascii_of_Z (x / 256 mod 256)) (String (ascii_of_Z (x mod 256)) ""))).


Definition big_bytes (n : Z) : string := if n =? 0 then "" else bytes_of (to_digits (digit_fuel n) 256 n []).

Definition GobEncode_int (z : Z) : string :=
  String (ascii_of_Z (if z <? 0 then 3 else 2)) (big_bytes (Z.abs z)).

Definition GobDecode_int (s : string) : outcome string Z :=
  match s with
  | "" => Ok 0
  | String b r =>
      if negb (byte_val b / 2 =? 1) then Err "Int.GobDecode: encoding version not supported"
      else let n := from_digits 256 (values_of r) in Ok (if byte_val b mod 2 =? 1 then - n else n)
  end.

Definition MarshalBinary (d : Decimal) : string := PutUint32 (uint32 (d_exp d)) +:+ GobEncode_int (d_value d).

Definition UnmarshalBinary (data : string) : outcome string Decimal :=
  let* head := slice data 0 4 in
  let* tail := slice data 4 (slen data) in
  let* v := GobDecode_int tail in
  Ok (mk_decimal v (int32 (from_digits 256 (values_of head)))).

Definition GobEncode (d : Decimal) : string := MarshalBinary d.
Definition GobDecode (data : string) : outcome string Decimal := UnmarshalBinary data.

(** ** Databases *)

(** What a driver hands over; its floating-point numbers are left out. *)
Inductive driver_value := DvNil | DvInt (z : Z) | DvText (s : string) | DvOther.

Definition Scan (v : driver_value) : outcome string Decimal :=
  match v with
  | DvInt z => Ok (New z 0)
  | DvText s => NewFromString (unquoteIfQuoted s)
  | _ => Err "Could not convert value"
  end.

Definition Value (d : Decimal) : string := String_ d.

Record NullDecimal := mk_null { n_Decimal : Decimal; Valid : bool }.

(** An error leaves the flag set. *)
Definition null_Scan (d : NullDecimal) (v : driver_value) : outcome string NullDecimal :=
  match v with
  | DvNil => Ok (mk_null (n_Decimal d) false)
  | _ => let* x := Scan v in Ok (mk_null x true)
  end.

Definition null_Value (d : NullDecimal) : option string := if Valid d then Some (Value (n_Decimal d)) else None.
Definition null_UnmarshalJSON (d : NullDecimal) (b : string) : outcome string NullDecimal :=
  if String.eqb b "null" then Ok (mk_null (n_Decimal d) false)
  else let* x := UnmarshalJSON (n_Decimal d) b in Ok (mk_null x true).
Definition null_MarshalJSON (d : NullDecimal) : string := if Valid d then MarshalJSON (n_Decimal d) else "null".

Example text_doc :
  String_ (New (-12345) (-3)) = "-12.345" /\ StringFixed (New 545 (-2)) 3 = "5.450" /\ StringFixedBank (New 545 (-2)) 1 = "5.4" /\
  NewFromString "-123.45" = Ok (New (-12345) (-2)) /\ NewFromString "1.5e3" = Ok (New 15 2) /\ UnmarshalBinary (MarshalBinary (New (-12345) (-3))) = Ok (New (-12345) (-3)).
Proof. vm_compute. by split_and!. Qed.

(** ** A text gives back its number *)

Definition digits (l : list Z) : Prop := Forall (fun d => 0 <= d < 10) l.

Fixpoint trim_list (l : list Z) : list Z :=
  match l with
  | [] => []
  | d :: r => match trim_list r with [] => if d =? 0 then [] else [d] | t => d :: t end
  end.

Lemma trim_list_spec l : exists k, l = (trim_list l ++ repeat 0 k)%list.
Proof.
  induction l as [|d r (k & IH)]; [by exists 0%nat|]. cbn [trim_list]. destruct (trim_list r) as [|t ts].
  - destruct (Z.eqb_spec d 0) as [->|]; [exists (S k)|exists k]; cbn in *; by rewrite IH at 1.
  - exists k. cbn in *. by rewrite IH at 1.
Qed.

Lemma trim_list_digits l : digits l -> digits (trim_list l).
Proof. unfold digits. intros H. destruct (trim_list_spec l) as (k & E). rewrite E in H. by apply Forall_app in H as [? _]. Qed.

Lemma digits_string_cons d l : digits_string (d :: l) = String (digit_char d) (digits_string l).
Proof. done. Qed.

Lemma digits_string_app l m : digits_string (l ++ m) = digits_string l +:+ digits_string m.
Proof. induction l as [|d l IH]; [done|]. cbn [app]. by rewrite !digits_string_cons, IH. Qed.

Lemma digits_string_length l : String.length (digits_string l) = length l.
Proof. induction l as [|d l IH]; [done|]. rewrite digits_string_cons. cbn. by rewrite IH. Qed.

Lemma digit_char_zero d : 0 <= d < 10 -> Ascii.eqb (digit_char d) "0"%char = (d =? 0).
Proof.
  intros Hd. destruct (Z.eqb_spec d 0) as [->|Hne]; [done|]. apply Ascii.eqb_neq. intros E.
  pose proof (digit_char_val d Hd) as Hv. rewrite E in Hv. change (byte_val "0"%char) with 48 in Hv. lia.
Qed.

Lemma trim_zeros_digits l : digits l -> trim_zeros (digits_string l) = digits_string (trim_list l).
Proof.
  induction 1 as [|d r Hd Hr IH]; [done|]. rewrite digits_string_cons. cbn [trim_zeros trim_list]. rewrite IH.
  destruct (trim_list r) as [|t ts]; [|done]. change (digits_string []) with "". cbv iota. rewrite digit_char_zero by done.
  by destruct (d =? 0).
Qed.

Lemma digits_all (P : ascii -> bool) l : (forall d, 0 <= d < 10 -> P (digit_char d) = true) -> digits l -> all_bytes P (digits_string l) = true.
Proof. intros HP. induction 1 as [|d r Hd Hr IH]; [done|]. rewrite digits_string_cons. cbn [all_bytes]. by rewrite HP, IH. Qed.

Lemma digit_char_range d : 0 <= d < 10 -> d ∈ zrange 0 10.
Proof. intros Hd. apply elem_of_zrange. lia. Qed.

(** A test that holds of the ten digits. *)
Lemma ten_digits (P : ascii -> bool) : forallb (fun d => P (digit_char d)) (zrange 0 10) = true -> forall d, 0 <= d < 10 -> P (digit_char d) = true.
Proof. intros HP d Hd. by apply (forallb_zrange (fun d => P (digit_char d)) 0 10 d HP). Qed.

Lemma big_digits_string l n : digits l -> big_digits (digits_string l) n = Some (n * 10 ^ Z.of_nat (length l) + from_digits 10 l).
Proof.
  intros Hl. rewrite <- fold_digits_acc. revert n. induction Hl as [|d r Hd Hr IH]; intros n; [done|].
  rewrite digits_string_cons. cbn [big_digits fold_left]. rewrite digit_char_is_digit, digit_char_val, IH by done.
  do 2 f_equal. lia.
Qed.

Definition sign_text (neg : bool) : string := if neg then "-" else "".

Lemma SetString_digits (neg : bool) l : digits l -> l <> [] ->
  SetString (sign_text neg +:+ digits_string l) = Some (if neg then - from_digits 10 l else from_digits 10 l).
Proof.
  intros Hl Hne. destruct l as [|d r]; [done|]. pose proof (big_digits_string (d :: r) 0 Hl) as Hb. rewrite digits_string_cons in *.
  apply Forall_cons in Hl as [Hd _]. destruct (digit_char_not_sign d Hd) as [E1 E2]. destruct neg; cbn [sign_text].
  - change ("-" +:+ String (digit_char d) (digits_string r)) with (String "-"%char (String (digit_char d) (digits_string r))).
    unfold SetString. change (Ascii.eqb "-" "-") with true. cbn [orb]. by rewrite Hb.
  - change ("" +:+ String (digit_char d) (digits_string r)) with (String (digit_char d) (digits_string r)).
    unfold SetString. rewrite E1, E2. cbn [orb]. by rewrite Hb.
Qed.

Lemma cut_e_none s : all_bytes (fun c => negb (is_e c)) s = true -> cut_e s = None.
Proof. induction s as [|c s IH]; [done|]. cbn [all_bytes cut_e]. intros [Hc Hs]%andb_true_iff. apply negb_true_iff in Hc. by rewrite Hc, IH. Qed.

(** A number as it is printed, with its fraction. *)
Definition number_text (neg : bool) (i f : list Z) : string :=
  sign_text neg +:+ digits_string i +:+ (if 0 <? slen (digits_string f) then "." +:+ digits_string f else "").

Lemma NewFromString_number neg i f :
  digits i -> digits f -> i <> [] -> Z.of_nat (length f) <= - min_int32 ->
  NewFromString (number_text neg i f) =
  Ok (mk_decimal (if neg then - from_digits 10 (i ++ trim_list f) else from_digits 10 (i ++ trim_list f)) (- Z.of_nat (length (trim_list f)))).
Proof.
  intros Hi Hf Hne Hlen.
  assert (forall P, P "-"%char = true -> P "."%char = true -> forallb (fun d => P (digit_char d)) (zrange 0 10) = true ->
    all_bytes P (sign_text neg +:+ digits_string i) = true /\ all_bytes P (number_text neg i f) = true) as Hall.
  { intros P Hm Hp Hd. assert (all_bytes P (sign_text neg +:+ digits_string i) = true) as H1.
    { rewrite all_bytes_app. apply andb_true_iff. split; [by destruct neg; cbn; rewrite ?Hm|]. by apply digits_all; [apply ten_digits|]. }
    split; [done|]. unfold number_text. rewrite str_app_assoc, all_bytes_app, H1. destruct (0 <? _); [|done].
    rewrite all_bytes_app. cbn [all_bytes]. rewrite Hp. by apply digits_all; [apply ten_digits|]. }
  unfold NewFromString. rewrite cut_e_none by (apply Hall; vm_compute; reflexivity).
  assert (all_bytes (not_byte "."%char) (sign_text neg +:+ digits_string i) = true) as Hdot.
  { rewrite all_bytes_app. apply andb_true_iff. split; [by destruct neg|]. by apply digits_all; [apply ten_digits|]. }
  assert (forall l e, digits l -> l <> [] -> min_int32 <= e <= 0 -> forall o w, int_and_exp o w (sign_text neg +:+ digits_string l) e =
    Ok (mk_decimal (if neg then - from_digits 10 l else from_digits 10 l) e)) as Hint.
  { intros l e Hl Hl0 He o w. unfold int_and_exp. rewrite SetString_digits by done.
    by replace ((e <? min_int32) || (max_int32 <? e)) with false by (symmetry; apply orb_false_iff; rewrite !Z.ltb_ge; unfold max_int32; lia). }
  generalize (number_text neg i f) at 1. intros original. unfold with_point, number_text. rewrite str_app_assoc.
  destruct f as [|d f].
  - change (digits_string []) with "". cbn [slen]. change (0 <? slen "") with false. cbv iota. rewrite str_app_nil_r, split_on_none by done.
    cbn [trim_list length]. rewrite app_nil_r. by apply Hint.
  - replace (0 <? slen (digits_string (d :: f))) with true by (unfold slen; rewrite digits_string_length; cbn; symmetry; apply Z.ltb_lt; lia).
    change ("." +:+ digits_string (d :: f)) with (String "."%char (digits_string (d :: f))). rewrite split_on_app by done.
    rewrite split_on_none by (by apply digits_all; [apply ten_digits|]). rewrite trim_zeros_digits by done.
    match goal with |- int_and_exp _ ?w _ _ = _ => generalize w end. intros value.
    rewrite <- str_app_assoc, <- digits_string_app. unfold slen. rewrite digits_string_length.
    assert (length (trim_list (d :: f)) <= length (d :: f))%nat as Hle.
    { destruct (trim_list_spec (d :: f)) as (k & E). rewrite E at 2. rewrite length_app. lia. }
    replace (0 - Z.of_nat (length (trim_list (d :: f)))) with (- Z.of_nat (length (trim_list (d :: f)))) by lia. apply Hint.
    + apply Forall_app. split; [done|]. by apply trim_list_digits.
    + by destruct i.
    + lia.
Qed.

Lemma from_digits_app b l m : from_digits b (l ++ m) = from_digits b l * b ^ Z.of_nat (length m) + from_digits b m.
Proof. unfold from_digits at 1. rewrite fold_left_app. apply fold_digits_acc. Qed.

Lemma from_digits_zeros b k : from_digits b (repeat 0 k) = 0.
Proof. induction k as [|k IH]; [done|]. cbn [repeat]. rewrite from_digits_cons, IH. lia. Qed.

(** Zeros at the end of a fraction do not count. *)
Lemma fraction_trim i f :
  (inject_Z (from_digits 10 (i ++ trim_list f)) * p10 (- Z.of_nat (length (trim_list f))) ==
   inject_Z (from_digits 10 (i ++ f)) * p10 (- Z.of_nat (length f)))%Q.
Proof.
  destruct (trim_list_spec f) as (k & E). set (t := trim_list f) in *. rewrite E, app_assoc, (from_digits_app 10 (i ++ t)), from_digits_zeros, Z.add_0_r.
  rewrite length_app, repeat_length, inject_Z_mult, <- p10_Z, <- Qmult_assoc, <- p10_plus by lia.
  by replace (Z.of_nat k + - Z.of_nat (length t + k)) with (- Z.of_nat (length t)) by lia.
Qed.

Lemma take_digits n l : take_str n (digits_string l) = digits_string (take n l).
Proof. revert l. induction n as [|n IH]; intros [|d l]; [done..|]. cbn [take]. rewrite !digits_string_cons. cbn. by rewrite IH. Qed.

Lemma drop_digits n l : drop_str n (digits_string l) = digits_string (drop n l).
Proof. revert l. induction n as [|n IH]; intros [|d l]; [done..|]. cbn [drop]. rewrite digits_string_cons. apply IH. Qed.

Lemma format_nat_list n : 0 <= n -> exists l, format_nat n = digits_string l /\ digits l /\ l <> [] /\ from_digits 10 l = n.
Proof. intros Hn. destruct (format_nat_digits n Hn) as (d & l & E & Hl & Hv). by exists (d :: l). Qed.

Lemma number_text_int neg i : number_text neg i [] = sign_text neg +:+ digits_string i.
Proof. unfold number_text. cbn. by rewrite str_app_nil_r. Qed.

(** What is printed: an integer part and as many fractional digits as the exponent
    says. *)
Lemma text_number d trim : in_int32 (d_exp d) ->
  exists i f, digits i /\ digits f /\ i <> [] /\ Z.of_nat (length f) = Z.max 0 (- d_exp d) /\
    from_digits 10 (i ++ f) = Z.abs (d_value d) * 10 ^ Z.max 0 (d_exp d) /\
    text d trim = number_text (d_value d <? 0) i (if trim then trim_list f else f).
Proof.
  intros He. unfold text. destruct (Z.leb_spec 0 (d_exp d)) as [Hge|Hlt].
  - rewrite rescale_down by done. cbn [d_value]. rewrite Z.sub_0_r, (Z.max_l 0 (- d_exp d)), (Z.max_r 0 (d_exp d)) by lia.
    assert (0 < 10 ^ d_exp d) by (apply Z.pow_pos_nonneg; lia).
    destruct (format_nat_list (Z.abs (d_value d * 10 ^ d_exp d)) ltac:(lia)) as (l & E & Hl & Hne & Hv).
    exists l, []. split_and!; [done|by apply Forall_nil|done|done|rewrite app_nil_r, Hv, Z.abs_mul; f_equal; lia|].
    replace (if trim then trim_list [] else []) with (@nil Z) by (by destruct trim). rewrite number_text_int. unfold format_int.
    replace (d_value d * 10 ^ d_exp d <? 0) with (d_value d <? 0).
    2: { destruct (Z.ltb_spec (d_value d) 0), (Z.ltb_spec (d_value d * 10 ^ d_exp d) 0); nia. }
    destruct (Z.ltb_spec (d_value d) 0); cbn [sign_text].
    + by rewrite <- E, Z.abs_neq by (apply Z.mul_nonpos_nonneg; lia).
    + by rewrite <- E, Z.abs_eq by (apply Z.mul_nonneg_nonneg; lia).
  - rewrite Z.max_r, (Z.max_l 0 (d_exp d)) by lia. change (10 ^ 0) with 1. rewrite Z.mul_1_r.
    destruct (format_nat_list (Z.abs (d_value d)) ltac:(lia)) as (l & E & Hl & Hne & Hv). rewrite E, digits_string_length.
    set (n := Z.to_nat (- d_exp d)).
    assert (exists i f, digits i /\ digits f /\ i <> [] /\ length f = n /\ from_digits 10 (i ++ f) = Z.abs (d_value d) /\
      (if (n <? length l)%nat then (take_str (length l - n) (digits_string l), drop_str (length l - n) (digits_string l))
       else ("0", zeros (n - length l) +:+ digits_string l)) = (digits_string i, digits_string f)) as (i & f & Hi & Hf & Hi0 & Hlen & Hval & ->).
    { destruct (Nat.ltb_spec n (length l)).
      - exists (take (length l - n) l), (drop (length l - n) l). rewrite take_digits, drop_digits, take_drop, length_drop.
        split_and!; try done; [by apply Forall_take|by apply Forall_drop| |lia]. intros E0. apply (f_equal length) in E0. rewrite length_take in E0. cbn in E0. lia.
      - exists [0], (repeat 0 (n - length l) ++ l)%list. unfold zeros. rewrite digits_string_app, length_app, repeat_length. split_and!; try done.
        + by repeat constructor.
        + apply Forall_app. split; [|done]. apply Forall_forall. intros x Hx. apply list_elem_of_In, repeat_spec in Hx. lia.
        + lia.
        + rewrite app_assoc, from_digits_app. change ([0] ++ repeat 0 (n - length l))%list with (repeat 0 (S (n - length l))). rewrite from_digits_zeros. lia. }
    exists i, f. split_and!; try done; [lia|]. unfold number_text.
    replace (if trim then trim_zeros (digits_string f) else digits_string f) with (digits_string (if trim then trim_list f else f)).
    2: { destruct trim; [by rewrite trim_zeros_digits|done]. }
    by destruct (d_value d <? 0).
Qed.

Lemma NewFromString_text d trim : in_int32 (d_exp d) ->
  exists d', NewFromString (text d trim) = Ok d' /\ (Rat d' == Rat d)%Q /\ d_exp d' <= 0.
Proof.
  intros He. destruct (text_number d trim He) as (i & f & Hi & Hf & Hi0 & Hlen & Hval & ->).
  set (g := if trim then trim_list f else f).
  assert (digits g) as Hg by (unfold g; destruct trim; [by apply trim_list_digits|done]).
  assert (Z.of_nat (length g) <= - min_int32) as Hg2.
  { assert (length g <= length f)%nat; [|unfold in_int32, min_int32 in *; lia]. unfold g. destruct trim; [|done].
    destruct (trim_list_spec f) as (k & E). rewrite E at 2. rewrite length_app. lia. }
  rewrite NewFromString_number by done. eexists. split; [reflexivity|]. split; [|cbn; lia].
  assert (inject_Z (from_digits 10 (i ++ trim_list g)) * p10 (- Z.of_nat (length (trim_list g))) == Qabs.Qabs (Rat d))%Q as Habs.
  { rewrite fraction_trim. assert (inject_Z (from_digits 10 (i ++ g)) * p10 (- Z.of_nat (length g)) ==
      inject_Z (from_digits 10 (i ++ f)) * p10 (- Z.of_nat (length f)))%Q as -> by (unfold g; destruct trim; [apply fraction_trim|reflexivity]).
    rewrite Hval, Hlen, inject_Z_mult, <- p10_Z, <- Qmult_assoc, <- p10_plus by lia.
    replace (Z.max 0 (d_exp d) + - Z.max 0 (- d_exp d)) with (d_exp d) by lia. rewrite <- Abs_Rat, Rat_spec. reflexivity. }
  rewrite (Rat_spec (mk_decimal _ _)). cbn [d_value d_exp]. destruct (Z.ltb_spec (d_value d) 0) as [Hn|Hp].
  - rewrite inject_Z_opp. transitivity (- Qabs.Qabs (Rat d))%Q; [rewrite <- Habs; ring|]. rewrite Qabs.Qabs_neg; [ring|].
    apply Qle_alt. rewrite Rat_sign. by apply Z.compare_lt_iff in Hn as ->.
  - rewrite Habs. apply Qabs.Qabs_pos. apply Qge_alt. rewrite Rat_sign. destruct (Z.compare_spec (d_value d) 0); [done|lia|done].
Qed.

(** ** Bytes give back their number *)

Lemma values_of_big n : 0 <= n -> from_digits 256 (values_of (big_bytes n)) = n.
Proof.
  intros Hn. unfold big_bytes. destruct (Z.eqb_spec n 0) as [->|Hne]; [done|].
  rewrite values_of_bytes.
  - rewrite to_digits_value by lia. cbn. lia.
  - apply to_digits_range; [lia| |by apply Forall_nil]. split; [done|]. by apply digit_fuel_ok.
Qed.

Lemma GobDecode_Encode z : GobDecode_int (GobEncode_int z) = Ok z.
Proof.
  unfold GobDecode_int, GobEncode_int. rewrite values_of_big by lia. destruct (Z.ltb_spec z 0).
  - change (byte_val (ascii_of_Z 3)) with 3. change (3 / 2 =? 1) with true. change (3 mod 2 =? 1) with true. cbn [negb]. f_equal. lia.
  - change (byte_val (ascii_of_Z 2)) with 2. change (2 / 2 =? 1) with true. change (2 mod 2 =? 1) with false. cbn [negb]. f_equal. lia.
Qed.

Lemma PutUint32_value x : 0 <= x < 2 ^ 32 -> from_digits 256 (values_of (PutUint32 x)) = x.
Proof.
  intros Hx. unfold PutUint32, values_of. cbn [String.list_ascii_of_string map].
  rewrite !byte_val_ascii; [|apply Z.mod_pos_bound; lia..|split; [apply Z.div_pos; lia|apply Z.div_lt_upper_bound; lia]].
  cbn [from_digits fold_left]. unfold from_digits. cbn [fold_left].
  pose proof (Z.div_mod x 256 ltac:(lia)). pose proof (Z.div_mod (x / 256) 256 ltac:(lia)). pose proof (Z.div_mod (x / 65536) 256 ltac:(lia)).
  replace (x / 16777216) with (x / 65536 / 256) by (rewrite Z.div_div by lia; done).
  replace (x / 256 / 256) with (x / 65536) in * by (rewrite Z.div_div by lia; done). lia.
Qed.

Lemma Binary_round d : in_int32 (d_exp d) -> UnmarshalBinary (MarshalBinary d) = Ok d.
Proof.
  intros He. unfold UnmarshalBinary, MarshalBinary. change 4 with (slen (PutUint32 (uint32 (d_exp d)))) at 1 2.
  rewrite slice_prefix, slice_suffix. cbn [bind_outcome]. rewrite GobDecode_Encode. cbn [bind_outcome].
  rewrite PutUint32_value by (apply Z.mod_pos_bound; done). destruct d as [v e]. cbn [d_value d_exp] in *. do 2 f_equal.
  unfold int32, swrap, uint32, uwrap. rewrite Zplus_mod_idemp_l. fold (swrap 32 e). fold (int32 e). by apply int32_small.
Qed.

Lemma but_last_app s c : but_last (s +:+ String c "") = s.
Proof.
  induction s as [|d s IH]; [done|]. change (String d s +:+ String c "") with (String d (s +:+ String c "")).
  cbn [but_last]. rewrite IH. by destruct (s +:+ String c "") eqn:E; [destruct s|].
Qed.

Lemma has_suffix_app s t : has_suffix (s +:+ t) t = true.
Proof.
  unfold has_suffix, rev_str. rewrite rev_append_str_app, rev_append_str_acc. unfold has_prefix.
  generalize (rev_append_str t ""), (rev_append_str s ""). intros p q. induction p as [|c p IH]; [by destruct q|].
  change (String c p +:+ q) with (String c (p +:+ q)). cbn [String.prefix]. by destruct (ascii_dec c c).
Qed.

Lemma unquote_quoted s : s <> "" -> unquoteIfQuoted (String quote (s +:+ String quote "")) = s.
Proof.
  intros Hs. destruct s as [|c r]; [done|]. change (String c r +:+ String quote "") with (String c (r +:+ String quote "")).
  destruct (r +:+ String quote "") as [|c' r'] eqn:E; [by destruct r|]. unfold unquoteIfQuoted. rewrite Ascii.eqb_refl.
  assert (String quote (String c (String c' r')) = String quote (String c r) +:+ String quote "") as H by (rewrite <- E; reflexivity).
  rewrite H, has_suffix_app. cbn [andb]. rewrite <- E. exact (but_last_app (String c r) quote).
Qed.

Lemma unquote_plain c s : Ascii.eqb c quote = false -> unquoteIfQuoted (String c s) = String c s.
Proof. intros Hc. destruct s as [|x [|y r]]; [done..|]. unfold unquoteIfQuoted. by rewrite Hc. Qed.

Lemma unquote_text d trim : in_int32 (d_exp d) -> text d trim <> "" /\ unquoteIfQuoted (text d trim) = text d trim.
Proof.
  intros He. destruct (text_number d trim He) as (i & f & Hi & _ & Hi0 & _ & _ & ->). unfold number_text.
  destruct i as [|a i]; [done|]. apply Forall_cons in Hi as [Ha _]. generalize (if trim then trim_list f else f). intros g.
  assert (exists c s, sign_text (d_value d <? 0) +:+ digits_string (a :: i) +:+ (if 0 <? slen (digits_string g) then "." +:+ digits_string g else "") =
            String c s /\ Ascii.eqb c quote = false) as (c & s & -> & Hc); [|split; [done|by apply unquote_plain]].
  destruct (d_value d <? 0); cbn [sign_text].
  - eexists "-"%char, _. split; [reflexivity|done].
  - eexists (digit_char a), _. split; [reflexivity|]. apply negb_true_iff. by apply (ten_digits (fun c => negb (Ascii.eqb c quote))).
Qed.

(** C20: every form in which a decimal is written is read back: the plain and the fixed
    text, the JSON text and the text for a database give a decimal that stands for
    the same number, and the binary form gives the decimal itself. *)
Theorem decimal_round_trips d : in_int32 (d_exp d) ->
  UnmarshalBinary (MarshalBinary d) = Ok d /\
  (exists d', (Rat d' == Rat d)%Q /\ NewFromString (String_ d) = Ok d' /\ Scan (DvText (Value d)) = Ok d' /\
     UnmarshalText (MarshalText d) = Ok d' /\ forall old, UnmarshalJSON old (MarshalJSON d) = Ok d') /\
  (exists d', (Rat d' == Rat d)%Q /\ NewFromString (text d false) = Ok d').
Proof.
  intros He. destruct (unquote_text d true He) as [Hne Hu].
  split_and!; [by apply Binary_round| |destruct (NewFromString_text d false He) as (d' & H1 & H2 & _); by exists d'].
  destruct (NewFromString_text d true He) as (d' & H1 & H2 & _). exists d'. split_and!; try done.
  - unfold Scan, Value, String_. by rewrite Hu.
  - intros old. unfold UnmarshalJSON, MarshalJSON, String_. rewrite unquote_quoted by done. by destruct (String.eqb _ _) eqn:E.
Qed.

Lemma decimal_round_trips_witness : exists d', (Rat d' == Rat (New (-1050) (-3)))%Q /\ NewFromString "-1.05" = Ok d'.
Proof.
  assert (in_int32 (d_exp (New (-1050) (-3)))) as He by (split; vm_compute; discriminate).
  destruct (decimal_round_trips (New (-1050) (-3)) He) as (_ & (d' & H1 & H2 & _) & _). exists d'. split; [exact H1|exact H2].
Defined.
