(* ===== verification/Runes.v ===== *)
(** * Runes: the UTF-8 encoding of Go texts

    A conversion of a text to runes takes one rune from the bytes at its head, and
    U+FFFD and one byte when they are no encoding; the conversion back encodes each
    rune.  What can be encoded is decoded to itself. *)

From S2P Require Import Prelude GoStrings.

#[local] Open Scope string_scope.
#[local] Open Scope Z_scope.

Definition RuneError : Z := 65533.

Definition valid_rune (r : Z) : bool := ((0 <=? r) && (r <? 55296)) || ((57344 <=? r) && (r <=? 1114111)).

Definition between (lo hi b : Z) : bool := (lo <=? b) && (b <=? hi).

(** The rune at the head of some bytes, and its length. *)
Definition decode_rune (l : list Z) : Z * nat :=
  let bad := (RuneError, 1%nat) in
  match l with
  | [] => (RuneError, 0%nat)
  | b0 :: l =>
      if b0 <? 128 then (b0, 1%nat)
      else
        match l with
        | [] => bad
        | b1 :: l =>
            if between 194 223 b0 then
              if between 128 191 b1 then ((b0 - 192) * 64 + (b1 - 128), 2%nat) else bad
            else
              match l with
              | [] => bad
              | b2 :: l =>
                  if between 224 239 b0 then
                    if between (if b0 =? 224 then 160 else 128) (if b0 =? 237 then 159 else 191) b1 && between 128 191 b2
                    then ((b0 - 224) * 4096 + (b1 - 128) * 64 + (b2 - 128), 3%nat) else bad
                  else
                    match l with
                    | [] => bad
                    | b3 :: _ =>
                        if between 240 244 b0 && between (if b0 =? 240 then 144 else 128) (if b0 =? 244 then 143 else 191) b1 &&
                           between 128 191 b2 && between 128 191 b3
                        then ((b0 - 240) * 262144 + (b1 - 128) * 4096 + (b2 - 128) * 64 + (b3 - 128), 4%nat) else bad
                    end
              end
        end
  end.

Definition encode_rune (r : Z) : list Z :=
  let r := if valid_rune r then r else RuneError in
  if r <? 128 then [r]
  else if r <? 2048 then [192 + r / 64; 128 + r mod 64]
  else if r <? 65536 then [224 + r / 4096; 128 + r / 64 mod 64; 128 + r mod 64]
  else [240 + r / 262144; 128 + r / 4096 mod 64; 128 + r / 64 mod 64; 128 + r mod 64].

(** The runes of some bytes; [skip] counts the bytes of a rune still to drop. *)
Fixpoint decode (skip : nat) (l : list Z) : list Z :=
  match l with
  | [] => []
  | _ :: l' =>
      match skip with
      | S k => decode k l'
      | O => let '(r, n) := decode_rune l in r :: decode (n - 1) l'
      end
  end.

Definition encode (l : list Z) : list Z := concat (map encode_rune l).

(** [[]rune(s)] and [string(runes)]. *)
Definition runes (s : string) : list Z := decode 0 (values_of s).
Definition string_of_runes (l : list Z) : string := bytes_of (encode l).

(** ** Encoding, then decoding *)

Lemma valid_rune_range r : valid_rune r = true -> 0 <= r <= 1114111 /\ ~ 55296 <= r <= 57343.
Proof. unfold valid_rune. rewrite orb_true_iff, !andb_true_iff, !Z.leb_le, Z.ltb_lt. lia. Qed.

Lemma between_spec lo hi b : between lo hi b = true <-> lo <= b <= hi.
Proof. unfold between. rewrite andb_true_iff, !Z.leb_le. done. Qed.

Lemma between_out lo hi b : b < lo \/ hi < b -> between lo hi b = false.
Proof. intros H. apply not_true_is_false. rewrite between_spec. lia. Qed.

Lemma decode_encode_rune r l : valid_rune r = true -> decode_rune (encode_rune r ++ l) = (r, length (encode_rune r)).
Proof.
  intros Hr. pose proof (valid_rune_range r Hr) as Hv. unfold encode_rune. rewrite Hr.
  destruct (Z.ltb_spec r 128); [cbn; by rewrite (proj2 (Z.ltb_lt r 128))|].
  destruct (Z.ltb_spec r 2048); [|destruct (Z.ltb_spec r 65536)]; cbn [app length decode_rune].
  - assert (2 <= r / 64 <= 31 /\ 0 <= r mod 64 <= 63 /\ r = 64 * (r / 64) + r mod 64) as (G1 & G2 & G3)
      by (Z.to_euclidean_division_equations; lia).
    set (a := r / 64) in *. set (b := r mod 64) in *. rewrite (proj2 (Z.ltb_ge _ _)) by lia.
    rewrite !(proj2 (between_spec _ _ _)) by lia. f_equal. lia.
  - assert (r / 4096 = r / 64 / 64) as E by (by rewrite Z.div_div).
    assert (0 <= r / 64 / 64 <= 15 /\ 0 <= r / 64 mod 64 <= 63 /\ 0 <= r mod 64 <= 63 /\ r / 64 = 64 * (r / 64 / 64) + r / 64 mod 64 /\
      r = 64 * (r / 64) + r mod 64) as (G1 & G2 & G3 & G4 & G5) by (Z.to_euclidean_division_equations; lia).
    rewrite E. set (a := r / 64 / 64) in *. set (b := r / 64 mod 64) in *. set (c := r mod 64) in *.
    rewrite (proj2 (Z.ltb_ge _ _)) by lia. rewrite between_out by lia. rewrite (proj2 (between_spec 224 239 _)) by lia.
    rewrite (proj2 (between_spec 128 191 (128 + c))) by lia.
    rewrite (proj2 (between_spec _ _ (128 + b))); [cbn [andb]; f_equal; lia|].
    destruct (Z.eqb_spec (224 + a) 224), (Z.eqb_spec (224 + a) 237); lia.
  - assert (r / 4096 = r / 64 / 64 /\ r / 262144 = r / 64 / 64 / 64) as [E E2] by (by rewrite !Z.div_div).
    assert (0 <= r / 64 / 64 / 64 <= 4 /\ 0 <= r / 64 / 64 mod 64 <= 63 /\ 0 <= r / 64 mod 64 <= 63 /\ 0 <= r mod 64 <= 63 /\
      r / 64 / 64 = 64 * (r / 64 / 64 / 64) + r / 64 / 64 mod 64 /\ r / 64 = 64 * (r / 64 / 64) + r / 64 mod 64 /\
      r = 64 * (r / 64) + r mod 64) as (G1 & G2 & G3 & G4 & G5 & G6 & G7) by (Z.to_euclidean_division_equations; lia).
    rewrite E, E2. set (a := r / 64 / 64 / 64) in *. set (b := r / 64 / 64 mod 64) in *. set (c := r / 64 mod 64) in *. set (d := r mod 64) in *.
    rewrite (proj2 (Z.ltb_ge _ _)) by lia. rewrite !between_out by lia. rewrite (proj2 (between_spec 240 244 _)) by lia.
    rewrite (proj2 (between_spec 128 191 (128 + c))), (proj2 (between_spec 128 191 (128 + d))) by lia.
    rewrite (proj2 (between_spec _ _ (128 + b))); [cbn [andb]; f_equal; lia|].
    destruct (Z.eqb_spec (240 + a) 240), (Z.eqb_spec (240 + a) 244); lia.
Qed.

Lemma encode_rune_cons r : exists b l, encode_rune r = b :: l.
Proof. unfold encode_rune. repeat case_match; eauto. Qed.

Lemma decode_skip l m : decode (length l) (l ++ m) = decode 0 m.
Proof. induction l as [|b l IH]; [done|exact IH]. Qed.

Lemma decode_encode l : Forall (fun r => valid_rune r = true) l -> decode 0 (encode l) = l.
Proof.
  induction 1 as [|r l Hr _ IH]; [done|]. unfold encode. cbn [map concat]. fold (encode l).
  pose proof (decode_encode_rune r (encode l) Hr) as E. destruct (encode_rune_cons r) as (b & t & Et). rewrite Et in *.
  cbn [app decode length] in *. rewrite E. cbn [length Nat.sub]. rewrite Nat.sub_0_r, decode_skip. by rewrite IH.
Qed.

(** What is decoded can be encoded. *)
Lemma decode_rune_valid l : valid_rune (decode_rune l).1 = true \/ exists b, b < 0 /\ head l = Some b.
Proof.
  destruct l as [|b0 l]; [by left|]. cbn [decode_rune head]. destruct (Z.ltb_spec b0 128).
  { destruct (Z.lt_ge_cases b0 0); [right; by exists b0|left]. cbn [fst]. unfold valid_rune.
    rewrite orb_true_iff, !andb_true_iff, !Z.leb_le, Z.ltb_lt. lia. }
  left. repeat case_match; try done; cbn [fst];
    repeat match goal with H : _ && _ = true |- _ => apply andb_prop in H as [? ?] end;
    rewrite ?between_spec in *; unfold valid_rune; rewrite orb_true_iff, !andb_true_iff, !Z.leb_le, Z.ltb_lt; z_bools; lia.
Qed.

Lemma decode_valid k l : Forall (fun b => 0 <= b < 256) l -> Forall (fun r => valid_rune r = true) (decode k l).
Proof.
  intros Hl. revert k. induction Hl as [|b l Hb Hl IH]; intros k; cbn [decode]; [constructor|].
  destruct k as [|k]; [|apply IH]. pose proof (decode_rune_valid (b :: l)) as Hv. destruct (decode_rune (b :: l)) as [r n].
  constructor; [|apply IH]. destruct Hv as [Hv|(b' & Hneg & [= <-])]; [done|lia].
Qed.

Lemma encode_range l : Forall (fun r => valid_rune r = true) l -> Forall (fun b => 0 <= b < 256) (encode l).
Proof.
  induction 1 as [|r l Hr _ IH]; [constructor|]. unfold encode. cbn [map concat]. apply Forall_app. split; [|exact IH].
  pose proof (valid_rune_range r Hr). unfold encode_rune. rewrite Hr.
  destruct (Z.ltb_spec r 128), (Z.ltb_spec r 2048), (Z.ltb_spec r 65536); repeat constructor; try lia;
    Z.to_euclidean_division_equations; lia.
Qed.

Lemma runes_string l : Forall (fun r => valid_rune r = true) l -> runes (string_of_runes l) = l.
Proof.
  intros Hl. unfold runes, string_of_runes. rewrite values_of_bytes by (by apply encode_range). by apply decode_encode.
Qed.

Lemma runes_valid s : Forall (fun r => valid_rune r = true) (runes s).
Proof. apply decode_valid, values_range. Qed.
