(* ===== verification/Common.v ===== *)
(** * Helpers of [src/utils/common.go]

    Conversions of any value to text, numbers from text, arithmetic on numbers that
    are texts, runes, ranges and addresses.  The hashes are in [Crypto], the times in
    [TimeUtils]. *)

From Stdlib Require Import Ascii QArith Qround.
From S2P Require Import Prelude GoStrings Decimal DecimalText Runes.

#[local] Open Scope string_scope.
#[local] Open Scope Z_scope.

(** ** Any value as text *)

(** An [interface{}], by the cases that the code tells apart.  A float is given by its
    text with 16 decimals, and a value of another type, or an error, by its JSON
    text, if it has one. *)
Inductive any :=
  | ANil
  | AStr (s : string)
  | ABytes (s : string)
  | AInt (z : Z)                  (* the signed and the unsigned kinds *)
  | AFloat (text : string)
  | ABool (b : bool)
  | AErr (msg : string) (json : option string)
  | AOther (json : option string).

Definition AnyToStr (v : any) : string :=
  match v with
  | ANil => ""
  | AStr s | ABytes s | AFloat s => s
  | AInt z => format_int z
  | ABool b => if b then "true" else "false"
  | AErr _ json | AOther json => default "" json
  end.

Definition add_part (v : any) : string := match v with AErr msg _ => msg | _ => AnyToStr v end.

Definition AddStr (input : list any) : string := foldl (fun s v => s +:+ add_part v) "" input.

(** [Error]: the message of the error made. *)
Definition Error (input : list any) : string := AddStr input.

(** ** Numbers *)

(** [n >> 63] is 0 or -1. *)
Definition MathAbs (n : Z) : Z := let y := Z.shiftr n 63 in int64 (Z.lxor n y - y).

Definition str_to (name : string) (w : Z -> Z) (str : string) : outcome string Z :=
  match parse_int 64 str with Ok b => Ok (w b) | _ => Err ("string to " +:+ name +:+ " failed") end.

Definition StrToInt : string -> outcome string Z := str_to "int" (fun b => b).
Definition StrToInt8 : string -> outcome string Z := str_to "int8" (swrap 8).
Definition StrToInt16 : string -> outcome string Z := str_to "int16" (swrap 16).
Definition StrToInt32 : string -> outcome string Z := str_to "int32" int32.
Definition StrToInt64 : string -> outcome string Z := str_to "int64" (fun b => b).

Definition StrToBool (str : string) : outcome string bool :=
  if String.eqb str "true" then Ok true else if String.eqb str "false" then Ok false else Err "not bool".

(** [CheckInt], [CheckInt64] and [CheckStr]: membership. *)
Definition CheckInt (c : Z) (vs : list Z) : bool := existsb (fun v => v =? c) vs.
Definition CheckInt64 (c : Z) (vs : list Z) : bool := existsb (fun v => v =? c) vs.
Definition CheckStr (c : string) (vs : list string) : bool := existsb (fun v => String.eqb v c) vs.
Definition CheckRangeInt64 (c min max : Z) : bool := (min <=? c) && (c <=? max).
Definition CheckRangeInt (c min max : Z) : bool := (min <=? c) && (c <=? max).

(** ** Texts *)

Definition Substr (str : string) (start end_ : Z) : outcome string string := slice str start end_.

Definition HasStr (s1 s2 : string) : bool :=
  String.eqb s1 s2 || ((0 <? slen s1) && (0 <? slen s2) && match String.index 0 s2 s1 with Some _ => true | None => false end).

(** The first rune moved by [d] when it is in a range; a text that begins otherwise is
    returned as it is. *)
Definition move_first (lo hi d : Z) (str : string) : string :=
  match runes str with
  | [] => ""
  | r :: rest => if (lo <=? r) && (r <=? hi) then string_of_runes ((r + d) :: rest) else str
  end.

Definition UpperFirst : string -> string := move_first 97 122 (-32).
Definition LowerFirst : string -> string := move_first 65 96 32.

Definition Reverse (s : string) : string := string_of_runes (rev (runes s)).

(** [x[i]]. *)
Definition int_at (x : list Z) (i : nat) : outcome string Z :=
  match x !! i with Some z => Ok z | None => Panic "index out of range" end.

Definition ReverseStr (s : string) (x : list Z) : outcome string string :=
  let cut i := let* lo := int_at x i in let* hi := int_at x (S i) in Substr s lo hi in
  let* a := cut 0%nat in let* b := cut 2%nat in let* c := cut 4%nat in
  Ok (Reverse (AddStr [AStr c; AStr a; AStr b])).

Definition Len (o : any) : Z := Z.of_nat (length (runes (AnyToStr o))).

(** [CheckLen] counts runes, [CheckStrLen] bytes. *)
Definition CheckLen (o : any) (min max : Z) : bool := let l := Len o in (min <=? l) && (l <=? max).
Definition CheckStrLen (s : string) (min max : Z) : bool := (min <=? slen s) && (slen s <=? max).

(** [MatchFilterURL]: a pattern with a star that is longer than the path ends the
    search. *)
Fixpoint match_patterns (path : string) (l : list string) : bool :=
  match l with
  | [] => false
  | pattern :: rest =>
      if String.eqb path pattern || String.eqb pattern "/*" then true
      else if has_suffix pattern "*" then
        let n := slen pattern - 1 in
        if slen path <? n then false
        else if String.eqb (take_str (Z.to_nat n) path) (take_str (Z.to_nat n) pattern) then true
        else match_patterns path rest
      else match_patterns path rest
  end.

Definition MatchFilterURL (path : string) (l : list string) : bool :=
  match l with [] => true | _ => match_patterns path l end.

(** *** Secrets *)

Definition random_byte_sp : string := "0123456789abcdefghijklmnopqrstuvwxyzABCDEFGHIJKLMNOPQRSTUVWXYZ!@#$%^*+-_=".

Definition key_byte (v : Z) : outcome string ascii :=
  if slen random_byte_sp <? v then Panic "key arr value > random length"
  else if v <? 0 then Panic "index out of range"
  else match String.get (Z.to_nat v) random_byte_sp with Some c => Ok c | None => Panic "index out of range" end.

Definition CreateLocalSecretKey (arr : list Z) : outcome string string :=
  foldl (fun acc v => let* s := acc in let* c := key_byte v in Ok (s +:+ String c "")) (Ok "") arr.

Definition createDefaultLocalSecretKey : outcome string string :=
  CreateLocalSecretKey [65; 68; 45; 34; 67; 23; 53; 61; 12; 69; 23; 42; 24; 66; 29; 39; 10; 1; 8; 55; 60; 40; 64; 62].
Definition createLocalTokenSecretKey : outcome string string :=
  CreateLocalSecretKey [69; 63; 72; 43; 34; 68; 20; 55; 67; 19; 64; 21; 46; 62; 61; 38; 63; 13; 18; 52; 61; 44; 65; 66].

(** ** The address of a client *)

(** The position of the last colon. *)
Fixpoint last_index (c : ascii) (s : string) : option nat :=
  match s with
  | "" => None
  | String d s => match last_index c s with Some i => Some (S i) | None => if Ascii.eqb c d then Some 0%nat else None end
  end.

Definition has_byte (c : ascii) (s : string) : bool := negb (all_bytes (not_byte c) s).

(** The host that [net.SplitHostPort] returns; empty when it returns an error. *)
Definition host_of (hostport : string) : string :=
  match last_index ":"%char hostport with
  | None => ""
  | Some i =>
      let '(host, j, k) :=
        match hostport with
        | String "["%char rest =>
            let e := index_byte "]"%char hostport in
            if (e <? 0) || negb (e + 1 =? Z.of_nat i) then (None, 0%nat, 0%nat)
            else (Some (take_str (Z.to_nat (e - 1)) rest), 1%nat, Z.to_nat (e + 1))
        | _ => let h := take_str i hostport in ((if has_byte ":"%char h then None else Some h), 0%nat, 0%nat)
        end in
      match host with
      | None => ""
      | Some h => if has_byte "["%char (drop_str j hostport) || has_byte "]"%char (drop_str k hostport) then "" else h
      end
  end.

(** The two headers, empty when absent, go before the address of the connection. *)
Definition ClientIP (xrealip xforwardedfor RemoteAddr : string) : string :=
  let remoteAddr :=
    if negb (String.eqb xrealip "") then xrealip
    else if negb (String.eqb xforwardedfor "") then xforwardedfor
    else host_of RemoteAddr in
  if String.eqb remoteAddr "::1" then "127.0.0.1" else remoteAddr.

(** ** Arithmetic on texts *)

Definition on_texts (f : Decimal -> Decimal -> outcome string Decimal) (a b : any) : outcome string string :=
  let* x := NewFromString (AnyToStr a) in
  let* y := NewFromString (AnyToStr b) in
  let* z := f x y in
  Ok (String_ z).

Definition Div (a b : any) (n : Z) : outcome string string := on_texts (fun x y => DivRound x y n) a b.
Definition Mul : any -> any -> outcome string string := on_texts Decimal.Mul.
Definition Add : any -> any -> outcome string string := on_texts (fun x y => Ok (Decimal.Add x y)).
Definition Sub : any -> any -> outcome string string := on_texts (fun x y => Ok (Decimal.Sub x y)).

Definition ShiftN (a : any) (n : Z) : outcome string string :=
  let* x := NewFromString (AnyToStr a) in Ok (String_ (Decimal.Shift x n)).

(** The decimal of a text, zero when it has none. *)
Definition decimal_or_zero (s : string) : Decimal := match NewFromString s with Ok d => d | _ => mk_decimal 0 0 end.

Definition Cmp (a b : any) : comparison := Decimal.Cmp (decimal_or_zero (AnyToStr a)) (decimal_or_zero (AnyToStr b)).

Definition FmtDiv (v : string) (d : Z) : string :=
  if slen v =? 0 then "0"
  else if d =? 0 then v
  else match NewFromString v with Ok x => String_ (Decimal.Shift x (int32 (- int32 d))) | _ => "0" end.

Definition FmtZero (r : string) : string :=
  if slen r =? 0 then "0" else String_ (Decimal.Add (New 0 0) (decimal_or_zero r)).

(** A text, the decimal that a float is converted to, or a value of another type. *)
Inductive shift_input := SText (s : string) | SFloat (d : Decimal) | SOther.

(** The decimals after the point that stay: at most [ln], and exactly [ln] when [fz]. *)
Definition shift_fraction (part2 : string) (ln : Z) (fz : bool) : outcome string string :=
  let* p := (if ln <? slen part2 then Substr part2 0 ln else Ok part2) in
  Ok (if fz && (0 <? ln) && (slen p <? ln) then p +:+ zeros (Z.to_nat (ln - slen p)) else p).

Definition Shift (input : shift_input) (ln : Z) (fz : bool) : outcome string string :=
  match (match input with SText v => match NewFromString v with Ok d => Some d | _ => None end | SFloat d => Some d | SOther => None end) with
  | None => Ok ""
  | Some data =>
      let '(part1, part2) := match split_on "."%char (String_ data) with
                             | p1 :: p2 :: _ => (p1, Some p2)
                             | _ => (String_ data, None)
                             end in
      let* p2 := match part2 with
                 | Some p2 => shift_fraction p2 ln fz
                 | None => Ok (if fz && (0 <? ln) then zeros (Z.to_nat ln) else "")
                 end in
      Ok (if 0 <? slen p2 then part1 +:+ "." +:+ p2 else part1)
  end.

(** ** What the helpers compute *)

Lemma MathAbs_spec n : in_int64 n -> MathAbs n = if n =? min_int64 then min_int64 else Z.abs n.
Proof.
  unfold in_int64, MathAbs. intros Hn. rewrite Z.shiftr_div_pow2 by lia.
  destruct (Z.lt_ge_cases n 0) as [Hneg|Hpos].
  - assert (n / 2 ^ 63 = -1) as ->.
    { unfold min_int64, max_int64 in *. symmetry. apply (Z.div_unique n (2 ^ 63) (-1) (n + 2 ^ 63)); lia. }
    rewrite Z.lxor_m1_r. unfold Z.lnot. replace (Z.pred (- n) - -1) with (- n) by lia. destruct (Z.eqb_spec n min_int64) as [->|Hne]; [reflexivity|].
    rewrite Z.abs_neq by lia. rewrite int64_small; [lia|]. unfold in_int64, min_int64, max_int64 in *. lia.
  - assert (n / 2 ^ 63 = 0) as -> by (apply Z.div_small; unfold max_int64 in *; lia).
    rewrite Z.lxor_0_r, Z.sub_0_r. destruct (Z.eqb_spec n min_int64) as [->|_]; [reflexivity|].
    rewrite Z.abs_eq by done. by apply int64_small.
Qed.

(** Whatever is written, the result is in the range of its type. *)
Lemma str_to_range name w bits s v :
  0 < bits -> w = swrap bits -> str_to name w s = Ok v -> - 2 ^ (bits - 1) <= v < 2 ^ (bits - 1).
Proof.
  intros Hb ->. unfold str_to. case_match; try done. intros [= <-]. by apply swrap_range.
Qed.

(** A number of another width is cut without an error. *)
Example int8_wraps : StrToInt8 "300" = Ok 44 /\ StrToInt16 "-40000" = Ok 25536 /\ is_ok (StrToInt "9223372036854775808") = false.
Proof. vm_compute. done. Qed.

(** The capital range of [LowerFirst] goes on to the backquote. *)
Example lower_first_underscore : LowerFirst "_a" = String (ascii_of_Z 127) "a" /\ UpperFirst "_a" = "_a".
Proof. vm_compute. done. Qed.

Example secret_panics : CreateLocalSecretKey [slen random_byte_sp] = Panic "index out of range".
Proof. vm_compute. done. Qed.

Example client_addresses :
  ClientIP "" "" "10.0.0.7:5050" = "10.0.0.7" /\ ClientIP "" "" "[::1]:80" = "127.0.0.1" /\ ClientIP "" "1.2.3.4" "10.0.0.7:5050" = "1.2.3.4" /\
  ClientIP "" "" "10.0.0.7" = "".
Proof. vm_compute. done. Qed.

Example shifted :
  Shift (SText "12.3456") 2 true = Ok "12.34" /\ Shift (SText "7") 2 true = Ok "7.00" /\ Shift (SText "-0.05") 1 false = Ok "-0.0" /\
  is_panic (Shift (SText "1.5") (-1) false) = true.
Proof. vm_compute. done. Qed.

Example secrets : createDefaultLocalSecretKey = Ok "$*Jy^nRZc+nGo%tDa18TYE#!" /\ createLocalTokenSecretKey = Ok "+@=Hy*kT^j#lK!ZC@diQZI$%".
Proof. vm_compute. done. Qed.

(** *** Arithmetic *)

Lemma int_and_exp_range o w i e d : int_and_exp o w i e = Ok d -> in_int32 (d_exp d).
Proof.
  unfold int_and_exp. destruct (SetString i); [|done]. case_match eqn:E; [done|]. intros [= <-]. z_bools. unfold in_int32. cbn. lia.
Qed.

Lemma NewFromString_range s d : NewFromString s = Ok d -> in_int32 (d_exp d).
Proof.
  unfold NewFromString, with_point. repeat case_match; try done; apply int_and_exp_range.
Qed.

(** The text is that of a number equal to [q]. *)
Definition reads (t : string) (q : Q) : Prop := exists d, NewFromString t = Ok d /\ (Rat d == q)%Q.

Lemma reads_text d q : in_int32 (d_exp d) -> (Rat d == q)%Q -> reads (String_ d) q.
Proof. intros Hd E. destruct (NewFromString_text d true Hd) as (d' & H1 & H2 & _). exists d'. split; [exact H1|]. by rewrite H2. Qed.

(** C21: Arithmetic on texts is exact.  For two values whose texts are decimals: the text
    that [Add], [Sub], [Mul] and [Div] return is that of the sum, the difference, the
    product, and the quotient rounded to the nearest unit, halves away from zero;
    [ShiftN] and [FmtDiv] move the point; [Cmp] compares the numbers; and a value
    whose text is no decimal makes the first four fail. *)
Theorem text_arithmetic a b x y n :
  NewFromString (AnyToStr a) = Ok x -> NewFromString (AnyToStr b) = Ok y ->
  (exists t, Add a b = Ok t /\ reads t (Rat x + Rat y)) /\
  (exists t, Sub a b = Ok t /\ reads t (Rat x - Rat y)) /\
  (in_int32 (d_exp x + d_exp y) -> exists t, Mul a b = Ok t /\ reads t (Rat x * Rat y)) /\
  (div_range x y n -> d_value y <> 0 ->
     exists t, Div a b n = Ok t /\ reads t (inject_Z (half_away (Rat x / Rat y * p10 n)) * p10 (- n))) /\
  (in_int32 (d_exp x + n) -> exists t, ShiftN a n = Ok t /\ reads t (Rat x * p10 n)) /\
  (in_int32 n -> n <> min_int32 -> in_int32 (d_exp x - n) -> reads (FmtDiv (AnyToStr a) n) (Rat x * p10 (- n))) /\
  Cmp a b = (Rat x ?= Rat y)%Q /\
  (forall c, is_ok (NewFromString (AnyToStr c)) = false ->
     is_ok (Add a c) = false /\ is_ok (Add c a) = false /\ is_ok (Mul a c) = false /\ is_ok (Div a c n) = false).
Proof.
  intros Ha Hb. pose proof (NewFromString_range _ _ Ha) as Rx. pose proof (NewFromString_range _ _ Hb) as Ry.
  unfold Add, Sub, Mul, Div, ShiftN, Cmp, on_texts, decimal_or_zero. rewrite Ha, Hb. cbn [bind_outcome].
  split_and!.
  - eexists. split; [reflexivity|]. apply reads_text; [cbn; unfold in_int32 in *; lia|apply Add_Rat].
  - eexists. split; [reflexivity|]. apply reads_text; [cbn; unfold in_int32 in *; lia|apply Sub_Rat].
  - intros Hr. destruct (Mul_Rat x y Hr) as (p & -> & Hp & Hq). eexists. split; [reflexivity|].
    apply reads_text; [by rewrite Hp|exact Hq].
  - intros Hr Hne. rewrite (DivRound_ok x y n Hne Hr). cbn [bind_outcome]. eexists. split; [reflexivity|].
    apply reads_text; [apply (range_scale x y n Hr)|]. rewrite Rat_spec. reflexivity.
  - intros Hr. eexists. split; [reflexivity|]. apply reads_text; [|by apply Shift_Rat]. cbn. apply int32_range.
  - intros Hn Hmin Hr. unfold FmtDiv. destruct (slen (AnyToStr a) =? 0) eqn:E0.
    { unfold slen in E0. destruct (AnyToStr a); [|done]. vm_compute in Ha. discriminate Ha. }
    destruct (Z.eqb_spec n 0) as [->|Hz].
    { exists x. split; [exact Ha|]. change (p10 (- 0)) with 1%Q. ring. }
    rewrite Ha, (int32_small n Hn). rewrite int32_small by (unfold in_int32, min_int32, max_int32 in *; lia).
    apply reads_text; [cbn; apply int32_range|]. apply Shift_Rat. exact Hr.
  - apply Cmp_Rat.
  - intros c Hc. by destruct (NewFromString (AnyToStr c)).
Qed.

Lemma text_arithmetic_witness :
  (exists t, Add (AStr "0.1") (AInt 2) = Ok t /\ reads t (Rat (New 1 (-1)) + Rat (New 2 0))) /\
  Add (AStr "0.1") (AInt 2) = Ok "2.1" /\ Div (AStr "2") (AStr "3") 2 = Ok "0.67".
Proof.
  split; [|vm_compute; done].
  exact (proj1 (text_arithmetic (AStr "0.1") (AInt 2) (New 1 (-1)) (New 2 0) 0 eq_refl eq_refl)).
Defined.

(** *** Reversing *)

(** The text is well-formed UTF-8. *)
Definition well_encoded (s : string) : bool := String.eqb (string_of_runes (runes s)) s.

Lemma Reverse_runes s : runes (Reverse s) = rev (runes s).
Proof. apply runes_string, Forall_rev, runes_valid. Qed.

(** [Reverse] keeps the characters, and twice it gives back a well-formed text. *)
Lemma Reverse_involutive s :
  runes (Reverse s) = rev (runes s) /\ (well_encoded s = true -> Reverse (Reverse s) = s).
Proof.
  split; [apply Reverse_runes|]. intros Hs%String.eqb_eq. unfold Reverse at 1. by rewrite Reverse_runes, rev_involutive.
Qed.
