(* ===== verification/Exception.v ===== *)
(** * Exceptions ([src/ex/exception.go])

    A [Throw] crosses a service as the text of an error: its code, message, address and
    arguments between separators.  [Catch] reads it back.  The JSON codec of the
    arguments is an argument of the definitions. *)

From Stdlib Require Import Ascii.
From S2P Require Import Prelude GoStrings DecimalText Common.

#[local] Open Scope string_scope.
#[local] Open Scope Z_scope.

(** The two runes of the separator. *)
Definition sep : string := Eval vm_compute in bytes_of [226; 136; 181; 226; 136; 180].

Definition BIZ : Z := 100000.
Definition SYSTEM : Z := 999998.
Definition UNKNOWN : Z := 999999.

Record Throw := mk_throw { Code : Z; Msg : string; Url : string; Err_ : option string; Arg : list string }.

(** [strings.Split]; [skip] counts the bytes of a separator still to drop. *)
Fixpoint split_str (sep : string) (skip : nat) (s : string) : list string :=
  match s with
  | "" => [""]
  | String c s' =>
      match skip with
      | S k => split_str sep k s'
      | O =>
          if String.prefix sep s then "" :: split_str sep (String.length sep - 1) s'
          else match split_str sep 0 s' with w :: ws => String c w :: ws | [] => [String c ""] end
      end
  end.

(** An error: a [Throw], or another one, by its text. *)
Inductive go_error := EThrow (t : Throw) | EText (s : string).

Section Exceptions.
Context (json_args : list string -> string)
  (parse_args : string -> list string).     (* what is there after the parse, whether or not it failed *)

Definition throw_Error (self : Throw) : string :=
  let code := if Code self =? 0 then BIZ else Code self in
  let errMsg := AddStr [AInt code; AStr sep; AStr (Msg self)] in
  let errMsg := if 0 <? slen (Url self) then AddStr [AStr errMsg; AStr sep; AStr (Url self)] else errMsg in
  match Arg self with
  | [] => errMsg
  | args =>
      let errMsg := if slen (Url self) =? 0 then AddStr [AStr errMsg; AStr sep; AStr (Url self)] else errMsg in
      AddStr [AStr errMsg; AStr sep; AOther (Some (json_args args))]
  end.

(** A code that is no number is an error of the system. *)
Definition caught (code : string) (t : Z -> Throw) : Throw :=
  match StrToInt code with
  | Ok c => t c
  | Err e | Panic e => mk_throw SYSTEM e "" None []
  end.

Definition Catch (err : go_error) : Throw :=
  match err with
  | EThrow throw => throw
  | EText s =>
      match split_str sep 0 s with
      | [msg] => mk_throw UNKNOWN msg "" None []
      | [code; msg] => caught code (fun c => mk_throw c msg "" None [])
      | [code; msg; url] => caught code (fun c => mk_throw c msg url None [])
      | [code; msg; url; args] => caught code (fun c => mk_throw c msg url None (parse_args args))
      | _ => mk_throw UNKNOWN "failed to catch exception" "" (Some s) []
      end
  end.

(** The error that [OutError] writes to the log. *)
Definition OutError (err : go_error) : string :=
  match err with
  | EThrow t => default (Error [AStr (Msg t)]) (Err_ t)
  | EText s => s
  end.
End Exceptions.

(** ** Splitting at the separator *)

(** The separator does not occur in the text. *)
Fixpoint no_sep (s : string) : bool :=
  match s with "" => true | String _ s' => negb (String.prefix sep s) && no_sep s' end.

(** No proper end of the separator begins it: it does not overlap with itself. *)
Lemma prefix_app m t : m <> "" -> no_sep m = true -> String.prefix sep (m +:+ sep +:+ t) = false.
Proof.
  intros Hne Hm.
  destruct m as [|c1 [|c2 [|c3 [|c4 [|c5 [|c6 m]]]]]]; [done|..]; clear Hne.
  all: try solve [cbv [String.append String.prefix sep]; repeat (case_match; try done)].
  cbn [no_sep] in Hm. apply andb_prop in Hm as [Hm%negb_true_iff _]. revert Hm.
  cbv [String.append String.prefix sep]; repeat (case_match; [|done]). by destruct m.
Qed.

Lemma split_skip s t : split_str sep (String.length s) (s +:+ t) = split_str sep 0 t.
Proof. induction s as [|c s IH]; [done|exact IH]. Qed.

Lemma split_sep_app m t : no_sep m = true -> split_str sep 0 (m +:+ sep +:+ t) = m :: split_str sep 0 t.
Proof.
  induction m as [|c m IH]; intros Hm.
  - change ("" +:+ sep +:+ t) with (String (ascii_of_Z 226) (bytes_of [136; 181; 226; 136; 180] +:+ t)).
    cbn [split_str].
    assert (String.prefix sep (String (ascii_of_Z 226) (bytes_of [136; 181; 226; 136; 180] +:+ t)) = true) as ->
      by (cbn; by destruct t).
    change (String.length sep - 1)%nat with (String.length (bytes_of [136; 181; 226; 136; 180])). by rewrite split_skip.
  - pose proof (prefix_app (String c m) t ltac:(done) Hm) as Hp. cbn [no_sep] in Hm. apply andb_prop in Hm as [_ Hm].
    change (String c m +:+ sep +:+ t) with (String c (m +:+ sep +:+ t)) in *. cbn [split_str]. by rewrite Hp, IH.
Qed.

Lemma split_sep_none m : no_sep m = true -> split_str sep 0 m = [m].
Proof.
  induction m as [|c m IH]; [done|]. cbn [no_sep split_str]. intros [Hp%negb_true_iff Hm]%andb_prop. by rewrite Hp, IH.
Qed.

(** Plain bytes hold no separator. *)
Definition plain_byte (c : Ascii.ascii) : bool := byte_val c <? 128.

Lemma plain_no_sep s : all_bytes plain_byte s = true -> no_sep s = true.
Proof.
  induction s as [|c s IH]; [done|]. cbn [all_bytes no_sep]. intros [Hc Hs]%andb_prop. rewrite (IH Hs), andb_true_r.
  cbv [String.prefix sep]. case_match; [|done]. by subst c.
Qed.

Lemma format_int_plain z : all_bytes plain_byte (format_int z) = true.
Proof.
  assert (forall n, 0 <= n -> all_bytes plain_byte (format_nat n) = true) as Hn.
  { intros n Hn. destruct (format_nat_list n Hn) as (l & -> & Hl & _). by apply digits_all; [apply ten_digits|]. }
  unfold format_int. destruct (z <? 0) eqn:E; z_bools; [cbn; apply Hn; lia|apply Hn; lia].
Qed.

Section RoundTrip.
Context (json_args : list string -> string) (parse_args : string -> list string).

(** C40: An exception survives its way over the wire: [Catch] of the text that
    [Throw.Error] writes is the exception that was thrown, with the general code for a
    code of zero and without its inner error, whenever its parts do not hold the
    separator and the JSON of its arguments can be read back. *)
Theorem exception_round_trip t :
  in_int64 (Code t) -> no_sep (Msg t) = true -> no_sep (Url t) = true ->
  (Arg t <> [] -> no_sep (json_args (Arg t)) = true /\ parse_args (json_args (Arg t)) = Arg t) ->
  Catch parse_args (EText (throw_Error json_args t)) =
  mk_throw (if Code t =? 0 then BIZ else Code t) (Msg t) (Url t) None (Arg t).
Proof.
  intros Hc Hm Hu Ha. set (code := if Code t =? 0 then BIZ else Code t).
  assert (forall f, caught (format_int code) f = f code) as Hcode.
  { intros f. unfold caught, StrToInt, str_to. rewrite parse_int_format; [done|lia|].
    subst code. unfold in_int64, min_int64, max_int64 in Hc. destruct (Code t =? 0); [unfold BIZ|]; simpl; lia. }
  assert (no_sep (format_int code) = true) as Hn by apply plain_no_sep, format_int_plain.
  unfold throw_Error. fold code. unfold AddStr. cbn [foldl add_part AnyToStr default from_option id].
  change ("" +:+ format_int code) with (format_int code).
  assert (forall u, "" +:+ u = u) as H0 by done. rewrite ?H0.
  destruct (slen (Url t) =? 0) eqn:Eu.
  - assert (Url t = "") as Ut by (unfold slen in Eu; by destruct (Url t)). rewrite Ut. cbn [slen]. change (0 <? slen "") with false. cbv iota.
    destruct (Arg t) as [|a args] eqn:Ea.
    + unfold Catch. rewrite <- str_app_assoc, split_sep_app, split_sep_none by done. apply Hcode.
    + destruct (Ha ltac:(done)) as [Hj Hp]. unfold Catch. rewrite <- !str_app_assoc, !split_sep_app, split_sep_none by done.
      rewrite Hcode. by rewrite Hp.
  - assert (0 <? slen (Url t) = true) as -> by (unfold slen in *; z_bools; apply Z.ltb_lt; lia).
    destruct (Arg t) as [|a args] eqn:Ea.
    + unfold Catch. rewrite <- !str_app_assoc, !split_sep_app, split_sep_none by done. apply Hcode.
    + destruct (Ha ltac:(done)) as [Hj Hp]. unfold Catch. rewrite <- !str_app_assoc, !split_sep_app, split_sep_none by done.
      rewrite Hcode. by rewrite Hp.
Qed.
End RoundTrip.

(** A codec for arguments without commas. *)
Definition commas (l : list string) : string := "[" +:+ join ","%char l +:+ "]".
Definition uncommas (s : string) : list string :=
  match s with String _ r => split_on ","%char (take_str (String.length r - 1) r) | "" => [] end.

Definition not_found : Throw := mk_throw 404 "not found" "/user" (Some "inner") ["id"; "7"].

Lemma exception_round_trip_witness :
  Catch uncommas (EText (throw_Error commas not_found)) = mk_throw 404 "not found" "/user" None ["id"; "7"].
Proof.
  refine (exception_round_trip commas uncommas not_found _ eq_refl eq_refl _).
  - split; vm_compute; discriminate.
  - intros _. split; vm_compute; reflexivity.
Defined.

(** A text without a code is not an exception; a message with a separator in it is cut. *)
Example caught_texts :
  Catch uncommas (EText "timeout") = mk_throw UNKNOWN "timeout" "" None [] /\
  Catch uncommas (EText ("x" +:+ sep +:+ "y")) = mk_throw SYSTEM "string to int failed" "" None [] /\
  Msg (Catch uncommas (EText (throw_Error commas (mk_throw 1 ("a" +:+ sep +:+ "b") "" None [])))) = "a".
Proof. vm_compute. done. Qed.
