(* ===== verification/Concurrent.v ===== *)
(** * Concurrent helpers ([src/utils/concurrent])

    [Once] and the cache [Map], as transition systems: a thread is at a point of its
    method, each step is an access to what the threads share, and the steps of the
    threads interleave in any order.  The theorems hold in every state that can be
    reached; the steps of a [Map] end at its first data race. *)

From stdpp Require Import relations.
From S2P Require Import Prelude GoStrings.

#[local] Open Scope string_scope.
#[local] Open Scope Z_scope.

(** The state of a run, computed. *)
Ltac computed := match goal with |- rtc _ ?s _ => let s' := eval vm_compute in s in change s with s' end.

(** ** [Once] ([once.go]) *)

Module Once.

(** Where a call of [Do] is. *)
Inductive pc :=
  | Do          (* before the load of [done] *)
  | doSlow      (* waits for the mutex *)
  | Locked      (* has the mutex *)
  | Running     (* in [f] *)
  | Returned    (* [f] has returned, [done] is not yet stored *)
  | Leaving     (* before the unlock *)
  | Done.

Record shared := mk_shared { done : bool; owner : option nat; started : nat; returned : nat; threads : list pc }.

Definition init (n : nat) : shared := mk_shared false None 0 0 (replicate n Do).

Definition at_ (s : shared) (i : nat) (p : pc) : list pc := <[i := p]> (threads s).

Inductive step (s : shared) : shared -> Prop :=
  | load_fast i : threads s !! i = Some Do -> done s = true -> step s (mk_shared (done s) (owner s) (started s) (returned s) (at_ s i Done))
  | load_slow i : threads s !! i = Some Do -> done s = false -> step s (mk_shared (done s) (owner s) (started s) (returned s) (at_ s i doSlow))
  | lock i : threads s !! i = Some doSlow -> owner s = None -> step s (mk_shared (done s) (Some i) (started s) (returned s) (at_ s i Locked))
  | late i : threads s !! i = Some Locked -> done s = true -> step s (mk_shared (done s) (owner s) (started s) (returned s) (at_ s i Leaving))
  | call i : threads s !! i = Some Locked -> done s = false -> step s (mk_shared (done s) (owner s) (S (started s)) (returned s) (at_ s i Running))
  | return_ i : threads s !! i = Some Running -> step s (mk_shared (done s) (owner s) (started s) (S (returned s)) (at_ s i Returned))
  | store i : threads s !! i = Some Returned -> step s (mk_shared true (owner s) (started s) (returned s) (at_ s i Leaving))
  | unlock i : threads s !! i = Some Leaving -> step s (mk_shared (done s) None (started s) (returned s) (at_ s i Done)).

(** The points between the lock and the unlock. *)
Definition critical (p : pc) : bool := match p with Locked | Running | Returned | Leaving => true | _ => false end.

(** How often [f] was started and has returned, by the point of the owner. *)
Definition counted (s : shared) (p : option pc) : Prop :=
  match p with
  | Some Running => done s = false /\ started s = 1%nat /\ returned s = 0%nat
  | Some Returned => done s = false /\ started s = 1%nat /\ returned s = 1%nat
  | Some Leaving => done s = true /\ started s = 1%nat /\ returned s = 1%nat
  | _ => if done s then started s = 1%nat /\ returned s = 1%nat else started s = 0%nat /\ returned s = 0%nat
  end.

Record inv (s : shared) : Prop := {
  inv_mutex : forall i p, threads s !! i = Some p -> critical p = true -> owner s = Some i;
  inv_owner : forall i, owner s = Some i -> exists p, threads s !! i = Some p /\ critical p = true;
  inv_count : counted s (i ← owner s; threads s !! i);
  inv_done : forall i, threads s !! i = Some Done -> done s = true
}.

Lemma once_inv_init n : inv (init n).
Proof.
  assert (forall i p, threads (init n) !! i = Some p -> p = Do) as Hd by (intros i p [-> _]%lookup_replicate; done).
  split; [intros i p ->%Hd; discriminate|discriminate|by split|intros i E%Hd; discriminate].
Qed.

(** One thread moves on. *)
Lemma once_at_other s i p j q : at_ s i p !! j = Some q -> (i = j /\ q = p) \/ (i <> j /\ threads s !! j = Some q).
Proof. unfold at_. intros H. apply list_lookup_insert_Some in H as [(-> & -> & _)|[? ?]]; [by left|by right]. Qed.

Lemma once_at_self s i p q : threads s !! i = Some q -> at_ s i p !! i = Some p.
Proof. intros H. apply list_lookup_insert_eq. by eapply lookup_lt_Some. Qed.

(** A step of the owner to another point of the critical section. *)
Lemma once_inv_inside s i p q d st rt :
  inv s -> threads s !! i = Some p -> critical p = true -> critical q = true ->
  (done s = true -> d = true) -> counted (mk_shared d (owner s) st rt (at_ s i q)) (Some q) ->
  inv (mk_shared d (owner s) st rt (at_ s i q)).
Proof.
  intros [H1 H2 H3 H4] Hi Hp Hq Hd Hc. pose proof (H1 i p Hi Hp) as Eo. split; cbn [owner threads done].
  - intros j r [[<- ->]|[Hne Hj]]%once_at_other Hr; [done|by eapply H1].
  - intros j Ej. rewrite Eo in Ej. injection Ej as <-. exists q. split; [by eapply once_at_self|done].
  - rewrite Eo in *. cbn. by rewrite (once_at_self s i q p Hi).
  - intros j [[<- <-]|[Hne Hj]]%once_at_other; [done|]. apply Hd. by eapply H4.
Qed.

(** A step outside it, which leaves the mutex as it is. *)
Lemma once_inv_outside s i p q :
  inv s -> threads s !! i = Some p -> critical p = false -> critical q = false -> (q = Done -> done s = true) ->
  inv (mk_shared (done s) (owner s) (started s) (returned s) (at_ s i q)).
Proof.
  intros [H1 H2 H3 H4] Hi Hp Hq Hd.
  assert (forall j, owner s = Some j -> i <> j) as Hne.
  { intros j Ej <-. destruct (H2 i Ej) as (r & Hr & Hc). rewrite Hi in Hr. injection Hr as <-. congruence. }
  split; cbn [owner threads done].
  - intros j r [[<- ->]|[_ Hj]]%once_at_other Hr; [congruence|by eapply H1].
  - intros j Ej. destruct (H2 j Ej) as (r & Hr & Hc). exists r. split; [|done]. unfold at_. rewrite list_lookup_insert_ne; [done|by apply Hne].
  - destruct (owner s) as [j|] eqn:Eo; cbn in *; [|exact H3]. unfold at_. rewrite list_lookup_insert_ne by (by apply Hne). exact H3.
  - intros j [[<- <-]|[_ Hj]]%once_at_other; [by apply Hd|by eapply H4].
Qed.

Lemma once_inv_step s s' : inv s -> step s s' -> inv s'.
Proof.
  intros Hinv Hs. pose proof Hinv as [H1 H2 H3 H4]. destruct Hs as [i Hi Hd|i Hi Hd|i Hi Ho|i Hi Hd|i Hi Hd|i Hi|i Hi|i Hi].
  1-2: by eapply once_inv_outside.
  2-5: pose proof (H1 i _ Hi eq_refl) as Eo; rewrite Eo in H3; cbn in H3; rewrite Hi in H3; cbn in H3.
  - split; cbn [owner threads done].
    + intros j r [[<- ->]|[Hne Hj]]%once_at_other Hr; [done|]. pose proof (H1 j r Hj Hr). congruence.
    + intros j [= <-]. exists Locked. split; [by eapply once_at_self|done].
    + cbn. rewrite (once_at_self s i Locked doSlow Hi). rewrite Ho in H3. exact H3.
    + intros j [[<- [=]]|[_ Hj]]%once_at_other. by eapply H4.
  - eapply once_inv_inside; try done. cbn. rewrite Hd in H3. by split.
  - eapply once_inv_inside; try done. cbn. rewrite Hd in H3. destruct H3 as [-> ->]. done.
  - destruct H3 as (Hd & Es & Er). eapply once_inv_inside; try done. cbn. by rewrite Es, Er.
  - destruct H3 as (Hd & Es & Er). eapply once_inv_inside; try done.
  - pose proof (H1 i _ Hi eq_refl) as Eo. rewrite Eo in H3. cbn in H3. rewrite Hi in H3. cbn in H3. destruct H3 as (Hd & Es & Er).
    split; cbn [owner threads done]; try done.
    + intros j r [[<- ->]|[Hne Hj]]%once_at_other Hr; [done|]. pose proof (H1 j r Hj Hr). congruence.
    + cbn. by rewrite Hd.
Qed.

Lemma once_reachable_inv n s : rtc step (init n) s -> inv s.
Proof. intros H. remember (init n) as s0 eqn:E. pose proof (once_inv_init n) as Hi. rewrite <- E in Hi. clear E. induction H; [done|]. eauto using once_inv_step. Qed.

(** C11: However the calls of any number of threads interleave, [f] is started at most
    once; a call of [Do] that is over, whichever it is, is over after [f] has
    returned; and the threads never get stuck: as long as one of them is not done,
    some thread can take a step. *)
Theorem once_runs_once n s :
  rtc step (init n) s ->
  (started s <= 1)%nat /\ (forall i, threads s !! i = Some Done -> started s = 1%nat /\ returned s = 1%nat) /\
  ((exists i p, threads s !! i = Some p /\ p <> Done) -> exists s', step s s').
Proof.
  intros Hr. destruct (once_reachable_inv n s Hr) as [H1 H2 H3 H4]. split_and!.
  - unfold counted in H3. repeat case_match; lia.
  - intros i Hi. specialize (H4 i Hi). unfold counted in H3. rewrite H4 in H3. repeat case_match; intuition congruence.
  - intros (i & p & Hi & Hp). destruct (owner s) as [j|] eqn:Eo.
    + destruct (H2 j eq_refl) as (q & Hq & Hc). destruct q; try done; [|eauto using return_|eauto using store|eauto using unlock].
      destruct (done s) eqn:Ed; eauto using late, call.
    + destruct p; try done; [|eauto using lock|..]; try (pose proof (H1 i _ Hi eq_refl); congruence).
      destruct (done s) eqn:Ed; eauto using load_fast, load_slow.
Qed.

(** Two threads: the second waits while the first runs [f]. *)
Definition both_done : shared := mk_shared true None 1 1 [Done; Done].

Lemma both_done_reachable : rtc step (init 2) both_done.
Proof.
  eapply rtc_l; [by apply (load_slow _ 0)|]; computed. eapply rtc_l; [by apply (load_slow _ 1)|]; computed.
  eapply rtc_l; [by apply (lock _ 0)|]; computed. eapply rtc_l; [by apply (call _ 0)|]; computed. eapply rtc_l; [by apply (return_ _ 0)|]; computed.
  eapply rtc_l; [by apply (store _ 0)|]; computed. eapply rtc_l; [by apply (unlock _ 0)|]; computed.
  eapply rtc_l; [by apply (lock _ 1)|]; computed. eapply rtc_l; [by apply (late _ 1)|]; computed. eapply rtc_l; [by apply (unlock _ 1)|]; computed.
  apply rtc_refl.
Qed.

Lemma once_runs_once_witness :
  (started both_done <= 1)%nat /\ (forall i, threads both_done !! i = Some Done -> started both_done = 1%nat /\ returned both_done = 1%nat) /\
  ((exists i p, threads both_done !! i = Some p /\ p <> Done) -> exists s', step both_done s').
Proof. exact (once_runs_once 2 both_done both_done_reachable). Defined.
End Once.

(** ** The cache [Map] ([map.go]) *)

(** *** One call at a time *)

Section Sequential.
Context {V : Type}.
(** What a call-back returns: a value, or nothing, and an error. *)
Definition answer : Type := option V * option string.
Implicit Types (m : gmap string V) (f : option (string -> answer)).

Definition keep (key : string) (r : answer) m : gmap string V :=
  match r with (Some v, None) => <[key := v]> m | _ => m end.

Definition Get (key : string) f m : answer * gmap string V :=
  if slen key =? 0 then ((None, Some "get key is nil"), m)
  else match f with
       | None => ((None, Some "get callfun is nil"), m)
       | Some f =>
           match m !! key with
           | Some v => ((Some v, None), m)
           | None => let r := f key in (r, keep key r m)
           end
       end.

Definition Set_ (key : string) f m : answer * gmap string V :=
  if slen key =? 0 then ((None, Some "set key is nil"), m)
  else match f with
       | None => ((None, Some "set callfun is nil"), m)
       | Some f => let r := f key in (r, keep key r m)
       end.

(** The error of the call-back keeps the entry. *)
Definition Del (key : string) f m : option string * gmap string V :=
  match m !! key with
  | None => (None, m)
  | Some _ =>
      let err := match f with Some f => snd (f key) | None => None end in
      (err, match err with None => delete key m | Some _ => m end)
  end.
End Sequential.

(** *** Any number of calls of [Get] *)

Module Cache.
Section Cache.
Context {V : Type}.

Inductive pc :=
  | Lookup                     (* before the look-up without the mutex *)
  | Reading                    (* in it *)
  | Locking
  | Locked                     (* before the second look-up *)
  | Calling                    (* in the call-back *)
  | Writing (v : V)            (* the call-back has returned a value and no error *)
  | Storing (v : V)            (* in the write to the map *)
  | Unlocking (r : option V)
  | Over (r : option V).

Record shared := mk_shared { data : gmap string V; owner : option nat; made : string -> nat; threads : list (string * pc) }.

Definition init (keys : list string) : shared := mk_shared ∅ None (fun _ => 0%nat) (map (fun k => (k, Lookup)) keys).

Definition at_ (s : shared) (i : nat) (k : string) (p : pc) : list (string * pc) := <[i := (k, p)]> (threads s).
Definition count (m : string -> nat) (k : string) : string -> nat := fun x => if String.eqb x k then S (m x) else m x.

(** An unlocked read of the map while another thread writes it: the program has no
    defined behaviour from here on (mostly the run time ends it). *)
Definition racing (s : shared) : Prop :=
  exists i j k v k', i <> j /\ threads s !! i = Some (k, Storing v) /\ threads s !! j = Some (k', Reading).

(** A read and a write of the map take time: they begin with a step and end with another. *)
Inductive move (s : shared) : shared -> Prop :=
  | read i k : threads s !! i = Some (k, Lookup) ->
      move s (mk_shared (data s) (owner s) (made s) (at_ s i k Reading))
  | hit i k v : threads s !! i = Some (k, Reading) -> data s !! k = Some v ->
      move s (mk_shared (data s) (owner s) (made s) (at_ s i k (Over (Some v))))
  | miss i k : threads s !! i = Some (k, Reading) -> data s !! k = None ->
      move s (mk_shared (data s) (owner s) (made s) (at_ s i k Locking))
  | lock i k : threads s !! i = Some (k, Locking) -> owner s = None ->
      move s (mk_shared (data s) (Some i) (made s) (at_ s i k Locked))
  | hit_again i k v : threads s !! i = Some (k, Locked) -> data s !! k = Some v ->
      move s (mk_shared (data s) (owner s) (made s) (at_ s i k (Unlocking (Some v))))
  | miss_again i k : threads s !! i = Some (k, Locked) -> data s !! k = None ->
      move s (mk_shared (data s) (owner s) (made s) (at_ s i k Calling))
  | made_one i k v : threads s !! i = Some (k, Calling) ->
      move s (mk_shared (data s) (owner s) (count (made s) k) (at_ s i k (Writing v)))
  | failed i k : threads s !! i = Some (k, Calling) ->
      move s (mk_shared (data s) (owner s) (made s) (at_ s i k (Unlocking None)))
  | store i k v : threads s !! i = Some (k, Writing v) ->
      move s (mk_shared (data s) (owner s) (made s) (at_ s i k (Storing v)))
  | write i k v : threads s !! i = Some (k, Storing v) ->
      move s (mk_shared (<[k := v]> (data s)) (owner s) (made s) (at_ s i k (Unlocking (Some v))))
  | unlock i k r : threads s !! i = Some (k, Unlocking r) ->
      move s (mk_shared (data s) None (made s) (at_ s i k (Over r))).

(** What a state that is racing does is not defined. *)
Definition step (s s' : shared) : Prop := ~ racing s /\ move s s'.

Definition critical (p : pc) : bool := match p with Lookup | Reading | Locking | Over _ => false | _ => true end.

(** The values made for a key: the one that is stored, or is about to be. *)
Definition pending (s : shared) (k : string) : nat :=
  match (i ← owner s; threads s !! i) with
  | Some (k', Writing _) | Some (k', Storing _) => if String.eqb k k' then 1 else 0
  | _ => 0
  end.

Record inv (s : shared) : Prop := {
  inv_mutex : forall i k p, threads s !! i = Some (k, p) -> critical p = true -> owner s = Some i;
  inv_absent : forall i k p, threads s !! i = Some (k, p) -> match p with Calling | Writing _ | Storing _ => data s !! k = None | _ => True end;
  inv_made : forall k, made s k = ((if data s !! k then 1 else 0) + pending s k)%nat;
  inv_over : forall i k v, threads s !! i = Some (k, Over (Some v)) \/ threads s !! i = Some (k, Unlocking (Some v)) -> data s !! k = Some v
}.

Lemma get_inv_init keys : inv (init keys).
Proof.
  assert (forall i k p, threads (init keys) !! i = Some (k, p) -> p = Lookup) as Hd.
  { intros i k p. cbn. rewrite list_lookup_fmap. destruct (keys !! i); [|done]. by intros [= _ <-]. }
  split; [intros i k p ->%Hd; discriminate|by intros i k p ->%Hd|by intros k; cbn; rewrite lookup_empty|].
  by intros i k v [E%Hd|E%Hd].
Qed.

Lemma get_at_other s i k p j k' q : at_ s i k p !! j = Some (k', q) -> (i = j /\ k' = k /\ q = p) \/ (i <> j /\ threads s !! j = Some (k', q)).
Proof. unfold at_. intros H. apply list_lookup_insert_Some in H as [(-> & [= <- <-] & _)|[? ?]]; [by left|by right]. Qed.

Lemma get_at_self s i k p x : threads s !! i = Some x -> at_ s i k p !! i = Some (k, p).
Proof. intros H. apply list_lookup_insert_eq. by eapply lookup_lt_Some. Qed.

(** The owner of the mutex moves on and keeps it. *)
Lemma get_inv_inside s i k p q d m :
  inv s -> threads s !! i = Some (k, p) -> critical p = true ->
  (forall k', k' <> k -> d !! k' = data s !! k' /\ m k' = made s k') ->
  (forall v, data s !! k = Some v -> d !! k = Some v) ->
  match q with Calling | Writing _ | Storing _ => d !! k = None | Unlocking (Some v) => d !! k = Some v | Unlocking None => True | _ => False end ->
  m k = ((if d !! k then 1 else 0) + (match q with Writing _ | Storing _ => 1 | _ => 0 end))%nat ->
  inv (mk_shared d (owner s) m (at_ s i k q)).
Proof.
  intros [H1 H2 H3 H4] Hi Hp Hother Hgrow Hq Hm. pose proof (H1 i k p Hi Hp) as Eo.
  assert (forall j k' r, i <> j -> threads s !! j = Some (k', r) -> critical r = false) as Hout.
  { intros j k' r Hne Hj. apply not_true_is_false. intros Hr. pose proof (H1 j k' r Hj Hr). congruence. }
  assert (forall k' v, data s !! k' = Some v -> d !! k' = Some v) as Hsub.
  { intros k' v Hv. destruct (decide (k' = k)) as [->|Hne]; [by apply Hgrow|]. by rewrite (proj1 (Hother k' Hne)). }
  split; cbn [owner threads data made].
  - intros j k' r [(<- & -> & ->)|[Hne Hj]]%get_at_other Hr; [done|by eapply H1].
  - intros j k' r [(<- & -> & ->)|[Hne Hj]]%get_at_other; [by destruct q|].
    specialize (Hout j k' r Hne Hj). by destruct r.
  - intros k'. unfold pending. cbn [owner threads]. rewrite Eo. cbn. rewrite (get_at_self s i k q _ Hi).
    destruct (decide (k' = k)) as [->|Hne].
    + rewrite Hm. by destruct q; rewrite ?String.eqb_refl.
    + destruct (Hother k' Hne) as [-> ->]. rewrite H3. unfold pending. rewrite Eo. cbn. rewrite Hi.
      replace (String.eqb k' k) with false by (symmetry; by apply String.eqb_neq).
      destruct p, q; done.
  - intros j k' v [[(<- & -> & E)|[Hne Hj]]%get_at_other|[(<- & -> & E)|[Hne Hj]]%get_at_other].
    + by subst q.
    + apply Hsub, (H4 j). by left.
    + by subst q.
    + apply Hsub, (H4 j). by right.
Qed.

(** A thread moves on that has not the mutex. *)
Lemma get_inv_outside s i k p q :
  inv s -> threads s !! i = Some (k, p) -> critical p = false -> critical q = false ->
  (forall v, q = Over (Some v) -> data s !! k = Some v) ->
  inv (mk_shared (data s) (owner s) (made s) (at_ s i k q)).
Proof.
  intros [H1 H2 H3 H4] Hi Hp Hq Hv. split; cbn [owner threads data made].
  - intros j k' r [(<- & -> & ->)|[Hne Hj]]%get_at_other Hr; [congruence|by eapply H1].
  - intros j k' r [(<- & -> & ->)|[Hne Hj]]%get_at_other; [by destruct q|by eapply H2].
  - intros k'. rewrite H3. f_equal. unfold pending. cbn [owner threads]. destruct (owner s) as [j|] eqn:Eo; [|done]. cbn.
    destruct (decide (i = j)) as [<-|Hne].
    + rewrite (get_at_self s i k q _ Hi), Hi. by destruct p, q.
    + unfold at_. by rewrite list_lookup_insert_ne.
  - intros j k' v [[(<- & -> & E)|[Hne Hj]]%get_at_other|[(<- & -> & E)|[Hne Hj]]%get_at_other].
    + by apply Hv.
    + apply (H4 j). by left.
    + by subst q.
    + apply (H4 j). by right.
Qed.

Lemma get_inv_step s s' : inv s -> move s s' -> inv s'.
Proof.
  intros Hinv Hs. pose proof Hinv as [H1 H2 H3 H4].
  assert (forall i k p, threads s !! i = Some (k, p) -> critical p = true ->
    made s k = ((if data s !! k then 1 else 0) + match p with Writing _ | Storing _ => 1 | _ => 0 end)%nat) as Hmade.
  { intros i k p Hi Hp. rewrite (H3 k). f_equal. unfold pending. rewrite (H1 i k p Hi Hp). cbn. rewrite Hi.
    by destruct p; rewrite ?String.eqb_refl. }
  destruct Hs as [i k Hi|i k v Hi Hd|i k Hi Hd|i k Hi Ho|i k v Hi Hd|i k Hi Hd|i k v Hi|i k Hi|i k v Hi|i k v Hi|i k r Hi].
  1-3: eapply get_inv_outside; try done; by intros v' [= <-].
  2-7: pose proof (Hmade i k _ Hi eq_refl) as Hm.
  - split; cbn [owner threads data made].
    + intros j k' r [(<- & -> & ->)|[Hne Hj]]%get_at_other Hr; [done|]. pose proof (H1 j k' r Hj Hr). congruence.
    + intros j k' r [(<- & -> & ->)|[Hne Hj]]%get_at_other; [done|by eapply H2].
    + intros k'. rewrite H3. f_equal. unfold pending. cbn [owner threads]. rewrite Ho. cbn. by rewrite (get_at_self s i k Locked _ Hi).
    + intros j k' v [[(<- & -> & [=])|[Hne Hj]]%get_at_other|[(<- & -> & [=])|[Hne Hj]]%get_at_other]; apply (H4 j); (by left) || (by right).
  - eapply get_inv_inside; try done.
  - eapply get_inv_inside; try done.
  - pose proof (H2 i k _ Hi) as Hd. cbn in Hd. rewrite Hd in Hm. eapply get_inv_inside; try done.
    + intros k' Hne. split; [done|]. unfold count. by rewrite (proj2 (String.eqb_neq k' k) Hne).
    + unfold count. by rewrite String.eqb_refl, Hm, Hd.
  - eapply get_inv_inside; try done.
  - pose proof (H2 i k _ Hi) as Hd. cbn in Hd. eapply get_inv_inside; try done.
  - pose proof (H2 i k _ Hi) as Hd. cbn in Hd. rewrite Hd in Hm. eapply get_inv_inside; try done.
    + intros k' Hne. split; [by rewrite lookup_insert_ne|done].
    + intros v'. by rewrite Hd.
    + by rewrite lookup_insert_eq.
    + by rewrite Hm, lookup_insert_eq.
  - split; cbn [owner threads data made].
    + intros j k' q [(<- & -> & ->)|[Hne Hj]]%get_at_other Hr; [done|]. pose proof (H1 j k' q Hj Hr). pose proof (H1 i k _ Hi eq_refl). congruence.
    + intros j k' q [(<- & -> & ->)|[Hne Hj]]%get_at_other; [done|by eapply H2].
    + intros k'. rewrite H3. f_equal. unfold pending. cbn. rewrite (H1 i k _ Hi eq_refl). cbn. by rewrite Hi.
    + intros j k' v [[(<- & -> & [= <-])|[Hne Hj]]%get_at_other|[(<- & -> & [=])|[Hne Hj]]%get_at_other].
      * apply (H4 i). by right.
      * apply (H4 j). by left.
      * apply (H4 j). by right.
Qed.

Lemma get_reachable_inv keys s : rtc step (init keys) s -> inv s.
Proof.
  intros H. remember (init keys) as s0 eqn:E. pose proof (get_inv_init keys) as Hi. rewrite <- E in Hi. clear E.
  induction H as [|s1 s2 s3 [_ Hm] _ IH]; [done|]. by eapply IH, get_inv_step.
Qed.

(** C23: However any number of calls of [Get] interleave, up to the first time that the
    look-up without the mutex meets a write, no key is made twice: at most one call-back for
    a key ever succeeds, and all the calls for the key that return a value return the one
    that is in the cache. *)
Theorem get_makes_once keys s :
  rtc step (init keys) s ->
  (forall k, (made s k <= 1)%nat) /\
  (forall i k v, threads s !! i = Some (k, Over (Some v)) -> data s !! k = Some v) /\
  (forall i j k v w, threads s !! i = Some (k, Over (Some v)) -> threads s !! j = Some (k, Over (Some w)) -> v = w).
Proof.
  intros Hr. destruct (get_reachable_inv keys s Hr) as [H1 H2 H3 H4]. split_and!.
  - intros k. rewrite H3. destruct (data s !! k) eqn:Ed; unfold pending; destruct (owner s) as [i|] eqn:Eo; cbn; try lia.
    + destruct (threads s !! i) as [[k' []]|] eqn:Ei; try lia;
        (destruct (String.eqb_spec k k') as [<-|]; [|lia]; pose proof (H2 i k _ Ei) as Hn; cbn in Hn; congruence).
    + repeat case_match; lia.
  - intros i k v Hi. apply (H4 i). by left.
  - intros i j k v w Hi Hj. assert (data s !! k = Some v) by (apply (H4 i); by left).
    assert (data s !! k = Some w) by (apply (H4 j); by left). congruence.
Qed.
End Cache.

(** Two calls for a key. *)
Definition Storing_ (f : string * pc (V := Z)) : bool := match f.2 with Storing _ => true | _ => false end.
Definition Reading_ (f : string * pc (V := Z)) : bool := match f.2 with Reading => true | _ => false end.

(** A test for a race. *)
Definition quiet_ (s : shared (V := Z)) : bool := negb (existsb Storing_ (threads s)) || negb (existsb Reading_ (threads s)).

Lemma quiet_ok s : quiet_ s = true -> ~ racing s.
Proof.
  intros H (i & j & k & v & k' & _ & Hi & Hj). unfold quiet_ in H.
  assert (existsb Storing_ (threads s) = true) as H1 by (apply existsb_exists; exists (k, Storing v); split; [by eapply list_elem_of_In, list_elem_of_lookup_2|done]).
  assert (existsb Reading_ (threads s) = true) as H2 by (apply existsb_exists; exists (k', Reading); split; [by eapply list_elem_of_In, list_elem_of_lookup_2|done]).
  by rewrite H1, H2 in H.
Qed.

Tactic Notation "go" uconstr(m) := eapply rtc_l; [split; [apply quiet_ok; vm_compute; reflexivity|apply m; vm_compute; reflexivity]|]; computed.

Lemma two_gets_reachable : rtc step (init (V := Z) ["a"; "a"]) (mk_shared {["a" := 7]} None (count (fun _ => 0%nat) "a") [("a", Over (Some 7)); ("a", Over (Some 7))]).
Proof.
  go (read _ 0 "a").
  go (miss _ 0 "a"). go (read _ 1 "a").
  go (miss _ 1 "a"). go (lock _ 0 "a").
  go (miss_again _ 0 "a"). go (made_one _ 0 "a" 7).
  go (store _ 0 "a" 7). go (write _ 0 "a" 7).
  go (unlock _ 0 "a" (Some 7)). go (lock _ 1 "a").
  go (hit_again _ 1 "a" 7). go (unlock _ 1 "a" (Some 7)).
  apply rtc_refl.
Qed.

Lemma get_makes_once_witness : (count (fun _ => 0%nat) "a" "a" <= 1)%nat /\ (7 : Z) = 7.
Proof.
  destruct (get_makes_once ["a"; "a"] _ two_gets_reachable) as (H1 & _ & H3).
  split; [exact (H1 "a")|exact (H3 0%nat 1%nat "a" 7 7 eq_refl eq_refl)].
Defined.

(** That time can come: one thread is in the write to the map while another is in the
    look-up without the mutex. *)
Example get_races : exists s : shared (V := Z), rtc step (init ["a"; "b"]) s /\ racing s.
Proof.
  eexists. split.
  - go (read _ 0 "a"). go (miss _ 0 "a").
    go (lock _ 0 "a"). go (miss_again _ 0 "a").
    go (made_one _ 0 "a" 7). go (store _ 0 "a" 7).
    go (read _ 1 "b"). apply rtc_refl.
  - exists 0%nat, 1%nat, "a", 7, "b". done.
Qed.
End Cache.
