(* ===== verification/Snowflake.v ===== *)
(** * Snowflake identifiers ([src/utils/snowflake/id_worker.go])

    [Generate] takes the readings of the clock it makes, in order, as an
    argument: a pair of seconds and nanoseconds for each call of [now].  The lock
    of the node makes its calls sequential, so a node's history is a list of calls.
    The package variables [Epoch], [NodeBits] and [StepBits] are a [config], from
    which [NewNode] recomputes the masks and shifts. *)

From Stdlib Require Import Ascii.
From S2P Require Import Prelude GoStrings.

(** ** Configuration *)

Record config := mk_config {
  Epoch : Z;
  NodeBits : Z;                   (* uint8 *)
  StepBits : Z                    (* uint8 *)
}.

Definition default_config : config := mk_config 1288834974657 10 12.

Definition nodeMax (c : config) : Z := Z.lxor (-1) (int64 (Z.shiftl (-1) (NodeBits c))).
Definition nodeMask (c : config) : Z := int64 (Z.shiftl (nodeMax c) (StepBits c)).
Definition stepMask (c : config) : Z := Z.lxor (-1) (int64 (Z.shiftl (-1) (StepBits c))).
Definition timeShift (c : config) : Z := uwrap 8 (NodeBits c + StepBits c).
Definition nodeShift (c : config) : Z := StepBits c.

Record Node := mk_node {
  n_time : Z;
  n_node : Z;
  n_step : Z
}.

Definition NewNode (c : config) (node : Z) : outcome string Node :=
  if (node <? 0) || (nodeMax c <? node)
  then Err ("Node number must be between 0 and " +:+ format_int (nodeMax c))%string
  else Ok (mk_node 0 node 0).

(** ** Generating *)

(** [GetNow]: milliseconds from a reading of the clock. *)
Definition GetNow (r : Z * Z) : Z := Z.quot (int64 (int64 (r.1 * 1000000000) + r.2)) 1000000.

(** [GetValidNow]: a reading, a sleep if it is before the node's time, and
    another reading, which is returned. *)
Definition GetValidNow (n : Node) (rs : list (Z * Z)) : option (Z * list (Z * Z)) :=
  match rs with
  | _ :: r :: rs => Some (GetNow r, rs)
  | _ => None
  end.

(** [for now <= n.time { now = n.GetNow() }] *)
Fixpoint spin (t now : Z) (rs : list (Z * Z)) : option (Z * list (Z * Z)) :=
  if now <=? t then
    match rs with
    | [] => None
    | r :: rs => spin t (GetNow r) rs
    end
  else Some (now, rs).

(** The identifier of a time, node and step. *)
Definition make_id (c : config) (n : Node) : Z :=
  Z.lor (Z.lor (int64 (Z.shiftl (int64 (n_time n - Epoch c)) (timeShift c)))
               (int64 (Z.shiftl (n_node n) (nodeShift c))))
        (n_step n).

(** [None]: more readings are needed. *)
Definition Generate (c : config) (n : Node) (rs : list (Z * Z)) : option (Z * Node * list (Z * Z)) :=
  match rs with
  | [] => None
  | r :: rs =>
      '(now, rs) ← (if GetNow r <? n_time n then GetValidNow n rs else Some (GetNow r, rs));
      '(now, step, rs) ←
        (if n_time n =? now then
           let step := Z.land (int64 (n_step n + 1)) (stepMask c) in
           if step =? 0 then '(now, rs) ← spin (n_time n) now rs; Some (now, step, rs)
           else Some (now, step, rs)
         else Some (now, 0, rs));
      let n' := mk_node now (n_node n) step in
      Some (make_id c n', n', rs)
  end.

(** ** Parts of an identifier *)

Definition ID_Time (c : config) (f : Z) : Z := int64 (Z.shiftr f (timeShift c) + Epoch c).
Definition ID_Node (c : config) (f : Z) : Z := Z.shiftr (Z.land f (nodeMask c)) (nodeShift c).
Definition ID_Step (c : config) (f : Z) : Z := Z.land f (stepMask c).

(** ** Text forms *)

Definition encodeBase32Map : string := "ybndrfg8ejkmcpqxot1uwisza345h769".
Definition encodeBase58Map : string := "123456789abcdefghijkmnopqrstuvwxyzABCDEFGHJKLMNPQRSTUVWXYZ".

(** [m[i]] on a constant string. *)
Definition index_str (m : string) (i : Z) : outcome string ascii :=
  if i <? 0 then Panic "index out of range"
  else match String.get (Z.to_nat i) m with
       | Some c => Ok c
       | None => Panic "index out of range"
       end.

(** The two loops of [init] for one map: the first fills only as many places as
    the map has letters. *)
Definition decode_table (m : string) : list Z :=
  let len := String.length m in
  let t := foldl (fun t i => <[i := 255]> t) (replicate 256 0) (seq 0 len) in
  foldl (fun t ic => <[Z.to_nat (byte_val ic.2) := Z.of_nat ic.1]> t) t
        (zip (seq 0 len) (String.list_ascii_of_string m)).

Definition decodeBase32Map : list Z := Eval vm_compute in decode_table encodeBase32Map.
Definition decodeBase58Map : list Z := Eval vm_compute in decode_table encodeBase58Map.

(** The loop of [Base32] and [Base58]: the letters, least significant first. *)
Fixpoint encode_loop (fuel : nat) (base : Z) (m : string) (f : Z) (b : list ascii) : outcome string (list ascii) :=
  match fuel with
  | O => Panic "out of fuel"
  | S k =>
      if base <=? f then
        let* ch := index_str m (Z.rem f base) in
        encode_loop k base m (Z.quot f base) (b ++ [ch])
      else let* ch := index_str m f in Ok (b ++ [ch])%list
  end.

Definition encode (base : Z) (m : string) (f : Z) : outcome string string :=
  if f <? base then let* ch := index_str m f in Ok (String ch "")
  else let* b := encode_loop 64 base m f [] in Ok (String.string_of_list_ascii (rev b)).

Definition Base32 (f : Z) : outcome string string := encode 32 encodeBase32Map f.
Definition Base58 (f : Z) : outcome string string := encode 58 encodeBase58Map f.

Fixpoint decode_loop (base : Z) (t : list Z) (err : string) (id : Z) (b : string) : outcome string Z :=
  match b with
  | EmptyString => Ok id
  | String ch b =>
      let v := nth (Z.to_nat (byte_val ch)) t 0 in
      if v =? 255 then Err err else decode_loop base t err (int64 (id * base + v)) b
  end.

Definition ParseBase32 (b : string) : outcome string Z := decode_loop 32 decodeBase32Map "invalid base32" 0 b.
Definition ParseBase58 (b : string) : outcome string Z := decode_loop 58 decodeBase58Map "invalid base58" 0 b.

Definition ID_String (f : Z) : string := format_int f.

(** [IntBytes]: big endian. *)
Definition IntBytes (f : Z) : list Z :=
  map (fun i => Z.land (Z.shiftr (uint64 f) (8 * (7 - Z.of_nat i))) 255) (seq 0 8).

(** A double quote. *)
Definition quote : ascii := "034"%char.

Inductive json_error := JSONSyntaxError (original : string) | JSONNumError (e : num_error).

Definition MarshalJSON (f : Z) : string := String quote (format_int f +:+ String quote "").

Definition UnmarshalJSON (b : string) : outcome json_error Z :=
  let len := slen b in
  if (len <? 3) || negb (has_prefix b (String quote "")) || negb (has_suffix b (String quote ""))
  then Err (JSONSyntaxError b)
  else let* s := slice b 1 (len - 1) in map_err JSONNumError (parse_int 64 s).

(** ** Masks and shifts of a sound configuration *)

(** 22 bits for the node and the step together, as the documentation asks. *)
Record config_ok (c : config) : Prop := {
  cfg_node : 0 <= NodeBits c;
  cfg_step : 0 <= StepBits c;
  cfg_sum : NodeBits c + StepBits c <= 22;
  cfg_epoch : 0 <= Epoch c < 2 ^ 62
}.

Lemma default_config_ok : config_ok default_config.
Proof. by split. Qed.

Lemma mask_value n : 0 <= n <= 22 -> Z.lxor (-1) (int64 (Z.shiftl (-1) n)) = 2 ^ n - 1.
Proof.
  intros Hn. assert (2 ^ n <= 2 ^ 22) by (apply Z.pow_le_mono_r; lia).
  assert (0 < 2 ^ n) by (apply Z.pow_pos_nonneg; lia).
  rewrite int64_small.
  - destruct (ones_lxor n) as [->|]; [|lia]. rewrite Z.ones_equiv. lia.
  - rewrite Z.shiftl_mul_pow2 by lia. unfold in_int64, min_int64, max_int64. lia.
Qed.

Section Config.
Context (c : config) (Hc : config_ok c).

Lemma stepMask_eq : stepMask c = 2 ^ StepBits c - 1.
Proof. destruct Hc. apply mask_value. lia. Qed.

Lemma nodeMax_eq : nodeMax c = 2 ^ NodeBits c - 1.
Proof. destruct Hc. apply mask_value. lia. Qed.

Lemma timeShift_eq : timeShift c = NodeBits c + StepBits c.
Proof. destruct Hc. unfold timeShift, uwrap. apply Z.mod_small. lia. Qed.

(** The identifiers fit in 63 bits as long as the time fits in what the node and
    the step leave. *)
Definition time_ok (t : Z) : Prop := 0 <= t - Epoch c < 2 ^ (63 - timeShift c).

Definition parts_ok (n : Node) : Prop :=
  0 <= n_node n < 2 ^ NodeBits c /\ 0 <= n_step n < 2 ^ StepBits c.

Lemma pow_split : 2 ^ timeShift c = 2 ^ NodeBits c * 2 ^ StepBits c /\
  2 ^ 63 = 2 ^ (63 - timeShift c) * 2 ^ timeShift c /\
  0 < 2 ^ NodeBits c /\ 0 < 2 ^ StepBits c /\ 2 ^ timeShift c <= 2 ^ 22 /\ 0 < 2 ^ (63 - timeShift c).
Proof.
  destruct Hc. rewrite timeShift_eq.
  split_and!; try (apply Z.pow_pos_nonneg; lia).
  - apply Z.pow_add_r; lia.
  - rewrite <- Z.pow_add_r by lia. f_equal. lia.
  - apply Z.pow_le_mono_r; lia.
Qed.

Lemma make_id_value n :
  parts_ok n -> time_ok (n_time n) ->
  make_id c n = (n_time n - Epoch c) * 2 ^ timeShift c + (n_node n * 2 ^ StepBits c + n_step n) /\
  0 <= n_node n * 2 ^ StepBits c + n_step n < 2 ^ timeShift c.
Proof.
  intros [Hn Hs] Ht. unfold time_ok in Ht. destruct pow_split as (E1 & E2 & P1 & P2 & P3 & P4). pose proof Hc as [? ? ? ?].
  assert (n_node n * 2 ^ StepBits c + n_step n < 2 ^ timeShift c) as Hlow by (rewrite E1; nia).
  assert (0 <= n_node n * 2 ^ StepBits c + n_step n) as Hlow0 by nia.
  split; [|lia].
  assert (2 ^ (63 - timeShift c) <= 2 ^ 63) as P5 by (apply Z.pow_le_mono_r; rewrite ?timeShift_eq; lia).
  unfold make_id.
  rewrite (int64_small (n_time n - Epoch c)) by (unfold in_int64, min_int64, max_int64; lia).
  rewrite (int64_small (Z.shiftl (n_time n - Epoch c) _)).
  2:{ rewrite Z.shiftl_mul_pow2 by (rewrite timeShift_eq; lia). unfold in_int64, min_int64, max_int64. nia. }
  unfold nodeShift. rewrite (int64_small (Z.shiftl (n_node n) _)).
  2:{ rewrite Z.shiftl_mul_pow2 by lia. unfold in_int64, min_int64, max_int64. nia. }
  rewrite <- Z.lor_assoc, (lor_shiftl_add (n_node n)) by lia.
  apply lor_shiftl_add; [rewrite timeShift_eq; lia|lia].
Qed.

(** The parts come back. *)
Lemma parts_of_id n :
  parts_ok n -> time_ok (n_time n) -> n_time n <= max_int64 ->
  0 <= make_id c n < 2 ^ 63 /\
  ID_Time c (make_id c n) = n_time n /\ ID_Node c (make_id c n) = n_node n /\
  ID_Step c (make_id c n) = n_step n.
Proof.
  intros Hp Ht Hm. destruct (make_id_value n Hp Ht) as [-> Hlow]. destruct Hp as [Hn Hs]. unfold time_ok in Ht.
  destruct pow_split as (E1 & E2 & P1 & P2 & P3 & P4). pose proof Hc as [? ? ? ?].
  set (t := n_time n - Epoch c) in *.
  split_and!.
  - nia.
  - nia.
  - unfold ID_Time. rewrite Z.shiftr_div_pow2 by (rewrite timeShift_eq; lia).
    rewrite Z.div_add_l, Z.div_small by lia. rewrite Z.add_0_r. unfold t.
    rewrite int64_small; [lia|]. unfold in_int64, min_int64. lia.
  - unfold ID_Node, nodeMask, nodeShift. rewrite nodeMax_eq.
    rewrite int64_small.
    2:{ rewrite Z.shiftl_mul_pow2 by lia. unfold in_int64, min_int64, max_int64. nia. }
    rewrite Z.shiftr_land, Z.shiftr_shiftl_l, Z.sub_diag, Z.shiftl_0_r by lia.
    replace (2 ^ NodeBits c - 1) with (Z.ones (NodeBits c)) by (rewrite Z.ones_equiv; lia).
    rewrite Z.land_ones, Z.shiftr_div_pow2 by lia. rewrite E1.
    replace (t * (2 ^ NodeBits c * 2 ^ StepBits c) + (n_node n * 2 ^ StepBits c + n_step n))
      with ((t * 2 ^ NodeBits c + n_node n) * 2 ^ StepBits c + n_step n) by ring.
    rewrite Z.div_add_l, (Z.div_small (n_step n)), Z.add_0_r by lia.
    rewrite Z.add_comm, Z.mod_add, Z.mod_small by lia. done.
  - unfold ID_Step. rewrite stepMask_eq.
    replace (2 ^ StepBits c - 1) with (Z.ones (StepBits c)) by (rewrite Z.ones_equiv; lia).
    rewrite Z.land_ones by lia. rewrite E1.
    replace (t * (2 ^ NodeBits c * 2 ^ StepBits c) + (n_node n * 2 ^ StepBits c + n_step n))
      with (n_step n + (t * 2 ^ NodeBits c + n_node n) * 2 ^ StepBits c) by ring.
    rewrite Z.mod_add, Z.mod_small by lia. done.
Qed.
End Config.

(** ** A node's history *)

(** The clock may be set back between two calls, but not within one, and a sleep
    of some milliseconds is at least that long. *)
Definition sleeps (n : Node) (rs : list (Z * Z)) : Prop :=
  match rs with
  | r1 :: r2 :: r3 :: _ =>
      GetNow r1 < n_time n ->
      (n_time n <= GetNow r2 -> GetNow r2 <= GetNow r3) /\
      (GetNow r2 < n_time n -> GetNow r2 + (n_time n - GetNow r2 + 1) <= GetNow r3)
  | _ => True
  end.

Definition later (n m : Node) : Prop :=
  n_time n < n_time m \/ (n_time n = n_time m /\ n_step n < n_step m).

Lemma later_trans n m k : later n m -> later m k -> later n k.
Proof. unfold later. lia. Qed.

Lemma spin_spec t now rs now' rs' :
  spin t now rs = Some (now', rs') -> t < now' /\ (now' = now \/ exists r, r ∈ rs /\ now' = GetNow r).
Proof.
  revert now. induction rs as [|r rs IH]; intros now; cbn [spin]; destruct (now <=? t) eqn:E; z_bools; try done.
  - intros [= <- <-]. split; [lia|by left].
  - intros H. apply IH in H as [H1 [->|(r' & Hr & ->)]]; (split; [done|right]); eexists; (split; [|done]); set_solver.
  - intros [= <- <-]. split; [lia|by left].
Qed.

Lemma spin_total t now rs :
  (exists r, r ∈ rs /\ t < GetNow r) -> exists x, spin t now rs = Some x.
Proof.
  revert now. induction rs as [|r rs IH]; intros now (r' & Hr & Hlt); [set_solver|].
  cbn [spin]. destruct (now <=? t); [|eauto]. apply elem_of_cons in Hr as [->|Hr]; [|eauto].
  destruct rs; cbn [spin]; destruct (GetNow r <=? t) eqn:E; z_bools; try lia; eauto.
Qed.

Lemma Generate_cases c n rs id n' rs' :
  config_ok c -> parts_ok c n -> sleeps n rs -> Generate c n rs = Some (id, n', rs') ->
  id = make_id c n' /\ parts_ok c n' /\ n_node n' = n_node n /\ later n n' /\
  exists r, r ∈ rs /\ n_time n' = GetNow r.
Proof.
  intros Hc [Hn Hs] Hsl H. destruct (pow_split c Hc) as (_ & _ & P1 & P2 & _). pose proof Hc as [? ? ? ?].
  destruct rs as [|r rs]; [done|]. cbn [Generate] in H.
  assert (exists now rs1, (if GetNow r <? n_time n then GetValidNow n rs else Some (GetNow r, rs)) = Some (now, rs1)
    /\ n_time n <= now /\ (exists x, x ∈ r :: rs /\ now = GetNow x) /\ (forall x, x ∈ rs1 -> x ∈ r :: rs)) as (now & rs1 & E & Hle & Hx & Hsub).
  { destruct (GetNow r <? n_time n) eqn:E; z_bools.
    - destruct rs as [|r2 [|r3 rs]]; try done. cbn in *. exists (GetNow r3), rs. split; [done|].
      destruct (Hsl E) as [H1 H2]. split; [destruct (Z.lt_ge_cases (GetNow r2) (n_time n)); lia|].
      split; [exists r3; split; [set_solver|done]|set_solver].
    - exists (GetNow r), rs. split_and!; [done|lia|exists r; split; [set_solver|done]|set_solver]. }
  rewrite E in H. cbn in H. destruct (n_time n =? now) eqn:Et; z_bools; cbn in H.
  - subst now. destruct (_ =? 0) eqn:Ez.
    + destruct (spin (n_time n) (n_time n) rs1) as [[now2 rs2]|] eqn:Esp; cbn in H; [|done]. injection H as <- <- <-.
      apply spin_spec in Esp as [Hlt Hr]. z_bools. rewrite Ez. split_and!; [done|split; cbn; lia|done|left; cbn; lia|].
      destruct Hr as [->|(x & Hx' & ->)]; [lia|]. exists x. split; [auto|done].
    + injection H as <- <- <-. z_bools. rewrite (stepMask_eq c Hc) in *.
      replace (2 ^ StepBits c - 1) with (Z.ones (StepBits c)) in * by (rewrite Z.ones_equiv; lia).
      rewrite Z.land_ones in * by lia.
      assert (2 ^ StepBits c <= 2 ^ 22) by (apply Z.pow_le_mono_r; lia).
      rewrite int64_small in * by (unfold in_int64, min_int64, max_int64; lia).
      assert (n_step n + 1 <> 2 ^ StepBits c) by (intros E1; rewrite E1, Z.mod_same in Ez by lia; lia).
      rewrite Z.mod_small in * by lia.
      split_and!; [done|split; cbn; lia|done|right; cbn; lia|]. destruct Hx as (x & ? & ->). eauto.
  - injection H as <- <- <-. split_and!; [done|split; cbn; lia|done|left; cbn; lia|].
    destruct Hx as (x & ? & ->). eauto.
Qed.

(** The calls of [Generate], one after the other; each comes with its readings. *)
Fixpoint generate_all (c : config) (n : Node) (calls : list (list (Z * Z))) : option (list Z) :=
  match calls with
  | [] => Some []
  | rs :: calls =>
      '(id, n', _) ← Generate c n rs;
      ids ← generate_all c n' calls;
      Some (id :: ids)
  end.

Fixpoint sleeps_all (c : config) (n : Node) (calls : list (list (Z * Z))) : Prop :=
  match calls with
  | [] => True
  | rs :: calls =>
      sleeps n rs /\ match Generate c n rs with
                     | Some (_, n', _) => sleeps_all c n' calls
                     | None => True
                     end
  end.

Definition readings_ok (c : config) (calls : list (list (Z * Z))) : Prop :=
  Forall (Forall (fun r => time_ok c (GetNow r))) calls.

Lemma GetNow_int64 r : GetNow r <= max_int64.
Proof.
  unfold GetNow. pose proof (int64_range (int64 (r.1 * 1000000000) + r.2)) as [_ H].
  set (x := int64 _) in *. unfold max_int64 in *. destruct (Z.lt_ge_cases x 0).
  - pose proof (Z.quot_opp_l (- x) 1000000 ltac:(lia)) as E. rewrite Z.opp_involutive in E. rewrite E.
    pose proof (Z.quot_pos (- x) 1000000). lia.
  - rewrite Z.quot_div_nonneg by lia. pose proof (Z.div_le_upper_bound x 1000000 x). lia.
Qed.

Lemma make_id_later c n m :
  config_ok c -> parts_ok c n -> parts_ok c m -> time_ok c (n_time n) -> time_ok c (n_time m) ->
  n_node n = n_node m -> later n m -> make_id c n < make_id c m.
Proof.
  intros Hc Hn Hm Htn Htm E Hl. destruct (make_id_value c Hc n Hn Htn) as [-> H1].
  destruct (make_id_value c Hc m Hm Htm) as [-> H2]. rewrite E in *. unfold later in Hl.
  set (p := 2 ^ timeShift c) in *. nia.
Qed.

(** C8: the identifiers a node generates are strictly increasing, so no two are
    equal, fit in 63 bits, and carry the node's number: when a second node number
    is used they differ from that node's identifiers as well.  The clock may be set
    back between calls. *)
Theorem Generate_increasing c node n calls ids :
  config_ok c -> NewNode c node = Ok n -> readings_ok c calls -> sleeps_all c n calls ->
  generate_all c n calls = Some ids ->
  StronglySorted Z.lt ids /\
  Forall (fun id => 0 <= id < 2 ^ 63 /\ ID_Node c id = node /\ time_ok c (ID_Time c id)) ids.
Proof.
  intros Hc Hnew Hrd Hsl Hg.
  assert (parts_ok c n /\ n_node n = node) as [Hp Hnode].
  { unfold NewNode in Hnew. destruct ((node <? 0) || (nodeMax c <? node)) eqn:E; [done|]. injection Hnew as <-.
    z_bools. rewrite (nodeMax_eq c Hc) in *. destruct (pow_split c Hc) as (_ & _ & _ & P2 & _).
    unfold parts_ok. simpl. split; [lia|done]. }
  clear Hnew.
  assert (StronglySorted Z.lt ids /\
    Forall (fun id => exists m, id = make_id c m /\ parts_ok c m /\ time_ok c (n_time m) /\
      n_time m <= max_int64 /\ n_node m = n_node n /\ later n m) ids) as [Hs Hf].
  2:{ split; [done|]. eapply Forall_impl; [exact Hf|]. intros id (m & -> & Hm & Ht & Hi & Em & _).
      destruct (parts_of_id c Hc m Hm Ht Hi) as (H1 & H2 & H3 & _). rewrite H2, H3. split_and!; try done; congruence || lia. }
  clear Hnode. revert n ids Hp Hsl Hg. induction calls as [|rs calls IH]; intros n ids Hp Hsl Hg.
  { injection Hg as <-. split; constructor. }
  cbn in Hg, Hsl. destruct Hsl as [Hs1 Hs2]. inversion Hrd as [|? ? Hr1 Hr2]; subst.
  destruct (Generate c n rs) as [[[id n'] rs']|] eqn:E; cbn in Hg; [|done].
  destruct (generate_all c n' calls) as [ids'|] eqn:E'; cbn in Hg; [|done]. injection Hg as <-.
  destruct (Generate_cases _ _ _ _ _ _ Hc Hp Hs1 E) as (-> & Hp' & En & Hl & r & Hr & Et).
  assert (time_ok c (n_time n')) as Ht by (rewrite Et; rewrite Forall_forall in Hr1; by apply Hr1).
  assert (n_time n' <= max_int64) as Hi by (rewrite Et; apply GetNow_int64).
  destruct (IH Hr2 n' ids' Hp' Hs2 E') as [Hsort Hf]. split.
  - constructor; [done|]. eapply Forall_impl; [exact Hf|]. intros id (m & -> & Hm & Htm & _ & Em & Hlm).
    by apply make_id_later.
  - constructor; [by exists n'|]. eapply Forall_impl; [exact Hf|]. intros id (m & -> & Hm & Htm & Him & Em & Hlm).
    exists m. split_and!; try done; [congruence|by eapply later_trans].
Qed.

(** C36: a call of [Generate] returns as soon as some reading after the first three
    is later than the node's time; only a clock that stands still for ever keeps
    it waiting. *)
Theorem Generate_returns c n r1 r2 r3 rs :
  (exists r, r ∈ rs /\ n_time n < GetNow r) ->
  exists id n' rs', Generate c n (r1 :: r2 :: r3 :: rs) = Some (id, n', rs').
Proof.
  intros (r & Hr & Hlt). cbn [Generate].
  assert (exists now rs1, (if GetNow r1 <? n_time n then GetValidNow n (r2 :: r3 :: rs) else Some (GetNow r1, r2 :: r3 :: rs))
     = Some (now, rs1) /\ r ∈ rs1) as (now & rs1 & -> & Hr1).
  { destruct (GetNow r1 <? n_time n); cbn; eexists; eexists; (split; [done|]); set_solver. }
  cbn. destruct (n_time n =? now); cbn; [|eauto]. destruct (_ =? 0); cbn; [|eauto].
  destruct (spin_total (n_time n) now rs1) as [[x y] ->]; [by exists r|]. cbn. eauto.
Qed.

(** ** Text forms and back *)

Lemma to_digits_acc k b n acc : to_digits k b n acc = (to_digits k b n [] ++ acc)%list.
Proof.
  revert n acc. induction k as [|k IH]; intros n acc; cbn [to_digits]; [done|].
  destruct (n <? b); [done|]. rewrite IH, (IH _ [_]), <- app_assoc. done.
Qed.

(** A map of letters and the table that decodes it. *)
Record alphabet (base : Z) (m : string) (t : list Z) (ch : Z -> ascii) : Prop := {
  alpha_base : 2 <= base <= 255;
  alpha_enc : forall d, 0 <= d < base -> index_str m d = Ok (ch d);
  alpha_dec : forall d, 0 <= d < base -> nth (Z.to_nat (byte_val (ch d))) t 0 = d
}.

Section Alphabet.
Context (base : Z) (m : string) (t : list Z) (ch : Z -> ascii) (H : alphabet base m t ch).

Lemma encode_loop_digits k f b :
  0 <= f < base ^ Z.of_nat k ->
  encode_loop (S k) base m f b = Ok (b ++ rev (map ch (to_digits (S k) base f [])))%list.
Proof.
  destruct H as [Hb He _]. revert f b. induction k as [|k IH]; intros f b Hf.
  { rewrite Z.pow_0_r in Hf. assert (f = 0) as -> by lia. cbn [encode_loop to_digits].
    destruct (base <=? 0) eqn:E, (0 <? base) eqn:E'; z_bools; try lia. by rewrite He by lia. }
  rewrite (eq_refl : encode_loop (S (S k)) base m f b =
    if base <=? f then let* c := index_str m (Z.rem f base) in encode_loop (S k) base m (Z.quot f base) (b ++ [c])%list
    else let* c := index_str m f in Ok (b ++ [c])%list).
  rewrite (eq_refl : to_digits (S (S k)) base f [] =
    if f <? base then [f] else to_digits (S k) base (f / base) [f mod base]). destruct (base <=? f) eqn:E; z_bools.
  - destruct (f <? base) eqn:E'; z_bools; [lia|]. rewrite Z.rem_mod_nonneg, Z.quot_div_nonneg by lia.
    pose proof (Z.mod_pos_bound f base ltac:(lia)). rewrite He by lia. cbn [bind_outcome].
    rewrite IH.
    + rewrite (to_digits_acc (S k) base (f / base) [f mod base]), map_app, rev_app_distr, <- app_assoc. done.
    + rewrite Nat2Z.inj_succ, Z.pow_succ_r in Hf by lia. split; [by apply Z.div_pos; lia|].
      apply Z.div_lt_upper_bound; lia.
  - destruct (f <? base) eqn:E'; z_bools; [|lia]. rewrite He by lia. done.
Qed.

Lemma encode_digits f :
  0 <= f < 2 ^ 63 ->
  encode base m f = Ok (String.string_of_list_ascii (map ch (to_digits 64 base f []))).
Proof.
  intros Hf. destruct H as [Hb He _]. unfold encode. destruct (f <? base) eqn:E; z_bools.
  - rewrite He by lia. cbn [bind_outcome to_digits]. destruct (f <? base) eqn:E'; z_bools; [done|lia].
  - rewrite encode_loop_digits.
    + cbn [bind_outcome app]. by rewrite rev_involutive.
    + split; [lia|]. eapply Z.lt_le_trans; [apply Hf|]. change (Z.of_nat 63) with 63.
      apply Z.pow_le_mono_l; lia.
Qed.

Lemma decode_digits err id l :
  0 <= id -> Forall (fun d => 0 <= d < base) l ->
  id * base ^ Z.of_nat (length l) + from_digits base l < 2 ^ 63 ->
  decode_loop base t err id (String.string_of_list_ascii (map ch l))
  = Ok (id * base ^ Z.of_nat (length l) + from_digits base l).
Proof.
  destruct H as [Hb _ Hd]. intros Hid Hl. revert id Hid. induction Hl as [|d l Hdr Hl IH]; intros id Hid Hlt.
  - simpl. f_equal. unfold from_digits. simpl. lia.
  - cbn [map String.string_of_list_ascii decode_loop]. rewrite Hd by done.
    destruct (d =? 255) eqn:E; z_bools; [lia|].
    assert (0 <= from_digits base l) as Hp.
    { apply from_digits_nonneg; [lia|]. eapply Forall_impl; [exact Hl|]. simpl. lia. }
    rewrite from_digits_cons in *. cbn [length] in *. rewrite Nat2Z.inj_succ, Z.pow_succ_r in * by lia.
    assert (1 <= base ^ Z.of_nat (length l)) by (apply (Z.pow_le_mono_r base 0); lia).
    rewrite int64_small by (unfold in_int64, min_int64, max_int64; nia).
    rewrite IH; [f_equal; ring|nia|]. eapply Z.le_lt_trans; [|exact Hlt]. nia.
Qed.

Lemma encode_decode err f :
  0 <= f < 2 ^ 63 -> exists s, encode base m f = Ok s /\ decode_loop base t err 0 s = Ok f.
Proof.
  intros Hf. eexists. split; [by apply encode_digits|]. pose proof H as [Hb _ _].
  assert (from_digits base (to_digits 64 base f []) = f) as E.
  { rewrite to_digits_value by lia. unfold from_digits. simpl. lia. }
  rewrite decode_digits; rewrite ?E; [done|lia| |lia].
  apply to_digits_range; [lia| |done]. split; [lia|]. eapply Z.lt_le_trans; [apply Hf|].
  change (Z.of_nat 64 + 1) with 65.
  transitivity (2 ^ 65); [apply Z.pow_le_mono_r; lia|apply Z.pow_le_mono_l; lia].
Qed.
End Alphabet.

Definition letter (m : string) (d : Z) : ascii := default "0"%char (String.get (Z.to_nat d) m).

Definition alphabet_check (base : Z) (m : string) (t : list Z) : bool :=
  forallb (fun d => match index_str m d with
                    | Ok c => Ascii.eqb c (letter m d) && (nth (Z.to_nat (byte_val c)) t 0 =? d)
                    | _ => false
                    end) (zrange 0 (Z.to_nat base)).

Lemma alphabet_checked base m t :
  2 <= base <= 255 -> alphabet_check base m t = true -> alphabet base m t (letter m).
Proof.
  intros Hb Hcheck.
  assert (forall d, 0 <= d < base -> index_str m d = Ok (letter m d) /\ nth (Z.to_nat (byte_val (letter m d))) t 0 = d) as Hd.
  { intros d Hd. pose proof (forallb_zrange _ 0 (Z.to_nat base) d Hcheck ltac:(lia)) as Hx. cbv beta in Hx.
    destruct (index_str m d) as [c| |]; try done. apply andb_prop in Hx as [Hc Hn]. z_bools.
    apply Ascii.eqb_eq in Hc as ->. done. }
  split; [done|apply Hd|apply Hd].
Qed.

(** C37: [ParseBase32] and [ParseBase58] read back what [Base32] and [Base58] write
    of every identifier that is not negative; on a negative one they panic. *)
Theorem base_round_trip f :
  in_int64 f ->
  if f <? 0 then is_panic (Base32 f) = true /\ is_panic (Base58 f) = true
  else exists s32 s58, Base32 f = Ok s32 /\ ParseBase32 s32 = Ok f /\ Base58 f = Ok s58 /\ ParseBase58 s58 = Ok f.
Proof.
  intros Hf. unfold in_int64, max_int64 in Hf. destruct (f <? 0) eqn:E; z_bools.
  - unfold Base32, Base58, encode, index_str.
    destruct (f <? 32) eqn:E1, (f <? 58) eqn:E2, (f <? 0) eqn:E3; z_bools; try lia. done.
  - destruct (encode_decode 32 encodeBase32Map decodeBase32Map _
      (alphabet_checked 32 encodeBase32Map decodeBase32Map ltac:(lia) ltac:(vm_compute; reflexivity)) "invalid base32" f) as (s & E1 & E2); [lia|].
    destruct (encode_decode 58 encodeBase58Map decodeBase58Map _
      (alphabet_checked 58 encodeBase58Map decodeBase58Map ltac:(lia) ltac:(vm_compute; reflexivity)) "invalid base58" f) as (s' & E3 & E4); [lia|].
    by exists s, s'.
Qed.

Lemma base_round_trip_witness :
  exists s32 s58, Base32 1234567890123 = Ok s32 /\ ParseBase32 s32 = Ok 1234567890123 /\
    Base58 1234567890123 = Ok s58 /\ ParseBase58 s58 = Ok 1234567890123.
Proof. apply (base_round_trip 1234567890123). vm_compute. split; discriminate. Defined.

(** Letters outside the alphabet are refused only when their code is below the
    length of the alphabet: the others count as zero. *)
Example ParseBase58_accepts : ParseBase58 "lIO" = Ok 0 /\ ParseBase58 "0" = Err "invalid base58"%string.
Proof. split; vm_compute; reflexivity. Qed.

Lemma take_prefix c s : has_prefix (String c s) (String c "") = true.
Proof. unfold has_prefix. simpl. destruct (ascii_dec c c); [by destruct s|done]. Qed.

Lemma rev_str_snoc s c : rev_str (s +:+ String c "") = String c (rev_str s).
Proof. unfold rev_str. by rewrite rev_append_str_app. Qed.

(** An identifier survives the JSON encoding; text without both quotes is
    refused. *)
Theorem json_round_trip f : in_int64 f -> UnmarshalJSON (MarshalJSON f) = Ok f.
Proof.
  intros Hf. unfold UnmarshalJSON, MarshalJSON.
  set (b := String quote (format_int f +:+ String quote "")).
  assert (slen b = slen (format_int f) + 2) as Hlen.
  { unfold b. change (String quote (format_int f +:+ String quote "")) with (String quote "" +:+ (format_int f +:+ String quote "")).
    rewrite !slen_app. change (slen (String quote "")) with 1. lia. }
  assert (1 <= slen (format_int f)) as Hpos.
  { unfold format_int. destruct (f <? 0); [unfold slen; simpl; lia|].
    unfold format_nat. destruct (to_digits_cons (digit_fuel f) 10 f []) as (d & l & ->). unfold slen. simpl. lia. }
  rewrite Hlen. destruct (slen (format_int f) + 2 <? 3) eqn:E; z_bools; [lia|].
  unfold b at 1. rewrite take_prefix.
  assert (has_suffix b (String quote "") = true) as ->.
  { unfold has_suffix, b. change (String quote (format_int f +:+ String quote "")) with (String quote "" +:+ format_int f +:+ String quote "").
    rewrite str_app_assoc, rev_str_snoc. apply take_prefix. }
  cbn [negb orb]. unfold slice. rewrite Hlen.
  replace ((0 <=? 1) && (1 <=? slen (format_int f) + 2 - 1) && (slen (format_int f) + 2 - 1 <=? slen (format_int f) + 2)) with true
    by (symmetry; rewrite !andb_true_iff, !Z.leb_le; lia).
  cbn [bind_outcome]. replace (Z.to_nat (slen (format_int f) + 2 - 1 - 1)) with (String.length (format_int f)) by (unfold slen; lia).
  change (Z.to_nat 1) with 1%nat. unfold b. cbn [String.substring]. rewrite substring_app.
  rewrite parse_int_format; [done|lia|]. unfold in_int64, min_int64, max_int64 in Hf. simpl. lia.
Qed.

Lemma json_round_trip_witness : UnmarshalJSON (MarshalJSON (-42)) = Ok (-42).
Proof. apply (json_round_trip (-42)). vm_compute. split; discriminate. Defined.

(** A node whose clock is set back by three milliseconds between two calls. *)
Definition demo_calls : list (list (Z * Z)) :=
  let at_ms m := (1700000000, m * 1000000) in
  [[at_ms 5]; [at_ms 5]; [at_ms 2; at_ms 2; at_ms 6]; [at_ms 6]].

Lemma Generate_increasing_witness :
  exists ids, generate_all default_config (mk_node 0 7 0) demo_calls = Some ids /\
  StronglySorted Z.lt ids /\ length ids = 4%nat.
Proof.
  eexists. split; [vm_compute; reflexivity|]. split; [|reflexivity].
  apply (Generate_increasing default_config 7 (mk_node 0 7 0) demo_calls).
  - exact default_config_ok.
  - vm_compute. reflexivity.
  - unfold demo_calls. repeat constructor; vm_compute; discriminate || reflexivity.
  - vm_compute. repeat split; discriminate.
  - vm_compute. reflexivity.
Defined.

Lemma Generate_returns_witness :
  exists id n' rs', Generate default_config (mk_node 1700000000005 7 4095)
    ((1700000000, 5000000) :: (1700000000, 5000000) :: (1700000000, 5000000) :: [(1700000000, 6000000)]) = Some (id, n', rs').
Proof.
  apply (Generate_returns default_config (mk_node 1700000000005 7 4095)).
  exists (1700000000, 6000000). split; [by left|reflexivity].
Defined.
