(* ===== verification/TimeUtils.v ===== *)
(** * Times as text and periods of the calendar ([src/utils/time.go])

    A time is a number of milliseconds since 1970.  Texts have one of the two
    layouts the package defines, [Time_fmt] and [date_fmt]; [Format] and
    [ParseInLocation] are package [time]'s on these layouts.  The location
    [Cst_sh] and the current time are arguments. *)

From Stdlib Require Import Ascii.
From S2P Require Import Prelude GoStrings GoTime.
Import Calendar.

#[local] Open Scope string_scope.
#[local] Open Scope Z_scope.

(** Seconds from the zero time to 1970. *)
Definition unix_epoch : Z := 62135596800.
Definition milli : Z := 1000000.

Definition OneDay : Z := 86400000.
Definition OneWeek : Z := OneDay * 7.

Inductive layout := Time_fmt | date_fmt.

(** ** Formatting *)

(** A number padded with zeros to a width. *)
Fixpoint pad (w : nat) (n : Z) : string :=
  match w with
  | O => ""
  | S w => pad w (n / 10) +:+ String (digit_char (n mod 10)) ""
  end.

(** The year, with four digits at least. *)
Definition year_text (y : Z) : string :=
  if y <? 0 then "-" +:+ (if - y <? 10000 then pad 4 (- y) else format_nat (- y))
  else if y <? 10000 then pad 4 y else format_nat y.

Section TimeUtils.
Context {lz : local_zone}.

Definition Unix (sec nsec : Z) : time :=
  mk_time ((sec + unix_epoch) * nanos + nsec) Local.

Definition UnixMilli (t : time) : Z :=
  int64 (int64 ((t_ns t / nanos - unix_epoch) * 1000) + t_nanosecond t / milli).

Definition Int2Time (t : Z) : time := Unix 0 (int64 (t * milli)).

Definition date_text (t : time) : string :=
  year_text (t_year t) +:+ "-" +:+ pad 2 (t_month t) +:+ "-" +:+ pad 2 (t_mday t).

Definition clock_text (t : time) : string :=
  pad 2 (t_hour t) +:+ ":" +:+ pad 2 (t_minute t) +:+ ":" +:+ pad 2 (t_second t) +:+ "." +:+
  pad 3 (t_nanosecond t / milli).

Definition Format (t : time) (l : layout) : string :=
  match l with
  | Time_fmt => date_text t +:+ " " +:+ clock_text t
  | date_fmt => date_text t
  end.

Definition Time2FormatStr (Cst_sh : location) (t : Z) (local : option location) (fmt : layout) : string :=
  match local with
  | None => Format (t_in (Int2Time t) Cst_sh) fmt
  | Some l => Format (t_in (Int2Time t) l) fmt
  end.

Definition Time2Str (Cst_sh : location) (t : Z) : string := Format (t_in (Int2Time t) Cst_sh) Time_fmt.
Definition Time2DateStr (Cst_sh : location) (t : Z) : string := Format (t_in (Int2Time t) Cst_sh) date_fmt.

(** ** Parsing *)

Definition digit_val (c : ascii) : Z := byte_val c - 48.

(** Two digits, or one or two when [fixed] is false. *)
Definition getnum (fixed : bool) (s : string) : option (Z * string) :=
  match s with
  | String a (String b r) =>
      if is_digit a then
        if is_digit b then Some (digit_val a * 10 + digit_val b, r)
        else if fixed then None else Some (digit_val a, String b r)
      else None
  | String a EmptyString => if is_digit a && negb fixed then Some (digit_val a, "") else None
  | EmptyString => None
  end.

(** The given number of digits. *)
Fixpoint getdigits (n : nat) (acc : Z) (s : string) : option (Z * string) :=
  match n, s with
  | O, _ => Some (acc, s)
  | S n, String a r => if is_digit a then getdigits n (acc * 10 + digit_val a) r else None
  | S n, EmptyString => None
  end.

Definition skip (c : ascii) (s : string) : option string :=
  match s with String d r => if Ascii.eqb c d then Some r else None | _ => None end.

Definition in_bounds (lo hi : Z) (p : option (Z * string)) : option (Z * string) :=
  match p with Some (v, r) => if (lo <=? v) && (v <=? hi) then Some (v, r) else None | None => None end.

Definition parse_date (s : string) : option (Z * Z * Z * string) :=
  '(y, s) ← getdigits 4 0 s;
  s ← skip "-" s;
  '(m, s) ← in_bounds 1 12 (getnum true s);
  s ← skip "-" s;
  '(d, s) ← getnum true s;
  Some (y, m, d, s).

Definition parse_clock (s : string) : option (Z * Z * Z * Z * string) :=
  '(h, s) ← in_bounds 0 23 (getnum false s);
  s ← skip ":" s;
  '(mi, s) ← in_bounds 0 59 (getnum true s);
  s ← skip ":" s;
  '(sec, s) ← in_bounds 0 59 (getnum true s);
  s ← (match skip "." s with Some r => Some r | None => skip "," s end);
  '(ms, s) ← getdigits 3 0 s;
  Some (h, mi, sec, ms, s).

(** The day exists in its month. *)
Definition valid_day (y m d : Z) : bool :=
  (1 <=? d) && (d <=? days_before (leap y) (m + 1) - days_before (leap y) m).

Definition ParseInLocation (l : layout) (s : string) (loc : location) : outcome string time :=
  match parse_date s with
  | None => Err "cannot parse"
  | Some (y, m, d, s) =>
      match l with
      | date_fmt =>
          if String.eqb s "" && valid_day y m d then Ok (date y m d 0 0 0 0 loc) else Err "cannot parse"
      | Time_fmt =>
          match (r ← skip " " s; parse_clock r) with
          | Some (h, mi, sec, ms, r) =>
              if String.eqb r "" && valid_day y m d then Ok (date y m d h mi sec (ms * milli) loc)
              else Err "cannot parse"
          | None => Err "cannot parse"
          end
      end
  end.

Definition Str2Time (Cst_sh : location) (s : string) : outcome string Z :=
  let s := if slen s =? 10 then s +:+ " 00:00:00.000" else if slen s =? 19 then s +:+ ".000" else s in
  let* t := ParseInLocation Time_fmt s Cst_sh in Ok (UnixMilli t).

Definition Str2Date (Cst_sh : location) (s : string) : outcome string Z :=
  let* t := ParseInLocation date_fmt s Cst_sh in Ok (UnixMilli t).

Definition Str2FormatDate (s : string) (fmt : layout) (local : location) : outcome string Z :=
  let* t := ParseInLocation fmt s local in Ok (UnixMilli t).

(** ** Periods around the current time [now] *)

Definition GetMonthFirstAndLast (now : time) : Z * Z :=
  let firstOfMonth := date (t_year now) (t_month now) 1 0 0 0 0 (t_loc now) in
  let lastOfMonth := add_date firstOfMonth 0 1 (-1) in
  (UnixMilli firstOfMonth, int64 (UnixMilli lastOfMonth + OneDay)).

Definition GetAnyMonthFirstAndLast (now : time) (month : Z) : Z * Z :=
  let offset := if (month <? 1) || (12 <? month) then 0 else month - t_month now in
  let firstOfMonth := add_date (date (t_year now) (t_month now) 1 0 0 0 0 (t_loc now)) 0 offset 0 in
  let lastOfMonth := add_date firstOfMonth 0 1 (-1) in
  (UnixMilli firstOfMonth, int64 (UnixMilli lastOfMonth + OneDay)).

Definition midnight (now : time) : time := date (t_year now) (t_month now) (t_mday now) 0 0 0 0 (t_loc now).

Definition GetWeekFirstAndLast (now : time) : Z * Z :=
  let offset := 1 - t_weekday now in
  let offset := if 0 <? offset then -6 else offset in
  let first := UnixMilli (add_date (midnight now) 0 0 offset) in
  (first, int64 (first + OneWeek)).

Definition GetDayFirstAndLast (now : time) : Z * Z :=
  let first := UnixMilli (midnight now) in (first, int64 (first + OneDay)).

(** [x] is brought into 0..30. *)
Definition clamp30 (x : Z) : Z := if x <? 0 then 0 else if 30 <? x then 30 else x.

Definition GetAnyDayFirstAndLast (now : time) (x : Z) : Z * Z :=
  let first := UnixMilli (midnight now) in
  let before := clamp30 x * OneDay in
  (int64 (first - before), int64 (int64 (first + OneDay) - before)).

Definition GetInDayFirstAndLast (now : time) (x : Z) : Z * Z :=
  let first := UnixMilli (midnight now) in
  let before := clamp30 x * OneDay in
  (int64 (first - before), int64 (first + OneDay)).

Definition GetFmtDate (t : Z) : Z := UnixMilli (midnight (Int2Time t)).
End TimeUtils.

(** ** A text reads back *)

Lemma digit_val_char d : 0 <= d < 10 -> digit_val (digit_char d) = d.
Proof. intros H. unfold digit_val. rewrite digit_char_val by done. lia. Qed.

Lemma slen_pad w n : slen (pad w n) = Z.of_nat w.
Proof.
  revert n. induction w as [|w IH]; intros n; [done|]. cbn [pad]. rewrite slen_app, IH.
  change (slen (String (digit_char (n mod 10)) "")) with 1. lia.
Qed.

Lemma getdigits_pad w k acc n r :
  0 <= n < 10 ^ Z.of_nat w ->
  getdigits (w + k) acc (pad w n +:+ r) = getdigits k (acc * 10 ^ Z.of_nat w + n) r.
Proof.
  revert k acc n r. induction w as [|w IH]; intros k acc n r Hn.
  - rewrite Z.pow_0_r in *. cbn [pad Nat.add]. change ("" +:+ r) with r. f_equal. lia.
  - rewrite Nat2Z.inj_succ, Z.pow_succ_r in * by lia. cbn [pad]. rewrite <- str_app_assoc.
    change (String (digit_char (n mod 10)) "" +:+ r) with (String (digit_char (n mod 10)) r).
    replace (S w + k)%nat with (w + S k)%nat by lia.
    pose proof (Z.mod_pos_bound n 10 ltac:(lia)). rewrite IH.
    + cbn [getdigits]. rewrite digit_char_is_digit, digit_val_char by done. f_equal.
      pose proof (Z.div_mod n 10 ltac:(lia)). lia.
    + split; [apply Z.div_pos; lia|]. apply Z.div_lt_upper_bound; lia.
Qed.

Lemma getdigits_exact w n r : 0 <= n < 10 ^ Z.of_nat w -> getdigits w 0 (pad w n +:+ r) = Some (n, r).
Proof. intros Hn. pose proof (getdigits_pad w 0 0 n r Hn) as E. rewrite Nat.add_0_r in E. rewrite E. by destruct r. Qed.

Lemma getnum_pad fixed n r : 0 <= n < 100 -> getnum fixed (pad 2 n +:+ r) = Some (n, r).
Proof.
  intros Hn. change (pad 2 n +:+ r) with (String (digit_char (n / 10 mod 10)) (String (digit_char (n mod 10)) r)).
  pose proof (Z.mod_pos_bound n 10 ltac:(lia)). pose proof (Z.mod_pos_bound (n / 10) 10 ltac:(lia)).
  unfold getnum. rewrite !digit_char_is_digit, !digit_val_char by done. f_equal. f_equal.
  rewrite (Z.mod_small (n / 10)); [pose proof (Z.div_mod n 10 ltac:(lia)); lia|].
  split; [apply Z.div_pos; lia|apply Z.div_lt_upper_bound; lia].
Qed.

Lemma in_bounds_ok lo hi v r : lo <= v <= hi -> in_bounds lo hi (Some (v, r)) = Some (v, r).
Proof. intros H. unfold in_bounds. by replace ((lo <=? v) && (v <=? hi)) with true by (symmetry; rewrite andb_true_iff, !Z.leb_le; lia). Qed.

Lemma skip_ok c r : skip c (String c "" +:+ r) = Some r.
Proof. change (String c "" +:+ r) with (String c r). unfold skip. by rewrite Ascii.eqb_refl. Qed.

Section RoundTrip.
Context {lz : local_zone} (sh : location) (o : Z) (Hsh : fixed_offset sh o).

Lemma parse_date_text t r :
  0 <= t_year t < 10000 -> parse_date (date_text t +:+ r) = Some (t_year t, t_month t, t_mday t, r).
Proof.
  intros Hy. unfold date_text, year_text, parse_date.
  destruct (t_year t <? 0) eqn:E; z_bools; [lia|]. destruct (t_year t <? 10000) eqn:E'; z_bools; [|lia].
  assert (1 <= t_month t <= 12) as Hm by apply month_of_range.
  assert (1 <= t_mday t <= 31) as Hd by apply mday_range.
  rewrite <- !str_app_assoc, getdigits_exact by done. cbn [mbind option_bind].
  rewrite skip_ok. cbn [mbind option_bind]. rewrite getnum_pad, in_bounds_ok by lia. cbn [mbind option_bind].
  rewrite skip_ok. cbn [mbind option_bind]. rewrite getnum_pad by lia. done.
Qed.

Lemma parse_clock_text t : parse_clock (clock_text t) =
  Some (t_hour t, t_minute t, t_second t, t_nanosecond t / milli, "").
Proof.
  pose proof (hour_range t). pose proof (minute_range t). pose proof (second_range t).
  assert (0 <= t_nanosecond t / milli < 10 ^ Z.of_nat 3) as Hms.
  { unfold t_nanosecond, milli, nanos. pose proof (Z.mod_pos_bound (t_ns t) 1000000000 ltac:(lia)).
    split; [apply Z.div_pos; lia|apply Z.div_lt_upper_bound; lia]. }
  unfold clock_text, parse_clock. rewrite getnum_pad, in_bounds_ok by lia. cbn [mbind option_bind].
  rewrite skip_ok. cbn [mbind option_bind]. rewrite getnum_pad, in_bounds_ok by lia. cbn [mbind option_bind].
  rewrite skip_ok. cbn [mbind option_bind]. rewrite getnum_pad, in_bounds_ok by lia. cbn [mbind option_bind].
  rewrite skip_ok. cbn [mbind option_bind].
  rewrite <- (str_app_nil_r (pad 3 _)), getdigits_exact by done. done.
Qed.

Lemma valid_day_civil t : valid_day (t_year t) (t_month t) (t_mday t) = true.
Proof.
  unfold valid_day, t_year, t_month. apply andb_true_iff. rewrite !Z.leb_le.
  pose proof (mday_range (t_day t)) as Hd. unfold t_mday. split; [lia|].
  pose proof (month_of_yday_spec _ _ (leap_range (year_of (t_day t))) (yday_range (t_day t))) as [_ H].
  unfold mday_of, month_of in *. cbn zeta in H. lia.
Qed.

Lemma date_of_civil t :
  t_loc t = sh -> t_ns t mod milli = 0 ->
  t_ns (date (t_year t) (t_month t) (t_mday t) (t_hour t) (t_minute t) (t_second t) (t_nanosecond t / milli * milli) sh) = t_ns t.
Proof.
  intros Hl Hms. rewrite (date_fixed _ _ _ _ _ _ _ _ o Hsh).
  assert (days_of (t_year t) (t_month t) (t_mday t) = t_day t) as -> by apply days_of_civil.
  rewrite <- clock_split, (clock_fixed t o) by (by rewrite Hl).
  assert (t_nanosecond t / milli * milli = t_nanosecond t) as ->.
  { unfold t_nanosecond, milli, nanos in *. Z.to_euclidean_division_equations; lia. }
  unfold t_nanosecond, nanos. pose proof (Z.div_mod (t_ns t) 1000000000 ltac:(lia)). lia.
Qed.

Lemma UnixMilli_Int2Time t l : in_int64 (t * milli) -> UnixMilli (t_in (Int2Time t) l) = t.
Proof.
  intros Ht. unfold UnixMilli, Int2Time, Unix, t_nanosecond. cbn [t_in t_ns]. rewrite (int64_small (t * milli)) by done.
  unfold milli, nanos, in_int64, min_int64, max_int64 in *.
  set (x := (0 + unix_epoch) * 1000000000 + t * 1000000).
  assert (x / 1000000000 = unix_epoch + t / 1000) as ->.
  { subst x. rewrite Z.add_0_l, Z.div_add_l by lia. f_equal.
    replace 1000000000 with (1000000 * 1000) by done. rewrite <- Z.div_div, Z.div_mul by lia. done. }
  assert (x mod 1000000000 / 1000000 = t mod 1000) as ->.
  { subst x. replace ((0 + unix_epoch) * 1000000000 + t * 1000000) with ((t + unix_epoch * 1000) * 1000000) by lia.
    replace 1000000000 with (1000 * 1000000) by done. rewrite Z.mul_mod_distr_r, Z.div_mul, Z.mod_add; lia. }
  pose proof (Z.div_mod t 1000 ltac:(lia)). pose proof (Z.mod_pos_bound t 1000 ltac:(lia)).
  replace ((unix_epoch + t / 1000 - unix_epoch) * 1000) with (1000 * (t / 1000)) by lia.
  rewrite (int64_small (1000 * (t / 1000))) by (unfold in_int64, min_int64, max_int64; lia).
  rewrite int64_small by (unfold in_int64, min_int64, max_int64; lia). lia.
Qed.

(** The text of a time of the years 0 to 9999 reads back as that time. *)
Lemma ParseInLocation_Format t :
  t_loc t = sh -> t_ns t mod milli = 0 -> 0 <= t_year t < 10000 ->
  exists u, ParseInLocation Time_fmt (Format t Time_fmt) sh = Ok u /\ t_ns u = t_ns t.
Proof.
  intros Hl Hms Hy. eexists. split; [|exact (date_of_civil t Hl Hms)].
  unfold ParseInLocation, Format. rewrite parse_date_text by done. rewrite skip_ok. cbn [mbind option_bind].
  rewrite parse_clock_text, valid_day_civil. done.
Qed.
End RoundTrip.

Lemma Int2Time_milli `{lz : local_zone} t l : t_ns (t_in (Int2Time t) l) mod milli = 0 \/ ~ in_int64 (t * milli).
Proof.
  destruct (Z_le_dec min_int64 (t * milli)), (Z_le_dec (t * milli) max_int64);
    [left|right; unfold in_int64; lia..].
  unfold Int2Time, Unix. cbn [t_in t_ns]. rewrite (int64_small (t * milli)) by (by split).
  unfold nanos, milli. replace ((0 + unix_epoch) * 1000000000 + t * 1000000) with ((unix_epoch * 1000 + t) * 1000000) by lia.
  apply Z.mod_mul. lia.
Qed.

(** The text [Time2Str] writes of a time of the years 0 to 9999 is read back
    by [Str2Time] as that time, to the millisecond. *)
Theorem Str2Time_Time2Str `{lz : local_zone} sh o t :
  fixed_offset sh o -> in_int64 (t * milli) -> 0 <= t_year (t_in (Int2Time t) sh) < 10000 ->
  Str2Time sh (Time2Str sh t) = Ok t.
Proof.
  intros Hsh Ht Hy. unfold Str2Time, Time2Str. set (u := t_in (Int2Time t) sh) in *.
  assert (slen (Format u Time_fmt) = 23) as ->.
  { unfold Format, date_text, clock_text, year_text. destruct (t_year u <? 0) eqn:E; z_bools; [lia|].
    destruct (t_year u <? 10000) eqn:E'; z_bools; [|lia]. by rewrite !slen_app, !slen_pad. }
  destruct (ParseInLocation_Format sh o Hsh u eq_refl) as (v & E & En); [|done|].
  - destruct (Int2Time_milli t sh) as [|Hn]; [done|]. by destruct Hn.
  - change (23 =? 10) with false. change (23 =? 19) with false. cbv iota zeta. rewrite E. cbn [bind_outcome]. f_equal.
    rewrite <- (UnixMilli_Int2Time t sh Ht). unfold UnixMilli, t_nanosecond. by rewrite En.
Qed.

Definition shanghai : location := Zone "Asia/Shanghai" (fun _ => 28800).

Lemma Str2Time_Time2Str_witness :
  Time2Str (lz := fun _ => 0) shanghai 1690015647379 = "2023-07-22 16:47:27.379" /\
  Str2Time (lz := fun _ => 0) shanghai (Time2Str (lz := fun _ => 0) shanghai 1690015647379) = Ok 1690015647379.
Proof.
  split; [vm_compute; reflexivity|]. apply (Str2Time_Time2Str shanghai 28800).
  - intros s. reflexivity.
  - vm_compute. split; discriminate.
  - vm_compute. split; [discriminate|reflexivity].
Defined.

(** ** The periods contain the current time *)

Lemma month_length d : next_month d - month_start d <= 31 /\ 1 <= next_month d - month_start d.
Proof.
  pose proof (month_bounds d) as H. destruct (month_same d (next_month d - 1) ltac:(lia)) as [Ey Em].
  pose proof (month_start_mday (next_month d - 1)) as H1. pose proof (mday_range (next_month d - 1)).
  assert (month_start (next_month d - 1) = month_start d) by (unfold month_start; by rewrite Ey, Em). lia.
Qed.
Section Periods.
Context {lz : local_zone} (l : location) (o : Z) (Hl : fixed_offset l o) (Ho : -86400 <= o <= 86400).

(** Midnight of a day of the calendar of [l]. *)
Definition at_midnight (d : Z) (t : time) : Prop := t_loc t = l /\ t_ns t = (d * 86400 - o) * nanos.

Lemma date_midnight y m d : at_midnight (days_of y m d) (date y m d 0 0 0 0 l).
Proof. split; [done|]. rewrite (date_fixed _ _ _ _ _ _ _ _ o Hl). unfold nanos. lia. Qed.

Lemma midnight_clock d t : at_midnight d t -> t_day t = d /\ clock t = d * 86400 /\ t_nanosecond t = 0.
Proof.
  intros [El En]. assert (clock t = d * 86400) as Ec.
  { rewrite (clock_fixed t o) by (by rewrite El). rewrite En, Z.div_mul by done. lia. }
  split_and!; [|done|].
  - unfold t_day. rewrite Ec. apply Z.div_mul. lia.
  - unfold t_nanosecond. rewrite En. apply Z.mod_mul. done.
Qed.

(** [AddDate] from midnight. *)
Lemma add_date_midnight d t y m k :
  at_midnight d t ->
  at_midnight (days_of (year_of d + y) (month_of d + m) (mday_of d + k)) (add_date t y m k).
Proof.
  intros Ht. destruct (midnight_clock d t Ht) as (Ed & Ec & En). destruct Ht as [El _]. unfold add_date.
  assert (t_hour t = 0 /\ t_minute t = 0 /\ t_second t = 0) as (-> & -> & ->).
  { unfold t_hour, t_minute, t_second. rewrite Ec.
    split_and!; Z.to_euclidean_division_equations; lia. }
  rewrite En, El. unfold t_year, t_month, t_mday. rewrite Ed. apply date_midnight.
Qed.

(** Milliseconds at midnight, within 300,000 years. *)
Definition milli_at (d : Z) : Z := (d * 86400 - o - unix_epoch) * 1000.

Lemma UnixMilli_midnight d t : -110000000 <= d <= 110000000 -> at_midnight d t -> UnixMilli t = milli_at d.
Proof.
  intros Hd Ht. destruct (midnight_clock d t Ht) as (_ & _ & E). destruct Ht as [_ En]. unfold UnixMilli, milli_at.
  rewrite E, En, Z.div_mul by done. unfold unix_epoch. change (0 / milli) with 0.
  rewrite (int64_small (_ * 1000)) by (unfold in_int64, min_int64, max_int64; lia).
  rewrite int64_small by (unfold in_int64, min_int64, max_int64; lia). lia.
Qed.

Lemma UnixMilli_day t :
  t_loc t = l -> -110000000 <= t_day t <= 110000000 -> milli_at (t_day t) <= UnixMilli t < milli_at (t_day t) + OneDay.
Proof.
  intros El Hd. unfold UnixMilli, milli_at, t_day, OneDay in *. rewrite (clock_fixed t o) in * by (by rewrite El).
  set (s := t_ns t / nanos) in *.
  assert (0 <= t_nanosecond t / milli < 1000) as Hm.
  { unfold t_nanosecond, milli, nanos. pose proof (Z.mod_pos_bound (t_ns t) 1000000000 ltac:(lia)).
    split; [apply Z.div_pos; lia|apply Z.div_lt_upper_bound; lia]. }
  pose proof (Z.div_mod (s + o) 86400 ltac:(lia)). pose proof (Z.mod_pos_bound (s + o) 86400 ltac:(lia)).
  unfold unix_epoch. rewrite (int64_small (_ * 1000)) by (unfold in_int64, min_int64, max_int64; lia).
  rewrite int64_small by (unfold in_int64, min_int64, max_int64; lia). lia.
Qed.

End Periods.

(** The day, the week and the month of the current time contain it: the day
    runs from midnight to the next, the week from the midnight of a Monday for
    seven days, the month from its first midnight to that of the next month (in a
    location at a fixed offset). *)
Theorem periods_contain_now `{lz : local_zone} now o :
  fixed_offset (t_loc now) o -> -86400 <= o <= 86400 -> -100000000 <= t_day now <= 100000000 ->
  let ms := milli_at o in
  GetDayFirstAndLast now = (ms (t_day now), ms (t_day now + 1)) /\
  GetMonthFirstAndLast now = (ms (month_start (t_day now)), ms (next_month (t_day now))) /\
  (exists monday, weekday_of monday = 1 /\ monday <= t_day now < monday + 7 /\
     GetWeekFirstAndLast now = (ms monday, ms (monday + 7))) /\
  ms (t_day now) <= UnixMilli now < ms (t_day now + 1).
Proof.
  intros Hl Ho Hd ms. set (d := t_day now) in *.
  assert (at_midnight (t_loc now) o d (midnight now)) as Hmid.
  { unfold midnight. pose proof (date_midnight _ o Hl (t_year now) (t_month now) (t_mday now)) as H.
    by rewrite (days_of_civil d : days_of (t_year now) (t_month now) (t_mday now) = d) in H. }
  assert (forall x t, -110000000 <= x <= 110000000 -> at_midnight (t_loc now) o x t -> UnixMilli t = ms x) as Hms
    by (intros x t Hx Ht; exact (UnixMilli_midnight _ o Hl Ho x t Hx Ht)).
  assert (forall x k, -110000000 <= x <= 110000000 -> 0 <= k <= 31 -> int64 (ms x + k * OneDay) = ms (x + k)) as Hadd.
  { intros x k Hx Hk. unfold ms, milli_at, OneDay, unix_epoch.
    rewrite int64_small; [lia|]. unfold in_int64, min_int64, max_int64. lia. }
  pose proof (month_length d) as Hlen. pose proof (month_bounds d) as Hb.
  split_and!.
  - unfold GetDayFirstAndLast. rewrite (Hms d _ ltac:(lia) Hmid). f_equal.
    rewrite <- (Hadd d 1) by lia. reflexivity.
  - unfold GetMonthFirstAndLast.
    pose proof (date_midnight _ o Hl (t_year now) (t_month now) 1) as Hf.
    change (days_of (t_year now) (t_month now) 1) with (month_start d) in Hf.
    pose proof (add_date_midnight _ o Hl _ _ 0 1 (-1) Hf) as Hg.
    destruct (month_same d (month_start d) ltac:(lia)) as [Ey Em].
    assert (mday_of (month_start d) = 1) as Ed.
    { unfold month_start. apply first_civil. apply month_of_range. }
    rewrite Ey, Em, Ed, Z.add_0_r in Hg. change (1 + -1) with (1 + (-1)) in Hg. rewrite days_of_add in Hg.
    change (days_of (year_of d) (month_of d + 1) 1) with (next_month d) in Hg.
    rewrite (Hms (month_start d) _ ltac:(lia) Hf), (Hms (next_month d + -1) _ ltac:(lia) Hg). f_equal.
    replace (next_month d) with (next_month d + -1 + 1) at 2 by lia. rewrite <- (Hadd (next_month d + -1) 1) by lia. reflexivity.
  - unfold GetWeekFirstAndLast. set (off := if 0 <? 1 - t_weekday now then _ else _).
    assert (t_weekday now = weekday_of d) as Ew by done.
    pose proof (weekday_range d) as Hw.
    assert (-6 <= off <= 0 /\ weekday_of (d + off) = 1) as [Hoff Hmon].
    { subst off. rewrite Ew. unfold weekday_of in *. destruct (0 <? 1 - (d + 1) mod 7) eqn:E; z_bools;
        split; try lia; Z.to_euclidean_division_equations; lia. }
    exists (d + off). split_and!; [done|lia|lia|].
    pose proof (add_date_midnight _ o Hl _ _ 0 0 off Hmid) as Hg. rewrite !Z.add_0_r, days_of_add, days_of_civil in Hg.
    rewrite (Hms (d + off) _ ltac:(lia) Hg). f_equal. rewrite <- (Hadd (d + off) 7) by lia. reflexivity.
  - apply (UnixMilli_day _ o Hl Ho now); [done|lia].
  - replace (ms (d + 1)) with (ms d + OneDay) by (unfold ms, milli_at, OneDay; lia).
    apply (UnixMilli_day _ o Hl Ho now); [done|lia].
Qed.

Lemma periods_contain_now_witness :
  GetMonthFirstAndLast (lz := fun _ => 0) (mk_time (63825612447379000000) shanghai) = (1688140800000, 1690819200000) /\
  exists monday, GetWeekFirstAndLast (lz := fun _ => 0) (mk_time (63825612447379000000) shanghai)
    = (milli_at 28800 monday, milli_at 28800 (monday + 7)).
Proof.
  split; [vm_compute; reflexivity|].
  destruct (periods_contain_now (lz := fun _ => 0) (mk_time (63825612447379000000) shanghai) 28800) as (_ & _ & (m & _ & _ & H) & _).
  - intros s. reflexivity.
  - lia.
  - vm_compute. split; discriminate.
  - exists m. exact H.
Defined.
