(* ===== verification/Sqlc.v ===== *)
(** * Query conditions ([src/ormx/sqlc/cnd.go]) and paging
    ([src/ormx/sqld/dialect/dialect.go])

    A Go [interface{}] is a [value]; only its being nil, its being a condition
    object, and its equality with a constant matter to the modelled code.  The
    methods of [Cnd] return the receiver they have changed: each is a function from
    conditions to conditions. *)

From S2P Require Import Prelude GoStrings.

#[local] Open Scope string_scope.
#[local] Open Scope Z_scope.

(** ** Constants *)

Definition EQ_ : Z := 0.
Definition NOT_EQ_ : Z := 1.
Definition LT_ : Z := 2.
Definition LTE_ : Z := 3.
Definition GT_ : Z := 4.
Definition GTE_ : Z := 5.
Definition IS_NULL_ : Z := 6.
Definition IS_NOT_NULL_ : Z := 7.
Definition BETWEEN_ : Z := 8.
Definition BETWEEN2_ : Z := 9.
Definition NOT_BETWEEN_ : Z := 10.
Definition IN_ : Z := 11.
Definition NOT_IN_ : Z := 12.
Definition LIKE_ : Z := 13.
Definition NOT_LIKE_ : Z := 14.
Definition OR_ : Z := 15.
Definition ORDER_BY_ : Z := 16.
Definition LEFT_ : Z := 17.
Definition RIGHT_ : Z := 18.
Definition INNER_ : Z := 19.

Definition ASC_ : Z := 1.
Definition DESC_ : Z := 2.

(** ** Paging *)

Record Dialect := mk_dialect {
  PageNo : Z;
  PageSize : Z;
  PageTotal : Z;
  PageCount : Z;
  Spilled : bool;
  IsOffset : bool;
  IsPage : bool;
  IsFastPage : bool;
  FastPageKey : string;
  FastPageSort : Z;
  FastPageParam : list Z;
  FastPageSortParam : Z;
  FastPageSortCountQ : bool
}.

Definition no_dialect : Dialect := mk_dialect 0 0 0 0 false false false false "" 0 [] 0 false.

Record PageResult := mk_page { pr_PageNo : Z; pr_PageSize : Z; pr_PageTotal : Z; pr_PageCount : Z }.

Definition GetResult (d : Dialect) : PageResult :=
  mk_page (PageNo d) (PageSize d) (PageTotal d) (PageCount d).

(** [MysqlDialect]. *)
Definition GetCountSql (sql : string) : string := "select count(1) from (" +:+ sql +:+ ") as cba1".

Definition limit_offset (d : Dialect) : Z :=
  if IsOffset d then PageNo d else int64 (int64 (PageNo d - 1) * PageSize d).

Definition GetLimitSql (d : Dialect) (sql : string) : string :=
  sql +:+ " limit " +:+ format_int (limit_offset d) +:+ "," +:+ format_int (PageSize d).

(** ** Conditions *)

Record Condition (V : Type) := mk_condition {
  Logic : Z;
  Key : string;
  Value : V;
  Values : list V;
  Alias : string
}.
Arguments mk_condition {V}. Arguments Logic {V}. Arguments Key {V}. Arguments Value {V}.
Arguments Values {V}. Arguments Alias {V}.

Record JoinCond := mk_join { j_Type : Z; j_Table : string; j_Alias : string; j_On : string }.
Record FromCond := mk_from { f_Table : string; f_Alias : string }.
Record CacheConfig := mk_cache { c_Open : bool; c_Prefix : string; c_Key : string; c_Expire : Z }.
Definition no_cache : CacheConfig := mk_cache false "" "" 0.

(** The settings of [Collation] that the builder looks at. *)
Record Collation := mk_collation { Locale : string; c_Strength : Z }.

Record Cnd_of (V : Type) := mk_cnd {
  ConditPart : list string;
  Conditions : list (Condition V);
  AnyFields : list string;
  AnyNotFields : list string;
  Distincts : list string;
  Groupbys : list string;
  Orderbys : list (Condition V);
  Aggregates : list (Condition V);
  Upsets : list (string * V);       (* a map: no key twice *)
  Model : option string;            (* the table of the model *)
  CollationConfig : option Collation;
  Pagination : Dialect;
  FromCond_ : option FromCond;
  JoinConds : list JoinCond;
  SampleSize : Z;
  LimitSize : Z;
  CacheConf : CacheConfig;
  Escape : bool
}.
Arguments mk_cnd {V}. Arguments ConditPart {V}. Arguments Conditions {V}. Arguments AnyFields {V}.
Arguments AnyNotFields {V}. Arguments Distincts {V}. Arguments Groupbys {V}. Arguments Orderbys {V}.
Arguments Aggregates {V}. Arguments Upsets {V}. Arguments Model {V}. Arguments CollationConfig {V}.
Arguments Pagination {V}. Arguments FromCond_ {V}. Arguments JoinConds {V}. Arguments SampleSize {V}.
Arguments LimitSize {V}. Arguments CacheConf {V}. Arguments Escape {V}.

(** An [interface{}]. *)
Inductive value :=
  | VNil
  | VInt (z : Z)
  | VStr (s : string)
  | VBool (b : bool)
  | VOther (n : nat)
  | VCnd (c : Cnd_of value).

Abbreviation Cnd := (Cnd_of value).

#[export] Instance dialect_eq_dec : EqDecision Dialect. Proof. solve_decision. Defined.
#[export] Instance condition_eq_dec `{EqDecision V} : EqDecision (Condition V). Proof. solve_decision. Defined.
#[export] Instance join_eq_dec : EqDecision JoinCond. Proof. solve_decision. Defined.
#[export] Instance from_eq_dec : EqDecision FromCond. Proof. solve_decision. Defined.
#[export] Instance cache_eq_dec : EqDecision CacheConfig. Proof. solve_decision. Defined.
#[export] Instance collation_eq_dec : EqDecision Collation. Proof. solve_decision. Defined.
#[export] Instance cnd_eq_dec `{EqDecision V} : EqDecision (Cnd_of V). Proof. solve_decision. Defined.

#[export] Instance value_eq_dec : EqDecision value.
Proof.
  unfold EqDecision. fix go 1. intros x y. unfold Decision.
  destruct x as [|z|s|b|n|c], y as [|z'|s'|b'|n'|c']; try (right; discriminate); try (left; reflexivity);
    [destruct (decide (z = z'))|destruct (decide (s = s'))|destruct (decide (b = b'))|destruct (decide (n = n'))|
     destruct (@cnd_eq_dec value go c c')]; (left; congruence) || (right; congruence).
Defined.

Definition is_nil (v : value) : bool := match v with VNil => true | _ => false end.

(** ** Building a condition object *)

Section Setters.
Context (c : Cnd).

Definition set_parts x : Cnd := mk_cnd x (Conditions c) (AnyFields c) (AnyNotFields c) (Distincts c) (Groupbys c) (Orderbys c) (Aggregates c) (Upsets c) (Model c) (CollationConfig c) (Pagination c) (FromCond_ c) (JoinConds c) (SampleSize c) (LimitSize c) (CacheConf c) (Escape c).
Definition set_conditions x : Cnd := mk_cnd (ConditPart c) x (AnyFields c) (AnyNotFields c) (Distincts c) (Groupbys c) (Orderbys c) (Aggregates c) (Upsets c) (Model c) (CollationConfig c) (Pagination c) (FromCond_ c) (JoinConds c) (SampleSize c) (LimitSize c) (CacheConf c) (Escape c).
Definition set_fields x : Cnd := mk_cnd (ConditPart c) (Conditions c) x (AnyNotFields c) (Distincts c) (Groupbys c) (Orderbys c) (Aggregates c) (Upsets c) (Model c) (CollationConfig c) (Pagination c) (FromCond_ c) (JoinConds c) (SampleSize c) (LimitSize c) (CacheConf c) (Escape c).
Definition set_notfields x : Cnd := mk_cnd (ConditPart c) (Conditions c) (AnyFields c) x (Distincts c) (Groupbys c) (Orderbys c) (Aggregates c) (Upsets c) (Model c) (CollationConfig c) (Pagination c) (FromCond_ c) (JoinConds c) (SampleSize c) (LimitSize c) (CacheConf c) (Escape c).
Definition set_distincts x : Cnd := mk_cnd (ConditPart c) (Conditions c) (AnyFields c) (AnyNotFields c) x (Groupbys c) (Orderbys c) (Aggregates c) (Upsets c) (Model c) (CollationConfig c) (Pagination c) (FromCond_ c) (JoinConds c) (SampleSize c) (LimitSize c) (CacheConf c) (Escape c).
Definition set_groupbys x : Cnd := mk_cnd (ConditPart c) (Conditions c) (AnyFields c) (AnyNotFields c) (Distincts c) x (Orderbys c) (Aggregates c) (Upsets c) (Model c) (CollationConfig c) (Pagination c) (FromCond_ c) (JoinConds c) (SampleSize c) (LimitSize c) (CacheConf c) (Escape c).
Definition set_orderbys x : Cnd := mk_cnd (ConditPart c) (Conditions c) (AnyFields c) (AnyNotFields c) (Distincts c) (Groupbys c) x (Aggregates c) (Upsets c) (Model c) (CollationConfig c) (Pagination c) (FromCond_ c) (JoinConds c) (SampleSize c) (LimitSize c) (CacheConf c) (Escape c).
Definition set_aggregates x : Cnd := mk_cnd (ConditPart c) (Conditions c) (AnyFields c) (AnyNotFields c) (Distincts c) (Groupbys c) (Orderbys c) x (Upsets c) (Model c) (CollationConfig c) (Pagination c) (FromCond_ c) (JoinConds c) (SampleSize c) (LimitSize c) (CacheConf c) (Escape c).
Definition set_upsets x : Cnd := mk_cnd (ConditPart c) (Conditions c) (AnyFields c) (AnyNotFields c) (Distincts c) (Groupbys c) (Orderbys c) (Aggregates c) x (Model c) (CollationConfig c) (Pagination c) (FromCond_ c) (JoinConds c) (SampleSize c) (LimitSize c) (CacheConf c) (Escape c).
Definition set_collation x : Cnd := mk_cnd (ConditPart c) (Conditions c) (AnyFields c) (AnyNotFields c) (Distincts c) (Groupbys c) (Orderbys c) (Aggregates c) (Upsets c) (Model c) x (Pagination c) (FromCond_ c) (JoinConds c) (SampleSize c) (LimitSize c) (CacheConf c) (Escape c).
Definition set_pagination x : Cnd := mk_cnd (ConditPart c) (Conditions c) (AnyFields c) (AnyNotFields c) (Distincts c) (Groupbys c) (Orderbys c) (Aggregates c) (Upsets c) (Model c) (CollationConfig c) x (FromCond_ c) (JoinConds c) (SampleSize c) (LimitSize c) (CacheConf c) (Escape c).
Definition set_from x : Cnd := mk_cnd (ConditPart c) (Conditions c) (AnyFields c) (AnyNotFields c) (Distincts c) (Groupbys c) (Orderbys c) (Aggregates c) (Upsets c) (Model c) (CollationConfig c) (Pagination c) x (JoinConds c) (SampleSize c) (LimitSize c) (CacheConf c) (Escape c).
Definition set_joins x : Cnd := mk_cnd (ConditPart c) (Conditions c) (AnyFields c) (AnyNotFields c) (Distincts c) (Groupbys c) (Orderbys c) (Aggregates c) (Upsets c) (Model c) (CollationConfig c) (Pagination c) (FromCond_ c) x (SampleSize c) (LimitSize c) (CacheConf c) (Escape c).
Definition set_sample x : Cnd := mk_cnd (ConditPart c) (Conditions c) (AnyFields c) (AnyNotFields c) (Distincts c) (Groupbys c) (Orderbys c) (Aggregates c) (Upsets c) (Model c) (CollationConfig c) (Pagination c) (FromCond_ c) (JoinConds c) x (LimitSize c) (CacheConf c) (Escape c).
Definition set_limit x : Cnd := mk_cnd (ConditPart c) (Conditions c) (AnyFields c) (AnyNotFields c) (Distincts c) (Groupbys c) (Orderbys c) (Aggregates c) (Upsets c) (Model c) (CollationConfig c) (Pagination c) (FromCond_ c) (JoinConds c) (SampleSize c) x (CacheConf c) (Escape c).
Definition set_cache x : Cnd := mk_cnd (ConditPart c) (Conditions c) (AnyFields c) (AnyNotFields c) (Distincts c) (Groupbys c) (Orderbys c) (Aggregates c) (Upsets c) (Model c) (CollationConfig c) (Pagination c) (FromCond_ c) (JoinConds c) (SampleSize c) (LimitSize c) x (Escape c).
Definition set_escape x : Cnd := mk_cnd (ConditPart c) (Conditions c) (AnyFields c) (AnyNotFields c) (Distincts c) (Groupbys c) (Orderbys c) (Aggregates c) (Upsets c) (Model c) (CollationConfig c) (Pagination c) (FromCond_ c) (JoinConds c) (SampleSize c) (LimitSize c) (CacheConf c) x.
End Setters.

(** [M]: the model is the first argument, if any. *)
Definition M (model : list string) : Cnd :=
  mk_cnd [] [] [] [] [] [] [] [] [] (head model) None no_dialect None [] 0 0 no_cache true.

Definition addDefaultCondit (cnd : Cnd) (condit : Condition value) : Cnd :=
  set_conditions cnd (Conditions cnd ++ [condit]).

Definition UnEscape (c : Cnd) : Cnd := set_escape c false.

(** The comparisons with one value; a nil value adds nothing. *)
Definition one_value (logic : Z) (c : Cnd) (key : string) (v : value) : Cnd :=
  if is_nil v then c else addDefaultCondit c (mk_condition logic key v [] "").

Definition Eq := one_value EQ_.
Definition NotEq := one_value NOT_EQ_.
Definition Lt_ := one_value LT_.
Definition Lte := one_value LTE_.
Definition Gt_ := one_value GT_.
Definition Gte := one_value GTE_.
Definition Like := one_value LIKE_.
Definition NotLike := one_value NOT_LIKE_.

Definition IsNull (c : Cnd) (key : string) : Cnd :=
  addDefaultCondit c (mk_condition IS_NULL_ key VNil [] "").
Definition IsNotNull (c : Cnd) (key : string) : Cnd :=
  addDefaultCondit c (mk_condition IS_NOT_NULL_ key VNil [] "").

(** The conditions on two values. *)
Definition two_values (logic : Z) (c : Cnd) (key : string) (v1 v2 : value) : Cnd :=
  if is_nil v1 || is_nil v2 then c else addDefaultCondit c (mk_condition logic key VNil [v1; v2] "").

Definition Between := two_values BETWEEN_.
Definition InDate := two_values BETWEEN2_.
Definition NotBetween := two_values NOT_BETWEEN_.

(** The conditions on a list of values. *)
Definition many_values (logic : Z) (c : Cnd) (key : string) (vs : list value) : Cnd :=
  match vs with [] => c | _ => addDefaultCondit c (mk_condition logic key VNil vs "") end.

Definition In := many_values IN_.
Definition NotIn := many_values NOT_IN_.
Definition Or (c : Cnd) (cnds : list value) : Cnd := many_values OR_ c "" cnds.

Definition AddOther (c : Cnd) (part : string) : Cnd :=
  if 0 <? slen part then set_parts c (ConditPart c ++ [part]) else c.

Definition From_ (c : Cnd) (fromTable : string) : Cnd := set_from c (Some (mk_from fromTable "")).

Definition Join (c : Cnd) (join : Z) (table on : string) : Cnd :=
  if (slen table =? 0) || (slen on =? 0) then c
  else set_joins c (JoinConds c ++ [mk_join join table "" on]).

Definition Collation_ (c : Cnd) (collation : option Collation) : Cnd :=
  match collation with
  | None => c
  | Some col =>
      set_collation c (Some (if slen (Locale col) =? 0 then mk_collation "zh" (c_Strength col) else col))
  end.

(** A page size out of 1..5000 is 50. *)
Definition page_size (n : Z) : Z := if (n <=? 0) || (5000 <? n) then 50 else n.

Definition Limit (c : Cnd) (pageNo pageSize : Z) : Cnd :=
  let pageNo := if pageNo <=? 0 then 1 else pageNo in
  set_pagination c (mk_dialect pageNo (page_size pageSize) 0 0 true false true false "" 0 [] 0 false).

Definition Offset (c : Cnd) (offset limit : Z) : Cnd :=
  let offset := if offset <=? 0 then 0 else offset in
  set_pagination c (mk_dialect offset (page_size limit) 0 0 true true true false "" 0 [] 0 false).

(** The keys that are not empty. *)
Definition nonempty_keys (keys : list string) : list string :=
  List.filter (fun k => negb (slen k =? 0)) keys.

Definition Distinct (c : Cnd) (keys : list string) : Cnd := set_distincts c (Distincts c ++ nonempty_keys keys).
Definition Groupby (c : Cnd) (keys : list string) : Cnd := set_groupbys c (Groupbys c ++ nonempty_keys keys).

(** [alias != nil || len(alias) > 0] holds of every alias list that is not nil;
    an empty one is indexed out of range.  A call without aliases passes nil. *)
Definition Agg (c : Cnd) (logic : Z) (key : string) (alias : option (list string)) : outcome string Cnd :=
  if slen key =? 0 then Ok c
  else
    let* ali := match alias with
                | None => Ok key
                | Some [] => Panic "index out of range"
                | Some (a :: _) => Ok a
                end in
    Ok (set_aggregates c (Aggregates c ++ [mk_condition logic key VNil [] ali])).

Definition order_condition (sortby : Z) (key : string) : Condition value :=
  mk_condition ORDER_BY_ key (VInt sortby) [] "".

Definition Orderby (c : Cnd) (key : string) (sortby : Z) : outcome string Cnd :=
  if negb ((sortby =? ASC_) || (sortby =? DESC_)) then Panic "order by sort value invalid"
  else Ok (set_orderbys c (Orderbys c ++ [order_condition sortby key])).

Definition Asc (c : Cnd) (keys : list string) : Cnd :=
  set_orderbys c (Orderbys c ++ map (order_condition ASC_) keys).
Definition Desc (c : Cnd) (keys : list string) : Cnd :=
  set_orderbys c (Orderbys c ++ map (order_condition DESC_) keys).

Definition Fields (c : Cnd) (keys : list string) : Cnd := set_fields c (AnyFields c ++ keys).
Definition NotFields (c : Cnd) (keys : list string) : Cnd := set_notfields c (AnyNotFields c ++ keys).

Definition Sample (c : Cnd) (size : Z) : Cnd :=
  if size <=? 0 then c else set_sample c (if 2000 <? size then 10 else size).

Definition ResultSize (c : Cnd) (size : Z) : Cnd := set_limit c (page_size size).

Definition FastPage (c : Cnd) (key : string) (sort prevID lastID pageSize : Z) (countQ : list bool) : outcome string Cnd :=
  let pageSize := page_size pageSize in
  if slen key =? 0 then Panic "fast limit key is nil"
  else Ok (set_pagination c (mk_dialect 0 pageSize 0 0 false false false true key sort [prevID; lastID] 0
                               (default false (head countQ)))).

Definition Cache (c : Cnd) (config : CacheConfig) : Cnd :=
  set_cache c (mk_cache true (c_Prefix config) (c_Key config) (c_Expire config)).

(** Assignment to a key of a map. *)
Definition map_set (k : string) (v : value) (m : list (string * value)) : list (string * value) :=
  if existsb (fun p => String.eqb p.1 k) m
  then map (fun p => if String.eqb p.1 k then (k, v) else p) m
  else (m ++ [(k, v)])%list.

Definition Upset (c : Cnd) (keys : list string) (values : list value) : Cnd :=
  match values with
  | [] => c
  | _ =>
      if (length keys =? 0)%nat || negb (length keys =? length values)%nat then c
      else set_upsets c (foldl (fun m kv => map_set kv.1 kv.2 m) (Upsets c) (zip keys values))
  end.

Definition GetPageResult (c : Cnd) : PageResult := GetResult (Pagination c).

Definition is_cnd (v : value) : bool := match v with VCnd _ => true | _ => false end.

(** ** Induction over condition objects *)

Section ValueInd.
Context (P : value -> Prop)
  (Hnil : P VNil) (Hint : forall z, P (VInt z)) (Hstr : forall s, P (VStr s)) (Hbool : forall b, P (VBool b))
  (Hother : forall n, P (VOther n))
  (Hcnd : forall c, Forall (fun k => Forall P (Values k)) (Conditions c) -> P (VCnd c)).

Fixpoint value_nested_ind (v : value) : P v :=
  match v with
  | VNil => Hnil | VInt z => Hint z | VStr s => Hstr s | VBool b => Hbool b | VOther n => Hother n
  | VCnd c => Hcnd c
      ((fix go (l : list (Condition value)) : Forall (fun k => Forall P (Values k)) l :=
          match l with
          | [] => Forall_nil_2 _
          | k :: l => Forall_cons_2 _ _ _
              ((fix go' (l : list value) : Forall P l :=
                  match l with
                  | [] => Forall_nil_2 _
                  | v :: l => Forall_cons_2 _ _ _ (value_nested_ind v) (go' l)
                  end) (Values k))
              (go l)
          end) (Conditions c))
  end.
End ValueInd.
