(* ===== verification/Model.v ===== *)
(** * Registered models and their fields ([src/ormx/sqld/model_manager.go])

    A struct is a list of cells, one for each field; the offset of a field is its
    position.  [ModelDriver] reads the names, kinds and tags of the fields, which
    reflection gives it; [GetValue] and [SetValue] move a cell to and from what the
    database driver exchanges.  A cell that is not an integer, a string or a bool has
    a text form of its own, JSON or that of a decimal: the encoder [json] and the
    decoder [unjson] are arguments.  Where the fields lie in the memory of a struct, and
    what the raw stores do to it, is the subject of [ModelMemory], which refines this
    file. *)

From S2P Require Import Prelude GoStrings GoTime TimeUtils Sqlc.

#[local] Open Scope string_scope.
#[local] Open Scope Z_scope.

(** [reflect.Kind]; [KFloat] is both float kinds, [KOther] the kinds that
    [GetValue] and [SetValue] do not mention. *)
Inductive kind :=
  | KString | KInt | KInt8 | KInt16 | KInt32 | KInt64 | KUint16 | KUint32 | KUint64
  | KUint | KUint8 | KFloat | KBool | KSlice | KMap | KPtr | KStruct | KOther.

#[export] Instance kind_eq_dec : EqDecision kind.
Proof. solve_decision. Defined.

Record FieldElem := mk_field {
  Primary : bool;
  Ignore : bool;
  IsDate : bool;
  IsBlob : bool;
  FieldName : string;
  FieldJsonName : string;
  FieldBsonName : string;
  FieldKind : kind;
  FieldType : string;
  FieldDBType : string;
  FieldComment : string;
  FieldOffset : nat
}.

Record MdlDriver := mk_driver {
  TableName : string;
  ToMongo : bool;
  PkOffset : nat;
  PkKind : kind;
  PkName : string;
  PkBsonName : string;
  AutoId : bool;
  PkType : string;
  Charset : string;
  Collate : string;
  FieldElems : list FieldElem
}.

(** ** Registration *)

(** A field as reflection shows it; a tag that is absent is empty. *)
Record StructField := mk_struct_field {
  sf_Name : string;
  sf_Kind : kind;
  sf_Type : string;
  sf_Tag : string -> string
}.

(** An [sqlc.Object]: its table and the fields of [NewObject()], when that is a
    pointer to a struct. *)
Record ObjectType := mk_object_type {
  ot_Table : string;
  ot_New : option (list StructField)
}.

Definition is_true (s : string) : bool := String.eqb s "true".
Definition isPk (key : string) : bool := (0 <? slen key) && is_true key.

Definition field_elem (i : nat) (f : StructField) : FieldElem :=
  mk_field (String.eqb (sf_Name f) "Id" || isPk (sf_Tag f "key"))
    (is_true (sf_Tag f "ignore")) (is_true (sf_Tag f "date")) (is_true (sf_Tag f "blob"))
    (sf_Name f) (sf_Tag f "json") (sf_Tag f "bson") (sf_Kind f) (sf_Type f) (sf_Tag f "db") (sf_Tag f "comment") i.

Definition or_default (s d : string) : string := if slen s =? 0 then d else s.

(** One turn of the loop over the fields. *)
Definition add_field (md : MdlDriver) (i : nat) (f : StructField) : MdlDriver :=
  let e := field_elem i f in
  if Primary e then
    mk_driver (TableName md) (ToMongo md || is_true (sf_Tag f "mg")) i (sf_Kind f) (sf_Tag f "json") (sf_Tag f "bson")
      (AutoId md || is_true (sf_Tag f "auto")) (sf_Type f)
      (or_default (sf_Tag f "charset") "utf8mb4") (or_default (sf_Tag f "collate") "utf8mb4_general_ci")
      (FieldElems md ++ [e])
  else
    mk_driver (TableName md) (ToMongo md) (PkOffset md) (PkKind md) (PkName md) (PkBsonName md) (AutoId md) (PkType md)
      (Charset md) (Collate md) (FieldElems md ++ [e]).

Definition drivers := gmap string MdlDriver.

Definition register (ds : drivers) (o : ObjectType) : outcome string drivers :=
  if slen (ot_Table o) =? 0 then Panic "object table name is nil"
  else match ot_New o with
       | None => Panic "NewObject value must be pointer"
       | Some fs =>
           let md := foldl (fun md p => add_field md p.1 p.2)
                       (mk_driver (ot_Table o) false 0 KOther "" "" false "" "" "" []) (zip (seq 0 (length fs)) fs) in
           match ds !! TableName md with
           | Some _ => Panic ("table name: " +:+ TableName md +:+ " exist")
           | None => Ok (<[TableName md := md]> ds)
           end
       end.

(** A nil object is [None]. *)
Definition ModelDriver (ds : drivers) (objects : list (option ObjectType)) : outcome string drivers :=
  match objects with
  | [] => Panic "objects is nil"
  | _ =>
      foldl (fun ds o => let* ds := ds in
                         match o with None => Panic "object is nil" | Some o => register ds o end)
        (Ok ds) objects
  end.

(** ** Cells *)

Definition int_cell (v : value) : Z := match v with VInt z => z | _ => 0 end.
Definition str_cell (v : value) : string := match v with VStr s => s | _ => "" end.

Definition slice_types : list string :=
  ["[]string"; "[]int"; "[]int8"; "[]int16"; "[]int32"; "[]int64"; "[]float32"; "[]float64"; "[]bool";
   "[]uint"; "[]uint8"; "[]uint16"; "[]uint32"; "[]uint64"].

Definition in_types (t : string) (l : list string) : bool := existsb (String.eqb t) l.

Definition map_types : list string :=
  ["map[string]string"; "map[string]int"; "map[string]int8"; "map[string]int16"; "map[string]int32";
   "map[string]int64"; "map[string]float32"; "map[string]float64"; "map[string]bool"; "map[string]uint";
   "map[string]uint8"; "map[string]uint16"; "map[string]uint32"; "map[string]uint64";
   "map[string]interface {}"; "map[int]string"; "map[int]int"; "map[int]interface {}"].

Section Cells.
Context {lz : local_zone} (local : location) (fmt : layout)          (* [fieldTime] *)
  (json : value -> outcome string string) (unjson : string -> outcome string value).

Definition date_value (t : Z) : value := VStr (Time2FormatStr local t (Some local) fmt).

(** [GetValue] on the cell of the field. *)
Definition GetValue (cell : value) (elem : FieldElem) : outcome string value :=
  match FieldKind elem with
  | KString => Ok cell
  | KInt | KInt32 =>
      if IsDate elem then Ok (date_value (if int_cell cell <? 0 then 0 else int_cell cell)) else Ok cell
  | KInt64 =>
      if IsDate elem then
        if int_cell cell <=? 0 then Ok (VStr "") else Ok (date_value (int_cell cell))
      else Ok cell
  | KInt8 | KInt16 | KUint | KUint8 | KUint16 | KUint32 | KUint64 | KFloat | KBool => Ok cell
  | KSlice =>
      if in_types (FieldType elem) slice_types then
        if String.eqb (FieldType elem) "[]uint8" && IsBlob elem then Ok cell
        else let* s := json cell in Ok (VStr s)
      else Ok VNil
  | KMap | KPtr =>
      if is_nil cell then Ok VNil
      else let* s := json cell in Ok (if 0 <? slen s then VStr s else VNil)
  | KStruct =>
      if String.eqb (FieldType elem) "decimal.Decimal" then let* s := json cell in Ok (VStr s)
      else Err ("please use pointer type: " +:+ FieldName elem)
  | KOther => Ok VNil
  end.

(** The bytes of a column; NULL is [None]. *)
Definition column := option string.
Definition NewString (b : column) : string := default "" b.

Definition NewInt64 (b : column) : outcome string Z :=
  map_err (fun _ => "strconv.ParseInt: invalid") (parse_int 64 (NewString b)).

Definition set_date (w : Z -> Z) (old : value) (b : column) : outcome string value :=
  if slen (NewString b) =? 0 then Ok old
  else let* t := Str2FormatDate (NewString b) fmt local in Ok (VInt (w t)).

Definition set_int (w : Z -> Z) (b : column) : outcome string value :=
  let* z := NewInt64 b in Ok (VInt (w z)).

(** [SetValue]: the new cell.  The store itself is [ModelMemory.SetValue]; that of a
    [uint8] field is one byte wider than the cell. *)
Definition SetValue (old : value) (elem : FieldElem) (b : column) : outcome string value :=
  match FieldKind elem with
  | KString => Ok (VStr (NewString b))
  | KInt => if IsDate elem then set_date int64 old b else set_int int64 b
  | KInt8 => set_int (swrap 8) b
  | KInt16 => set_int (swrap 16) b
  | KInt32 => if IsDate elem then set_date int32 old b else set_int int32 b
  | KInt64 => if IsDate elem then set_date int64 old b else set_int int64 b
  | KUint => set_int uint64 b
  | KUint8 => set_int (uwrap 8) b
  | KUint16 => set_int (uwrap 16) b
  | KUint32 => set_int (uwrap 32) b
  | KUint64 => set_int uint64 b
  | KBool => Ok (VBool (String.eqb (NewString b) "true"))
  | KSlice =>
      if in_types (FieldType elem) slice_types then
        if slen (NewString b) =? 0 then Ok old
        else if String.eqb (FieldType elem) "[]uint8" && IsBlob elem then Ok (VStr (NewString b))
        else unjson (NewString b)
      else Ok old
  | KMap =>
      if in_types (FieldType elem) map_types then
        if slen (NewString b) =? 0 then Ok old else unjson (NewString b)
      else Ok old
  | KPtr => if slen (NewString b) =? 0 then Ok old else unjson (NewString b)
  | KFloat => unjson (NewString b)
  | KStruct =>
      if String.eqb (FieldType elem) "decimal.Decimal"
      then unjson (if slen (NewString b) =? 0 then "0" else NewString b)
      else Ok old
  | KOther => Ok old
  end.
End Cells.

(** ** A cell survives the database *)

(** The text in which the database gives back a stored value: a bool is a
    [tinyint]. *)
Definition stored (v : value) : column :=
  match v with
  | VNil => None
  | VInt z => Some (format_int z)
  | VStr s => Some s
  | VBool b => Some (if b then "1" else "0")
  | _ => None
  end.

Definition width_ok (k : kind) (z : Z) : Prop :=
  match k with
  | KInt | KInt64 => in_int64 z
  | KInt8 => -128 <= z < 128
  | KInt16 => -32768 <= z < 32768
  | KInt32 => in_int32 z
  | KUint8 => 0 <= z < 256
  | KUint => 0 <= z <= max_int64
  | KUint16 => 0 <= z < 65536
  | KUint32 => 0 <= z < 2 ^ 32
  | KUint64 => 0 <= z <= max_int64
  | _ => False
  end.

Definition cell_ok (elem : FieldElem) (v : value) : Prop :=
  match FieldKind elem, v with
  | KString, VStr _ => True
  | k, VInt z => IsDate elem = false /\ width_ok k z
  | _, _ => False
  end.

Lemma set_int_format w z : in_int64 z -> w z = z -> set_int w (Some (format_int z)) = Ok (VInt z).
Proof.
  intros Hz Hw. unfold set_int, NewInt64, NewString. cbn [default from_option id].
  rewrite parse_int_format; [cbn; by rewrite Hw|lia|]. unfold in_int64, min_int64, max_int64 in Hz. simpl. lia.
Qed.

Section ColumnRoundTrip.
Context `{lz : local_zone} (local : location) (fmt : layout)
  (json : value -> outcome string string) (unjson : string -> outcome string value).

(** A string or an integer of any width that is stored and read back is the
    cell it was, whatever the cell held before. *)
Theorem column_round_trip elem v old :
  cell_ok elem v ->
  exists p, GetValue local fmt json v elem = Ok p /\ SetValue local fmt unjson old elem (stored p) = Ok v.
Proof.
  intros H. exists v. unfold cell_ok in H. unfold GetValue, SetValue.
  destruct (FieldKind elem), v as [|z|s|b|n|c]; try done; try (destruct H as [Hd Hw]; cbn [width_ok] in Hw; try done; rewrite ?Hd; (split; [done|]));
    try (by split); cbn [stored]; apply set_int_format; unfold width_ok, in_int64, in_int32, min_int64, max_int64, min_int32, max_int32 in *;
    try lia; try (apply int64_small; unfold in_int64, min_int64, max_int64; lia);
    try (apply int32_small; unfold in_int32, min_int32, max_int32; lia);
    try (apply swrap_small; lia); try (apply uint64_small; lia); try (apply Z.mod_small; lia).
Qed.
End ColumnRoundTrip.

Definition int_field : FieldElem := mk_field false false false false "Age" "age" "age" KInt16 "int16" "" "" 2.

Lemma column_round_trip_witness :
  exists p, GetValue (lz := fun _ => 0) shanghai Time_fmt (fun _ => Err "") (VInt (-7)) int_field = Ok p /\
  SetValue (lz := fun _ => 0) shanghai Time_fmt (fun _ => Err "") VNil int_field (stored p) = Ok (VInt (-7)).
Proof. apply column_round_trip. split; [reflexivity|vm_compute; split; [discriminate|reflexivity]]. Defined.

(** A bool does not: [true] is stored as 1, and only the text [true] is read as
    true. *)
Example bool_column_lost :
  SetValue (lz := fun _ => 0) shanghai Time_fmt (fun _ => Err "") (VBool true)
    (mk_field false false false false "Ok" "ok" "ok" KBool "bool" "" "" 0) (stored (VBool true)) = Ok (VBool false).
Proof. vm_compute. reflexivity. Qed.
