(* ===== verification/SqlBuilder.v ===== *)
(** * SQL text from conditions ([BuildCondKey], [BuildWhereCase], [BuildGroupBy],
    [BuildSortBy] of [src/ormx/sqld/base_manager.go])

    A [bytes.Buffer] is the string written so far.  A where part is the text of the
    conditions, each followed by [" and"], and the arguments of its placeholders
    in order. *)

From Stdlib Require Import Ascii.
From S2P Require Import Prelude GoStrings Common Sqlc.

#[local] Open Scope string_scope.
#[local] Open Scope Z_scope.

Abbreviation where_part := (string * list value)%type.

(** Without the last [n] bytes. *)
Definition trim_end (s : string) (n : Z) : outcome string string := Substr s 0 (slen s - n).

Definition BuildCondKey (escape : bool) (key : string) : string :=
  if escape then " `" +:+ key +:+ "`" else " " +:+ key.

(** A condition on one value. *)
Definition case_one (escape : bool) (text : string) (v : Condition value) (acc : where_part) : where_part :=
  (acc.1 +:+ BuildCondKey escape (Key v) +:+ text, acc.2 ++ [Value v])%list.

Definition case_none (escape : bool) (text : string) (v : Condition value) (acc : where_part) : where_part :=
  (acc.1 +:+ BuildCondKey escape (Key v) +:+ text, acc.2).

(** [values[0]] and [values[1]]. *)
Definition case_two (escape : bool) (text : string) (v : Condition value) (acc : where_part) : outcome string where_part :=
  match Values v with
  | v0 :: v1 :: _ => Ok (acc.1 +:+ BuildCondKey escape (Key v) +:+ text, acc.2 ++ [v0; v1])%list
  | _ => Panic "index out of range"
  end.

(** The loop that writes a placeholder for each value. *)
Definition marks (n : nat) : string := foldl (fun s _ => s +:+ "?,") "" (seq 0 n).

Definition case_list (escape : bool) (text : string) (v : Condition value) (acc : where_part) : outcome string where_part :=
  let* s := trim_end (marks (length (Values v))) 1 in
  Ok (acc.1 +:+ BuildCondKey escape (Key v) +:+ text +:+ s +:+ ") and", acc.2 ++ Values v)%list.

(** One condition object of an [Or]; [rec] builds it, or is [None] when the
    value is something else. *)
Definition or_step (rec : value -> option (outcome string where_part))
    (acc : outcome string where_part) (v : value) : outcome string where_part :=
  match rec v with
  | None => acc
  | Some r =>
      let* (orpart, args) := acc in
      let* (buf, arg) := r in
      let* s := trim_end buf 3 in
      Ok (orpart +:+ s +:+ " or", args ++ arg)%list
  end.

Definition case_or (rec : value -> option (outcome string where_part)) (v : Condition value)
    (acc : where_part) : outcome string where_part :=
  let* (orpart, args) := foldl (or_step rec) (Ok ("", [])) (Values v) in
  let* s := trim_end orpart 3 in
  Ok (acc.1 +:+ " (" +:+ s +:+ ") and", acc.2 ++ args)%list.

(** The [switch] on the kind of a condition; a kind with no case adds nothing. *)
Definition where_step (escape : bool) (rec : value -> option (outcome string where_part))
    (acc : outcome string where_part) (v : Condition value) : outcome string where_part :=
  let* acc := acc in
  let l := Logic v in
  if l =? EQ_ then Ok (case_one escape " = ? and" v acc)
  else if l =? NOT_EQ_ then Ok (case_one escape " <> ? and" v acc)
  else if l =? LT_ then Ok (case_one escape " < ? and" v acc)
  else if l =? LTE_ then Ok (case_one escape " <= ? and" v acc)
  else if l =? GT_ then Ok (case_one escape " > ? and" v acc)
  else if l =? GTE_ then Ok (case_one escape " >= ? and" v acc)
  else if l =? IS_NULL_ then Ok (case_none escape " is null and" v acc)
  else if l =? IS_NOT_NULL_ then Ok (case_none escape " is not null and" v acc)
  else if l =? BETWEEN_ then case_two escape " between ? and ? and" v acc
  else if l =? NOT_BETWEEN_ then case_two escape " not between ? and ? and" v acc
  else if l =? IN_ then case_list escape " in(" v acc
  else if l =? NOT_IN_ then case_list escape " not in(" v acc
  else if l =? LIKE_ then Ok (case_one escape " like concat('%',?,'%') and" v acc)
  else if l =? NOT_LIKE_ then Ok (case_one escape " not like concat('%',?,'%') and" v acc)
  else if l =? OR_ then case_or rec v acc
  else Ok acc.

Fixpoint where_value (v : value) : option (outcome string where_part) :=
  match v with
  | VCnd c => Some (foldl (where_step (Escape c) where_value) (Ok ("", [])) (Conditions c))
  | _ => None
  end.

Definition BuildWhereCase (cnd : Cnd) : outcome string where_part :=
  foldl (where_step (Escape cnd) where_value) (Ok ("", [])) (Conditions cnd).

Definition BuildGroupBy (cnd : Cnd) : outcome string string :=
  match Groupbys cnd with
  | [] => Ok ""
  | gs =>
      trim_end (foldl (fun s v => if slen v =? 0 then s else s +:+ BuildCondKey (Escape cnd) v +:+ ",")
                  " group by" gs) 1
  end.

Definition order_text (v : value) : string :=
  match v with
  | VInt z => if z =? DESC_ then " desc," else if z =? ASC_ then " asc," else ""
  | _ => ""
  end.

Definition BuildSortBy (cnd : Cnd) : outcome string string :=
  match Orderbys cnd with
  | [] => Ok ""
  | os =>
      trim_end (foldl (fun s v => s +:+ BuildCondKey (Escape cnd) (Key v) +:+ order_text (Value v))
                  " order by" os) 1
  end.

(** ** Strings *)

Lemma trim_app s t : trim_end (s +:+ t) (slen t) = Ok s.
Proof.
  unfold trim_end, Substr, slice. rewrite slen_app.
  assert (0 <= slen s /\ 0 <= slen t) as [Hs Ht] by (unfold slen; lia).
  replace ((0 <=? 0) && (0 <=? slen s + slen t - slen t) && (slen s + slen t - slen t <=? slen s + slen t)) with true
    by (symmetry; rewrite !andb_true_iff, !Z.leb_le; lia).
  f_equal. replace (slen s + slen t - slen t - 0) with (slen s) by lia.
  unfold slen. rewrite Nat2Z.id. apply substring_app.
Qed.

Lemma trim_empty n : 0 < n -> trim_end "" n = Panic "slice bounds out of range".
Proof.
  intros Hn. unfold trim_end, Substr, slice. change (slen "") with 0.
  destruct (0 <=? 0 - n) eqn:E; z_bools; [lia|]. by rewrite andb_false_r.
Qed.

(** Cutting off the last [and] leaves a space. *)
Lemma trim_and q : trim_end (q +:+ " and") 3 = Ok (q +:+ " ").
Proof.
  change (q +:+ " and") with (q +:+ " " +:+ "and"). rewrite str_app_assoc. change 3 with (slen "and"). apply trim_app.
Qed.

Lemma marks_S n : marks (S n) = marks n +:+ "?,".
Proof. unfold marks. by rewrite seq_S, foldl_app. Qed.

Definition count_marks (s : string) : nat :=
  length (List.filter (Ascii.eqb "?"%char) (String.list_ascii_of_string s)).

Lemma count_marks_app s t : count_marks (s +:+ t) = (count_marks s + count_marks t)%nat.
Proof.
  unfold count_marks. induction s as [|c s IH]; [done|].
  change (String c s +:+ t) with (String c (s +:+ t)). cbn [String.list_ascii_of_string List.filter].
  destruct (Ascii.eqb _ c); cbn [length]; lia.
Qed.

Lemma marks_count n : count_marks (marks n) = n.
Proof. induction n as [|n IH]; [done|]. rewrite marks_S, count_marks_app, IH. cbn. lia. Qed.

(** ** The where part, condition by condition *)

Abbreviation builder := (value -> option (outcome string where_part)).

Definition clause (escape : bool) (rec : builder) (v : Condition value) : outcome string where_part :=
  where_step escape rec (Ok ("", [])) v.

Definition append_part (p q : where_part) : where_part := (p.1 +:+ q.1, (p.2 ++ q.2)%list).

Fixpoint clauses (escape : bool) (rec : builder) (l : list (Condition value)) : outcome string where_part :=
  match l with
  | [] => Ok ("", [])
  | v :: l =>
      let* p := clause escape rec v in
      let* q := clauses escape rec l in
      Ok (append_part p q)
  end.

Lemma append_part_assoc p q r : append_part p (append_part q r) = append_part (append_part p q) r.
Proof. unfold append_part. cbn [fst snd]. by rewrite str_app_assoc, app_assoc. Qed.

Lemma where_step_append escape rec p v :
  where_step escape rec (Ok p) v = let* q := clause escape rec v in Ok (append_part p q).
Proof.
  unfold clause, where_step. cbn [bind_outcome].
  repeat (case_match; [reflexivity || (cbn [bind_outcome]; unfold append_part, case_none; cbn [fst snd]; by rewrite app_nil_r) ||
    (unfold case_two; by destruct (Values v) as [|? [|? ?]]) ||
    (unfold case_list; by destruct (trim_end _ _)) ||
    (unfold case_or; destruct (foldl _ _ _) as [[o a]| |]; cbn [bind_outcome]; [by destruct (trim_end o 3)|done|done])|]).
  cbn [bind_outcome]. unfold append_part. cbn [fst snd]. rewrite str_app_nil_r, app_nil_r. by destruct p.
Qed.

Lemma where_fold escape rec acc l :
  foldl (where_step escape rec) acc l =
  let* p := acc in let* q := clauses escape rec l in Ok (append_part p q).
Proof.
  revert acc. induction l as [|v l IH]; intros acc; cbn [foldl clauses].
  - destruct acc as [p| |]; cbn [bind_outcome]; [|done|done]. unfold append_part. cbn [fst snd].
    rewrite str_app_nil_r, app_nil_r. by destruct p.
  - rewrite IH. destruct acc as [p| |]; [|done|done]. rewrite where_step_append. cbn [bind_outcome].
    destruct (clause escape rec v) as [q| |]; cbn [bind_outcome]; [|done|done].
    destruct (clauses escape rec l) as [r| |]; cbn [bind_outcome]; [|done|done].
    by rewrite append_part_assoc.
Qed.

Lemma BuildWhereCase_clauses cnd : BuildWhereCase cnd = clauses (Escape cnd) where_value (Conditions cnd).
Proof.
  unfold BuildWhereCase. rewrite where_fold. cbn [bind_outcome].
  destruct (clauses _ _ _) as [[p a]| |]; done.
Qed.

Lemma where_value_cnd c : where_value (VCnd c) = Some (BuildWhereCase c).
Proof. done. Qed.

(** The disjuncts of an [Or], one by one. *)
Fixpoint disjuncts (rec : builder) (l : list value) : outcome string where_part :=
  match l with
  | [] => Ok ("", [])
  | v :: l =>
      match rec v with
      | None => disjuncts rec l
      | Some r =>
          let* (buf, arg) := r in
          let* s := trim_end buf 3 in
          let* q := disjuncts rec l in
          Ok (append_part (s +:+ " or", arg) q)
      end
  end.

Lemma or_fold rec acc l :
  foldl (or_step rec) acc l = let* p := acc in let* q := disjuncts rec l in Ok (append_part p q).
Proof.
  revert acc. induction l as [|v l IH]; intros acc; cbn [foldl disjuncts].
  - destruct acc as [p| |]; cbn [bind_outcome]; [|done|done]. unfold append_part. cbn [fst snd].
    rewrite str_app_nil_r, app_nil_r. by destruct p.
  - rewrite IH. unfold or_step. destruct (rec v) as [r|]; [|done].
    destruct acc as [[p a]| |]; cbn [bind_outcome]; [|done|done].
    destruct r as [[buf arg]| |]; cbn [bind_outcome]; [|done|done].
    destruct (trim_end buf 3) as [s| |]; cbn [bind_outcome]; [|done|done].
    destruct (disjuncts rec l) as [r| |]; cbn [bind_outcome]; [|done|done].
    unfold append_part. cbn [fst snd]. by rewrite <- !str_app_assoc, app_assoc.
Qed.

(** ** When the where part can be built *)

Definition handled (l : Z) : bool :=
  ((EQ_ <=? l) && (l <=? BETWEEN_)) || ((NOT_BETWEEN_ <=? l) && (l <=? OR_)).

(** A condition object that writes at least one condition. *)
Definition writes (v : value) : bool :=
  match v with VCnd c => existsb (fun k => handled (Logic k)) (Conditions c) | _ => false end.

(** Ranges have their two bounds, lists a value, and an [Or] at least one
    condition object, each of which writes something. *)
Definition clause_sound (rec : value -> bool) (k : Condition value) : bool :=
  let l := Logic k in
  if (l =? BETWEEN_) || (l =? NOT_BETWEEN_) then (2 <=? length (Values k))%nat
  else if (l =? IN_) || (l =? NOT_IN_) then (1 <=? length (Values k))%nat
  else if l =? OR_ then
    existsb is_cnd (Values k) && forallb (fun v => negb (is_cnd v) || (writes v && rec v)) (Values k)
  else true.

Fixpoint sound (v : value) : bool :=
  match v with
  | VCnd c => forallb (clause_sound sound) (Conditions c)
  | _ => true
  end.

(** A part that is empty, or ends with the given word. *)
Definition ends (written : bool) (w : string) (p : where_part) : Prop :=
  if written then exists q, p.1 = q +:+ w else p = ("", []).

Definition built (v : value) : Prop :=
  forall c, v = VCnd c ->
    is_ok (BuildWhereCase c) = sound v /\
    forall p, BuildWhereCase c = Ok p -> ends (writes v) " and" p.

Lemma ends_append b1 b2 w p q : ends b1 w p -> ends b2 w q -> ends (b1 || b2) w (append_part p q).
Proof.
  unfold ends, append_part. destruct b1, b2; cbn [orb fst snd].
  - intros _ [s ->]. exists (p.1 +:+ s). by rewrite str_app_assoc.
  - intros [s Es] ->. exists s. cbn [fst snd]. by rewrite str_app_nil_r.
  - intros -> [s Es]. exists s. exact Es.
  - by intros -> ->.
Qed.

Lemma disjuncts_built l :
  Forall built l ->
  is_ok (disjuncts where_value l) = forallb (fun v => negb (is_cnd v) || (writes v && sound v)) l /\
  forall p, disjuncts where_value l = Ok p -> ends (existsb is_cnd l) " or" p.
Proof.
  induction 1 as [|v l Hv Hl [IH1 IH2]]; [split; [done|by intros p [= <-]]|].
  cbn [disjuncts forallb existsb].
  destruct v as [| | | | |c]; cbn [where_value is_cnd negb orb andb]; try (split; [done|exact IH2]).
  change (foldl (where_step (Escape c) where_value) (Ok ("", [])) (Conditions c)) with (BuildWhereCase c).
  destruct (Hv c eq_refl) as [Hs He]. rewrite <- Hs. destruct (BuildWhereCase c) as [[buf arg]| |]; cbn [is_ok bind_outcome];
    [|split; [by rewrite andb_false_r|done]..].
  specialize (He _ eq_refl). destruct (writes (VCnd c)); cbn [andb].
  - destruct He as [q Eq]. cbn [fst] in Eq. subst buf. rewrite trim_and. cbn [bind_outcome].
    destruct (disjuncts where_value l) as [q'| |]; cbn [bind_outcome is_ok] in *; [|split; done..].
    split; [done|]. intros p [= <-].
    apply (ends_append true (existsb is_cnd l) " or"); [by exists (q +:+ " ")|by apply IH2].
  - injection He as -> ->. rewrite trim_empty by lia. done.
Qed.

(** Evaluates the tests between constants. *)
Ltac eqb_eval :=
  repeat match goal with
  | |- context [?a =? ?b] =>
      let r := eval vm_compute in (a =? b) in
      lazymatch r with true => idtac | false => idtac end; change (a =? b) with r
  end; cbn [orb andb bind_outcome].

Lemma ends_key escape key t w args : ends true w (BuildCondKey escape key +:+ t +:+ w, args).
Proof. exists (BuildCondKey escape key +:+ t). cbn [fst]. by rewrite str_app_assoc. Qed.

(** The same for a literal text. *)
Definition and_text (t : string) : Prop := t = String.substring 0 (String.length t - 4) t +:+ " and".

Lemma ends_text escape key t args : and_text t -> ends true " and" (BuildCondKey escape key +:+ t, args).
Proof. intros ->. apply ends_key. Qed.

Lemma case_two_built escape t k :
  and_text t ->
  is_ok (case_two escape t k ("", [])) = (2 <=? length (Values k))%nat /\
  forall p, case_two escape t k ("", []) = Ok p -> ends true " and" p.
Proof.
  intros Ht. unfold case_two. destruct (Values k) as [|v0 [|v1 l]]; try done. split; [done|].
  intros p [= <-]. by apply ends_text.
Qed.

Lemma trim_marks n : trim_end (marks (S n)) 1 = Ok (marks n +:+ "?").
Proof. rewrite marks_S. change (marks n +:+ "?,") with (marks n +:+ "?" +:+ ","). rewrite str_app_assoc. apply trim_app. Qed.

Lemma case_list_built escape t k :
  is_ok (case_list escape t k ("", [])) = (1 <=? length (Values k))%nat /\
  forall p, case_list escape t k ("", []) = Ok p -> ends true " and" p.
Proof.
  unfold case_list. destruct (length (Values k)) as [|n].
  - rewrite trim_empty by lia. done.
  - rewrite trim_marks. cbn [bind_outcome is_ok]. split; [done|].
    intros p [= <-]. exists (BuildCondKey escape (Key k) +:+ t +:+ (marks n +:+ "?") +:+ ")"). cbn [fst].
    rewrite <- !str_app_assoc. reflexivity.
Qed.

Lemma case_or_built k :
  Forall built (Values k) ->
  is_ok (case_or where_value k ("", [])) =
    existsb is_cnd (Values k) && forallb (fun v => negb (is_cnd v) || (writes v && sound v)) (Values k) /\
  forall p, case_or where_value k ("", []) = Ok p -> ends true " and" p.
Proof.
  intros Hv. destruct (disjuncts_built _ Hv) as [Hd He]. unfold case_or. rewrite or_fold, <- Hd. cbn [bind_outcome].
  destruct (disjuncts where_value (Values k)) as [[o a]| |]; cbn [bind_outcome is_ok]; [|by rewrite andb_false_r..].
  specialize (He _ eq_refl). unfold append_part. cbn [fst snd]. change ("" +:+ o) with o.
  destruct (existsb is_cnd (Values k)).
  - destruct He as [q Eq]. cbn [fst] in Eq. subst o. change 3 with (slen " or"). rewrite trim_app. cbn [bind_outcome is_ok].
    split; [done|]. intros p [= <-]. exists (" (" +:+ q +:+ ")"). cbn [fst]. rewrite <- !str_app_assoc. reflexivity.
  - injection He as -> ->. rewrite trim_empty by lia. done.
Qed.

Lemma not_handled l :
  l <> EQ_ -> l <> NOT_EQ_ -> l <> LT_ -> l <> LTE_ -> l <> GT_ -> l <> GTE_ -> l <> IS_NULL_ -> l <> IS_NOT_NULL_ ->
  l <> BETWEEN_ -> l <> NOT_BETWEEN_ -> l <> IN_ -> l <> NOT_IN_ -> l <> LIKE_ -> l <> NOT_LIKE_ -> l <> OR_ ->
  handled l = false.
Proof.
  unfold EQ_, NOT_EQ_, LT_, LTE_, GT_, GTE_, IS_NULL_, IS_NOT_NULL_, BETWEEN_, NOT_BETWEEN_, IN_, NOT_IN_, LIKE_, NOT_LIKE_, OR_.
  intros. apply not_true_is_false. unfold handled, EQ_, BETWEEN_, NOT_BETWEEN_, OR_.
  rewrite orb_true_iff, !andb_true_iff, !Z.leb_le. lia.
Qed.

Lemma clause_built escape k :
  Forall built (Values k) ->
  is_ok (clause escape where_value k) = clause_sound sound k /\
  forall p, clause escape where_value k = Ok p -> ends (handled (Logic k)) " and" p.
Proof.
  intros Hv. pose proof (case_or_built k Hv) as Hor. unfold clause, where_step, clause_sound.
  cbn [bind_outcome].
  repeat match goal with
  | |- context [if Logic k =? ?x then _ else _] =>
      destruct (Logic k =? x) eqn:?;
      [match goal with H : (Logic k =? x) = true |- _ => apply Z.eqb_eq in H; rewrite H; change (handled x) with true end;
       eqb_eval;
       first [ split; [done|intros p [= <-]; apply ends_text; reflexivity]
             | apply case_two_built; reflexivity | apply case_list_built | exact Hor ] |]
  end.
  z_bools. rewrite (not_handled (Logic k)) by done.
  repeat match goal with H : Logic k <> ?x |- _ => rewrite (proj2 (Z.eqb_neq (Logic k) x) H) end. cbn [orb].
  split; [done|]. by intros p [= <-].
Qed.

Lemma clauses_built escape l :
  Forall (fun k => Forall built (Values k)) l ->
  is_ok (clauses escape where_value l) = forallb (clause_sound sound) l /\
  forall p, clauses escape where_value l = Ok p -> ends (existsb (fun k => handled (Logic k)) l) " and" p.
Proof.
  induction 1 as [|k l Hk _ [IH1 IH2]]; [split; [done|by intros p [= <-]]|].
  cbn [clauses forallb existsb]. destruct (clause_built escape k Hk) as [H1 H2]. rewrite <- H1, <- IH1.
  destruct (clause escape where_value k) as [p| |]; cbn [bind_outcome is_ok]; [|split; done..].
  destruct (clauses escape where_value l) as [q| |]; cbn [bind_outcome is_ok]; [|split; done..].
  split; [done|]. intros r [= <-]. apply ends_append; auto.
Qed.

Lemma all_built v : built v.
Proof.
  induction v as [| | | | |c IH] using value_nested_ind; intros c' E; simplify_eq.
  rewrite BuildWhereCase_clauses. exact (clauses_built (Escape c') (Conditions c') IH).
Qed.

(** C29: [BuildWhereCase] panics exactly on a condition object that is not sound:
    one with a range without two bounds, an empty list, or an [Or] that has no
    condition object, or has one that writes nothing or is itself not sound. *)
Theorem BuildWhereCase_total (cnd : Cnd) : is_ok (BuildWhereCase cnd) = sound (VCnd cnd).
Proof. by destruct (all_built (VCnd cnd) cnd eq_refl). Qed.

(** *** Placeholders and arguments *)

(** No key holds a question mark. *)
Fixpoint clean_keys (v : value) : bool :=
  match v with
  | VCnd c => forallb (fun k => (count_marks (Key k) =? 0)%nat && forallb clean_keys (Values k)) (Conditions c)
  | _ => true
  end.

Definition marked (p : where_part) : Prop := count_marks p.1 = length p.2.

Lemma marked_append p q : marked p -> marked q -> marked (append_part p q).
Proof. unfold marked, append_part. cbn [fst snd]. rewrite count_marks_app, length_app. lia. Qed.

Lemma BuildCondKey_marks escape key : count_marks (BuildCondKey escape key) = count_marks key.
Proof.
  unfold BuildCondKey. destruct escape; rewrite !count_marks_app; [|done].
  change (count_marks " `") with 0%nat. change (count_marks "`") with 0%nat. lia.
Qed.

Definition value_marked (v : value) : Prop :=
  forall c, v = VCnd c -> clean_keys v = true -> forall p, BuildWhereCase c = Ok p -> marked p.

Lemma disjuncts_marked l p :
  Forall value_marked l -> forallb clean_keys l = true ->
  disjuncts where_value l = Ok p -> marked p.
Proof.
  intros Hl. revert p. induction Hl as [|v l Hv _ IH]; intros p Hc; [by intros [= <-]|].
  cbn [forallb] in Hc. apply andb_prop in Hc as [Hc1 Hc2]. cbn [disjuncts].
  destruct v as [| | | | |c]; cbn [where_value]; try (by apply IH).
  change (foldl (where_step (Escape c) where_value) (Ok ("", [])) (Conditions c)) with (BuildWhereCase c).
  destruct (BuildWhereCase c) as [[buf arg]| |] eqn:E; cbn [bind_outcome]; [|done..].
  specialize (Hv c eq_refl Hc1 _ E). pose proof (proj2 (all_built (VCnd c) c eq_refl) _ E) as He.
  unfold ends in He. destruct (writes (VCnd c)).
  - destruct He as [q Eq]. cbn [fst] in Eq. subst buf. rewrite trim_and. cbn [bind_outcome].
    destruct (disjuncts where_value l) as [r| |]; cbn [bind_outcome]; [|done..]. intros [= <-].
    apply marked_append; [|by apply IH]. unfold marked in *. cbn [fst snd] in *. rewrite !count_marks_app in *.
    change (count_marks " and") with 0%nat in Hv. change (count_marks " ") with 0%nat. change (count_marks " or") with 0%nat. lia.
  - injection He as -> ->. rewrite trim_empty by lia. done.
Qed.

Lemma clause_marked escape k p :
  Forall value_marked (Values k) -> count_marks (Key k) = 0%nat -> forallb clean_keys (Values k) = true ->
  clause escape where_value k = Ok p -> marked p.
Proof.
  intros Hv Hk Hc. unfold clause, where_step. cbn [bind_outcome].
  assert (forall t args, count_marks t = length args -> marked (BuildCondKey escape (Key k) +:+ t, args)) as Hone.
  { intros t args Ht. unfold marked. cbn [fst snd]. rewrite count_marks_app, BuildCondKey_marks, Hk. done. }
  assert (forall t, count_marks t = 2%nat -> case_two escape t k ("", []) = Ok p -> marked p) as Htwo.
  { intros t Ht. unfold case_two. destruct (Values k) as [|v0 [|v1 l]]; try done. intros [= <-]. by apply Hone. }
  assert (forall t, count_marks t = 0%nat -> case_list escape t k ("", []) = Ok p -> marked p) as Hlist.
  { intros t Ht. unfold case_list. destruct (length (Values k)) as [|n] eqn:El; [by rewrite trim_empty by lia|].
    rewrite trim_marks. cbn [bind_outcome]. intros [= <-]. apply Hone. rewrite !count_marks_app, Ht, marks_count.
    change (count_marks "?") with 1%nat. change (count_marks ") and") with 0%nat. cbn [app]. lia. }
  repeat (case_match; [first [ intros [= <-]; by apply Hone | by apply Htwo | by apply Hlist | idtac ]|]).
  2:{ by intros [= <-]. }
  unfold case_or. rewrite or_fold. cbn [bind_outcome]. pose proof (disjuncts_built _ (Forall_true _ (Values k) all_built)) as [_ He].
  destruct (disjuncts where_value (Values k)) as [[o a]| |] eqn:E; cbn [bind_outcome]; [|done..].
  pose proof (disjuncts_marked _ _ Hv Hc E) as Hm. specialize (He _ eq_refl). unfold append_part. cbn [fst snd].
  change ("" +:+ o) with o. unfold ends in He. destruct (existsb is_cnd (Values k)).
  - destruct He as [q Eq]. cbn [fst] in Eq. subst o. change 3 with (slen " or"). rewrite trim_app. cbn [bind_outcome].
    intros [= <-]. unfold marked in *. cbn [fst snd app] in *. rewrite !count_marks_app in *.
    change (count_marks " or") with 0%nat in Hm. change (count_marks "") with 0%nat.
    change (count_marks " (") with 0%nat. change (count_marks ") and") with 0%nat. lia.
  - injection He as -> ->. by rewrite trim_empty by lia.
Qed.

Lemma clauses_marked escape l p :
  Forall (fun k => Forall value_marked (Values k)) l ->
  forallb (fun k => (count_marks (Key k) =? 0)%nat && forallb clean_keys (Values k)) l = true ->
  clauses escape where_value l = Ok p -> marked p.
Proof.
  intros Hl. revert p. induction Hl as [|k l Hk _ IH]; intros p Hc; [by intros [= <-]|].
  cbn [forallb] in Hc. apply andb_prop in Hc as [[Hk1%Nat.eqb_eq Hk2]%andb_prop Hc]. cbn [clauses].
  destruct (clause escape where_value k) as [p1| |] eqn:E; cbn [bind_outcome]; [|done..].
  destruct (clauses escape where_value l) as [p2| |]; cbn [bind_outcome]; [|done..].
  intros [= <-]. apply marked_append; [by eapply clause_marked|by apply IH].
Qed.

Lemma all_marked v : value_marked v.
Proof.
  induction v as [| | | | |c IH] using value_nested_ind; intros c' E Hc p Hp; simplify_eq.
  rewrite BuildWhereCase_clauses in Hp. by eapply clauses_marked.
Qed.

(** C28: a where part has one argument for each of its placeholders, however the
    conditions nest, and is empty or ends in [" and"], which the statements cut
    off. *)
Theorem BuildWhereCase_marks (cnd : Cnd) part args :
  clean_keys (VCnd cnd) = true -> BuildWhereCase cnd = Ok (part, args) ->
  count_marks part = length args /\ (part = "" /\ args = [] \/ exists q, part = q +:+ " and").
Proof.
  intros Hc H. split; [exact (all_marked (VCnd cnd) cnd eq_refl Hc _ H)|].
  pose proof (proj2 (all_built (VCnd cnd) cnd eq_refl) _ H) as He. unfold ends in He.
  destruct (writes (VCnd cnd)); [by right|left]. by simplify_eq.
Qed.

(** A date range given with [InDate] is dropped: the statement is built as if
    the condition were not there. *)
Theorem InDate_dropped (cnd : Cnd) key v1 v2 : BuildWhereCase (InDate cnd key v1 v2) = BuildWhereCase cnd.
Proof.
  unfold InDate, two_values. destruct (is_nil v1 || is_nil v2); [done|].
  unfold BuildWhereCase. cbn [Conditions addDefaultCondit set_conditions Escape].
  rewrite foldl_app. cbn [foldl]. unfold where_step at 1. cbn [Logic]. unfold BETWEEN2_.
  destruct (foldl _ _ _); done.
Qed.

(** A query with a nested [Or]. *)
Definition demo_cnd : Cnd :=
  Between (Or (Eq (M ["t_order"]) "uid" (VInt 5))
             [VCnd (IsNull (M []) "done"); VCnd (In (Like (M []) "name" (VStr "x")) "kind" [VInt 1; VInt 2])])
    "price" (VInt 1) (VInt 9).

Example demo_where :
  BuildWhereCase demo_cnd =
  Ok (" `uid` = ? and ( `done` is null  or `name` like concat('%',?,'%') and `kind` in(?,?) ) and `price` between ? and ? and",
      [VInt 5; VStr "x"; VInt 1; VInt 2; VInt 1; VInt 9]).
Proof. vm_compute. reflexivity. Qed.

Lemma BuildWhereCase_marks_witness :
  exists part args, BuildWhereCase demo_cnd = Ok (part, args) /\ count_marks part = length args.
Proof.
  eexists. eexists. split; [vm_compute; reflexivity|].
  apply (BuildWhereCase_marks demo_cnd); vm_compute; reflexivity.
Defined.

(** An [Or] over an empty condition object panics. *)
Example or_of_nothing : is_panic (BuildWhereCase (Or (M []) [VCnd (M [])])) = true.
Proof. vm_compute. reflexivity. Qed.
