(* ===== verification/SqlSpec.v ===== *)
(** * What the conditions of a statement say

    The where part that [SqlBuilder] writes piece by piece, as a text of its own: the
    texts of the conditions joined by [and], those of the condition objects of an [Or]
    joined by [or].  [BuildWhereCase_text] shows that the builder writes this text, with
    the arguments in the order of its placeholders.  A condition of a kind that the
    builder has no case for, which is what [InDate] makes, has no text. *)

From S2P Require Import Prelude GoStrings Common Sqlc SqlBuilder.

#[local] Open Scope string_scope.
#[local] Open Scope Z_scope.

(** What follows the key of a condition on its value, its values or nothing. *)
Definition value_tests : list (Z * string) :=
  [(EQ_, " = ?"); (NOT_EQ_, " <> ?"); (LT_, " < ?"); (LTE_, " <= ?"); (GT_, " > ?"); (GTE_, " >= ?");
   (LIKE_, " like concat('%',?,'%')"); (NOT_LIKE_, " not like concat('%',?,'%')")].
Definition null_tests : list (Z * string) := [(IS_NULL_, " is null"); (IS_NOT_NULL_, " is not null")].
Definition range_tests : list (Z * string) := [(BETWEEN_, " between ? and ?"); (NOT_BETWEEN_, " not between ? and ?")].
Definition list_tests : list (Z * string) := [(IN_, " in("); (NOT_IN_, " not in(")].

Definition test_of (l : Z) (tests : list (Z * string)) : option string := snd <$> List.find (fun t => l =? t.1) tests.

(** A condition that is not an [Or]. *)
Definition plain_text (escape : bool) (k : Condition value) : option where_part :=
  let key := BuildCondKey escape (Key k) in
  match test_of (Logic k) value_tests, test_of (Logic k) null_tests, test_of (Logic k) range_tests, test_of (Logic k) list_tests with
  | Some t, _, _, _ => Some (key +:+ t, [Value k])
  | _, Some t, _, _ => Some (key +:+ t, [])
  | _, _, Some t, _ => Some (key +:+ t, take 2 (Values k))
  | _, _, _, Some t => Some (key +:+ t +:+ String.concat "," (replicate (length (Values k)) "?") +:+ ")", Values k)
  | _, _, _, _ => None
  end.

(** The texts of several parts, and their arguments. *)
Definition joined (sep : string) (l : list where_part) : where_part := (String.concat sep (map fst l), concat (map snd l)).

Definition condition_text (conjuncts : value -> list where_part) (escape : bool) (k : Condition value) : option where_part :=
  if Logic k =? OR_ then
    let any := joined " or" (flat_map (fun v => if is_cnd v then
                 let all := joined " and" (conjuncts v) in [(all.1 +:+ " ", all.2)] else []) (Values k)) in
    Some (" (" +:+ any.1 +:+ ")", any.2)
  else plain_text escape k.

(** The conditions of a condition object that have a text. *)
Fixpoint conjuncts (v : value) : list where_part :=
  match v with
  | VCnd c => flat_map (fun k => option_list (condition_text conjuncts (Escape c) k)) (Conditions c)
  | _ => []
  end.

(** ** The builder writes it *)

(** Every part with the word behind it. *)
Definition followed (w : string) (l : list where_part) : where_part :=
  (String.concat "" (map (fun p => p.1 +:+ w) l), concat (map snd l)).

Lemma concat_cons_empty a l : String.concat "" (a :: l) = a +:+ String.concat "" l.
Proof. destruct l as [|b l]; cbn [String.concat]; [by rewrite str_app_nil_r|done]. Qed.

Lemma followed_app w l l' : followed w (l ++ l') = append_part (followed w l) (followed w l').
Proof.
  unfold followed, append_part. cbn [fst snd]. rewrite !map_app, concat_app. f_equal.
  induction l as [|p l IH]; cbn [map app]; [done|]. by rewrite !concat_cons_empty, IH, str_app_assoc.
Qed.

Lemma followed_joined w l : l <> [] -> followed w l = ((joined w l).1 +:+ w, (joined w l).2).
Proof.
  intros Hl. unfold followed, joined. cbn [fst snd]. f_equal. induction l as [|p [|q l] IH]; [done|done|].
  cbn [map] in *. rewrite concat_cons_empty, IH by done. cbn [String.concat]. by rewrite <- !str_app_assoc.
Qed.

Definition says (v : value) : Prop :=
  forall c p, v = VCnd c -> BuildWhereCase c = Ok p -> p = followed " and" (conjuncts v).

(** What an [Or] holds. *)
Definition alternatives (l : list value) : list where_part :=
  flat_map (fun v => if is_cnd v then let all := joined " and" (conjuncts v) in [(all.1 +:+ " ", all.2)] else []) l.

Lemma followed_one w p : followed w [p] = (p.1 +:+ w, p.2).
Proof. unfold followed. cbn. by rewrite app_nil_r. Qed.

Lemma disjuncts_say l p : Forall says l -> disjuncts where_value l = Ok p -> p = followed " or" (alternatives l).
Proof.
  intros Hl. revert p. induction Hl as [|v l Hv _ IH]; intros p; [by intros [= <-]|]. cbn [disjuncts].
  unfold alternatives. cbn [flat_map]. fold (alternatives l). rewrite followed_app.
  destruct v as [| | | | |c]; cbn [where_value is_cnd]; try (intros Hp; rewrite (IH p Hp); cbn; by destruct (followed " or" (alternatives l))).
  change (foldl (where_step (Escape c) where_value) (Ok ("", [])) (Conditions c)) with (BuildWhereCase c).
  destruct (BuildWhereCase c) as [b| |] eqn:E; cbn [bind_outcome]; [|done..]. pose proof (Hv c b eq_refl E) as ->.
  destruct (decide (conjuncts (VCnd c) = [])) as [Hn|Hn].
  { rewrite Hn. cbn [followed map String.concat concat]. by rewrite trim_empty by lia. }
  rewrite followed_joined by done. cbn [fst snd]. rewrite trim_and. cbn [bind_outcome].
  destruct (disjuncts where_value l) as [q| |]; cbn [bind_outcome]; [|done..]. intros [= <-].
  rewrite followed_one. cbn [fst snd]. by rewrite (IH q eq_refl).
Qed.

Lemma marks_text n : marks n +:+ "?" = String.concat "," (replicate (S n) "?").
Proof.
  assert (forall n, marks (S n) = "?," +:+ marks n) as Hm.
  { clear. induction n as [|n IH]; [done|].
    transitivity (("?," +:+ marks n) +:+ "?,"); [by rewrite (marks_S (S n)), IH|]. by rewrite (marks_S n), str_app_assoc. }
  induction n as [|n IH]; [done|]. rewrite Hm. rewrite <- str_app_assoc, IH. done.
Qed.

Lemma clause_says escape k p :
  Forall says (Values k) -> clause escape where_value k = Ok p ->
  p = followed " and" (option_list (condition_text conjuncts escape k)).
Proof.
  intros Hv. unfold clause, where_step, condition_text, plain_text. cbn [bind_outcome].
  assert (forall t w, (BuildCondKey escape (Key k) +:+ t) +:+ w = BuildCondKey escape (Key k) +:+ t +:+ w) as Hassoc
    by (intros; by rewrite <- str_app_assoc).
  assert (forall t t', t' = t +:+ " and" -> case_two escape t' k ("", []) = Ok p ->
    p = followed " and" [(BuildCondKey escape (Key k) +:+ t, take 2 (Values k))]) as Htwo.
  { intros t t' ->. unfold case_two. destruct (Values k) as [|a [|b l]]; [done|done|]. intros [= <-].
    rewrite followed_one. cbn [fst snd]. by rewrite Hassoc. }
  assert (forall t, case_list escape t k ("", []) = Ok p ->
    p = followed " and" [(BuildCondKey escape (Key k) +:+ t +:+ String.concat "," (replicate (length (Values k)) "?") +:+ ")", Values k)]) as Hlist.
  { intros t. unfold case_list. destruct (length (Values k)) as [|n] eqn:El; [by rewrite trim_empty by lia|].
    rewrite trim_marks. cbn [bind_outcome]. intros [= <-]. rewrite followed_one, <- marks_text. cbn [fst snd app].
    by rewrite <- !str_app_assoc. }
  repeat match goal with
  | |- context [if Logic k =? ?x then _ else _] =>
      destruct (Logic k =? x) eqn:?;
      [match goal with H : (Logic k =? x) = true |- _ => apply Z.eqb_eq in H; rewrite ?H end|]
  end.
  all: try (intros [= <-]; cbn; rewrite ?followed_one; cbn [fst snd app]; by rewrite ?Hassoc).
  all: try by apply Htwo.
  all: try by apply Hlist.
  - unfold case_or. rewrite or_fold. cbn [bind_outcome].
    destruct (disjuncts where_value (Values k)) as [q| |] eqn:E; cbn [bind_outcome]; [|done..].
    rewrite (disjuncts_say _ q Hv E). unfold append_part. cbn [fst snd app].
    change ("" +:+ (followed " or" (alternatives (Values k))).1) with (followed " or" (alternatives (Values k))).1.
    destruct (decide (alternatives (Values k) = [])) as [Hn|Hn].
    { rewrite Hn. cbn [followed map String.concat concat fst]. by rewrite trim_empty by lia. }
    rewrite followed_joined by done. cbn [fst snd]. change 3 with (slen " or"). rewrite trim_app. cbn [bind_outcome].
    intros [= <-]. match goal with |- context [option_list (Some ?x)] => change (option_list (Some x)) with [x] end. rewrite followed_one. cbn [fst snd].
    fold (alternatives (Values k)). by rewrite <- !str_app_assoc.
  - intros [= <-].
    assert (forall l, (forall x t, (x, t) ∈ l -> (Logic k =? x) = false) -> test_of (Logic k) l = None) as Hnone.
    { clear. intros l Hl. unfold test_of. induction l as [|[x t] l IH]; [done|]. cbn [List.find fst].
      rewrite (Hl x t) by left. apply IH. intros y u Hy. apply (Hl y u). by right. }
    rewrite !Hnone; [done|..]; intros x t Hx; repeat (apply elem_of_cons in Hx as [[= -> ->]|Hx]; [done|]); by apply elem_of_nil in Hx.
Qed.

Lemma all_say v : says v.
Proof.
  induction v as [| | | | |c IH] using value_nested_ind; intros c' p E Hp; simplify_eq.
  rewrite BuildWhereCase_clauses in Hp. cbn [conjuncts]. revert p Hp.
  induction IH as [|k l Hk _ IHl]; intros p; cbn [clauses flat_map]; [by intros [= <-]|].
  destruct (clause (Escape c') where_value k) as [p1| |] eqn:E; cbn [bind_outcome]; [|done..].
  destruct (clauses (Escape c') where_value l) as [p2| |]; cbn [bind_outcome]; [|done..].
  intros [= <-]. rewrite followed_app. by rewrite <- (clause_says _ _ _ Hk E), <- (IHl p2 eq_refl).
Qed.

(** The where part is the texts of the conditions joined by [and], with an [and]
    behind, or nothing when no condition has a text. *)
Lemma BuildWhereCase_text c part args :
  BuildWhereCase c = Ok (part, args) ->
  let all := joined " and" (conjuncts (VCnd c)) in
  args = all.2 /\ part = if decide (conjuncts (VCnd c) = []) then "" else all.1 +:+ " and".
Proof.
  intros H. pose proof (all_say (VCnd c) c _ eq_refl H) as E. cbn zeta. destruct (decide _) as [Hn|Hn].
  - rewrite Hn in *. by injection E as -> ->.
  - rewrite followed_joined in E by done. by injection E as -> ->.
Qed.

(** Every condition of a kind with a case has a text. *)
Lemma handled_text escape k : handled (Logic k) = true -> exists p, condition_text conjuncts escape k = Some p.
Proof.
  intros Hh. assert (Logic k ∈ [EQ_; NOT_EQ_; LT_; LTE_; GT_; GTE_; IS_NULL_; IS_NOT_NULL_; BETWEEN_; NOT_BETWEEN_; IN_; NOT_IN_; LIKE_; NOT_LIKE_; OR_]) as Hl.
  { destruct (decide (Logic k ∈ [EQ_; NOT_EQ_; LT_; LTE_; GT_; GTE_; IS_NULL_; IS_NOT_NULL_; BETWEEN_; NOT_BETWEEN_; IN_; NOT_IN_; LIKE_; NOT_LIKE_; OR_]))
      as [|Hn]; [done|]. rewrite not_handled in Hh; [done|..]; intros E; apply Hn; rewrite E; apply (bool_decide_unpack _); vm_compute; exact I. }
  unfold condition_text, plain_text. revert Hl. generalize (Logic k). intros l Hl.
  repeat (apply elem_of_cons in Hl as [->|Hl]; [by eexists|]). by apply elem_of_nil in Hl.
Qed.

Lemma conjunct_in c k : List.In k (Conditions c) -> handled (Logic k) = true ->
  exists p, condition_text conjuncts (Escape c) k = Some p /\ List.In p (conjuncts (VCnd c)).
Proof.
  intros Hk Hh. destruct (handled_text (Escape c) k Hh) as [p Hp]. exists p. split; [done|]. cbn [conjuncts].
  apply in_flat_map. exists k. split; [done|]. rewrite Hp. by left.
Qed.

(** Five conditions, one of them an [Or], and a date range that is lost. *)
Example spec_demo :
  joined " and" (conjuncts (VCnd (InDate demo_cnd "at" (VInt 1) (VInt 2)))) =
  (" `uid` = ? and ( `done` is null  or `name` like concat('%',?,'%') and `kind` in(?,?) ) and `price` between ? and ?",
   [VInt 5; VStr "x"; VInt 1; VInt 2; VInt 1; VInt 9]).
Proof. vm_compute. reflexivity. Qed.
