(* ===== verification/RdbManager.v ===== *)
(** * The relational manager ([RDBManager] of [src/ormx/sqld/base_manager.go])

    An operation is a state-passing computation that returns a value, returns an
    error or panics.  The state holds the manager's fields, the objects that the
    caller's pointers point to, the identifiers [NextIID] will generate, the
    condition object of the query, and the database.  The database is an interface
    ([database]): it prepares, executes and queries a text with arguments, and
    begins, commits and rolls back a transaction; each can fail.

    [self.Error] records the error in the manager before it is returned
    ([fail]); [utils.Error] does not ([Err]). *)

From S2P Require Import Prelude GoStrings GoTime TimeUtils Sqlc Model SqlBuilder.

#[local] Open Scope string_scope.
#[local] Open Scope Z_scope.

(** ** The database *)

Record exec_result := mk_exec { RowsAffected : outcome string Z; LastInsertId : outcome string Z }.

Record query_result := mk_query { Columns : outcome string (list string); Rows : outcome string (list (list column)) }.

(** [true] stands for the open transaction, [false] for the pool. *)
Class database (D : Type) := {
  db_prepare : bool -> string -> D -> option string;
  db_exec : bool -> string -> list value -> D -> outcome string exec_result * D;
  db_query : bool -> string -> list value -> D -> outcome string query_result * D;
  db_begin : D -> option string * D;
  db_commit : D -> option string * D;
  db_rollback : D -> option string * D
}.

(** ** The state *)

Record Object := mk_object { o_table : string; o_cells : list value }.

Inductive sync_option := SAVE | UPDATE | DELETE | UPDATE_BY_CND.

Record MGOSyncData := mk_sync {
  CacheOption : sync_option;
  CacheModel : string;
  CacheCnd : option Cnd;
  CacheObject : list nat
}.

(** Where a manager is connected to: the data source, the database and the
    timeout of its calls, in milliseconds. *)
Record Settings := mk_settings { DsName : string; Database : string; Timeout : Z }.

Record state (D : Type) := mk_state {
  OpenTx : bool;
  AutoID : bool;
  MongoSync : bool;
  Tx : bool;                          (* [Tx] is not nil *)
  Errors : list string;
  SyncData : list MGOSyncData;
  heap : list Object;
  ids : list Z;
  now_ms : Z;
  cnd : Cnd;
  db : D;
  settings : Settings
}.
Arguments mk_state {D}. Arguments OpenTx {D}. Arguments AutoID {D}. Arguments MongoSync {D}. Arguments Tx {D}.
Arguments Errors {D}. Arguments SyncData {D}. Arguments heap {D}. Arguments ids {D}. Arguments now_ms {D}.
Arguments cnd {D}. Arguments db {D}. Arguments settings {D}.

Section State.
Context {D : Type}.
Implicit Types (s : state D).

Definition with_errors s x := mk_state (OpenTx s) (AutoID s) (MongoSync s) (Tx s) x (SyncData s) (heap s) (ids s) (now_ms s) (cnd s) (db s) (settings s).
Definition with_sync s x := mk_state (OpenTx s) (AutoID s) (MongoSync s) (Tx s) (Errors s) x (heap s) (ids s) (now_ms s) (cnd s) (db s) (settings s).
Definition with_heap s x := mk_state (OpenTx s) (AutoID s) (MongoSync s) (Tx s) (Errors s) (SyncData s) x (ids s) (now_ms s) (cnd s) (db s) (settings s).
Definition with_ids s x := mk_state (OpenTx s) (AutoID s) (MongoSync s) (Tx s) (Errors s) (SyncData s) (heap s) x (now_ms s) (cnd s) (db s) (settings s).
Definition with_cnd s x := mk_state (OpenTx s) (AutoID s) (MongoSync s) (Tx s) (Errors s) (SyncData s) (heap s) (ids s) (now_ms s) x (db s) (settings s).
Definition with_db s (x : D) := mk_state (OpenTx s) (AutoID s) (MongoSync s) (Tx s) (Errors s) (SyncData s) (heap s) (ids s) (now_ms s) (cnd s) x (settings s).

Definition run (A : Type) : Type := state D -> outcome string A * state D.

#[global] Instance run_ret : MRet run := fun A a s => (Ok a, s).
#[global] Instance run_bind : MBind run := fun A B k m s =>
  match m s with
  | (Ok a, s') => k a s'
  | (Err e, s') => (Err e, s')
  | (Panic w, s') => (Panic w, s')
  end.

Definition lift {A} (o : outcome string A) : run A := fun s => (o, s).
Definition get : run (state D) := fun s => (Ok s, s).

(** [self.Error]. *)
Definition fail {A} (e : string) : run A := fun s => (Err e, with_errors s (Errors s ++ [e])%list).

(** An error of a call, reported with [self.Error] behind a message. *)
Definition or_fail {A} (msg : string) (o : outcome string A) : run A :=
  match o with Err e => fail (msg +:+ e) | _ => lift o end.

Definition sync (d : MGOSyncData) : run unit := fun s => (Ok tt, with_sync s (SyncData s ++ [d])%list).

(** The cells of an object, through a pointer. *)
Definition object (r : nat) : run Object := fun s =>
  match heap s !! r with
  | Some o => (Ok o, s)
  | None => (Panic "invalid memory address or nil pointer dereference", s)
  end.

Definition cell (r i : nat) : run value := o ← object r; mret (nth i (o_cells o) VNil).

Definition set_cell (r i : nat) (v : value) : run unit :=
  o ← object r;
  ((fun s => (Ok tt, with_heap s (<[r := mk_object (o_table o) (<[i := v]> (o_cells o))]> (heap s)))) : run unit).

(** A new object of the same type, with zero cells. *)
Definition new_object (table : string) (width : nat) : run nat := fun s =>
  (Ok (length (heap s)), with_heap s (heap s ++ [mk_object table (replicate width VNil)])%list).

(** [utils.NextIID()]. *)
Definition NextIID : run Z := fun s =>
  match ids s with
  | [] => (Panic "out of identifiers", s)
  | i :: rest => (Ok i, with_ids s rest)
  end.

Fixpoint each {A B} (f : B -> A -> run B) (acc : B) (l : list A) : run B :=
  match l with
  | [] => mret acc
  | x :: l => acc' ← f acc x; each f acc' l
  end.
End State.
Arguments run : clear implicits.

Section Manager.
Context {D : Type} `{database D} `{lz : local_zone}
  (modelDrivers : drivers)
  (local : location) (fmt : layout)                      (* [fieldTime] *)
  (json : value -> outcome string string) (unjson : string -> outcome string value)
  (Cst_sh : location).

Abbreviation run := (run D).

(** ** Statements *)

(** The driver of an object's table; every operation reports a missing one. *)
Definition driver_of (label table : string) : run MdlDriver :=
  match modelDrivers !! table with
  | Some obv => mret obv
  | None => fail ("[" +:+ label +:+ "] registration object type not found [" +:+ table +:+ "]")
  end.

Definition trim (s : string) (n : Z) : run string := lift (trim_end s n).

(** The text that follows [where]: the conditions without the last [and], and
    without the last space. *)
Definition where_text (start : string) (case_part : string) : run string :=
  str ← trim case_part 3;
  trim (start +:+ str) 1.

(** The where part of a select: nothing when there is no condition. *)
Definition select_where (case_part : string) : run string :=
  if 0 <? slen case_part then where_text "where" case_part else mret "".

Definition build_where : run (string * list value) := s ← get; lift (BuildWhereCase (cnd s)).

(** The columns of a table, each followed by a comma. *)
Definition column_list (obv : MdlDriver) : string :=
  foldl (fun f vv => if Ignore vv then f else f +:+ "`" +:+ FieldJsonName vv +:+ "`,") "" (FieldElems obv).

(** [PrepareContext] on the transaction or the pool. *)
Definition prepare (label close sql : string) : run unit :=
  s ← get;
  if OpenTx s && negb (Tx s) then lift (Panic "invalid memory address or nil pointer dereference")
  else
  match db_prepare (OpenTx s) sql (db s) with
  | Some e => fail ("[" +:+ label +:+ "] [" +:+ close +:+ sql +:+ close +:+ "] prepare failed: " +:+ e)
  | None => mret tt
  end.

Definition exec (sql : string) (args : list value) : run (outcome string exec_result) := fun s =>
  let '(r, d) := db_exec (OpenTx s) sql args (db s) in (Ok r, with_db s d).

Definition query (sql : string) (args : list value) : run (outcome string query_result) := fun s =>
  let '(r, d) := db_query (OpenTx s) sql args (db s) in (Ok r, with_db s d).

Definition db_run (o : outcome string exec_result) (msg : string) : run exec_result := or_fail msg o.

(** ** [Save] *)

(** What one object adds: its arguments, the names of the columns, the marks. *)
Definition row : Type := list value * string * string.

(** The value of a primary key; [None] leaves the column out. *)
Definition save_key (obv : MdlDriver) (r : nat) (vv : FieldElem) : run (option value) :=
  s ← get;
  if AutoID s then mret None
  else match FieldKind vv with
       | KInt64 =>
           c ← cell r (PkOffset obv);
           if int_cell c =? 0 then
             if AutoId obv then mret None
             else i ← NextIID; _ ← set_cell r (FieldOffset vv) (VInt i); mret (Some (VInt i))
           else mret (Some (VInt (int_cell c)))
       | KString =>
           c ← cell r (PkOffset obv);
           if slen (str_cell c) =? 0 then
             if AutoId obv then mret None
             else
               (* the identifier made here goes into the object, not into the
                  variable that is passed on *)
               i ← NextIID; _ ← set_cell r (FieldOffset vv) (VStr (format_int i)); mret (Some (VStr (str_cell c)))
           else mret (Some (VStr (str_cell c)))
       | _ => lift (Err "only Int64 and string type IDs are supported")
       end.

Definition save_value (r : nat) (vv : FieldElem) : run (option value) :=
  c ← cell r (FieldOffset vv);
  s ← get;
  match GetValue local fmt json c vv with
  | Ok v =>
      mret (Some (match v with
                  | VStr "" => if IsDate vv then VStr (Time2Str Cst_sh (now_ms s)) else v
                  | _ => v
                  end))
  | Err _ => mret None
  | Panic w => lift (Panic w)
  end.

Definition save_field (obv : MdlDriver) (r : nat) (fready : bool) (acc : row) (vv : FieldElem) : run row :=
  let '(parameter, fpart, vpart_) := acc in
  if Ignore vv then mret acc
  else
    v ← (if Primary vv then save_key obv r vv else save_value r vv);
    match v with
    | None => mret acc
    | Some v =>
        mret ((parameter ++ [v])%list,
              (if fready then fpart else fpart +:+ "`" +:+ FieldJsonName vv +:+ "`,"),
              vpart_ +:+ "?,")
    end.

(** One object; the column names are those of the first one. *)
Definition save_row (obv : MdlDriver) (acc : bool * row) (r : nat) : run (bool * row) :=
  let '(fready, (parameter, fpart, vpart)) := acc in
  '(parameter, fpart, vpart_) ← each (save_field obv r fready) (parameter, fpart, " (") (FieldElems obv);
  vstr ← trim vpart_ 1;
  mret (true, (parameter, fpart, vpart +:+ vstr +:+ "),")).

Definition save_sql (obv : MdlDriver) (fpart vpart : string) : run string :=
  f ← trim fpart 1;
  v ← (if 0 <? slen vpart then trim vpart 1 else mret "");
  mret ("insert into " +:+ TableName obv +:+ " (" +:+ f +:+ ")" +:+ " values " +:+ v).

(** The first primary field takes the identifier the database has made. *)
Fixpoint set_last_id (r : nat) (id : Z) (l : list FieldElem) : run unit :=
  match l with
  | [] => mret tt
  | vv :: l => if Primary vv then set_cell r (FieldOffset vv) (VInt id) else set_last_id r id l
  end.

Definition Save (data : list nat) : run unit :=
  s ← get;
  match data with
  | [] => fail "[Mysql.Save] data is nil"
  | first :: _ =>
      if (2000 <? length data)%nat then fail "[Mysql.Save] data length > 2000"
      else if AutoID s && negb (length data =? 1)%nat then fail "[Mysql.Save] auto ID unsupported many object"
      else
        o ← object first;
        obv ← driver_of "Mysql.Save" (o_table o);
        '(_, (parameter, fpart, vpart)) ← each (save_row obv) (false, ([], "", "")) data;
        sql ← save_sql obv fpart vpart;
        _ ← prepare "Mysql.Save" " " sql;
        ret ← exec sql parameter;
        ret ← db_run ret "[Mysql.Save] save failed: ";
        n ← or_fail "[Mysql.Save] affected rows failed: " (RowsAffected ret);
        if n <=? 0 then fail ("[Mysql.Save] affected rows <= 0: " +:+ format_int n)
        else
          _ ← (if AutoID s && (length data =? 1)%nat then
                 id ← or_fail "[Mysql.Save] save get last id failed: " (LastInsertId ret);
                 set_last_id first id (FieldElems obv)
               else mret tt);
          if MongoSync s && ToMongo obv then sync (mk_sync SAVE (o_table o) None data) else mret tt
  end.

(** ** [Update] *)

(** The primary key of an object, or an error when it is not set; [None] when its
    kind is neither. *)
Definition key_value (label : string) (obv : MdlDriver) (r : nat) : run (option value) :=
  match PkKind obv with
  | KInt64 =>
      c ← cell r (PkOffset obv);
      if int_cell c =? 0 then fail ("[" +:+ label +:+ "] data object id is nil")
      else mret (Some (VInt (int_cell c)))
  | KString =>
      c ← cell r (PkOffset obv);
      if slen (str_cell c) =? 0 then fail ("[" +:+ label +:+ "] data object id is nil")
      else mret (Some (VStr (str_cell c)))
  | _ => mret None
  end.

Definition update_field (obv : MdlDriver) (r : nat) (acc : list value * string * value) (v : FieldElem) :
    run (list value * string * value) :=
  let '(parameter, fpart, lastInsertId) := acc in
  if Ignore v then mret acc
  else if Primary v then
    id ← key_value "Mysql.Update" obv r;
    match id with
    | Some id => mret (parameter, fpart, id)
    | None => lift (Err "only Int64 and string type IDs are supported")
    end
  else
    c ← cell r (FieldOffset v);
    fval ← lift (GetValue local fmt json c v);
    match fval with
    | VStr "" => if IsDate v then mret acc
                 else mret ((parameter ++ [fval])%list, fpart +:+ " `" +:+ FieldJsonName v +:+ "` = ?,", lastInsertId)
    | _ => mret ((parameter ++ [fval])%list, fpart +:+ " `" +:+ FieldJsonName v +:+ "` = ?,", lastInsertId)
    end.

Definition Update (data : list nat) : run unit :=
  s ← get;
  match data with
  | [] => fail "[Mysql.Update] data is nil"
  | oneData :: rest =>
      if negb (length rest =? 0)%nat then fail "[Mysql.Update] data length must 1"
      else
        o ← object oneData;
        obv ← driver_of "Mysql.Update" (o_table o);
        if slen (PkName obv) =? 0 then lift (Err "PK field not fond, you can use [updateByCnd]")
        else
          '(parameter, fpart, lastInsertId) ← each (update_field obv oneData) ([], "", VNil) (FieldElems obv);
          let parameter := (parameter ++ [lastInsertId])%list in
          f ← trim fpart 1;
          let sql := "update " +:+ TableName obv +:+ " set " +:+ f +:+ " where `" +:+ PkName obv +:+ "` = ?" in
          _ ← prepare "Mysql.Update" " " sql;
          ret ← exec sql parameter;
          ret ← db_run ret "[Mysql.Update] update failed: ";
          n ← or_fail "[Mysql.Update] affected rows failed: " (RowsAffected ret);
          if n <=? 0 then mret tt
          else if MongoSync s && ToMongo obv then sync (mk_sync UPDATE (o_table o) None []) else mret tt
  end.

(** ** Statements on a condition *)

(** The table of the condition's model. *)
Definition model_of (msg : string) : run string :=
  s ← get;
  match Model (cnd s) with Some t => mret t | None => fail msg end.

(** The loop over the map of fields to set, in the order [upsets] the map is
    visited. *)
Definition upset_text (escape : bool) (upsets : list (string * value)) : string :=
  foldl (fun f kv => f +:+ (if escape then " `" +:+ kv.1 +:+ "`" else " " +:+ kv.1) +:+ " = ?,") "" upsets.

(** What all the updates and deletes do after the text is ready. *)
Definition affected (label verb sql : string) (parameter : list value) : run Z :=
  _ ← prepare label " " sql;
  ret ← exec sql parameter;
  ret ← db_run ret ("[" +:+ label +:+ "] " +:+ verb +:+ " failed: ");
  or_fail ("[" +:+ label +:+ "] affected rows failed: ") (RowsAffected ret).

Definition UpdateByCnd (upsets : list (string * value)) : run Z :=
  table ← model_of "[Mysql.UpdateByCnd] data is nil";
  s ← get;
  if (length (Upsets (cnd s)) =? 0)%nat then fail "[Mysql.UpdateByCnd] upset fields is nil"
  else
    obv ← driver_of "Mysql.UpdateByCnd" table;
    '(case_part, case_arg) ← build_where;
    if (slen case_part =? 0) || (length case_arg =? 0)%nat then fail "[Mysql.UpdateByCnd] update WhereCase is nil"
    else
      let parameter := (map snd upsets ++ case_arg)%list in
      w ← where_text "where" case_part;
      f ← trim (upset_text (Escape (cnd s)) upsets) 1;
      n ← affected "Mysql.UpdateByCnd" "update" ("update " +:+ TableName obv +:+ " set " +:+ f +:+ " " +:+ w) parameter;
      if n <=? 0 then mret 0
      else
        _ ← (if MongoSync s && ToMongo obv then sync (mk_sync UPDATE_BY_CND table (Some (cnd s)) []) else mret tt);
        mret n.

Definition DeleteByCnd : run Z :=
  table ← model_of "[Mysql.DeleteByCnd] data is nil";
  s ← get;
  obv ← driver_of "Mysql.DeleteByCnd" table;
  '(case_part, case_arg) ← build_where;
  if (slen case_part =? 0) || (length case_arg =? 0)%nat then fail "[Mysql.DeleteByCnd] update WhereCase is nil"
  else
    w ← where_text " where" case_part;
    n ← affected "Mysql.DeleteByCnd" "update" ("delete from " +:+ TableName obv +:+ w) case_arg;
    if n <=? 0 then mret 0
    else
      _ ← (if MongoSync s && ToMongo obv then sync (mk_sync DELETE table (Some (cnd s)) []) else mret tt);
      mret n.

(** ** [Delete] and [DeleteById] *)

Definition delete_row (obv : MdlDriver) (acc : list value * string) (r : nat) : run (list value * string) :=
  id ← key_value "Mysql.Delete" obv r;
  mret (match id with Some id => (acc.1 ++ [id])%list | None => acc.1 end, acc.2 +:+ "?,").

Definition delete_sql (obv : MdlDriver) (marks : string) : run string :=
  m ← trim marks 1;
  mret ("delete from " +:+ TableName obv +:+ " where `" +:+ PkName obv +:+ "` in (" +:+ m +:+ ")").

Definition Delete (data : list nat) : run unit :=
  s ← get;
  match data with
  | [] => fail "[Mysql.Delete] data is nil"
  | first :: _ =>
      if (2000 <? length data)%nat then fail "[Mysql.Delete] data length > 2000"
      else
        o ← object first;
        obv ← driver_of "Mysql.Delete" (o_table o);
        if slen (PkName obv) =? 0 then lift (Err "PK field not fond, you can use [deleteByCnd]")
        else
          '(parameter, vpart) ← each (delete_row obv) ([], "") data;
          sql ← delete_sql obv vpart;
          n ← affected "Mysql.Delete" "delete" sql parameter;
          if n <=? 0 then mret tt
          else if MongoSync s && ToMongo obv then sync (mk_sync DELETE (o_table o) None data) else mret tt
  end.

Definition DeleteById (table : string) (data : list value) : run Z :=
  match data with
  | [] => fail "[Mysql.DeleteById] data is nil"
  | _ =>
      if (2000 <? length data)%nat then fail "[Mysql.DeleteById] data length > 2000"
      else
        obv ← driver_of "Mysql.DeleteById" table;
        if slen (PkName obv) =? 0 then lift (Err "PK field not fond, you can use [deleteByCnd]")
        else
          sql ← delete_sql obv (marks (length data));
          n ← affected "Mysql.DeleteById" "delete" sql data;
          mret (if n <=? 0 then 0 else n)
  end.

(** ** Queries *)

(** The answer to a query: the number of columns and the rows. *)
Definition select (label close sql : string) (parameter : list value) : run (list string * list (list column)) :=
  _ ← prepare label close sql;
  r ← query sql parameter;
  r ← or_fail ("[" +:+ label +:+ "] query failed: ") r;
  cols ← or_fail ("[" +:+ label +:+ "] read columns failed: ") (Columns r);
  out ← or_fail ("[" +:+ label +:+ "] read result failed: ") (map_err (fun e => "rows.Err(): " +:+ e) (Rows r));
  mret (cols, out).

Definition set_column (r : nat) (vv : FieldElem) (b : column) : run unit :=
  old ← cell r (FieldOffset vv);
  v ← or_fail "" (SetValue local fmt unjson old vv b);
  set_cell r (FieldOffset vv) v.

(** [first[i]]. *)
Definition column_at (row : list column) (i : nat) : run column :=
  match row !! i with Some b => mret b | None => lift (Panic "index out of range") end.

(** The loop that fills an object from a row: the index runs over all the fields,
    those left out of the query included. *)
Fixpoint fill (skip_null_dates : bool) (r i : nat) (l : list FieldElem) (row : list column) : run unit :=
  match l with
  | [] => mret tt
  | vv :: l =>
      if Ignore vv then fill skip_null_dates r (S i) l row
      else
        b ← column_at row i;
        _ ← (if skip_null_dates && IsDate vv && bool_decide (b = None) then mret tt else set_column r vv b);
        fill skip_null_dates r (S i) l row
  end.

Definition FindById (data : nat) : run unit :=
  o ← object data;
  obv ← driver_of "Mysql.FindById" (o_table o);
  if slen (PkName obv) =? 0 then lift (Err "PK field not fond, you can use [findOne] or [findList]")
  else
    id ← key_value "Mysql.FindById" obv data;
    f ← trim (column_list obv) 1;
    '(_, out) ← select "Mysql.FindById" "" ("select " +:+ f +:+ " from " +:+ TableName obv +:+ " where `" +:+
                  PkName obv +:+ "` = ?" +:+ " limit 1") (option_list id);
    match out with
    | [] => mret tt
    | first :: _ => fill false data 0 (FieldElems obv) first
    end.

Definition set_query (f : Cnd -> Cnd) : run unit := fun s => (Ok tt, with_cnd s (f (cnd s))).

Definition FindOne (data : nat) : run unit :=
  o ← object data;
  obv ← driver_of "Mysql.FindOne" (o_table o);
  _ ← set_query (fun c => Offset c 0 1);
  '(case_part, case_arg) ← build_where;
  w ← select_where case_part;
  s ← get;
  sortby ← lift (BuildSortBy (cnd s));
  f ← trim (column_list obv) 1;
  '(_, out) ← select "Mysql.FindOne" " " ("select " +:+ f +:+ " from " +:+ TableName obv +:+ " " +:+ w +:+ sortby +:+ " limit 1") case_arg;
  match out with
  | [] => mret tt
  | first :: _ => fill false data 0 (FieldElems obv) first
  end.

(** ** Paging *)

Definition set_totals (total count : Z) : run unit :=
  set_query (fun c => set_pagination c
    (let d := Pagination c in
     mk_dialect (PageNo d) (PageSize d) total count (Spilled d) (IsOffset d) (IsPage d) (IsFastPage d)
       (FastPageKey d) (FastPageSort d) (FastPageParam d) (FastPageSortParam d) (FastPageSortCountQ d))).

(** The pages that [total] rows fill, [size] on each. *)
Definition page_count (total size : Z) : outcome string Z :=
  if size =? 0 then Panic "integer divide by zero"
  else Ok (if Z.rem total size =? 0 then Z.quot total size else int64 (Z.quot total size + 1)).

(** The loop that scans one number from each row; the last one stays. *)
Fixpoint scan_number (acc : Z) (out : list (list column)) : outcome string Z :=
  match out with
  | [] => Ok acc
  | row :: out =>
      let* n := map_err (fun _ => "converting driver.Value") (parse_int 64 (NewString (nth 0 row None))) in
      scan_number n out
  end.

Definition BuildPagination (sqlbuf : string) (values : list value) : run string :=
  s ← get;
  let d := Pagination (cnd s) in
  if (PageNo d =? 0) && (PageSize d =? 0) then mret sqlbuf
  else
    let size := if PageSize d <=? 0 then 10 else PageSize d in
    let d' := mk_dialect (PageNo d) size (PageTotal d) (PageCount d) (Spilled d) (IsOffset d) (IsPage d) (IsFastPage d)
                (FastPageKey d) (FastPageSort d) (FastPageParam d) (FastPageSortParam d) (FastPageSortCountQ d) in
    let limitSql := GetLimitSql d' sqlbuf in
    if negb (IsPage d) || IsOffset d then mret limitSql
    else
      r ← (if OpenTx s && negb (Tx s) then lift (Panic "invalid memory address or nil pointer dereference")
           else query (GetCountSql sqlbuf) values);
      r ← or_fail "count query failed: " r;
      let out := match Rows r with Ok out => out | _ => [] end in
      pageTotal ← or_fail "rows scan failed: " (scan_number 0 out);
      _ ← or_fail "rows.Err(): " (Rows r);
      pageCount ← lift (page_count pageTotal (PageSize d));
      _ ← set_totals pageTotal pageCount;
      mret limitSql.

(** The [data] of a list query: the slice is as long as its capacity. *)
Inductive target := TNil | TNotPtr | TNotSlice | TSlice (old : list nat).

Definition is_page : run unit :=
  s ← get; if IsPage (Pagination (cnd s)) then set_totals 0 0 else mret tt.

Definition slice_of (data : target) : run (list nat) :=
  match data with
  | TSlice old => mret old
  | TNotSlice => fail "[Mysql.FindList] target value kind not slice"
  | _ => fail "[Mysql.FindList] target value kind not ptr"
  end.

(** A new object for each row, appended to the slice; then the slice is cut to
    the number of rows. *)
Definition fill_list (table : string) (width : nat) (f : nat -> list column -> run unit)
    (old : list nat) (out : list (list column)) : run (list nat) :=
  all ← each (fun acc row => r ← new_object table width; _ ← f r row; mret (acc ++ [r])%list) old out;
  mret (take (length out) all).

Definition FindList (data : target) : run (list nat) :=
  match data with
  | TNil => fail "[Mysql.FindList] data is nil"
  | _ =>
    table ← model_of "[Mysql.FindList] model is nil";
    obv ← driver_of "Mysql.FindList" table;
    '(case_part, case_arg) ← build_where;
    w ← select_where case_part;
    s ← get;
    groupby ← lift (BuildGroupBy (cnd s));
    sortby ← lift (BuildSortBy (cnd s));
    f ← trim (column_list obv) 1;
    sql ← (fun st => match BuildPagination ("select " +:+ f +:+ " from " +:+ TableName obv +:+ " " +:+ w +:+ groupby +:+ sortby) case_arg st with
                     | (Err e, st) => fail e st
                     | r => r
                     end);
    '(_, out) ← select "Mysql.FindList" " " sql case_arg;
    match out with
    | [] => _ ← is_page; mret []
    | _ =>
        old ← slice_of data;
        fill_list table (length (FieldElems obv)) (fun r row => fill true r 0 (FieldElems obv) row) old out
    end
  end.

Definition Count : run Z :=
  table ← model_of "[Mysql.Count] data is nil";
  obv ← driver_of "Mysql.Count" table;
  '(case_part, case_arg) ← build_where;
  w ← select_where case_part;
  let sql := "select count(1) from " +:+ TableName obv +:+ " " +:+ w in
  _ ← prepare "Mysql.Count" " " sql;
  r ← query sql case_arg;
  (* this error is not recorded *)
  r ← lift (map_err (fun e => "[Mysql.Count] query failed: " +:+ e) r);
  let out := match Rows r with Ok out => out | _ => [] end in
  pageTotal ← or_fail "[Mysql.Count] read total failed: " (scan_number 0 out);
  _ ← or_fail "[Mysql.Count] read result failed: " (Rows r);
  s ← get;
  let size := PageSize (Pagination (cnd s)) in
  pageCount ← (if (0 <? pageTotal) && (0 <? size) then lift (page_count pageTotal size) else mret 0);
  _ ← set_totals pageTotal pageCount;
  mret pageTotal.

Definition Exists : run bool :=
  table ← model_of "[Mysql.Exists] data is nil";
  obv ← driver_of "Mysql.Exists" table;
  '(case_part, case_arg) ← build_where;
  w ← select_where case_part;
  let sql := "select exists(select 1 from " +:+ TableName obv +:+ " " +:+ w +:+ " limit 1 " +:+ " ) as pub_exists" in
  _ ← prepare "Mysql.Exists" " " sql;
  r ← query sql case_arg;
  r ← lift (map_err (fun e => "[Mysql.Exists] query failed: " +:+ e) r);
  let out := match Rows r with Ok out => out | _ => [] end in
  exists_ ← or_fail "[Mysql.Exists] read total failed: " (scan_number 0 out);
  _ ← or_fail "[Mysql.Exists] read result failed: " (Rows r);
  mret (0 <? exists_).

(** ** Joined queries *)

Definition any_fields (c : Cnd) : string :=
  foldl (fun f vv => if Escape c then f +:+ "`" +:+ vv +:+ "`," else f +:+ vv +:+ ",") "" (AnyFields c).

Definition join_text (v : JoinCond) : string :=
  if (slen (j_Table v) =? 0) || (slen (j_On v) =? 0) then ""
  else
    let on word := word +:+ j_Table v +:+ " on " +:+ j_On v +:+ " " in
    if j_Type v =? LEFT_ then on " left join "
    else if j_Type v =? RIGHT_ then on " right join "
    else if j_Type v =? INNER_ then on " inner join "
    else "".

Definition joins (l : list JoinCond) : string := foldl (fun s v => s +:+ join_text v) "" l.

(** The text up to the sort order. *)
Definition complex_sql (from : FromCond) (case_part : string) : run string :=
  w ← select_where case_part;
  s ← get;
  let c := cnd s in
  groupby ← lift (BuildGroupBy c);
  sortby ← lift (BuildSortBy c);
  f ← trim (any_fields c) 1;
  mret ("select " +:+ f +:+ " from " +:+ f_Table from +:+ " " +:+ f_Alias from +:+ " " +:+ joins (JoinConds c) +:+ w +:+ groupby +:+ sortby).

(** The fields named like the columns take their values. *)
Fixpoint fill_named (r : nat) (elems : list FieldElem) (cols : list string) (row : list column) (i : nat) : run unit :=
  match cols with
  | [] => mret tt
  | col :: cols =>
      _ ← (match List.find (fun vv => String.eqb (FieldJsonName vv) col) elems with
           | Some vv => b ← column_at row i; set_column r vv b
           | None => mret tt
           end);
      fill_named r elems cols row (S i)
  end.

Definition from_table (msg : string) : run FromCond :=
  s ← get;
  match FromCond_ (cnd s) with
  | Some f => if slen (f_Table f) =? 0 then fail msg else mret f
  | None => fail msg
  end.

Definition need_fields (msg : string) : run unit :=
  s ← get; if (length (AnyFields (cnd s)) =? 0)%nat then fail msg else mret tt.

Definition FindListComplex (data : target) : run (list nat) :=
  match data with
  | TNil => fail "[Mysql.FindListComplex] data is nil"
  | _ =>
    table ← model_of "[Mysql.FindListComplex] model is nil";
    from ← from_table "[Mysql.FindListComplex] from table is nil";
    _ ← need_fields "[Mysql.FindListComplex] any fields is nil";
    obv ← driver_of "Mysql.FindListComplex" table;
    '(case_part, case_arg) ← build_where;
    text ← complex_sql from case_part;
    sql ← (fun st => match BuildPagination text case_arg st with (Err e, st) => fail e st | r => r end);
    _ ← prepare "Mysql.FindListComplex" " " sql;
    r ← query sql case_arg;
    r ← or_fail "[Mysql.FindListComplex] query failed: " r;
    cols ← or_fail "[Mysql.FindListComplex] read columns failed: " (Columns r);
    s ← get;
    if negb (length cols =? length (AnyFields (cnd s)))%nat then fail "[Mysql.FindListComplex] read columns length invalid"
    else
      out ← or_fail "[Mysql.FindListComplex] read result failed: " (map_err (fun e => "rows.Err(): " +:+ e) (Rows r));
      match out with
      | [] => _ ← is_page; mret []
      | _ =>
          old ← slice_of data;
          fill_list table (length (FieldElems obv)) (fun r row => fill_named r (FieldElems obv) cols row 0) old out
      end
  end.

Definition FindOneComplex (data : nat) : run unit :=
  from ← from_table "[Mysql.FindOneComplex] from table is nil";
  _ ← need_fields "[Mysql.FindOneComplex] any fields is nil";
  o ← object data;
  obv ← driver_of "Mysql.FindOneComplex" (o_table o);
  _ ← set_query (fun c => Offset c 0 1);
  '(case_part, case_arg) ← build_where;
  text ← complex_sql from case_part;
  let sql := text +:+ " limit 1" in
  _ ← prepare "Mysql.FindOneComplex" " " sql;
  r ← query sql case_arg;
  r ← or_fail "[Mysql.FindOneComplex] query failed: " r;
  cols ← or_fail "[Mysql.FindOneComplex] read columns failed: " (Columns r);
  s ← get;
  if negb (length cols =? length (AnyFields (cnd s)))%nat then fail "[Mysql.FindOneComplex] read columns length invalid"
  else
    out ← or_fail "[Mysql.FindOneComplex] read result failed: " (map_err (fun e => "rows.Err(): " +:+ e) (Rows r));
    match out with
    | [] => mret tt
    | first :: _ => fill_named data (FieldElems obv) cols first 0
    end.

(** ** The start of a session *)

(** The data sources that were set up, by name: what a manager copies. *)
Record Source := mk_source { src_DsName : string; src_Database : string; src_MongoSync : bool }.

Record Option_ := mk_option {
  op_DsName : string;
  op_Database : string;
  op_OpenTx : bool;
  op_AutoID : bool;
  op_MongoSync : bool;
  op_Timeout : Z
}.

Definition no_option : Option_ := mk_option "" "" false false false 0.

Definition MASTER : string := "master".

Definition with_session (s : state D) (settings : Settings) (opentx autoid sync : bool) : state D :=
  mk_state opentx autoid sync (Tx s) (Errors s) (SyncData s) (heap s) (ids s) (now_ms s) (cnd s) (db s) settings.

Definition with_tx (s : state D) (d : D) : state D :=
  mk_state (OpenTx s) (AutoID s) (MongoSync s) true (Errors s) (SyncData s) (heap s) (ids s) (now_ms s) (cnd s) d (settings s).

(** The name of the source, and the option with its name filled in. *)
Definition named_option (options : list Option_) : string * Option_ :=
  match options with
  | [] => (MASTER, no_option)
  | o :: _ =>
      if 0 <? slen (op_DsName o) then (op_DsName o, o)
      else (MASTER, mk_option MASTER (op_Database o) (op_OpenTx o) (op_AutoID o) (op_MongoSync o) (op_Timeout o))
  end.

Definition begin_tx : run unit := fun s =>
  match db_begin (db s) with
  | (Some e, d) => fail ("database open transaction failed: " +:+ e) (with_db s d)
  | (None, d) => (Ok tt, with_tx s d)
  end.

Definition GetDB (rdbs : gmap string Source) (options : list Option_) : run unit := fun s =>
  let '(dsName, option) := named_option options in
  match rdbs !! dsName with
  | None => fail ("datasource [" +:+ dsName +:+ "] not found...") s
  | Some rdb =>
      let s := with_session s (mk_settings (src_DsName rdb) (src_Database rdb) 10000) false (op_AutoID option) (src_MongoSync rdb) in
      if 0 <? slen (op_DsName option) then
        let s := with_session s
          (mk_settings (op_DsName option)
             (if 0 <? slen (op_Database option) then op_Database option else src_Database rdb)
             (if 0 <? op_Timeout option then op_Timeout option else 10000))
          (op_OpenTx option) (op_AutoID option) (src_MongoSync rdb || op_MongoSync option) in
        if op_OpenTx option then begin_tx s else (Ok tt, s)
      else (Ok tt, s)
  end.

(** A configuration of the MySQL manager, and the error of the driver when it
    does not take its link. *)
Record DBConfig := mk_config { cfg_option : Option_; cfg_refused : option string }.

Definition add_source (rdbs : gmap string Source) (v : DBConfig) : outcome string (gmap string Source) :=
  let o := cfg_option v in
  let dsName := if 0 <? slen (op_DsName o) then op_DsName o else MASTER in
  match rdbs !! dsName with
  | Some _ => Err ("mysql init failed: [" +:+ op_DsName o +:+ "] exist")
  | None =>
      match cfg_refused v with
      | Some e => Err ("mysql init failed: " +:+ e)
      | None => Ok (<[dsName := mk_source dsName (op_Database o) (op_MongoSync o)]> rdbs)
      end
  end.

(** The sources set up before an error stay. *)
Fixpoint buildByConfig (rdbs : gmap string Source) (input : list DBConfig) : outcome string unit * gmap string Source :=
  match input with
  | [] => (if bool_decide (rdbs = ∅) then Err "mysql init failed: sessions is nil" else Ok tt, rdbs)
  | v :: input =>
      match add_source rdbs v with
      | Ok rdbs => buildByConfig rdbs input
      | Err e => (Err e, rdbs)
      | Panic w => (Panic w, rdbs)
      end
  end.

(** ** The end of a session *)

(** [Close]: commits when no error was recorded, and rolls back otherwise; then,
    without errors, the recorded changes that carry objects go to Mongo.  The
    result is the list of those changes, in order. *)
Definition Close : run (list MGOSyncData) := fun s =>
  let finish s :=
    (Ok (if (length (Errors s) =? 0)%nat && MongoSync s
         then List.filter (fun v => negb (length (CacheObject v) =? 0)%nat) (SyncData s) else []), s) in
  if OpenTx s && Tx s then
    if (length (Errors s) =? 0)%nat then
      match db_commit (db s) with
      | (Some _, d) => (Ok [], with_db s d)
      | (None, d) => finish (with_db s d)
      end
    else let '(_, d) := db_rollback (db s) in (Ok [], with_db s d)
  else finish s.
End Manager.
