(* ===== verification/RdbProofs.v ===== *)
(** * What the relational manager guarantees (the operations of RdbManager.v) *)

From S2P Require Import Prelude GoStrings Common GoTime TimeUtils Sqlc Model SqlBuilder SqlSpec RdbManager.

#[local] Open Scope string_scope.
#[local] Open Scope Z_scope.

(** ** Running computations *)

Section Steps.
Context {D : Type}.
Implicit Types (s : state D).

Lemma bind_run {A B} (m : run D A) (k : A -> run D B) s :
  (m ≫= k) s = match m s with
               | (Ok a, s') => k a s'
               | (Err e, s') => (Err e, s')
               | (Panic w, s') => (Panic w, s')
               end.
Proof. done. Qed.

Lemma or_fail_run {A} msg (o : outcome string A) s :
  or_fail msg o s = match o with
                    | Ok a => (Ok a, s)
                    | Err e => (Err (msg +:+ e), with_errors s (Errors s ++ [msg +:+ e])%list)
                    | Panic w => (Panic w, s)
                    end.
Proof. by destruct o. Qed.
End Steps.

Section Guards.
Context {D : Type} `{database D} `{lz : local_zone} (modelDrivers : drivers).
Implicit Types (s : state D).

Lemma where_text_ok start q s : where_text start (q +:+ " and") s = (Ok (start +:+ q), s).
Proof.
  unfold where_text, trim, lift. rewrite bind_run, trim_and. cbn [fst snd].
  rewrite str_app_assoc. change 1 with (slen " "). by rewrite trim_app.
Qed.

(** A computation that leaves the database alone, or runs one statement on it. *)
Definition only_runs (s : state D) (allowed : string -> list value -> Prop) (s' : state D) : Prop :=
  db s' = db s \/
  exists sql args, allowed sql args /\ db s' = (db_exec (OpenTx s) sql args (db s)).2.

Lemma affected_runs label verb sql args s r s' :
  affected label verb sql args s = (r, s') -> only_runs s (fun q a => q = sql /\ a = args) s'.
Proof.
  unfold affected. rewrite bind_run. unfold prepare at 1. rewrite bind_run. cbn [get].
  destruct (OpenTx s && negb (Tx s)); [intros [= _ <-]; by left|].
  destruct (db_prepare (OpenTx s) sql (db s)) as [e|].
  - unfold fail. intros [= _ <-]. by left.
  - unfold exec. cbn [mret run_ret]. rewrite bind_run. destruct (db_exec (OpenTx s) sql args (db s)) as [o d] eqn:E.
    rewrite bind_run. unfold db_run. rewrite or_fail_run. intros Hr. right. exists sql, args. rewrite E. split; [done|].
    destruct o as [x| |]; [rewrite or_fail_run in Hr; destruct (RowsAffected x)|..]; by injection Hr as _ <-.
Qed.

(** All the conditions of the state that have a text, joined by [and]. *)
Definition restriction (s : state D) : where_part := joined " and" (conjuncts (VCnd (cnd s))).

(** A conditioned statement on the table of the model: [before], the conditions, of
    which there is one, and their arguments, of which there is one. *)
Definition conditioned (s : state D) (before : MdlDriver -> string) (extra : list value) (sql : string) (args : list value) : Prop :=
  exists table obv,
    Model (cnd s) = Some table /\ modelDrivers !! table = Some obv /\
    conjuncts (VCnd (cnd s)) <> [] /\ (restriction s).2 <> [] /\
    sql = before obv +:+ (restriction s).1 /\ args = (extra ++ (restriction s).2)%list.

Lemma where_case_shape s part args :
  BuildWhereCase (cnd s) = Ok (part, args) -> part <> "" ->
  conjuncts (VCnd (cnd s)) <> [] /\ part = (restriction s).1 +:+ " and" /\ args = (restriction s).2.
Proof. intros [Ha Hp]%BuildWhereCase_text Hne. by destruct (decide _). Qed.

Lemma slen_zero (x : string) : (slen x =? 0) = true -> x = "".
Proof. intros E. z_bools. by destruct x; [|unfold slen in E; simpl in E; lia]. Qed.

(** The end of a conditioned statement: it runs, and a change may be recorded. *)
Lemma finish_runs label sql args d s (b : bool) r s' :
  (n ← affected label "update" sql args;
   if n <=? 0 then mret 0 else _ ← (if b then sync d else mret tt); mret n) s = (r, s') ->
  only_runs s (fun q a => q = sql /\ a = args) s'.
Proof.
  rewrite bind_run. destruct (affected label "update" sql args s) as [o s1] eqn:Ea. apply affected_runs in Ea.
  assert (forall s2, db s2 = db s1 -> only_runs s (fun q a => q = sql /\ a = args) s2) as Hdb.
  { intros s2 E. unfold only_runs in *. by rewrite E. }
  destruct o as [n| |]; [|by intros [= _ <-]; apply Hdb..].
  destruct (n <=? 0); [by intros [= _ <-]; apply Hdb|].
  rewrite bind_run. destruct b; intros [= _ <-]; by apply Hdb.
Qed.

Lemma only_runs_impl s (P Q : string -> list value -> Prop) s' :
  (forall sql args, P sql args -> Q sql args) -> only_runs s P s' -> only_runs s Q s'.
Proof. intros HPQ [E|(sql & args & Hp & E)]; [by left|right; exists sql, args; auto]. Qed.

Lemma DeleteByCnd_runs s r s' :
  DeleteByCnd modelDrivers s = (r, s') ->
  only_runs s (conditioned s (fun obv => "delete from " +:+ TableName obv +:+ " where") []) s'.
Proof.
  unfold DeleteByCnd, model_of. rewrite !bind_run. cbn [get].
  destruct (Model (cnd s)) as [table|] eqn:Em; cbn [mret run_ret]; [|intros [= _ <-]; by left].
  rewrite bind_run. cbn [get]. rewrite bind_run. unfold driver_of.
  destruct (modelDrivers !! table) as [obv|] eqn:Ed; cbn [mret run_ret]; [|intros [= _ <-]; by left].
  rewrite bind_run. unfold build_where. rewrite bind_run. cbn [get]. unfold lift.
  destruct (BuildWhereCase (cnd s)) as [[part args]| |] eqn:Ew; [|intros [= _ <-]; by left..].
  destruct ((slen part =? 0) || (length args =? 0)%nat) eqn:Eg; [intros [= _ <-]; by left|].
  apply orb_false_iff in Eg as [Eg1 Eg2]. z_bools. apply Nat.eqb_neq in Eg2.
  destruct (where_case_shape s part args Ew) as (Hc & -> & ->); [by intros ->; apply Eg1|].
  rewrite bind_run, where_text_ok. intros Hr. apply finish_runs in Hr.
  eapply only_runs_impl; [|exact Hr]. intros sql' args' [-> ->].
  exists table, obv. split_and!; try done; [by destruct (restriction s).2|]. by rewrite <- !str_app_assoc.
Qed.

Lemma UpdateByCnd_runs upsets s r s' :
  UpdateByCnd modelDrivers upsets s = (r, s') ->
  only_runs s (fun sql args => exists f, trim_end (upset_text (Escape (cnd s)) upsets) 1 = Ok f /\
    conditioned s (fun obv => "update " +:+ TableName obv +:+ " set " +:+ f +:+ " where") (map snd upsets) sql args) s'.
Proof.
  unfold UpdateByCnd, model_of. rewrite !bind_run. cbn [get].
  destruct (Model (cnd s)) as [table|] eqn:Em; cbn [mret run_ret]; [|intros [= _ <-]; by left].
  rewrite bind_run. cbn [get]. destruct (length (Upsets (cnd s)) =? 0)%nat; [intros [= _ <-]; by left|].
  rewrite bind_run. unfold driver_of.
  destruct (modelDrivers !! table) as [obv|] eqn:Ed; cbn [mret run_ret]; [|intros [= _ <-]; by left].
  rewrite bind_run. unfold build_where. rewrite bind_run. cbn [get]. unfold lift.
  destruct (BuildWhereCase (cnd s)) as [[part args]| |] eqn:Ew; [|intros [= _ <-]; by left..].
  destruct ((slen part =? 0) || (length args =? 0)%nat) eqn:Eg; [intros [= _ <-]; by left|].
  apply orb_false_iff in Eg as [Eg1 Eg2]. z_bools. apply Nat.eqb_neq in Eg2.
  destruct (where_case_shape s part args Ew) as (Hc & -> & ->); [by intros ->; apply Eg1|].
  rewrite bind_run, where_text_ok, bind_run. unfold trim at 1, lift.
  destruct (trim_end (upset_text (Escape (cnd s)) upsets) 1) as [f| |]; [|intros [= _ <-]; by left..].
  intros Hr. apply finish_runs in Hr.
  eapply only_runs_impl; [|exact Hr]. intros sql' args' [-> ->].
  exists f. split; [done|]. exists table, obv. split_and!; try done; [by destruct (restriction s).2|]. by rewrite <- !str_app_assoc.
Qed.
End Guards.

(** C15: [DeleteByCnd] and [UpdateByCnd] never touch more than their conditions
    select.  Whatever the condition object, the only statement that can reach the
    database is the one on the model's table whose where text is the texts of the
    conditions joined by [and], each in full, with the arguments of all of them, of
    which there is one.  Every condition has its text there but those of a kind that
    the builder has no case for, which [InDate] makes: they are dropped
    ([InDate_dropped]).  Placeholders and arguments are equal in number when no key
    holds a question mark. *)
Theorem conditioned_statements `{Hdb : database D} `{lz : local_zone} drivers upsets (s s1 s2 : state D) r1 r2 :
  DeleteByCnd drivers s = (r1, s1) -> UpdateByCnd drivers upsets s = (r2, s2) ->
  only_runs s (conditioned drivers s (fun obv => "delete from " +:+ TableName obv +:+ " where") []) s1 /\
  only_runs s (fun sql args => exists f, trim_end (upset_text (Escape (cnd s)) upsets) 1 = Ok f /\
    conditioned drivers s (fun obv => "update " +:+ TableName obv +:+ " set " +:+ f +:+ " where") (map snd upsets) sql args) s2 /\
  (forall k, List.In k (Conditions (cnd s)) -> handled (Logic k) = true ->
     exists p, condition_text conjuncts (Escape (cnd s)) k = Some p /\ List.In p (conjuncts (VCnd (cnd s)))) /\
  (clean_keys (VCnd (cnd s)) = true -> is_ok (BuildWhereCase (cnd s)) = true ->
     count_marks (restriction s).1 = length (restriction s).2).
Proof.
  intros Hd Hu. split_and!; [by eapply DeleteByCnd_runs|by eapply UpdateByCnd_runs|intros k; by apply conjunct_in|].
  intros Hc Hok. destruct (BuildWhereCase (cnd s)) as [[part args]| |] eqn:E; [|done..].
  pose proof (all_marked (VCnd (cnd s)) (cnd s) eq_refl Hc _ E) as Hm. unfold marked in Hm. cbn [fst snd] in Hm.
  apply BuildWhereCase_text in E as [-> ->]. unfold restriction. destruct (decide _) as [Hn|]; [by rewrite Hn|].
  rewrite count_marks_app in Hm. change (count_marks " and") with 0%nat in Hm. lia.
Qed.

(** ** Errors are recorded, and decide how a transaction ends *)

(** A computation keeps the transaction and the errors recorded so far; it records
    an error only when it returns one, and always then when [strict]. *)
Definition recorded {D A} (strict : bool) (m : run D A) : Prop := forall s,
  let '(r, s') := m s in
  OpenTx s' = OpenTx s /\ Tx s' = Tx s /\
  exists l, Errors s' = (Errors s ++ l)%list /\ match r with Err _ => strict = true -> l <> [] | _ => l = [] end.

Definition no_err {A} (o : outcome string A) : Prop := forall e, o <> Err e.

Section Recorded.
Context {D : Type}.
Implicit Types (strict : bool).

Lemma rec_keep {A} strict (m : run D A) :
  (forall s, OpenTx (m s).2 = OpenTx s /\ Tx (m s).2 = Tx s /\ Errors (m s).2 = Errors s /\ (strict = true -> no_err (m s).1)) ->
  recorded strict m.
Proof.
  intros Hm s. specialize (Hm s). destruct (m s) as [r s']. cbn [fst snd] in Hm. destruct Hm as (H1 & H2 & H3 & H4).
  split_and!; [done|done|]. exists []. rewrite app_nil_r. split; [done|]. destruct r; try done. intros Hs. by destruct (H4 Hs e).
Qed.

Lemma rec_ret {A} strict (a : A) : recorded strict (mret a : run D A).
Proof. by apply rec_keep. Qed.

Lemma rec_get strict : recorded strict (get : run D (state D)).
Proof. by apply rec_keep. Qed.

Lemma rec_bind {A B} strict (m : run D A) (k : A -> run D B) :
  recorded strict m -> (forall a, recorded strict (k a)) -> recorded strict (m ≫= k).
Proof.
  intros Hm Hk s. rewrite bind_run. specialize (Hm s). destruct (m s) as [r s1].
  destruct Hm as (E1 & E2 & l & El & Hl). destruct r as [a| |].
  - specialize (Hk a s1). destruct (k a s1) as [r2 s2]. destruct Hk as (F1 & F2 & l2 & Fl & Hl2).
    split_and!; [congruence|congruence|]. exists (l ++ l2)%list. rewrite Fl, El, app_assoc. split; [done|].
    subst l. destruct r2; try done.
  - split_and!; [done|done|]. by exists l.
  - split_and!; [done|done|]. by exists l.
Qed.

Lemma rec_fail {A} strict e : recorded strict (fail e : run D A).
Proof. intros s. cbn. split_and!; [done|done|]. exists [e]. done. Qed.

Lemma rec_lift {A} strict (o : outcome string A) : (strict = true -> no_err o) -> recorded strict (lift o : run D A).
Proof. intros Ho. by apply rec_keep. Qed.

Lemma rec_lift_loose {A} (o : outcome string A) : recorded false (lift o : run D A).
Proof. by apply rec_lift. Qed.

Lemma rec_or_fail {A} strict msg (o : outcome string A) : recorded strict (or_fail msg o : run D A).
Proof. destruct o; [by apply rec_lift|by apply rec_fail|by apply rec_lift]. Qed.

Lemma rec_object strict r : recorded strict (object r : run D Object).
Proof. apply rec_keep. intros s. unfold object. by destruct (heap s !! r). Qed.

Lemma rec_cell strict r i : recorded strict (cell r i : run D value).
Proof. apply rec_bind; [apply rec_object|intros; apply rec_ret]. Qed.

Lemma rec_set_cell strict r i v : recorded strict (set_cell r i v : run D unit).
Proof. apply rec_bind; [apply rec_object|]. intros o. by apply rec_keep. Qed.

Lemma rec_new_object strict t w : recorded strict (new_object t w : run D nat).
Proof. by apply rec_keep. Qed.

Lemma rec_sync strict d : recorded strict (sync d : run D unit).
Proof. by apply rec_keep. Qed.

Lemma rec_NextIID strict : recorded strict (NextIID : run D Z).
Proof. apply rec_keep. intros s. unfold NextIID. by destruct (ids s). Qed.

Lemma rec_set_query strict f : recorded strict (set_query f : run D unit).
Proof. by apply rec_keep. Qed.

Lemma rec_each {A B} strict (f : B -> A -> run D B) l : 
  (forall b a, recorded strict (f b a)) -> forall b, recorded strict (each f b l).
Proof.
  intros Hf. induction l as [|x l IH]; intros b; cbn [each]; [apply rec_ret|]. by apply rec_bind.
Qed.

Lemma no_err_trim x n : no_err (trim_end x n).
Proof. intros e. unfold trim_end, Substr, slice. by destruct (_ && _ && _). Qed.

Lemma rec_trim strict x n : recorded strict (trim x n : run D string).
Proof. apply rec_lift. intros _. apply no_err_trim. Qed.

(** A computation that runs another one and records its error once more. *)
Lemma rec_again {A} strict (m : run D A) :
  recorded strict m ->
  recorded strict (fun st => match m st with (Err e, st) => fail e st | r => r end).
Proof.
  intros Hm s. specialize (Hm s). destruct (m s) as [[a|e|w] s1]; destruct Hm as (E1 & E2 & l & El & Hl).
  - split_and!; [done|done|]. by exists l.
  - cbn. split_and!; [done|done|]. exists (l ++ [e])%list. rewrite El, app_assoc. split; [done|]. intros _. by destruct l.
  - split_and!; [done|done|]. by exists l.
Qed.
End Recorded.

(** The builders never return an error. *)
Lemma no_err_bind {A B} (m : outcome string A) (k : A -> outcome string B) :
  no_err m -> (forall a, no_err (k a)) -> no_err (bind_outcome m k).
Proof. intros Hm Hk e. destruct m as [a| |]; cbn; [apply Hk|by intros [= <-]; apply (Hm e0)|done]. Qed.

Definition where_no_err (v : value) : Prop := forall c, v = VCnd c -> no_err (BuildWhereCase c).

Lemma no_err_disjuncts l : Forall where_no_err l -> no_err (disjuncts where_value l).
Proof.
  induction 1 as [|v l Hv _ IH]; [done|]. cbn [disjuncts]. destruct v as [| | | | |c]; cbn [where_value]; try done.
  apply no_err_bind; [exact (Hv c eq_refl)|]. intros [buf arg]. apply no_err_bind; [apply no_err_trim|].
  intros x. by apply no_err_bind.
Qed.

Lemma no_err_clause escape k : Forall where_no_err (Values k) -> no_err (clause escape where_value k).
Proof.
  intros Hv. unfold clause, where_step. cbn [bind_outcome].
  repeat (case_match; [first [done | unfold case_two; by destruct (Values k) as [|? [|? ?]]
    | unfold case_list; apply no_err_bind; [apply no_err_trim|done] | idtac]|]); [|done].
  unfold case_or. rewrite or_fold. apply no_err_bind.
  - cbn [bind_outcome]. apply no_err_bind; [by apply no_err_disjuncts|done].
  - intros [o a]. apply no_err_bind; [apply no_err_trim|done].
Qed.

Lemma no_err_where c : no_err (BuildWhereCase c).
Proof.
  assert (where_no_err (VCnd c)) as Hv; [|by apply Hv].
  generalize (VCnd c). intros v. induction v as [| | | | |c' IH] using value_nested_ind; intros c2 E; simplify_eq.
  rewrite BuildWhereCase_clauses. induction IH as [|k l Hk _ IHl]; [done|]. cbn [clauses].
  apply no_err_bind; [by apply no_err_clause|]. intros p. by apply no_err_bind.
Qed.

Lemma no_err_group c : no_err (BuildGroupBy c).
Proof. unfold BuildGroupBy. destruct (Groupbys c); [done|apply no_err_trim]. Qed.

Lemma no_err_sort c : no_err (BuildSortBy c).
Proof. unfold BuildSortBy. destruct (Orderbys c); [done|apply no_err_trim]. Qed.

Create HintDb recorded.
#[export] Hint Resolve rec_ret rec_get rec_fail rec_lift_loose rec_or_fail rec_object rec_cell rec_set_cell rec_new_object
  rec_sync rec_NextIID rec_set_query rec_trim : recorded.

Section Operations.
Context {D : Type} `{database D} `{lz : local_zone}
  (modelDrivers : drivers) (local : location) (fmt : layout)
  (json : value -> outcome string string) (unjson : string -> outcome string value) (Cst_sh : location).

Lemma rec_prepare strict label close sql : recorded strict (prepare label close sql : run D unit).
Proof. apply rec_bind; [apply rec_get|]. intros s. case_match; [by apply rec_lift|]. destruct (db_prepare _ _ _); [apply rec_fail|apply rec_ret]. Qed.

Lemma rec_exec strict sql args : recorded strict (exec sql args : run D _).
Proof. apply rec_keep. intros s. unfold exec. by destruct (db_exec _ _ _ _). Qed.

Lemma rec_query strict sql args : recorded strict (query sql args : run D _).
Proof. apply rec_keep. intros s. unfold query. by destruct (db_query _ _ _ _). Qed.

Lemma rec_build_where strict : recorded strict (build_where : run D _).
Proof. apply rec_bind; [apply rec_get|]. intros s. apply rec_lift. intros _. apply no_err_where. Qed.

Lemma rec_group strict c : recorded strict (lift (BuildGroupBy c) : run D _).
Proof. apply rec_lift. intros _. apply no_err_group. Qed.

Lemma rec_sort strict c : recorded strict (lift (BuildSortBy c) : run D _).
Proof. apply rec_lift. intros _. apply no_err_sort. Qed.

Lemma rec_page_count strict t n : recorded strict (lift (page_count t n) : run D _).
Proof. apply rec_lift. intros _ e. unfold page_count. by destruct (n =? 0). Qed.

Lemma rec_panic {A} strict w : recorded strict (lift (Panic w) : run D A).
Proof. by apply rec_lift. Qed.

Hint Resolve rec_prepare rec_exec rec_query rec_build_where rec_group rec_sort rec_page_count rec_panic : recorded.

Ltac rec :=
  repeat first
    [ solve [auto with recorded]
    | match goal with |- recorded _ (each _ _ _) => apply rec_each; intros ? ? end
    | apply rec_bind; [|intros ?]
    | apply rec_again
    | match goal with |- recorded _ (match ?x with _ => _ end) => destruct x end ].

Lemma rec_fill strict skip r i l row : recorded strict (fill local fmt unjson skip r i l row : run D unit).
Proof. revert i. induction l as [|vv l IH]; intros i; cbn [fill]; unfold column_at, set_column; rec; auto. Qed.

Lemma rec_fill_named strict r elems cols row i :
  recorded strict (fill_named local fmt unjson r elems cols row i : run D unit).
Proof. revert i. induction cols as [|c cols IH]; intros i; cbn [fill_named]; unfold column_at, set_column; rec; auto. Qed.

Lemma rec_fill_list strict t w (f : nat -> list column -> run D unit) old out :
  (forall r row, recorded strict (f r row)) -> recorded strict (fill_list t w f old out).
Proof.
  intros Hf. unfold fill_list. apply rec_bind; [|intros; apply rec_ret].
  apply rec_each. intros b row. rec; auto.
Qed.

Lemma rec_set_last_id strict r id l : recorded strict (set_last_id r id l : run D unit).
Proof. induction l as [|vv l IH]; cbn [set_last_id]; rec; auto. Qed.

Lemma rec_BuildPagination strict sql args : recorded strict (BuildPagination sql args : run D _).
Proof. unfold BuildPagination, set_totals. rec. Qed.

Hint Resolve rec_fill rec_fill_named rec_BuildPagination rec_set_last_id rec_fill_list : recorded.

Lemma rec_affected strict label verb sql args : recorded strict (affected label verb sql args : run D Z).
Proof. unfold affected, db_run. rec. Qed.

Lemma rec_driver_of strict label table : recorded strict (driver_of modelDrivers label table : run D _).
Proof. unfold driver_of. rec. Qed.

Lemma rec_select strict label close sql args : recorded strict (select label close sql args : run D _).
Proof. unfold select. rec. Qed.

Lemma rec_where_text strict a b : recorded strict (where_text a b : run D _).
Proof. unfold where_text. rec. Qed.

Hint Resolve rec_affected rec_driver_of rec_select rec_where_text : recorded.

Lemma rec_select_where strict a : recorded strict (select_where a : run D _).
Proof. unfold select_where. rec. Qed.

Hint Resolve rec_select_where : recorded.

Lemma rec_UpdateByCnd strict upsets : recorded strict (UpdateByCnd modelDrivers upsets : run D _).
Proof. unfold UpdateByCnd, model_of. rec. Qed.

Lemma rec_DeleteByCnd strict : recorded strict (DeleteByCnd modelDrivers : run D _).
Proof. unfold DeleteByCnd, model_of. rec. Qed.

Lemma rec_FindOne strict r : recorded strict (FindOne modelDrivers local fmt unjson r : run D _).
Proof. unfold FindOne, select_where. rec. Qed.

Lemma rec_FindList strict t : recorded strict (FindList modelDrivers local fmt unjson t : run D _).
Proof.
  unfold FindList, model_of, select_where, slice_of, is_page, set_totals. rec.
Qed.

Lemma rec_complex_sql strict f c : recorded strict (complex_sql f c : run D _).
Proof. unfold complex_sql, select_where. rec. Qed.

Hint Resolve rec_complex_sql : recorded.

Lemma rec_FindListComplex strict t : recorded strict (FindListComplex modelDrivers local fmt unjson t : run D _).
Proof.
  unfold FindListComplex, model_of, from_table, need_fields, slice_of, is_page, set_totals. rec.
Qed.

Lemma rec_FindOneComplex strict r : recorded strict (FindOneComplex modelDrivers local fmt unjson r : run D _).
Proof. unfold FindOneComplex, from_table, need_fields. rec. Qed.

(** The operations with an error that is not recorded. *)
Lemma rec_key_value strict label obv r : recorded strict (key_value label obv r : run D _).
Proof. unfold key_value. rec. Qed.

Hint Resolve rec_key_value : recorded.

Lemma rec_Save data : recorded false (Save modelDrivers local fmt json Cst_sh data : run D _).
Proof. unfold Save, save_sql, db_run. rec; unfold save_row; rec; unfold save_field, save_key, save_value; rec. Qed.

Lemma rec_Update data : recorded false (Update modelDrivers local fmt json data : run D _).
Proof. unfold Update, db_run. rec; unfold update_field; rec. Qed.

Lemma rec_Delete data : recorded false (Delete modelDrivers data : run D _).
Proof. unfold Delete, delete_sql. rec; unfold delete_row; rec. Qed.

Lemma rec_DeleteById t data : recorded false (DeleteById modelDrivers t data : run D _).
Proof. unfold DeleteById, delete_sql. rec. Qed.

Lemma rec_FindById r : recorded false (FindById modelDrivers local fmt unjson r : run D _).
Proof. unfold FindById. rec. Qed.

Lemma rec_Count : recorded false (Count modelDrivers : run D _).
Proof. unfold Count, model_of, set_totals. rec. Qed.

Lemma rec_Exists : recorded false (Exists modelDrivers : run D _).
Proof. unfold Exists, model_of. rec. Qed.
End Operations.

(** *** A session *)

(** The calls a client makes between the opening of a transaction and [Close],
    each with its condition object. *)
Inductive operation :=
  | OpSave (data : list nat) | OpUpdate (data : list nat) | OpDelete (data : list nat)
  | OpDeleteById (table : string) (data : list value) | OpFindById (data : nat)
  | OpUpdateByCnd (c : Cnd) (upsets : list (string * value)) | OpDeleteByCnd (c : Cnd)
  | OpFindOne (c : Cnd) (data : nat) | OpFindList (c : Cnd) (data : target)
  | OpCount (c : Cnd) | OpExists (c : Cnd)
  | OpFindListComplex (c : Cnd) (data : target) | OpFindOneComplex (c : Cnd) (data : nat).

(** The operations that record every error they return. *)
Definition strict_op (op : operation) : bool :=
  match op with
  | OpUpdateByCnd _ _ | OpDeleteByCnd _ | OpFindOne _ _ | OpFindList _ _ | OpFindListComplex _ _ | OpFindOneComplex _ _ => true
  | _ => false
  end.

Section Sessions.
Context {D : Type} `{database D} `{lz : local_zone}
  (modelDrivers : drivers) (local : location) (fmt : layout)
  (json : value -> outcome string string) (unjson : string -> outcome string value) (Cst_sh : location).

Definition quiet {A} (m : run D A) : run D unit := _ ← m; mret tt.
Definition on_cnd {A} (c : Cnd) (m : run D A) : run D unit := _ ← set_query (fun _ => c); quiet m.

Definition perform (op : operation) : run D unit :=
  match op with
  | OpSave data => Save modelDrivers local fmt json Cst_sh data
  | OpUpdate data => Update modelDrivers local fmt json data
  | OpDelete data => Delete modelDrivers data
  | OpDeleteById t data => quiet (DeleteById modelDrivers t data)
  | OpFindById r => FindById modelDrivers local fmt unjson r
  | OpUpdateByCnd c u => on_cnd c (UpdateByCnd modelDrivers u)
  | OpDeleteByCnd c => on_cnd c (DeleteByCnd modelDrivers)
  | OpFindOne c r => on_cnd c (FindOne modelDrivers local fmt unjson r)
  | OpFindList c t => on_cnd c (FindList modelDrivers local fmt unjson t)
  | OpCount c => on_cnd c (Count modelDrivers)
  | OpExists c => on_cnd c (Exists modelDrivers)
  | OpFindListComplex c t => on_cnd c (FindListComplex modelDrivers local fmt unjson t)
  | OpFindOneComplex c r => on_cnd c (FindOneComplex modelDrivers local fmt unjson r)
  end.

(** The client goes on after an error, and is stopped by a panic. *)
Fixpoint session (ops : list operation) (s : state D) : list (outcome string unit) * state D :=
  match ops with
  | [] => ([], s)
  | op :: ops =>
      let '(r, s') := perform op s in
      if is_panic r then ([r], s') else let '(rs, s2) := session ops s' in (r :: rs, s2)
  end.

Lemma perform_recorded op : recorded (strict_op op) (perform op).
Proof.
  destruct op; cbn [perform strict_op]; unfold on_cnd, quiet;
    repeat match goal with |- recorded _ (mbind _ _) => apply rec_bind; [|intros ?] end;
    auto using rec_Save, rec_Update, rec_Delete, rec_DeleteById, rec_FindById, rec_UpdateByCnd, rec_DeleteByCnd,
      rec_FindOne, rec_FindList, rec_Count, rec_Exists, rec_FindListComplex, rec_FindOneComplex, rec_ret, rec_set_query.
Qed.

(** The outcomes of a session and the errors it leaves. *)
Lemma session_errors ops s :
  let '(rs, s') := session ops s in
  OpenTx s' = OpenTx s /\ Tx s' = Tx s /\
  exists l, Errors s' = (Errors s ++ l)%list /\
    ((forall r, r ∈ rs -> no_err r) -> l = []) /\
    ((exists op e, (op, Err e) ∈ zip ops rs /\ strict_op op = true) -> l <> []).
Proof.
  revert s. induction ops as [|op ops IH]; intros s; cbn [session].
  { split_and!; [done|done|]. exists []. rewrite app_nil_r. split_and!; [done|done|]. intros (op & e & Hin & _). by apply elem_of_nil in Hin. }
  pose proof (perform_recorded op s) as Hp. destruct (perform op s) as [r s1]. destruct Hp as (E1 & E2 & l & El & Hl).
  destruct (is_panic r) eqn:Er.
  { split_and!; [done|done|]. exists l. destruct r; try done. subst l. split_and!; [done|done|].
    intros (op' & e & Hin & _). cbn [zip zip_with] in Hin. by destruct ops; apply list_elem_of_singleton in Hin. }
  specialize (IH s1). destruct (session ops s1) as [rs s2]. destruct IH as (F1 & F2 & l2 & Fl & G1 & G2).
  split_and!; [congruence|congruence|]. exists (l ++ l2)%list. split_and!; [by rewrite Fl, El, app_assoc| |].
  - intros Hok. rewrite G1, app_nil_r; [|intros r' Hr'; apply Hok; by right].
    destruct r as [| |]; try done. exfalso. apply (Hok (Err e)) with e; [by left|done].
  - intros (op' & e & Hin & Hs) Hnil. apply app_eq_nil in Hnil as [-> ->].
    cbn [zip zip_with] in Hin. apply list_elem_of_In in Hin as [[= -> ->]|Hin]; [by apply Hl|].
    apply G2; [|done]. exists op', e. split; [by apply list_elem_of_In|done].
Qed.
End Sessions.

(** C6: A transaction commits only what went through.  Take any sequence of calls on
    a manager whose transaction is open, whether or not the client looks at their
    errors, and then [Close].  When one of the calls that record their errors
    (find, update and delete by condition) has failed, [Close] rolls back and
    sends nothing to Mongo; when no call failed, it commits; and no other call
    than these two ever ends the transaction's database state. *)
Theorem session_end `{Hdb : database D} `{lz : local_zone} drivers local fmt json unjson sh ops (s : state D) :
  OpenTx s = true -> Tx s = true -> Errors s = [] ->
  let '(rs, s') := session drivers local fmt json unjson sh ops s in
  let '(synced, s2) := Close s' in
  ((exists op e, (op, Err e) ∈ zip ops rs /\ strict_op op = true) ->
     db s2 = (db_rollback (db s')).2 /\ synced = Ok []) /\
  ((forall r, r ∈ rs -> no_err r) -> db s2 = (db_commit (db s')).2) /\
  (db s2 = (db_rollback (db s')).2 \/ db s2 = (db_commit (db s')).2).
Proof.
  intros Ho Ht He. pose proof (session_errors drivers local fmt json unjson sh ops s) as Hs.
  destruct (session _ _ _ _ _ _ ops s) as [rs s']. destruct Hs as (Eo & Et & l & El & Hok & Herr).
  rewrite He in El. cbn [app] in El. unfold Close. rewrite Eo, Et, Ho, Ht, El. cbn [andb].
  destruct (length l =? 0)%nat eqn:E0; [apply Nat.eqb_eq in E0|apply Nat.eqb_neq in E0].
  - apply nil_length_inv in E0 as ->. destruct (db_commit (db s')) as [[e|] d]; cbn [db with_db snd fst].
    all: split_and!; [intros Hx; by destruct (Herr Hx)|done|by right].
  - destruct (db_rollback (db s')) as [o d]; cbn [db with_db snd]. split_and!; [done| |by left].
    intros Hx. rewrite (Hok Hx) in E0. done.
Qed.

(** ** A database that remembers what it was told *)

#[export] Instance log_database : database (list string) := {
  db_prepare _ _ _ := None;
  db_exec _ sql _ d := (Ok (mk_exec (Ok 1) (Ok 7)), (d ++ [sql])%list);
  db_query _ sql _ d := (Ok (mk_query (Ok ["id"; "name"]) (Ok [[Some "5"; Some "y"]])), (d ++ [sql])%list);
  db_begin d := (None, (d ++ ["begin"])%list);
  db_commit d := (None, (d ++ ["commit"])%list);
  db_rollback d := (None, (d ++ ["rollback"])%list)
}.

Definition demo_type : ObjectType :=
  mk_object_type "t_order" (Some
    [mk_struct_field "Id" KInt64 "int64" (fun k => if String.eqb k "json" then "id" else "");
     mk_struct_field "Name" KString "string" (fun k => if String.eqb k "json" then "name" else "")]).

Definition demo_drivers : drivers :=
  match ModelDriver ∅ [Some demo_type] with Ok ds => ds | _ => ∅ end.

Definition demo_state : state (list string) :=
  mk_state true false false true [] [] [mk_object "t_order" [VInt 5; VStr "x"]] [9] 0
    (Upset (Eq (M ["t_order"]) "id" (VInt 5)) ["name"] [VStr "y"]) [] (mk_settings "master" "shop" 10000).

#[local] Instance utc : local_zone := fun _ => 0.

Lemma conditioned_statements_witness :
  db (UpdateByCnd demo_drivers [("name", VStr "y")] demo_state).2 = ["update t_order set  `name` = ? where `id` = ?"] /\
  db (DeleteByCnd demo_drivers demo_state).2 = ["delete from t_order where `id` = ?"] /\
  only_runs demo_state (conditioned demo_drivers demo_state (fun obv => "delete from " +:+ TableName obv +:+ " where") [])
    (DeleteByCnd demo_drivers demo_state).2.
Proof.
  split; [vm_compute; reflexivity|]. split; [vm_compute; reflexivity|].
  exact (proj1 (conditioned_statements demo_drivers [("name", VStr "y")] demo_state _ _ _ _
    (surjective_pairing (DeleteByCnd demo_drivers demo_state))
    (surjective_pairing (UpdateByCnd demo_drivers [("name", VStr "y")] demo_state)))).
Defined.

(** An update that goes through, then a delete on a table nobody registered. *)
Definition demo_session : list (outcome string unit) * state (list string) :=
  session demo_drivers (Zone "UTC" (fun _ => 0)) Time_fmt (fun _ => Ok "") (fun _ => Ok VNil) (Zone "UTC" (fun _ => 0))
    [OpUpdateByCnd (cnd demo_state) [("name", VStr "y")]; OpDeleteByCnd (Eq (M ["t_user"]) "id" (VInt 5))] demo_state.

Lemma session_end_witness :
  let '(rs, s') := demo_session in
  let '(synced, s2) := Close s' in
  nth 1 rs (Ok tt) = Err "[Mysql.DeleteByCnd] registration object type not found [t_user]" /\ db s2 = (db_rollback (db s')).2 /\
  db s2 = ["update t_order set  `name` = ? where `id` = ?"; "rollback"].
Proof.
  pose proof (session_end demo_drivers (Zone "UTC" (fun _ => 0)) Time_fmt (fun _ => Ok "") (fun _ => Ok VNil) (Zone "UTC" (fun _ => 0))
    [OpUpdateByCnd (cnd demo_state) [("name", VStr "y")]; OpDeleteByCnd (Eq (M ["t_user"]) "id" (VInt 5))] demo_state
    eq_refl eq_refl eq_refl) as Hend.
  unfold demo_session. destruct (session _ _ _ _ _ _ _ demo_state) as [rs s'] eqn:E.
  destruct (Close s') as [synced s2] eqn:Ec. vm_compute in E. injection E as <- <-.
  split; [reflexivity|]. split; [|vm_compute in Ec; by injection Ec as _ <-].
  apply Hend. do 2 eexists. split; [right; left|reflexivity].
Defined.

(** A manager has an open transaction exactly when it was asked for: when [GetDB]
    succeeds on a fresh manager, statements go to a transaction if and only if the
    option asked for one, and then there is one; a data source that does not exist
    and a transaction that does not begin are recorded, so that [Close] never
    commits after them.  Setting up sources never replaces one. *)
Theorem GetDB_opens `{Hdb : database D} rdbs configs options (s s' : state D) r :
  Tx s = false -> GetDB (buildByConfig rdbs configs).2 options s = (r, s') ->
  (r = Ok tt -> Tx s' = OpenTx s' /\ OpenTx s' = from_option op_OpenTx false (head options) /\ Errors s' = Errors s) /\
  (r <> Ok tt -> Errors s' <> [] /\ Tx s' = false) /\
  (forall name src, rdbs !! name = Some src -> (buildByConfig rdbs configs).2 !! name = Some src).
Proof.
  intros Ht Hg. split_and!.
  3: { clear Hg. revert rdbs. induction configs as [|v configs IH]; intros rdbs name src Hs; [done|].
       cbn [buildByConfig]. unfold add_source. repeat case_match; simplify_eq; try done.
       all: apply IH; rewrite lookup_insert_ne; [done|]; intros E; rewrite E in *; congruence. }
  all: set (ds := (buildByConfig rdbs configs).2) in *; unfold GetDB, named_option, begin_tx, fail in Hg.
  all: destruct options as [|o rest]; [|destruct (0 <? slen (op_DsName o)) eqn:Hn].
  all: cbn [op_DsName op_OpenTx no_option from_option head] in *; rewrite ?Hn in Hg; change (0 <? slen MASTER) with true in Hg.
  all: change (0 <? slen "") with false in Hg; cbn iota in Hg.
  all: destruct (ds !! _); [|injection Hg as <- <-; cbn; intros; split; [by destruct (Errors s)|done] || done].
  all: try destruct (op_OpenTx o) eqn:Ho; try destruct (db_begin _) as [[e|] d]; injection Hg as <- <-; cbn.
  all: intros; split_and!; try done; by destruct (Errors s).
Qed.

Lemma GetDB_opens_witness :
  let s := mk_state false false false false [] [] [] [] 0 (M []) [] (mk_settings "" "" 0) in
  let rdbs := (buildByConfig ∅ [mk_config (mk_option "" "shop" false false false 0) None]).2 in
  let s' := (GetDB rdbs [mk_option "" "" true false false 0] s).2 in
  db s' = ["begin"] /\ Tx s' = true.
Proof.
  split; [vm_compute; reflexivity|].
  destruct (GetDB_opens ∅ [mk_config (mk_option "" "shop" false false false 0) None] [mk_option "" "" true false false 0]
    (mk_state false false false false [] [] [] [] 0 (M []) [] (mk_settings "" "" 0)) _ _ eq_refl (surjective_pairing _)) as (Hok & _ & _).
  destruct Hok as (Ht & Ho & _); [vm_compute; reflexivity|]. rewrite Ht, Ho. reflexivity.
Defined.
