(* ===== verification/RdbRows.v ===== *)
(** * What the relational manager reads and writes, row by row

    How a row of an answer reaches an object, what a list query returns, the
    arguments of an insert, and the windows of the pages. *)

From S2P Require Import Prelude GoStrings GoTime TimeUtils Sqlc Model SqlBuilder RdbManager RdbProofs.

#[local] Open Scope string_scope.
#[local] Open Scope Z_scope.

(** ** Computations that succeed *)

Section Inversion.
Context {D : Type}.
Implicit Types (s : state D).

Lemma bind_ok {A B} (m : run D A) (k : A -> run D B) s b s2 :
  (m ≫= k) s = (Ok b, s2) -> exists a s1, m s = (Ok a, s1) /\ k a s1 = (Ok b, s2).
Proof. rewrite bind_run. destruct (m s) as [[a| |] s1]; try done. by exists a, s1. Qed.

Lemma lift_ok {A} (o : outcome string A) s a s' : lift o s = (Ok a, s') -> o = Ok a /\ s' = s.
Proof. by intros [= -> ->]. Qed.

Lemma get_ok s a s' : get s = (Ok a, s') -> a = s /\ s' = s.
Proof. by intros [= -> ->]. Qed.

Lemma ret_ok {A} (x : A) s a s' : (mret x : run D A) s = (Ok a, s') -> a = x /\ s' = s.
Proof. by intros [= -> ->]. Qed.

Lemma or_fail_ok {A} msg (o : outcome string A) s a s' : or_fail msg o s = (Ok a, s') -> o = Ok a /\ s' = s.
Proof. rewrite or_fail_run. destruct o; try done. by intros [= -> ->]. Qed.

Lemma fail_ok {A} e s (a : A) s' : fail e s = (Ok a, s') -> False.
Proof. done. Qed.

Lemma object_ok r s o s' : object r s = (Ok o, s') -> heap s !! r = Some o /\ s' = s.
Proof. unfold object. destruct (heap s !! r); [|done]. by intros [= -> ->]. Qed.

Lemma trim_ok x n s y s' : trim x n s = (Ok y, s') -> trim_end x n = Ok y /\ s' = s.
Proof. apply lift_ok. Qed.

Lemma build_where_ok s p s' : build_where s = (Ok p, s') -> BuildWhereCase (cnd s) = Ok p /\ s' = s.
Proof.
  intros (? & ? & [-> ->]%get_ok & Hl)%bind_ok. by apply lift_ok in Hl.
Qed.

Lemma driver_of_ok drivers label table s obv s' :
  driver_of drivers label table s = (Ok obv, s') -> drivers !! table = Some obv /\ s' = s.
Proof. unfold driver_of. destruct (drivers !! table); [|done]. by intros [= -> ->]. Qed.

Lemma column_at_ok row i s b s' : column_at row i s = (Ok b, s') -> row !! i = Some b /\ s' = s.
Proof. unfold column_at. destruct (row !! i); [|done]. by intros [= -> ->]. Qed.

Lemma select_where_ok part s w s' : select_where part s = (Ok w, s') -> s' = s.
Proof.
  unfold select_where. case_match; [|by intros [_ ->]%ret_ok].
  unfold where_text. intros (? & ? & [_ ->]%trim_ok & [_ ->]%trim_ok)%bind_ok. done.
Qed.

End Inversion.

(** Takes a successful computation apart, step by step. *)
Ltac run_step :=
  match goal with
  | H : (_ ≫= _) _ = (Ok _, _) |- _ =>
      let E := fresh "E" in apply bind_ok in H as (? & ? & E & H); cbn beta in H
  | H : get _ = (Ok _, _) |- _ => apply get_ok in H as [-> ->]
  | H : mret _ _ = (Ok _, _) |- _ => apply ret_ok in H as [? ->]
  | H : lift _ _ = (Ok _, _) |- _ => apply lift_ok in H as [H ->]
  | H : or_fail _ _ _ = (Ok _, _) |- _ => apply or_fail_ok in H as [H ->]
  | H : fail _ _ = (Ok _, _) |- _ => by apply fail_ok in H
  | H : object _ _ = (Ok _, _) |- _ => apply object_ok in H as [H ->]
  | H : trim _ _ _ = (Ok _, _) |- _ => apply trim_ok in H as [H ->]
  | H : build_where _ = (Ok _, _) |- _ => apply build_where_ok in H as [H ->]
  | H : driver_of _ _ _ _ = (Ok _, _) |- _ => apply driver_of_ok in H as [H ->]
  | H : column_at _ _ _ = (Ok _, _) |- _ => apply column_at_ok in H as [H ->]
  | H : select_where _ _ = (Ok _, _) |- _ => apply select_where_ok in H as ->
  | H : (let '(_, _) := ?p in _) _ = (Ok _, _) |- _ => destruct p
  | H : (let '(_, _) := ?p in _) = (Ok _, _) |- _ => destruct p eqn:?
  end.
Ltac run_inv := repeat run_step; subst; cbn beta in *.

Section Rows.
Context {D : Type} `{database D} `{lz : local_zone} (modelDrivers : drivers) (local : location) (fmt : layout)
  (json : value -> outcome string string) (unjson : string -> outcome string value).
Implicit Types (s : state D).

(** ** From a row to an object *)

(** The state after an object was replaced. *)
Definition put (r : nat) (o : Object) (s : state D) : state D := with_heap s (<[r := o]> (heap s)).

Lemma put_put r o o' s : put r o' (put r o s) = put r o' s.
Proof. unfold put, with_heap. cbn. by rewrite list_insert_insert_eq. Qed.

Lemma put_same r o s : heap s !! r = Some o -> put r o s = s.
Proof. intros Ho. unfold put, with_heap. rewrite list_insert_id by done. by destruct s. Qed.

Lemma put_heap r o o' s : heap s !! r = Some o -> heap (put r o' s) !! r = Some o'.
Proof. intros Ho. cbn. apply list_lookup_insert_eq. by apply lookup_lt_Some in Ho. Qed.

Lemma set_column_ok r vv b s s' o :
  set_column local fmt unjson r vv b s = (Ok tt, s') -> heap s !! r = Some o ->
  exists v, SetValue local fmt unjson (nth (FieldOffset vv) (o_cells o) VNil) vv b = Ok v /\
    s' = put r (mk_object (o_table o) (<[FieldOffset vv := v]> (o_cells o))) s.
Proof.
  unfold set_column, cell. intros Hs Ho. run_inv. unfold set_cell in Hs. run_inv. simplify_eq.
  by eexists.
Qed.

(** What one field of an object becomes when the row is read. *)
Definition loaded (skip : bool) (vv : FieldElem) (b : option column) (old new : option value) : Prop :=
  if Ignore vv then new = old
  else exists c : option string, b = Some c /\
    if skip && IsDate vv && bool_decide (c = None) then new = old
    else exists v0 v, old = Some v0 /\ SetValue local fmt unjson v0 vv c = Ok v /\ new = Some v.

Definition placed (i : nat) (l : list FieldElem) : Prop := forall k vv, l !! k = Some vv -> FieldOffset vv = (i + k)%nat.

Lemma placed_tail i vv l : placed i (vv :: l) -> FieldOffset vv = i /\ placed (S i) l.
Proof.
  intros Hp. split; [rewrite (Hp 0%nat vv eq_refl); lia|]. intros k w E. rewrite (Hp (S k) w E). lia.
Qed.

Lemma fill_ok skip r l row : forall i s s' o,
  fill local fmt unjson skip r i l row s = (Ok tt, s') -> heap s !! r = Some o -> placed i l ->
  (i + length l <= length (o_cells o))%nat ->
  exists cells, s' = put r (mk_object (o_table o) cells) s /\ length cells = length (o_cells o) /\
    (forall k, (k < i)%nat -> cells !! k = o_cells o !! k) /\
    (forall k vv, l !! k = Some vv -> loaded skip vv (row !! (i + k)%nat) (o_cells o !! (i + k)%nat) (cells !! (i + k)%nat)).
Proof.
  assert (forall s o, heap s !! r = Some o -> exists cells, s = put r (mk_object (o_table o) cells) s /\ cells = o_cells o) as Hid.
  { intros s o Ho. exists (o_cells o). split; [|done]. symmetry. apply put_same. by destruct o. }
  induction l as [|vv l IH]; intros i s s' o Hf Ho Hp Hlen; cbn [fill] in Hf.
  { run_inv. destruct (Hid _ _ Ho) as (c & E & ->). exists (o_cells o). by split_and!. }
  apply placed_tail in Hp as [Hoff Hp]. cbn [length] in Hlen.
  (* one turn, then the rest *)
  assert (forall cells s1, s1 = put r (mk_object (o_table o) cells) s -> length cells = length (o_cells o) ->
    (forall k, k <> i -> cells !! k = o_cells o !! k) ->
    loaded skip vv (row !! i) (o_cells o !! i) (cells !! i) ->
    fill local fmt unjson skip r (S i) l row s1 = (Ok tt, s') ->
    exists cells, s' = put r (mk_object (o_table o) cells) s /\ length cells = length (o_cells o) /\
      (forall k, (k < i)%nat -> cells !! k = o_cells o !! k) /\
      (forall k vv', (vv :: l) !! k = Some vv' -> loaded skip vv' (row !! (i + k)%nat) (o_cells o !! (i + k)%nat) (cells !! (i + k)%nat))) as Hstep.
  { intros cells s1 -> Hc Hsame Hload Hrest.
    destruct (IH (S i) _ s' (mk_object (o_table o) cells) Hrest) as (cells' & -> & Hc' & Hlow & Hl);
      [by eapply put_heap|done|cbn [o_cells]; lia|].
    exists cells'. rewrite put_put. cbn [o_table o_cells] in *. split_and!; [done|lia| |].
    - intros k Hk. rewrite Hlow, Hsame by lia. done.
    - intros [|k] vv' E; cbn in E.
      + injection E as <-. rewrite Nat.add_0_r, Hlow by lia. done.
      + specialize (Hl k vv' E). replace (i + S k)%nat with (S i + k)%nat by lia. rewrite <- (Hsame (S i + k)%nat) by lia. done. }
  destruct (Ignore vv) eqn:Hi.
  { destruct (Hid _ _ Ho) as (c & E & ->). eapply (Hstep (o_cells o)); [exact E|done|done| |done]. by unfold loaded; rewrite Hi. }
  run_inv. rename x into b. destruct (skip && IsDate vv && bool_decide (b = None)) eqn:Hskip.
  { run_inv. destruct (Hid _ _ Ho) as (c & E' & ->). eapply (Hstep (o_cells o)); [exact E'|done|done| |done].
    unfold loaded. rewrite Hi. exists b. by rewrite Hskip. }
  repeat match goal with u : unit |- _ => destruct u end.
  eapply set_column_ok in E0 as (v & Hv & Hs); [|exact Ho]. subst.
  destruct (lookup_lt_is_Some_2 (o_cells o) (FieldOffset vv)) as [v0 Hv0]; [lia|].
  eapply (Hstep (<[FieldOffset vv := v]> (o_cells o))); [done|by rewrite length_insert| | |done].
  - intros k Hk. rewrite list_lookup_insert_ne; [done|lia].
  - unfold loaded. rewrite Hi. exists b. rewrite Hskip. split; [done|]. exists v0, v. split_and!; [done| |].
    + by erewrite nth_lookup_Some in Hv by exact Hv0.
    + rewrite list_lookup_insert_eq; [done|]. by apply lookup_lt_Some in Hv0.
Qed.

(** An object loaded from a row. *)
Definition loaded_row (skip : bool) (elems : list FieldElem) (row : list column) (old new : list value) : Prop :=
  forall k vv, elems !! k = Some vv -> loaded skip vv (row !! k) (old !! k) (new !! k).

Lemma fill_row skip r l row s s' o :
  fill local fmt unjson skip r 0 l row s = (Ok tt, s') -> heap s !! r = Some o -> placed 0 l ->
  (length l <= length (o_cells o))%nat ->
  exists cells, s' = put r (mk_object (o_table o) cells) s /\ loaded_row skip l row (o_cells o) cells.
Proof. intros Hf Ho Hp Hl. destruct (fill_ok _ _ _ _ _ _ _ _ Hf Ho Hp Hl) as (cells & E & _ & _ & Hc). by exists cells. Qed.

(** The objects of a list: one per row, new, in the order of the rows. *)
Lemma fill_list_each table elems rows : placed 0 elems -> forall acc s all s',
  each (fun acc row => r ← new_object table (length elems); _ ← fill local fmt unjson true r 0 elems row; mret (acc ++ [r])%list)
    acc rows s = (Ok all, s') ->
  all = (acc ++ seq (length (heap s)) (length rows))%list /\ db s' = db s /\
  (forall k, (k < length (heap s))%nat -> heap s' !! k = heap s !! k) /\
  (forall i row, rows !! i = Some row -> exists cells, heap s' !! (length (heap s) + i)%nat = Some (mk_object table cells) /\
     loaded_row true elems row (replicate (length elems) VNil) cells).
Proof.
  intros Hp. induction rows as [|row rows IH]; intros acc s all s' He; cbn [each] in He.
  { run_inv. cbn. rewrite app_nil_r. by split_and!. }
  run_inv. unfold new_object in E0. injection E0 as <- <-.
  repeat match goal with u : unit |- _ => destruct u end.
  eapply fill_row in E1 as (cells & Hput & Hload);
    [|cbn; rewrite lookup_app_r, Nat.sub_diag by lia; reflexivity|done|cbn; by rewrite length_replicate].
  subst. cbn [o_table o_cells] in *.
  assert (length (heap (put (length (heap s)) (mk_object table cells)
    (with_heap s (heap s ++ [mk_object table (replicate (length elems) VNil)])))) = S (length (heap s))) as Hlen.
  { cbn. rewrite length_insert, length_app. cbn. lia. }
  apply IH in He as (-> & Hdb & Hsame & Hrows). rewrite Hlen in *. split_and!.
  - rewrite <- app_assoc. cbn [app length seq]. reflexivity.
  - by rewrite Hdb.
  - intros k Hk. rewrite Hsame by lia. cbn. rewrite list_lookup_insert_ne, lookup_app_l by lia. done.
  - intros [|i] row' Er; cbn in Er.
    + injection Er as <-. exists cells. split; [|done]. rewrite Nat.add_0_r, Hsame by lia. cbn.
      apply list_lookup_insert_eq. rewrite length_app. cbn. lia.
    + specialize (Hrows i row' Er). by replace (length (heap s) + S i)%nat with (S (length (heap s)) + i)%nat by lia.
Qed.

(** The field of a row has to be there. *)
Lemma fill_reads skip r l row : forall i s s', fill local fmt unjson skip r i l row s = (Ok tt, s') ->
  forall k vv, l !! k = Some vv -> Ignore vv = false -> (i + k < length row)%nat.
Proof.
  induction l as [|v l IH]; intros i s s' Hf k vv Hk Hi; [done|]. cbn [fill] in Hf. destruct k as [|k]; cbn in Hk.
  - injection Hk as ->. rewrite Hi in Hf. run_inv. apply lookup_lt_Some in E. lia.
  - assert (S i + k < length row)%nat; [|lia]. destruct (Ignore v); [by eapply IH|]. run_inv. by eapply IH.
Qed.
End Rows.

(** The fields a query asks for. *)
Definition queried (l : list FieldElem) : list FieldElem := List.filter (fun vv => negb (Ignore vv)) l.

Lemma queried_first (l : list FieldElem) :
  (forall k vv, l !! k = Some vv -> Ignore vv = false -> (k < length (queried l))%nat) ->
  forall j k vj vk, l !! j = Some vj -> Ignore vj = true -> l !! k = Some vk -> Ignore vk = false -> (k < j)%nat.
Proof.
  assert (forall l, length (queried l) <= length l)%nat as Hle.
  { intros l0. unfold queried. induction l0 as [|x l0 IH]; cbn; [lia|]. destruct (negb _); cbn; lia. }
  assert (forall l j vj, l !! j = Some vj -> Ignore vj = true -> length (queried l) < length l)%nat as Hlt.
  { intros l0. induction l0 as [|x l0 IH]; intros j vj Hj Hi; [done|]. unfold queried in *. destruct j as [|j]; cbn in Hj |- *.
    - injection Hj as ->. rewrite Hi. cbn. specialize (Hle l0). unfold queried in Hle. lia.
    - specialize (IH j vj Hj Hi). destruct (negb (Ignore x)); cbn; lia. }
  induction l as [|x l IH] using rev_ind; intros Hk; [intros j k vj vk Hj; done|].
  unfold queried in Hk. rewrite List.filter_app, length_app in Hk. cbn in Hk. fold (queried l) in Hk.
  intros j k vj vk Hj Hij Hkk Hik. pose proof (lookup_lt_Some _ _ _ Hj) as Hlj. pose proof (lookup_lt_Some _ _ _ Hkk) as Hlk.
  rewrite length_app in Hlj, Hlk. cbn in Hlj, Hlk.
  destruct (Ignore x) eqn:Hx; cbn in Hk.
  - destruct (decide (k = length l)) as [->|Hne]; [rewrite lookup_app_r, Nat.sub_diag in Hkk by lia; cbn in Hkk; congruence|].
    rewrite lookup_app_l in Hkk by lia.
    destruct (decide (j = length l)) as [->|Hne2]; [lia|]. rewrite lookup_app_l in Hj by lia.
    eapply (IH ltac:(intros k' v' E1 E2; specialize (Hk k' v'); rewrite lookup_app_l in Hk by (by apply lookup_lt_Some in E1); specialize (Hk E1 E2); lia)); eauto.
  - specialize (Hk (length l) x). rewrite lookup_app_r, Nat.sub_diag in Hk by lia. specialize (Hk eq_refl Hx).
    destruct (decide (j = length l)) as [->|Hne]; [rewrite lookup_app_r, Nat.sub_diag in Hj by lia; cbn in Hj; congruence|].
    rewrite lookup_app_l in Hj by lia. specialize (Hlt l j vj Hj Hij). lia.
Qed.

Section Finds.
Context {D : Type} `{database D} `{lz : local_zone} (modelDrivers : drivers) (local : location) (fmt : layout)
  (json : value -> outcome string string) (unjson : string -> outcome string value).
Implicit Types (s : state D).

Lemma prepare_ok label close sql s s' : prepare label close sql s = (Ok tt, s') -> s' = s.
Proof. unfold prepare. intros Hp. run_inv. repeat case_match; by run_inv. Qed.

Lemma select_ok label close sql args s cols rows s' :
  select label close sql args s = (Ok (cols, rows), s') ->
  exists q d, db_query (OpenTx s) sql args (db s) = (Ok q, d) /\ Rows q = Ok rows /\ s' = with_db s d.
Proof.
  unfold select. intros Hs. run_inv. repeat match goal with u : unit |- _ => destruct u end.
  apply prepare_ok in E as ->. unfold query in E0. destruct (db_query (OpenTx s) sql args (db s)) as [o d] eqn:Eq.
  simplify_eq. eexists _, d. split_and!; [done| |done].
  destruct (Rows _); by simplify_eq/=.
Qed.

Lemma with_cnd_heap s c : heap (with_cnd s c) = heap s. Proof. done. Qed.

(** C25: [FindOne] asks for the first row that satisfies the conditions, in the columns
    of the model, and when the answer has a row the object that the caller
    passed is loaded from it: field number k from column number k, every ignored
    field keeping its value, every other field taking what [SetValue] makes of its
    column; nothing else in the heap changes.  Without a row the heap is left as it
    was. *)
Theorem FindOne_loads r s s' o obv :
  FindOne modelDrivers local fmt unjson r s = (Ok tt, s') ->
  heap s !! r = Some o -> modelDrivers !! o_table o = Some obv ->
  placed 0 (FieldElems obv) -> (length (FieldElems obv) <= length (o_cells o))%nat ->
  exists columns part args w sortby q rows,
    trim_end (column_list obv) 1 = Ok columns /\
    BuildWhereCase (Offset (cnd s) 0 1) = Ok (part, args) /\ BuildSortBy (Offset (cnd s) 0 1) = Ok sortby /\
    db_query (OpenTx s) ("select " +:+ columns +:+ " from " +:+ TableName obv +:+ " " +:+ w +:+ sortby +:+ " limit 1") args (db s)
      = (Ok q, db s') /\ Rows q = Ok rows /\
    match rows with
    | [] => heap s' = heap s
    | row :: _ => exists cells, heap s' = <[r := mk_object (o_table o) cells]> (heap s) /\
        loaded_row local fmt unjson false (FieldElems obv) row (o_cells o) cells
    end.
Proof.
  intros Hf Ho Hd Hp Hl. unfold FindOne in Hf. run_inv. injection E1 as <- <-. cbn [heap with_cnd cnd] in *.
  assert (x = o) as -> by congruence. assert (x1 = obv) as -> by congruence.
  apply select_ok in E7 as (q & d & Hq & Hr & ->). cbn [OpenTx db with_cnd] in Hq.
  exists x9, s0, l, x0, x7, q, l1. do 3 (split; [assumption|]). destruct l1 as [|row rows].
  - run_inv. by split_and!.
  - eapply fill_row in Hf as (cells & -> & Hload); [|exact Ho|done|done]. split_and!; [done|done|]. by exists cells.
Qed.

(** What does not move in a computation that succeeds. *)
Definition kept (s s' : state D) : Prop := heap s' = heap s /\ OpenTx s' = OpenTx s.

Lemma kept_trans s1 s2 s3 : kept s1 s2 -> kept s2 s3 -> kept s1 s3.
Proof. intros [E1 E2] [E3 E4]. split; congruence. Qed.

Lemma query_frame sql args s q s' : query sql args s = (Ok q, s') -> kept s s'.
Proof. unfold query. destruct (db_query _ _ _ _) as [o d]. by intros [= <- <-]. Qed.

Lemma set_query_frame f s u s' : set_query f s = (Ok u, s') -> kept s s'.
Proof. by intros [= <- <-]. Qed.

Lemma BuildPagination_frame sql args s x s' : BuildPagination sql args s = (Ok x, s') -> kept s s'.
Proof.
  unfold BuildPagination. intros Hb. run_inv. repeat case_match; run_inv; try done.
  all: eapply kept_trans; [by eapply query_frame|by eapply set_query_frame].
Qed.

Lemma is_page_frame s u s' : (is_page : run D unit) s = (Ok u, s') -> kept s s' /\ db s' = db s.
Proof. unfold is_page, set_totals. intros Hi. run_inv. case_match; run_inv; [|done]. by injection Hi as <- <-. Qed.

(** C24: [FindList] returns as many objects as the answer has rows.  Each row is
    loaded into a new object, field from column, and no object that existed before
    changes; with a slice that had no capacity the result is the new objects in
    the order of the rows.  With a slice that had a capacity the new objects come
    after what the slice held and the result is cut to the number of rows: then
    the old elements are returned, and none of the rows when there are no more
    rows than the capacity. *)
Theorem FindList_answers old s res s' table obv :
  FindList modelDrivers local fmt unjson (TSlice old) s = (Ok res, s') ->
  Model (cnd s) = Some table -> modelDrivers !! table = Some obv -> placed 0 (FieldElems obv) ->
  exists sql part args d q rows,
    BuildWhereCase (cnd s) = Ok (part, args) /\
    db_query (OpenTx s) sql args d = (Ok q, db s') /\ Rows q = Ok rows /\
    res = take (length rows) (old ++ seq (length (heap s)) (length rows)) /\ length res = length rows /\
    (old = [] -> res = seq (length (heap s)) (length rows)) /\
    ((length rows <= length old)%nat -> res = take (length rows) old) /\
    (forall k, (k < length (heap s))%nat -> heap s' !! k = heap s !! k) /\
    (forall i row, rows !! i = Some row -> exists cells, heap s' !! (length (heap s) + i)%nat = Some (mk_object table cells) /\
       loaded_row local fmt unjson true (FieldElems obv) row (replicate (length (FieldElems obv)) VNil) cells).
Proof.
  intros Hf Hm Hd Hp. unfold FindList, model_of in Hf. run_inv. rewrite Hm in E. run_inv.
  assert (x1 = obv) as -> by congruence.
  match goal with E : match ?o with _ => _ end = (Ok _, _), Eb : BuildPagination _ _ _ = (?o, ?sb) |- _ =>
    rename Eb into Hb; rename sb into s1; destruct o; try done; injection E as <- <- end.
  apply BuildPagination_frame in Hb as [Hh Ht].
  match goal with E : select _ _ _ _ _ = _ |- _ => apply select_ok in E as (q & d & Hq & Hr & ->) end.
  rewrite Ht in Hq. eexists _, _, _, (db s1), q, l1. split; [eassumption|].
  assert (forall rows : list (list column), length (take (length rows) (old ++ seq (length (heap s)) (length rows))) = length rows) as Hlen.
  { intros rows. rewrite length_take, length_app, length_seq. lia. }
  destruct l1 as [|row rows].
  - run_inv. match goal with E : is_page _ = _ |- _ => apply is_page_frame in E as [[Hh2 _] Hd2] end.
    cbn [heap db with_db] in *. rewrite Hd2, Hh2, Hh, take_0. split_and!; try done.
  - unfold slice_of, fill_list in Hf. run_inv.
    match goal with E : each _ _ _ _ = _ |- _ => apply fill_list_each in E as (-> & Hdb & Hsame & Hrows); [|done] end.
    cbn [heap db with_db] in *. rewrite Hdb, Hh in *. split_and!; try done.
    + intros ->. rewrite app_nil_l, firstn_all2; [done|]. rewrite length_seq. lia.
    + intros Hle. by rewrite take_app_le.
Qed.
End Finds.

(** A row is read only when no ignored field of the model comes before a queried
    one.  A query asks for the columns of the fields that are not ignored, and the
    loop reads the row at the position of the field: when the row has one
    column for each queried field, and the object is filled, then every queried
    field precedes every ignored field. *)
Theorem ignored_fields_last {D} `{lz : local_zone} local fmt unjson skip r l row (s s' : state D) :
  fill local fmt unjson skip r 0 l row s = (Ok tt, s') -> length row = length (queried l) ->
  forall j k vj vk, l !! j = Some vj -> Ignore vj = true -> l !! k = Some vk -> Ignore vk = false -> (k < j)%nat.
Proof.
  intros Hf Hrow. apply queried_first. intros k vv Hk Hi. rewrite <- Hrow. change k with (0 + k)%nat.
  by eapply fill_reads.
Qed.


(** *** At work *)

#[local] Instance utc : local_zone := fun _ => 0.

Definition no_json (v : value) : outcome string string := Err "json".
Definition no_unjson (v : string) : outcome string value := Err "json".
Definition zone_utc : location := Zone "UTC" (fun _ => 0).

Definition demo_driver : MdlDriver := default (mk_driver "" false 0 KOther "" "" false "" "" "" []) (demo_drivers !! "t_order").

Lemma demo_driver_in : demo_drivers !! "t_order" = Some demo_driver.
Proof. vm_compute. reflexivity. Qed.

Lemma demo_placed : placed 0 (FieldElems demo_driver).
Proof. intros k vv E. do 2 (destruct k as [|k]; [vm_compute in E; by injection E as <-|]). by vm_compute in E. Qed.

Definition demo_one : state (list string) := (FindOne demo_drivers zone_utc Time_fmt no_unjson 0 demo_state).2.

Lemma demo_one_run : FindOne demo_drivers zone_utc Time_fmt no_unjson 0 demo_state = (Ok tt, demo_one).
Proof. vm_compute. reflexivity. Qed.

Definition demo_list : state (list string) := (FindList demo_drivers zone_utc Time_fmt no_unjson (TSlice []) demo_state).2.

Lemma demo_list_run : FindList demo_drivers zone_utc Time_fmt no_unjson (TSlice []) demo_state = (Ok [1%nat], demo_list).
Proof. vm_compute. reflexivity. Qed.

Lemma FindOne_loads_witness :
  let s' := demo_one in
  heap s' = [mk_object "t_order" [VInt 5; VStr "y"]] /\
  exists cells, heap s' = [mk_object "t_order" cells] /\
    loaded_row zone_utc Time_fmt no_unjson false (FieldElems demo_driver) [Some "5"; Some "y"] [VInt 5; VStr "x"] cells.
Proof.
  split; [vm_compute; reflexivity|].
  destruct (FindOne_loads demo_drivers zone_utc Time_fmt no_unjson 0 demo_state _ (mk_object "t_order" [VInt 5; VStr "x"]) demo_driver
    demo_one_run eq_refl demo_driver_in demo_placed (le_n 2))
    as (columns & part & args & w & sortby & q & rows & _ & _ & _ & Hq & Hr & Hrows).
  injection Hq as Hq _. subst q. injection Hr as Hr. subst rows. destruct Hrows as (cells & Hh & Hl). exists cells. split; [|exact Hl].
  rewrite Hh. reflexivity.
Defined.

(** A slice with room for one element that holds the object 0: the caller gets the
    object 0 back, not the row. *)
Lemma FindList_answers_witness :
  (FindList demo_drivers zone_utc Time_fmt no_unjson (TSlice [0%nat]) demo_state).1 = Ok [0%nat] /\
  (FindList demo_drivers zone_utc Time_fmt no_unjson (TSlice []) demo_state).1 = Ok [1%nat] /\
  exists n, take n (@nil nat ++ seq 1 n) = [1%nat] /\ n = 1%nat.
Proof.
  split; [vm_compute; reflexivity|]. split; [vm_compute; reflexivity|].
  destruct (FindList_answers demo_drivers zone_utc Time_fmt no_unjson [] demo_state [1%nat] _ "t_order" demo_driver
    demo_list_run eq_refl demo_driver_in demo_placed)
    as (sql & part & args & d & q & rows & _ & Hq & Hr & Hres & Hlen & _).
  exists (length rows). split; [exact (eq_sym Hres)|exact (eq_sym Hlen)].
Defined.

Lemma ignored_fields_last_witness :
  let l := [mk_field true false false false "Id" "id" "id" KInt64 "int64" "" "" 0; mk_field false true false false "Tmp" "tmp" "tmp" KString "string" "" "" 1] in
  (fill zone_utc Time_fmt no_unjson false 0 0 l [Some "5"] demo_state).1 = Ok tt /\ (0 < 1)%nat.
Proof.
  intros l. split; [vm_compute; reflexivity|].
  exact (ignored_fields_last zone_utc Time_fmt no_unjson false 0 l [Some "5"] demo_state
    (fill zone_utc Time_fmt no_unjson false 0 0 l [Some "5"] demo_state).2 ltac:(vm_compute; reflexivity) eq_refl 1%nat 0%nat _ _ eq_refl eq_refl eq_refl eq_refl).
Defined.

(** ** The insert statement *)

Section Inserts.
Context {D : Type} `{database D} `{lz : local_zone} (modelDrivers : drivers) (local : location) (fmt : layout)
  (json : value -> outcome string string) (Cst_sh : location).
Implicit Types (s : state D).

(** A text whose last byte is no placeholder. *)
Definition closed (v : string) : Prop := exists x y, v = x +:+ y /\ slen y = 1 /\ count_marks y = 0%nat.

Lemma closed_app x y : slen y = 1 -> count_marks y = 0%nat -> closed (x +:+ y).
Proof. by exists x, y. Qed.

Lemma trim_closed v y : closed v -> trim_end v 1 = Ok y -> count_marks y = count_marks v.
Proof.
  intros (x & z & -> & Hz & Hc). rewrite <- Hz, trim_app. intros [= <-]. rewrite count_marks_app. lia.
Qed.

(** What the statement under construction keeps: as many marks as arguments. *)
Definition balanced (base : nat) (p : list value) (v : string) : Prop :=
  closed v /\ (base + count_marks v)%nat = length p.

Definition same_db (s s' : state D) : Prop :=
  db s' = db s /\ OpenTx s' = OpenTx s /\ AutoID s' = AutoID s /\ MongoSync s' = MongoSync s /\ SyncData s' = SyncData s.

Lemma same_db_trans s1 s2 s3 : same_db s1 s2 -> same_db s2 s3 -> same_db s1 s3.
Proof. unfold same_db. intros (?&?&?&?&?) (?&?&?&?&?). split_and!; congruence. Qed.

Lemma cell_same r i s v s' : (cell r i : run D value) s = (Ok v, s') -> s' = s.
Proof. unfold cell. intros Hc. by run_inv. Qed.

Lemma set_cell_same r i v s u s' : (set_cell r i v : run D unit) s = (Ok u, s') -> same_db s s'.
Proof. unfold set_cell. intros Hc. run_inv. by simplify_eq. Qed.

Lemma NextIID_same s i s' : (NextIID : run D Z) s = (Ok i, s') -> same_db s s'.
Proof. unfold NextIID. destruct (ids s); [done|]. by intros [= <- <-]. Qed.

Lemma save_key_same obv r vv s v s' : save_key obv r vv s = (Ok v, s') -> same_db s s'.
Proof.
  unfold save_key. intros Hk. run_inv. destruct (AutoID s); [by run_inv|].
  destruct (FieldKind vv); run_inv; try done.
  all: match goal with E : cell _ _ _ = _ |- _ => apply cell_same in E as -> end.
  all: repeat case_match; run_inv; try done.
  all: eapply same_db_trans; [by eapply NextIID_same|by eapply set_cell_same].
Qed.

Lemma save_value_same r vv s v s' : save_value local fmt json Cst_sh r vv s = (Ok v, s') -> same_db s s'.
Proof.
  unfold save_value. intros Hk. run_inv. match goal with E : cell _ _ _ = _ |- _ => apply cell_same in E as -> end.
  by destruct (GetValue _ _ _ _ _); run_inv.
Qed.

Lemma save_fields_ok obv r fready base l : forall p f v s p' f' v' s',
  each (save_field local fmt json Cst_sh obv r fready) (p, f, v) l s = (Ok (p', f', v'), s') ->
  balanced base p v -> balanced base p' v' /\ same_db s s'.
Proof.
  induction l as [|vv l IH]; intros p f v s p' f' v' s' He Hb; cbn [each] in He; [run_inv; by simplify_eq|].
  apply bind_ok in He as ([[p1 f1] v1] & s1 & E & He).
  assert (balanced base p1 v1 /\ same_db s s1) as [Hb1 Hs1].
  { unfold save_field in E. destruct (Ignore vv); [run_inv; by simplify_eq|].
    apply bind_ok in E as (o & s2 & Ev & E).
    assert (same_db s s2) as Hs2 by (destruct (Primary vv); [by eapply save_key_same|by eapply save_value_same]).
    destruct o as [x|]; run_inv; simplify_eq; [|done]. split; [|done]. destruct Hb as [Hc Hn]. split.
    - change "?," with ("?" +:+ ","). rewrite str_app_assoc. by apply closed_app.
    - rewrite count_marks_app, length_app. change (count_marks "?,") with 1%nat. cbn. lia. }
  destruct (IH _ _ _ _ _ _ _ _ He Hb1) as [Hb2 Hs2]. split; [done|by eapply same_db_trans].
Qed.

Lemma save_rows_ok obv data : forall b p f v s b' p' f' v' s',
  each (save_row local fmt json Cst_sh obv) (b, (p, f, v)) data s = (Ok (b', (p', f', v')), s') ->
  count_marks v = length p ->
  count_marks v' = length p' /\ same_db s s' /\ (data <> [] \/ closed v -> closed v').
Proof.
  induction data as [|r data IH]; intros b p f v s b' p' f' v' s' He Hm; cbn [each] in He.
  { run_inv. simplify_eq. split_and!; [done|done|]. by intros [|]. }
  apply bind_ok in He as ([b1 [[p1 f1] v1]] & s1 & E & He).
  unfold save_row in E. apply bind_ok in E as ([[p2 f2] v2] & s2 & Er & E). run_inv. simplify_eq.
  match goal with E : trim_end _ _ = Ok _ |- _ => rename E into Ht end.
  apply (save_fields_ok obv r b (count_marks v)) in Er as [[Hc Hn] Hs1]; [|split; [by exists " ", "("|]; cbn; lia].
  apply (trim_closed _ _ Hc) in Ht.
  apply IH in He as (Hm' & Hs2 & Hcl).
  - split_and!; [done|by eapply same_db_trans|]. intros _. apply Hcl. right.
    change "),"  with (")" +:+ ","). rewrite !str_app_assoc. by apply closed_app.
  - rewrite !count_marks_app. change (count_marks "),") with 0%nat. lia.
Qed.

Lemma set_last_id_same r id l : forall s u s', (set_last_id r id l : run D unit) s = (Ok u, s') -> same_db s s'.
Proof.
  induction l as [|vv l IH]; intros s u s' Hs; cbn [set_last_id] in Hs; [by run_inv|].
  destruct (Primary vv); [by eapply set_cell_same|by eapply IH].
Qed.

Lemma exec_ok sql args s o s' : exec sql args s = (Ok o, s') -> db_exec (OpenTx s) sql args (db s) = (o, db s') /\ s' = with_db s (db s').
Proof. unfold exec. destruct (db_exec _ _ _ _) as [r d]. by intros [= <- <-]. Qed.

(** C26: A [Save] that succeeds has run one statement, an insert into the table of the
    first object with as many placeholders as arguments; the database reported a
    row; at most 2000 objects were given, and a single one when the manager
    leaves the keys to the database; and the change is recorded for Mongo exactly
    when the manager mirrors and the model asks for it. *)
Theorem Save_inserts data s s' :
  Save modelDrivers local fmt json Cst_sh data s = (Ok tt, s') ->
  exists first o obv columns groups args x n d,
    head data = Some first /\ heap s !! first = Some o /\ modelDrivers !! o_table o = Some obv /\
    (1 <= length data <= 2000)%nat /\ (AutoID s = true -> length data = 1%nat) /\
    db_exec (OpenTx s) ("insert into " +:+ TableName obv +:+ " (" +:+ columns +:+ ")" +:+ " values " +:+ groups) args (db s) = (Ok x, d) /\
    db s' = d /\ count_marks groups = length args /\
    RowsAffected x = Ok n /\ 0 < n /\
    SyncData s' = (SyncData s ++ (if MongoSync s && ToMongo obv then [mk_sync SAVE (o_table o) None data] else []))%list.
Proof.
  unfold Save. intros Hs. run_inv. destruct data as [|first data]; [by run_inv|].
  destruct (2000 <? length (first :: data))%nat eqn:Hlen; [by run_inv|]. apply Nat.ltb_ge in Hlen.
  destruct (AutoID s && _) eqn:Ha; [by run_inv|].
  remember (first :: data) as all eqn:Hall. run_inv.
  match goal with E : each _ _ _ _ = _ |- _ => apply save_rows_ok in E as (Hm & Hsame & Hc); [|done] end.
  match goal with E : save_sql _ _ _ _ = _ |- _ => unfold save_sql in E; rename E into Hq end. run_inv.
  match goal with E : prepare _ _ _ _ = (Ok ?u, _) |- _ => destruct u; apply prepare_ok in E end.
  match goal with E : exec _ _ _ = _ |- _ => apply exec_ok in E as [Hx Hd] end.
  match goal with E : db_run _ _ _ = _ |- _ => unfold db_run in E; apply or_fail_ok in E as [E ->] end. subst.
  match goal with E : (if 0 <? _ then _ else _) _ = _ |- _ => rename E into Hv end.
  assert (count_marks x13 = length l /\ x14 = x4) as [Hmarks ->].
  { destruct (0 <? slen s0) eqn:Hz; run_inv.
    2: { z_bools. assert (0 <= slen s0) by (unfold slen; lia). rewrite (slen_zero s0) in Hm; [done|]. apply Z.eqb_eq. lia. }
    rewrite <- Hm. split; [|done]. eapply trim_closed; [|done]. apply Hc. by left. }
  destruct Hsame as (Hs1 & Hs2 & Hs3 & Hs4 & Hs5).
  destruct (x10 <=? 0) eqn:Hn; [by run_inv|]. apply bind_ok in Hs as (u & s2 & Hl & Hs).
  assert (same_db x7 s2) as (Hl1 & _ & _ & _ & Hl5).
  { destruct (AutoID s && (length (first :: data) =? 1)%nat); run_inv; [by eapply set_last_id_same|done]. }
  rewrite Hs1, Hs2 in Hx. rewrite Hd in Hl5. cbn [SyncData with_db] in Hl5.
  exists first, x, x1, x11, x13, l, x8, x10, (db x7). split_and!; try done; [cbn; lia| | | |].
  - intros Hai. rewrite Hai in Ha. cbn [andb] in Ha. apply negb_false_iff, Nat.eqb_eq in Ha. done.
  - destruct (MongoSync s && ToMongo x1); [by injection Hs as <-|run_inv; done].
  - z_bools. lia.
  - destruct (MongoSync s && ToMongo x1); [injection Hs as <-; cbn; congruence|run_inv; rewrite app_nil_r; congruence].
Qed.
End Inserts.

Definition demo_saved : state (list string) := (Save demo_drivers zone_utc Time_fmt no_json zone_utc [0%nat] demo_state).2.

Lemma demo_save_run : Save demo_drivers zone_utc Time_fmt no_json zone_utc [0%nat] demo_state = (Ok tt, demo_saved).
Proof. vm_compute. reflexivity. Qed.

Lemma Save_inserts_witness :
  db demo_saved = ["insert into t_order (`id`,`name`) values  (?,?)"] /\
  exists columns groups args x, db_exec true ("insert into t_order (" +:+ columns +:+ ")" +:+ " values " +:+ groups) args [] = (Ok x, db demo_saved) /\
    count_marks groups = length args.
Proof.
  split; [vm_compute; reflexivity|].
  destruct (Save_inserts demo_drivers zone_utc Time_fmt no_json zone_utc [0%nat] demo_state demo_saved demo_save_run)
    as (first & o & obv & columns & groups & args & x & n & d & Hf & Ho & Hd & _ & _ & Hx & Hdb & Hm & _).
  exists columns, groups, args, x. split; [|exact Hm]. injection Hf as Hf. subst first. injection Ho as Ho. subst o.
  assert (obv = demo_driver) as -> by (cbn [o_table] in Hd; rewrite demo_driver_in in Hd; by injection Hd).
  subst d. exact Hx.
Defined.

(** ** Pages *)

(** Row number [i] of the answer is on page [p]. *)
Definition on_page (c : Cnd) (n p i : Z) : Prop :=
  let d := Pagination (Limit c p n) in limit_offset d <= i < limit_offset d + PageSize d.

Lemma page_size_range n : 1 <= page_size n <= 5000.
Proof. unfold page_size. destruct ((n <=? 0) || (5000 <? n)) eqn:E; [lia|]. apply orb_false_iff in E as [? ?]. z_bools. lia. Qed.

Lemma Limit_offset c n p : 1 <= p -> (p - 1) * page_size n <= max_int64 -> limit_offset (Pagination (Limit c p n)) = (p - 1) * page_size n.
Proof.
  intros Hp Hb. pose proof (page_size_range n). unfold limit_offset, Limit. cbn [Pagination set_pagination IsOffset PageNo PageSize].
  replace (p <=? 0) with false by (symmetry; apply Z.leb_gt; lia). unfold max_int64 in Hb.
  rewrite (int64_small (p - 1)) by (unfold in_int64, min_int64, max_int64; nia).
  apply int64_small. unfold in_int64, min_int64, max_int64. nia.
Qed.

(** C27: The pages of [Limit] show every row once: of the pages that [BuildPagination]
    and [Count] announce for [total] rows, each row is on exactly one, whatever page
    size was asked for. *)
Theorem pages_cover c total n i :
  0 <= i < total -> total <= max_int64 ->
  exists count p, page_count total (page_size n) = Ok count /\ 1 <= p <= count /\ on_page c n p i /\
    forall p', 1 <= p' <= count -> on_page c n p' i -> p' = p.
Proof.
  intros Hi Ht. pose proof (page_size_range n) as Hs. set (size := page_size n) in *. unfold max_int64 in Ht.
  assert (exists count, page_count total size = Ok count /\ (count - 1) * size < total <= count * size) as (count & Hc & Hr).
  { unfold page_count. replace (size =? 0) with false by (symmetry; apply Z.eqb_neq; lia).
    rewrite Z.rem_mod_nonneg, Z.quot_div_nonneg by lia. pose proof (Z.div_mod total size ltac:(lia)).
    pose proof (Z.mod_pos_bound total size ltac:(lia)). case_match; z_bools; eexists; (split; [done|]); [nia|].
    rewrite int64_small; [nia|]. unfold in_int64, min_int64, max_int64. nia. }
  pose proof (Z.div_mod i size ltac:(lia)) as Hd. pose proof (Z.mod_pos_bound i size ltac:(lia)) as Hm.
  assert (forall p, 1 <= p <= count -> on_page c n p i <-> (p - 1) * size <= i < (p - 1) * size + size) as Hon.
  { intros p Hp. unfold on_page. rewrite Limit_offset by (unfold max_int64; fold size; nia). done. }
  assert (1 <= i / size + 1 <= count) as Hp by nia.
  exists count, (i / size + 1). split_and!; [done|lia|lia| |].
  - apply Hon; [done|]. nia.
  - intros p' Hp' Hp2. apply Hon in Hp2; [|done]. nia.
Qed.

Lemma pages_cover_witness :
  exists count p, page_count 51 (page_size 25) = Ok count /\ 1 <= p <= count /\ on_page (M []) 25 p 50 /\ count = 3.
Proof.
  destruct (pages_cover (M []) 51 25 50 ltac:(lia) ltac:(unfold max_int64; lia)) as (count & p & Hc & Hp & Ho & _).
  exists count, p. split_and!; try done; try lia. vm_compute in Hc. congruence.
Defined.

(** The pages of [FastPage] carry no page number: in the text for MySQL they become
    a negative offset. *)
Example FastPage_offset :
  match FastPage (M ["t_order"]) "id" DESC_ 0 0 20 [] with
  | Ok c => GetLimitSql (Pagination c) "select `id` from t_order"
  | _ => ""
  end = "select `id` from t_order limit -20,20".
Proof. vm_compute. reflexivity. Qed.
