(* ===== verification/ModelMemory.v ===== *)
(** * The bytes of a struct ([src/utils/reflect_field.go], [src/ormx/sqld/model_manager.go])

    The managers read and write the fields of a struct through raw pointers.  [Model]
    takes each field for a cell of its own; here the memory is a list of bytes, a
    field begins at the offset that reflection gives and is as long as its type, and
    [SetValue] makes the store that the code makes, whatever lies behind it.  Integers
    are little endian.  A value that is not an integer or a bool (the header of a
    string or of a slice, a pointer, a decimal) is kept in parts, since the code moves
    it as a whole.  [fill_refines] says when filling the cells of an object is what
    happens to its bytes; [key_store_refines] says it for the key that the database makes. *)

From S2P Require Import Prelude GoStrings GoTime TimeUtils Sqlc Model SqlBuilder RdbManager RdbProofs RdbRows.

#[local] Open Scope string_scope.
#[local] Open Scope Z_scope.

(** ** Memory *)

(** A byte, or the [i]-th byte of a value that has no bytes in the model. *)
Inductive mbyte := Byte (z : Z) | Part (v : value) (i : nat).

Abbreviation memory := (list mbyte).

Definition write (ptr : nat) (bs : list mbyte) (m : memory) : memory := list_inserts ptr bs m.

Fixpoint le_bytes (n : nat) (z : Z) : list mbyte :=
  match n with O => [] | S n => Byte (z mod 256) :: le_bytes n (z / 256) end.

Fixpoint le_value (bs : list mbyte) : option Z :=
  match bs with
  | [] => Some 0
  | Byte b :: bs => z ← le_value bs; Some (b + 256 * z)
  | Part _ _ :: _ => None
  end.

Definition parts (n : nat) (v : value) : list mbyte := Part v <$> seq 0 n.

(** [GetPtr] and the stores, each as wide as the type it names. *)
Definition GetPtr (base offset : nat) : nat := (base + offset)%nat.
Definition SetString (ptr : nat) (v : string) : memory -> memory := write ptr (parts 16 (VStr v)).
Definition SetInt (ptr : nat) (v : Z) : memory -> memory := write ptr (le_bytes 8 v).
Definition SetInt8 (ptr : nat) (v : Z) : memory -> memory := write ptr (le_bytes 1 v).
Definition SetInt16 (ptr : nat) (v : Z) : memory -> memory := write ptr (le_bytes 2 v).
Definition SetInt32 (ptr : nat) (v : Z) : memory -> memory := write ptr (le_bytes 4 v).
Definition SetInt64 (ptr : nat) (v : Z) : memory -> memory := write ptr (le_bytes 8 v).
Definition SetBool (ptr : nat) (v : bool) : memory -> memory := write ptr [Byte (if v then 1 else 0)].
Definition SetUint16 (ptr : nat) (v : Z) : memory -> memory := write ptr (le_bytes 2 v).
Definition SetUint32 (ptr : nat) (v : Z) : memory -> memory := write ptr (le_bytes 4 v).
Definition SetUint64 (ptr : nat) (v : Z) : memory -> memory := write ptr (le_bytes 8 v).

Lemma length_le_bytes n z : length (le_bytes n z) = n.
Proof. revert z. induction n as [|n IH]; intros z; cbn; [done|by rewrite IH]. Qed.

Lemma le_value_bytes n z : le_value (le_bytes n z) = Some (z mod 2 ^ (8 * Z.of_nat n)).
Proof.
  revert z. induction n as [|n IH]; intros z; cbn [le_bytes le_value]; [by rewrite Z.mod_1_r|].
  rewrite IH. cbn [mbind option_bind]. f_equal.
  replace (2 ^ (8 * Z.of_nat (S n))) with (256 * 2 ^ (8 * Z.of_nat n)).
  - rewrite Z.rem_mul_r; [done|lia|apply Z.pow_pos_nonneg; lia].
  - replace (8 * Z.of_nat (S n)) with (8 + 8 * Z.of_nat n) by lia. rewrite Z.pow_add_r by lia. done.
Qed.

(** The bytes depend on the number modulo the width only. *)
Lemma le_bytes_mod n z z' : z mod 2 ^ (8 * Z.of_nat n) = z' mod 2 ^ (8 * Z.of_nat n) -> le_bytes n z = le_bytes n z'.
Proof.
  revert z z'. induction n as [|n IH]; intros z z' E; cbn [le_bytes]; [done|].
  replace (8 * Z.of_nat (S n)) with (8 + 8 * Z.of_nat n) in E by lia. rewrite Z.pow_add_r in E by lia. change (2 ^ 8) with 256 in E.
  assert (0 < 2 ^ (8 * Z.of_nat n)) by (apply Z.pow_pos_nonneg; lia).
  rewrite !Z.rem_mul_r in E by lia.
  pose proof (Z.mod_pos_bound z 256). pose proof (Z.mod_pos_bound z' 256).
  f_equal; [f_equal; lia|apply IH; lia].
Qed.

Lemma write_length ptr bs m : length (write ptr bs m) = length m.
Proof. apply length_inserts. Qed.

Lemma write_in ptr bs m j : (j < length bs)%nat -> (ptr + length bs <= length m)%nat -> write ptr bs m !! (ptr + j)%nat = bs !! j.
Proof. intros. unfold write. rewrite list_lookup_inserts by lia. f_equal. lia. Qed.

Lemma write_out ptr bs m a : (a < ptr \/ ptr + length bs <= a)%nat -> write ptr bs m !! a = m !! a.
Proof. intros [?|?]; unfold write; [by apply list_lookup_inserts_lt|by apply list_lookup_inserts_ge]. Qed.

(** ** Fields in memory *)

(** [offset] is the byte offset of a field and [type_size] the size of a type that
    [SetValue] does not store to, both as reflection gives them. *)
Section Fields.
Context (offset : FieldElem -> nat) (type_size : string -> nat).

Definition is_int (k : kind) : bool :=
  match k with
  | KInt | KInt8 | KInt16 | KInt32 | KInt64 | KUint | KUint8 | KUint16 | KUint32 | KUint64 => true
  | _ => false
  end.

Definition is_decimal (e : FieldElem) : bool := String.eqb (FieldType e) "decimal.Decimal".

Definition size (e : FieldElem) : nat :=
  match FieldKind e with
  | KInt | KInt64 | KUint | KUint64 | KMap | KPtr => 8
  | KInt8 | KUint8 | KBool => 1
  | KInt16 | KUint16 => 2
  | KInt32 | KUint32 => 4
  | KFloat => if String.eqb (FieldType e) "float32" then 4 else 8
  | KString => 16
  | KSlice => 24
  | KStruct => if is_decimal e then 16 else type_size (FieldType e)
  | KOther => type_size (FieldType e)
  end.

(** The bytes of a value of the field; the zero value is all zeros. *)
Definition encode (e : FieldElem) (v : value) : list mbyte :=
  match v with
  | VNil => replicate (size e) (Byte 0)
  | VInt z => if is_int (FieldKind e) then le_bytes (size e) z else parts (size e) v
  | VBool b => if decide (FieldKind e = KBool) then [Byte (if b then 1 else 0)] else parts (size e) v
  | _ => parts (size e) v
  end.

Definition holds (base : nat) (e : FieldElem) (m : memory) (v : value) : Prop :=
  forall j, (j < size e)%nat -> m !! (GetPtr base (offset e) + j)%nat = encode e v !! j.

Section SetValue.
Context `{lz : local_zone} (local : location) (fmt : layout) (unjson : string -> outcome string value).

Definition date_to (set : Z -> memory -> memory) (b : column) (m : memory) : outcome string memory :=
  if slen (NewString b) =? 0 then Ok m
  else let* t := Str2FormatDate (NewString b) fmt local in Ok (set t m).

Definition int_to (w : Z -> Z) (set : Z -> memory -> memory) (b : column) (m : memory) : outcome string memory :=
  let* z := NewInt64 b in Ok (set (w z) m).

(** A field that takes a decoded value as a whole: through [SetFloat32], [SetFloat64] or
    the setter of a slice, or through reflection. *)
Definition whole_to (base : nat) (e : FieldElem) (r : outcome string value) (m : memory) : outcome string memory :=
  let* v := r in Ok (write (GetPtr base (offset e)) (encode e v) m).

(** [SetValue] on the bytes: a [uint8] field is stored with [SetUint16]. *)
Definition SetValue (base : nat) (e : FieldElem) (b : column) (m : memory) : outcome string memory :=
  let ptr := GetPtr base (offset e) in
  match FieldKind e with
  | KString => Ok (SetString ptr (NewString b) m)
  | KInt => if IsDate e then date_to (fun t => SetInt ptr (int64 t)) b m else int_to int64 (SetInt ptr) b m
  | KInt8 => int_to (swrap 8) (SetInt8 ptr) b m
  | KInt16 => int_to (swrap 16) (SetInt16 ptr) b m
  | KInt32 => if IsDate e then date_to (fun t => SetInt32 ptr (int32 t)) b m else int_to int32 (SetInt32 ptr) b m
  | KInt64 => if IsDate e then date_to (SetInt64 ptr) b m else int_to int64 (SetInt64 ptr) b m
  | KUint => int_to uint64 (SetUint64 ptr) b m
  | KUint8 => int_to (uwrap 16) (SetUint16 ptr) b m
  | KUint16 => int_to (uwrap 16) (SetUint16 ptr) b m
  | KUint32 => int_to (uwrap 32) (SetUint32 ptr) b m
  | KUint64 => int_to uint64 (SetUint64 ptr) b m
  | KBool => Ok (SetBool ptr (String.eqb (NewString b) "true") m)
  | KSlice =>
      if in_types (FieldType e) slice_types then
        if slen (NewString b) =? 0 then Ok m
        else if String.eqb (FieldType e) "[]uint8" && IsBlob e then whole_to base e (Ok (VStr (NewString b))) m
        else whole_to base e (unjson (NewString b)) m
      else Ok m
  | KMap =>
      if in_types (FieldType e) map_types then
        if slen (NewString b) =? 0 then Ok m else whole_to base e (unjson (NewString b)) m
      else Ok m
  | KPtr => if slen (NewString b) =? 0 then Ok m else whole_to base e (unjson (NewString b)) m
  | KFloat => whole_to base e (unjson (NewString b)) m
  | KStruct =>
      if is_decimal e then whole_to base e (unjson (if slen (NewString b) =? 0 then "0" else NewString b)) m
      else Ok m
  | KOther => Ok m
  end.

(** The loop of [FindOne] and [FindList] over the fields of one row. *)
Fixpoint fill (skip_null_dates : bool) (base i : nat) (l : list FieldElem) (row : list column) (m : memory) : outcome string memory :=
  match l with
  | [] => Ok m
  | vv :: l =>
      if Ignore vv then fill skip_null_dates base (S i) l row m
      else
        let* b := match row !! i with Some b => Ok b | None => Panic "index out of range" end in
        let* m := (if skip_null_dates && IsDate vv && bool_decide (b = None) then Ok m else SetValue base vv b m) in
        fill skip_null_dates base (S i) l row m
  end.
End SetValue.

(** What [Save] does with the key that the database made. *)
Fixpoint set_last_id (base : nat) (id : Z) (l : list FieldElem) (m : memory) : memory :=
  match l with
  | [] => m
  | vv :: l => if Primary vv then SetInt64 (GetPtr base (offset vv)) id m else set_last_id base id l m
  end.

(** ** Refinement *)

Lemma length_encode e v : length (encode e v) = size e.
Proof.
  unfold encode, parts. destruct v; rewrite ?length_fmap, ?length_seq, ?length_replicate; try done.
  - destruct (is_int _); [by rewrite length_le_bytes|by rewrite length_fmap, length_seq].
  - destruct (decide _) as [Hk|]; [unfold size; by rewrite Hk|by rewrite length_fmap, length_seq].
Qed.

(** The bytes that [SetValue] may write. *)
Definition reach (e : FieldElem) : nat := match FieldKind e with KUint8 => 2 | _ => size e end.

Lemma size_reach e : (size e <= reach e)%nat.
Proof. unfold reach, size. destruct (FieldKind e); lia. Qed.

(** The fields that [SetValue] always stores, whatever the column holds. *)
Definition stored_field (e : FieldElem) : bool :=
  negb (Ignore e) && negb (IsDate e) &&
  match FieldKind e with KSlice | KMap | KPtr | KOther => false | KStruct => is_decimal e | _ => true end.

Lemma holds_write base e bs v m :
  (size e <= length bs)%nat -> (forall j, (j < size e)%nat -> bs !! j = encode e v !! j) ->
  (GetPtr base (offset e) + length bs <= length m)%nat -> holds base e (write (GetPtr base (offset e)) bs m) v.
Proof. intros Hs Hb Hm j Hj. rewrite write_in by lia. by apply Hb. Qed.

(** The stores of whole fields, and the wide one. *)
Definition sets (base : nat) (e : FieldElem) (v : value) (m m' : memory) : Prop :=
  length m' = length m /\ holds base e m' v /\
  forall a, (a < GetPtr base (offset e) \/ GetPtr base (offset e) + reach e <= a)%nat -> m' !! a = m !! a.

Lemma sets_write base e v bs m :
  length bs = reach e -> (forall j, (j < size e)%nat -> bs !! j = encode e v !! j) ->
  (GetPtr base (offset e) + reach e <= length m)%nat -> sets base e v m (write (GetPtr base (offset e)) bs m).
Proof.
  intros Hl Hb Hm. pose proof (size_reach e). split_and!; [apply write_length|apply holds_write; [lia|done|lia]|].
  intros a Ha. apply write_out. lia.
Qed.

Lemma sets_whole base e v m :
  FieldKind e <> KUint8 -> (GetPtr base (offset e) + reach e <= length m)%nat ->
  sets base e v m (write (GetPtr base (offset e)) (encode e v) m).
Proof.
  intros Hk Hm. apply sets_write; [|done|done]. rewrite length_encode. unfold reach. by destruct (FieldKind e).
Qed.

Lemma swrap_mod w z : 0 < w -> swrap w z mod 2 ^ w = z mod 2 ^ w.
Proof. intros Hw. unfold swrap. rewrite Zminus_mod_idemp_l. f_equal. lia. Qed.

Lemma le_int64 z : le_bytes 8 (int64 z) = le_bytes 8 z.
Proof. apply le_bytes_mod. change (8 * Z.of_nat 8) with 64. by apply (swrap_mod 64). Qed.

(** The low byte of the number that [SetUint16] stores in a [uint8] field. *)
Lemma uint8_low z j : (j < 1)%nat -> le_bytes 2 (uwrap 16 z) !! j = le_bytes 1 (uwrap 8 z) !! j.
Proof.
  intros Hj. replace j with 0%nat by lia. cbn. do 2 f_equal. unfold uwrap.
  change (2 ^ 16) with (256 * 256). change (2 ^ 8) with 256. rewrite Z.rem_mul_r, Z.mod_mod by lia.
  rewrite Z.mul_comm, Z_mod_plus_full. by rewrite Z.mod_mod.
Qed.

Section Refines.
Context `{lz : local_zone} (local : location) (fmt : layout) (unjson : string -> outcome string value).

(** What the bytes do when the cell becomes [v]. *)
Definition follows (base : nat) (e : FieldElem) (old : value) (m : memory) (r : outcome string value) (r' : outcome string memory) : Prop :=
  match r with
  | Ok v => exists m', r' = Ok m' /\ (sets base e v m m' \/ v = old /\ m' = m /\ stored_field e = false)
  | Err x => r' = Err x
  | Panic x => r' = Panic x
  end.

Lemma follows_bind {A} base e old m (r : outcome string A) k k' :
  (forall a, follows base e old m (k a) (k' a)) -> follows base e old m (bind_outcome r k) (bind_outcome r k').
Proof. intros Hk. destruct r; [apply Hk|done|done]. Qed.

Lemma follows_sets base e old m v m' : sets base e v m m' -> follows base e old m (Ok v) (Ok m').
Proof. intros Hs. exists m'. auto. Qed.

Lemma follows_keeps base e old m : stored_field e = false -> follows base e old m (Ok old) (Ok m).
Proof. intros Hs. exists m. auto. Qed.

(** A field with the kind [k] and a store as wide as the kind. *)
Section Kinds.
Context (base : nat) (e : FieldElem) (old : value) (m : memory) (b : column) (k : kind).
Hypotheses (Hk : FieldKind e = k) (Hu : k <> KUint8) (Hm : (GetPtr base (offset e) + reach e <= length m)%nat).

Lemma follows_value v : follows base e old m (Ok v) (Ok (write (GetPtr base (offset e)) (encode e v) m)).
Proof. apply follows_sets, sets_whole; [congruence|done]. Qed.

Lemma follows_int w set :
  is_int k = true -> (forall z, set z = write (GetPtr base (offset e)) (le_bytes (size e) z)) ->
  follows base e old m (set_int w b) (int_to w set b m).
Proof.
  intros Hi Hset. apply follows_bind. intros z. rewrite Hset. pose proof (follows_value (VInt (w z))) as Hs.
  unfold encode in Hs. by rewrite Hk, Hi in Hs.
Qed.

Lemma follows_date w set :
  is_int k = true -> IsDate e = true -> (forall t, set t = write (GetPtr base (offset e)) (le_bytes (size e) (w t))) ->
  follows base e old m (set_date local fmt w old b) (date_to local fmt set b m).
Proof.
  intros Hi Hd Hset. unfold set_date, date_to. case_match.
  - apply follows_keeps. unfold stored_field. rewrite Hd. by destruct (Ignore e).
  - apply follows_bind. intros t. rewrite Hset. pose proof (follows_value (VInt (w t))) as Hs.
    unfold encode in Hs. by rewrite Hk, Hi in Hs.
Qed.

Lemma follows_whole r : follows base e old m r (whole_to base e r m).
Proof. destruct r as [v|x|x]; [apply follows_value|done|done]. Qed.

Lemma follows_kept :
  match k with KSlice | KMap | KPtr | KOther => false | KStruct => is_decimal e | _ => true end = false ->
  follows base e old m (Ok old) (Ok m).
Proof. intros Hf. apply follows_keeps. unfold stored_field. by rewrite Hk, Hf, andb_false_r. Qed.
End Kinds.

Lemma follows_byte base e old b m :
  FieldKind e = KUint8 -> (GetPtr base (offset e) + reach e <= length m)%nat ->
  follows base e old m (set_int (uwrap 8) b) (int_to (uwrap 16) (SetUint16 (GetPtr base (offset e))) b m).
Proof.
  intros Hk Hm. apply follows_bind. intros z. apply follows_sets. apply sets_write; [by unfold reach; rewrite Hk| |done].
  intros j Hj. unfold encode. rewrite Hk. unfold size in *. rewrite Hk in *. by apply uint8_low.
Qed.

Lemma SetValue_follows base e old b m :
  (GetPtr base (offset e) + reach e <= length m)%nat ->
  follows base e old m (Model.SetValue local fmt unjson old e b) (SetValue local fmt unjson base e b m).
Proof.
  intros Hm. assert (Hsz : size e = size e) by done. unfold size at 2 in Hsz. unfold Model.SetValue, SetValue.
  destruct (FieldKind e) eqn:Ek; try (by eapply follows_byte);
    unfold is_decimal; repeat case_match; try (by eapply follows_whole);
    try (by eapply follows_kept; [exact Ek|unfold is_decimal]);
    try (by eapply follows_int; [exact Ek|..|by rewrite Hsz]);
    try (by eapply follows_date; [exact Ek|..|by rewrite Hsz]).
  - pose proof (follows_value base e old m _ Ek ltac:(done) Hm (VStr (NewString b))) as Hs. unfold encode in Hs. by rewrite Hsz in Hs.
  - eapply follows_date; [exact Ek|done|done|done|done|]. intros t. unfold SetInt64. by rewrite Hsz, le_int64.
  - pose proof (follows_value base e old m _ Ek ltac:(done) Hm (VBool (String.eqb (NewString b) "true"))) as Hs.
    unfold encode in Hs. by rewrite Ek in Hs.
Qed.

(** ** Filling an object *)

(** The fields lie one after the other in [extent] bytes, and the byte behind a
    [uint8] field that is loaded is one of them and belongs to no field, or to one that
    is loaded too and always stored. *)
Record laid_out (l : list FieldElem) (extent : nat) : Prop := {
  lo_order : forall j k e e', l !! j = Some e -> l !! k = Some e' -> (j < k)%nat -> (offset e + size e <= offset e')%nat;
  lo_fits : forall k e, l !! k = Some e -> (offset e + (if Ignore e then size e else reach e) <= extent)%nat;
  lo_behind : forall j k e e', l !! j = Some e -> l !! k = Some e' -> FieldKind e = KUint8 -> Ignore e = false ->
    (offset e' <= offset e + 1 < offset e' + size e')%nat -> stored_field e' = true
}.

(** The bytes at [base] are those of an object with these cells. *)
Definition represents (base : nat) (l : list FieldElem) (m : memory) (cells : list value) : Prop :=
  forall k e, l !! k = Some e -> holds base e m (nth (FieldOffset e) cells VNil).

(** In the loop, a field that is still to come may be damaged if it will be stored. *)
Definition pending_fields (base i : nat) (l : list FieldElem) (m : memory) (cells : list value) : Prop :=
  forall k e, l !! k = Some e -> holds base e m (nth (FieldOffset e) cells VNil) \/ (i <= k)%nat /\ stored_field e = true.

Lemma sets_apart base e e' v w m m' :
  (offset e' + size e' <= offset e \/ offset e + reach e <= offset e')%nat -> sets base e v m m' -> holds base e' m w -> holds base e' m' w.
Proof. intros Hd (_ & _ & Hout) Hw j Hj. rewrite Hout; [by apply Hw|]. unfold GetPtr. lia. Qed.

Lemma fields_apart l extent i k e e' :
  laid_out l extent -> l !! i = Some e -> l !! k = Some e' -> k <> i ->
  (offset e' + size e' <= offset e /\ k < i \/ offset e + size e <= offset e' /\ i < k)%nat.
Proof.
  intros Hlo Hi Hk Hne. assert (k < i \/ i < k)%nat as [?|?] by lia; [left|right];
    (split; [|done]); by eapply (lo_order _ _ Hlo); [..|eassumption].
Qed.

Lemma sets_others base l extent i e v m m' :
  laid_out l extent -> l !! i = Some e -> Ignore e = false -> sets base e v m m' ->
  forall k e' w, l !! k = Some e' -> k <> i -> holds base e' m w -> holds base e' m' w \/ (i < k)%nat /\ stored_field e' = true.
Proof.
  intros Hlo Hi Hig Hs k e' w Hk Hne Hw. pose proof (fields_apart _ _ _ _ _ _ Hlo Hi Hk Hne) as Hd.
  destruct (decide (FieldKind e = KUint8)) as [Hb|Hb]; cycle 1.
  { left. eapply (sets_apart _ e); [|done..]. unfold reach. destruct (FieldKind e); lia || done. }
  assert (size e = 1)%nat as Hone by (unfold size; by rewrite Hb).
  destruct (decide (offset e' <= offset e + 1 < offset e' + size e')%nat) as [Hc|Hc].
  - right. split; [lia|]. by eapply (lo_behind _ _ Hlo i k).
  - left. destruct (decide (size e' = 0%nat)) as [Hz|Hz]; [intros j; lia|].
    eapply (sets_apart _ e); [|done..]. unfold reach. rewrite Hb. lia.
Qed.

Context {D : Type} `{database D}.
Implicit Types (s : state D).

Lemma set_column_eq r vv b s o :
  heap s !! r = Some o ->
  exists s', set_column local fmt unjson r vv b s =
      (match Model.SetValue local fmt unjson (nth (FieldOffset vv) (o_cells o) VNil) vv b with
       | Ok _ => Ok tt | Err x => Err x | Panic x => Panic x end, s') /\
    (forall v, Model.SetValue local fmt unjson (nth (FieldOffset vv) (o_cells o) VNil) vv b = Ok v ->
       s' = put r (mk_object (o_table o) (<[FieldOffset vv := v]> (o_cells o))) s).
Proof.
  intros Ho. unfold set_column, cell, set_cell, object, mbind, run_bind, mret, run_ret. rewrite Ho.
  unfold or_fail, fail, lift. destruct (Model.SetValue _ _ _ _ _ _); cbn; rewrite ?Ho; cbn; eexists; (split; [done|by intros ? [= ->]] || by split).
Qed.

Lemma nth_insert_same (l : list value) i v : (i < length l)%nat -> nth i (<[i := v]> l) VNil = v.
Proof. intros Hi. apply nth_lookup_Some. by apply list_lookup_insert_eq. Qed.

Lemma nth_insert_other (l : list value) i j v : i <> j -> nth j (<[i := v]> l) VNil = nth j l VNil.
Proof. intros Hij. rewrite !nth_lookup. by rewrite list_lookup_insert_ne. Qed.

(** The identifier that the database made, in a key of eight bytes. *)
Lemma key_store_refines base l extent k e id m cells :
  laid_out l extent -> placed 0 l -> (length l <= length cells)%nat -> (base + extent <= length m)%nat ->
  l !! k = Some e -> Primary e = true -> (forall j e', (j < k)%nat -> l !! j = Some e' -> Primary e' = false) ->
  FieldKind e = KInt64 -> represents base l m cells ->
  represents base l (set_last_id base id l m) (<[FieldOffset e := VInt id]> cells).
Proof.
  intros Hlo Hp Hlen Hm Hk Hpr Hfirst Hkind Hr.
  assert (size e = 8)%nat as Hsz by (unfold size; by rewrite Hkind).
  assert (reach e = 8)%nat as Hre by (unfold reach; by rewrite Hkind).
  assert (set_last_id base id l m = write (GetPtr base (offset e)) (le_bytes 8 id) m) as ->.
  { clear - Hk Hpr Hfirst. revert k Hk Hfirst. induction l as [|x l IH]; intros [|k] Hk Hfirst; cbn in *; try done.
    - injection Hk as ->. by rewrite Hpr.
    - rewrite (Hfirst 0%nat x) by (done || lia). apply (IH k); [done|]. intros j e' Hj He'. apply (Hfirst (S j) e'); [lia|done]. }
  assert (sets base e (VInt id) m (write (GetPtr base (offset e)) (le_bytes 8 id) m)) as Hs.
  { apply sets_write; [by rewrite Hre| |pose proof (lo_fits _ _ Hlo _ _ Hk); unfold GetPtr; destruct (Ignore e); lia].
    intros j _. unfold encode. by rewrite Hkind, Hsz. }
  intros i e' Hi. pose proof (Hp _ _ Hi) as Oi. pose proof (Hp _ _ Hk) as Ok_. cbn [Nat.add] in *.
  apply lookup_lt_Some in Hk as Hkl. destruct (decide (i = k)) as [->|Hne].
  - simplify_eq. rewrite nth_insert_same by lia. apply Hs.
  - rewrite nth_insert_other by congruence. eapply (sets_apart _ e); [|exact Hs|by apply (Hr i)].
    pose proof (fields_apart _ _ _ _ _ _ Hlo Hk Hi Hne). lia.
Qed.

(** One turn of the loop that stores. *)
Lemma pending_step base l extent i e v m m' cells :
  laid_out l extent -> placed 0 l -> (length l <= length cells)%nat -> l !! i = Some e -> Ignore e = false ->
  pending_fields base i l m cells -> sets base e v m m' ->
  pending_fields base (S i) l m' (<[FieldOffset e := v]> cells).
Proof.
  intros Hlo Hp Hlen Hi Hig Hpend Hs k e' Hk. pose proof (Hp _ _ Hi) as Oi. pose proof (Hp _ _ Hk) as Ok_. cbn [Nat.add] in *.
  apply lookup_lt_Some in Hi as Hil. destruct (decide (k = i)) as [->|Hne].
  - simplify_eq. left. rewrite nth_insert_same by lia. apply Hs.
  - rewrite nth_insert_other by congruence. destruct (Hpend _ _ Hk) as [Hh|[Hik Hst]]; [|right; split; [lia|done]].
    destruct (sets_others _ _ _ _ _ _ _ _ Hlo Hi Hig Hs _ _ _ Hk Hne Hh) as [?|[??]]; [by left|right; split; [lia|done]].
Qed.

(** One that does not. *)
Lemma pending_skip base l i e m cells :
  l !! i = Some e -> stored_field e = false -> pending_fields base i l m cells -> pending_fields base (S i) l m cells.
Proof.
  intros Hi Hst Hp k e' Hk. destruct (Hp _ _ Hk) as [?|[Hik Hs]]; [by left|]. right. split; [|done].
  destruct (decide (k = i)) as [->|]; [congruence|lia].
Qed.

(** What the loops do alike: the outcome, and the bytes that the object has then. *)
Definition agree (base extent r : nat) (full : list FieldElem) (m : memory) (res : outcome string unit * state D) (res' : outcome string memory) : Prop :=
  match res.1 with
  | Ok _ => exists o' m', heap res.2 !! r = Some o' /\ res' = Ok m' /\
      pending_fields base (length full) full m' (o_cells o') /\
      forall a, (a < base \/ base + extent <= a)%nat -> m' !! a = m !! a
  | Err x => res' = Err x
  | Panic x => res' = Panic x
  end.

Lemma agree_from base extent r full m m1 res res' :
  (forall a, (a < base \/ base + extent <= a)%nat -> m1 !! a = m !! a) ->
  agree base extent r full m1 res res' -> agree base extent r full m res res'.
Proof.
  intros Hf. unfold agree. destruct res.1; [|done|done]. intros (o & m' & ? & ? & ? & Hm'). exists o, m'. split_and!; try done.
  intros p Hp. rewrite Hm', Hf; done.
Qed.

Lemma fill_agrees full extent skip r row base : laid_out full extent -> placed 0 full ->
  forall l i s o m, drop i full = l -> heap s !! r = Some o -> (length full <= length (o_cells o))%nat ->
  (base + extent <= length m)%nat -> (i <= length full)%nat -> pending_fields base i full m (o_cells o) ->
  agree base extent r full m (RdbManager.fill local fmt unjson skip r i l row s) (fill local fmt unjson skip base i l row m).
Proof.
  intros Hlo Hpl. induction l as [|vv l IH]; intros i s o m Hd Ho Hlen Hm Hif Hp; cbn [RdbManager.fill fill].
  { apply (f_equal length) in Hd as Hl. rewrite length_drop in Hl. cbn in Hl. replace i with (length full) in Hp by lia.
    exists o, m. by split_and!. }
  assert (full !! i = Some vv) as Hi by (rewrite <- (Nat.add_0_r i), <- lookup_drop, Hd; done).
  assert (drop (S i) full = l) as Hd' by (by rewrite (drop_S full vv i Hi) in Hd; injection Hd).
  apply lookup_lt_Some in Hi as Hil.
  destruct (Ignore vv) eqn:Hig.
  { apply (IH (S i) s o m); try done. apply (pending_skip base full i vv); [done| |done]. unfold stored_field. by rewrite Hig. }
  unfold column_at, mbind, run_bind, mret, run_ret, lift. destruct (row !! i) as [b|]; cbn [bind_outcome]; [|done].
  destruct (skip && IsDate vv && _) eqn:Hs; cbn [bind_outcome].
  { apply (IH (S i) s o m); try done. apply (pending_skip base full i vv); [done| |done]. unfold stored_field.
    apply andb_true_iff in Hs as [[_ ->]%andb_true_iff _]. by rewrite andb_false_r. }
  destruct (set_column_eq r vv b s o Ho) as (s1 & E & Hs1). rewrite E.
  assert (GetPtr base (offset vv) + reach vv <= length m)%nat as Hfit by (pose proof (lo_fits _ _ Hlo _ _ Hi) as Hfits; rewrite Hig in Hfits; unfold GetPtr; lia).
  pose proof (SetValue_follows base vv (nth (FieldOffset vv) (o_cells o) VNil) b m Hfit) as Hf.
  destruct (Model.SetValue _ _ _ _ _ _) as [v|x|x]; unfold follows in Hf; [|rewrite Hf; done..].
  destruct Hf as (m1 & -> & Hm1). rewrite (Hs1 v eq_refl). cbn.
  assert (forall o1, heap (put r o1 s) !! r = Some o1) as Hput by (intros; by eapply put_heap).
  destruct Hm1 as [Hsets|(-> & -> & Hst)].
  - destruct Hsets as (Hl1 & Hh & Hout). apply (agree_from base extent r full m m1).
    { intros a Ha. apply Hout. pose proof (lo_fits _ _ Hlo _ _ Hi) as Hfits. rewrite Hig in Hfits. unfold GetPtr. lia. }
    eapply (IH (S i)); [done|apply Hput|by cbn [o_cells]; rewrite length_insert|lia|lia|].
    by apply (pending_step base full extent i vv v m m1).
  - eapply (IH (S i)); [done|apply Hput|by cbn [o_cells]; rewrite length_insert|done|lia|].
    cbn [o_cells]. rewrite list_insert_id'.
    + by apply (pending_skip base full i vv).
    + intros Hx. rewrite nth_lookup. destruct (lookup_lt_is_Some_2 _ _ Hx) as [w ->]. done.
Qed.
End Refines.
End Fields.

(** C10: Reading a row into a struct through raw pointers does to its bytes what the
    cells say.  The fields of a registered model lie one after the other, and the byte
    behind a [uint8] field that is loaded is in the object and belongs to no field, or
    to one that the same row stores after it, whatever the column holds.  Then the loop ends with the
    same outcome as on the cells, and when it succeeds, the bytes of every field are
    those of its new cell, and no byte outside the object has changed.  The condition
    on [uint8] fields is needed ([neighbour_overwritten]): they are stored with
    [SetUint16]. *)
Theorem fill_refines `{database D} `{lz : local_zone} local fmt unjson offset type_size full extent skip r row base (s : state D) o m :
  laid_out offset type_size full extent -> placed 0 full -> heap s !! r = Some o -> (length full <= length (o_cells o))%nat ->
  (base + extent <= length m)%nat -> represents offset type_size base full m (o_cells o) ->
  let cells := RdbManager.fill local fmt unjson skip r 0 full row s in
  let bytes := fill offset type_size local fmt unjson skip base 0 full row m in
  match cells.1 with
  | Ok _ => exists o' m', heap cells.2 !! r = Some o' /\ bytes = Ok m' /\ represents offset type_size base full m' (o_cells o') /\
      forall a, (a < base \/ base + extent <= a)%nat -> m' !! a = m !! a
  | Err x => bytes = Err x
  | Panic x => bytes = Panic x
  end.
Proof.
  intros Hlo Hpl Ho Hlen Hm Hr.
  assert (pending_fields offset type_size base 0 full m (o_cells o)) as Hp by (intros k e Hk; left; exact (Hr k e Hk)).
  pose proof (fill_agrees offset type_size local fmt unjson full extent skip r row base Hlo Hpl full 0 s o m eq_refl Ho Hlen Hm ltac:(lia) Hp) as Ha.
  unfold agree in Ha. cbn zeta. destruct (RdbManager.fill _ _ _ _ _ _ _ _ _).1; [|exact Ha..].
  destruct Ha as (o' & m' & Ho' & Hf & Hp' & Hout). exists o', m'. split_and!; [done..| |done].
  intros k e Hk. destruct (Hp' k e Hk) as [|[Hge _]]; [done|]. apply lookup_lt_Some in Hk. lia.
Qed.

(** ** A struct of an [int64] key, a [uint8], an [int8] and a string *)

Definition demo_field (pk ign : bool) (name : string) (k : kind) (i : nat) : FieldElem :=
  mk_field pk ign false false name name name k "" "" "" i.

Definition demo_fields : list FieldElem :=
  [demo_field true false "Id" KInt64 0; demo_field false false "Level" KUint8 1; demo_field false false "Rank" KInt8 2;
   demo_field false false "Name" KString 3].

(** The offsets that the compiler chooses for it. *)
Definition demo_offset (e : FieldElem) : nat := nth (FieldOffset e) [0; 8; 9; 16]%nat 32%nat.
Definition demo_size (t : string) : nat := 0.

Definition demo_memory : memory := replicate 40 (Byte 0).
Definition demo_row : list column := [Some "258"; Some "511"; Some "-2"; Some "bo"].

#[local] Instance demo_zone : local_zone := fun _ => 0.

Definition demo_object_state : state (list string) := with_heap demo_state [mk_object "t_demo" [VNil; VNil; VNil; VNil]].

Definition demo_filled : outcome string memory :=
  fill demo_offset demo_size (Zone "UTC" (fun _ => 0)) Time_fmt (fun _ => Ok VNil) false 4 0 demo_fields demo_row demo_memory.

(** The byte of [Rank] is overwritten with the high byte of 511 and then stored; a
    [uint8] takes the number modulo 256. *)
Example demo_bytes :
  (take 18 <$> (drop 3 <$> match demo_filled with Ok m => Some m | _ => None end)) =
  Some [Byte 0; Byte 2; Byte 1; Byte 0; Byte 0; Byte 0; Byte 0; Byte 0; Byte 0; Byte 255; Byte 254; Byte 0; Byte 0; Byte 0; Byte 0; Byte 0;
        Byte 0; Part (VStr "bo") 0].
Proof. vm_compute. reflexivity. Qed.

Lemma demo_laid_out : laid_out demo_offset demo_size demo_fields 32.
Proof.
  split.
  - intros [|[|[|[|j]]]] [|[|[|[|k]]]] e e' Hj Hk Hjk; try lia; cbn in Hj, Hk; try done; simplify_eq; vm_compute; lia.
  - intros [|[|[|[|k]]]] e Hk; cbn in Hk; try done; simplify_eq; vm_compute; lia.
  - intros [|[|[|[|j]]]] [|[|[|[|k]]]] e e' Hj Hk Hu Hi; cbn in Hj, Hk; try done; simplify_eq; try done; vm_compute; lia.
Qed.

Lemma fill_refines_witness :
  exists o' m', heap (RdbManager.fill (Zone "UTC" (fun _ => 0)) Time_fmt (fun _ => Ok VNil) false 0 0 demo_fields demo_row demo_object_state).2 !! 0%nat = Some o' /\
  demo_filled = Ok m' /\ represents demo_offset demo_size 4 demo_fields m' (o_cells o') /\
  forall a, (a < 4 \/ 4 + 32 <= a)%nat -> m' !! a = demo_memory !! a.
Proof.
  refine (fill_refines (Zone "UTC" (fun _ => 0)) Time_fmt (fun _ => Ok VNil) demo_offset demo_size demo_fields 32 false 0 demo_row 4 demo_object_state
    (mk_object "t_demo" [VNil; VNil; VNil; VNil]) demo_memory demo_laid_out _ eq_refl _ _ _).
  - intros [|[|[|[|k]]]] vv Hk; cbn in Hk; try done; by simplify_eq.
  - vm_compute. lia.
  - vm_compute. lia.
  - intros [|[|[|[|k]]]] e Hk; cbn in Hk; try done; simplify_eq; intros j Hj; do 16 (destruct j as [|j]; [first [reflexivity|exfalso; vm_compute in Hj; lia]|]); exfalso; vm_compute in Hj; lia.
Defined.

(** Without the condition the byte behind is lost: a bool that is not a column becomes
    false when the [uint8] before it is read. *)
Example neighbour_overwritten :
  let l := [demo_field false false "Level" KUint8 0; demo_field false true "Seen" KBool 1] in
  fill (fun e => FieldOffset e) demo_size (Zone "UTC" (fun _ => 0)) Time_fmt (fun _ => Ok VNil) false 0 0 l [Some "7"; None] [Byte 0; Byte 1] =
  Ok [Byte 7; Byte 0].
Proof. vm_compute. reflexivity. Qed.

(** Nor is a key of four bytes the end of the store of an identifier. *)
Example int32_key_overwrites :
  let l := [demo_field true false "Id" KInt32 0; demo_field false false "Stock" KInt32 1] in
  set_last_id (fun e => 4 * FieldOffset e)%nat 0 5 l (le_bytes 4 0 ++ le_bytes 4 700) = (le_bytes 4 5 ++ le_bytes 4 0)%list.
Proof. vm_compute. reflexivity. Qed.
