(* ===== verification/MongoQuery.v ===== *)
(** * Conditions as documents of Mongo ([src/ormx/sqld/mongo_manager.go])

    The filter, the projection, the sort order, the aggregation and the window of a
    query, built from a condition object.  A document ([bson.M]) is a list of
    entries in which an assignment replaces the entry of its key.  What a filter
    selects is stated in [MongoSpec]. *)

From S2P Require Import Prelude GoStrings Sqlc.

#[local] Open Scope string_scope.
#[local] Open Scope Z_scope.

Inductive bson :=
  | BV (v : value)
  | BDoc (l : list (string * bson))
  | BArr (l : list bson).

Abbreviation doc := (list (string * bson)).

Definition JID : string := "id".
Definition BID : string := "_id".

Definition getKey (key : string) : string := if String.eqb key JID then BID else key.

(** [m[k] = v]. *)
Definition doc_set (k : string) (v : bson) (m : doc) : doc :=
  if existsb (fun p => String.eqb p.1 k) m then map (fun p => if String.eqb p.1 k then (k, v) else p) m
  else (m ++ [(k, v)])%list.

(** ** The filter *)

Definition op (name : string) (v : bson) : bson := BDoc [(name, v)].

(** [values[i]]. *)
Definition value_at (vs : list value) (i : nat) : outcome string value :=
  match vs !! i with Some v => Ok v | None => Panic "index out of range" end.

(** The document of a logic; [None] for the logics that add nothing. *)
Definition condition_doc (logic : Z) (v : value) (vs : list value) : outcome string (option bson) :=
  if logic =? EQ_ then Ok (Some (BV v))
  else if logic =? NOT_EQ_ then Ok (Some (op "$ne" (BV v)))
  else if logic =? LT_ then Ok (Some (op "$lt" (BV v)))
  else if logic =? LTE_ then Ok (Some (op "$lte" (BV v)))
  else if logic =? GT_ then Ok (Some (op "$gt" (BV v)))
  else if logic =? GTE_ then Ok (Some (op "$gte" (BV v)))
  else if logic =? IS_NULL_ then Ok (Some (BV VNil))
  else if logic =? BETWEEN_ then
    let* a := value_at vs 0 in let* b := value_at vs 1 in Ok (Some (BDoc [("$gte", BV a); ("$lte", BV b)]))
  else if logic =? BETWEEN2_ then
    let* a := value_at vs 0 in let* b := value_at vs 1 in Ok (Some (BDoc [("$gte", BV a); ("$lt", BV b)]))
  else if logic =? IN_ then Ok (Some (op "$in" (BArr (map BV vs))))
  else if logic =? NOT_IN_ then Ok (Some (op "$nin" (BArr (map BV vs))))
  else if logic =? LIKE_ then Ok (Some (op "$regex" (BV v)))
  else Ok None.

(** The disjuncts of an [Or] among the values; [rec] knows the condition objects. *)
Fixpoint or_docs (rec : value -> option (outcome string bson)) (vs : list value) : outcome string (list bson) :=
  match vs with
  | [] => Ok []
  | v :: vs =>
      match rec v with
      | None => or_docs rec vs
      | Some r => let* d := r in let* ds := or_docs rec vs in Ok (d :: ds)
      end
  end.

(** A slice to which nothing was appended is nil. *)
Definition array_of (l : list bson) : bson := match l with [] => BV VNil | _ => BArr l end.

(** One turn of the loop: every condition writes the entry of its key. *)
Definition match_step (rec : value -> option (outcome string bson)) (acc : outcome string doc) (v : Condition value) : outcome string doc :=
  let* query := acc in
  if Logic v =? OR_ then
    match Values v with
    | [] => Ok query
    | vs => let* array := or_docs rec vs in Ok (doc_set "$or" (array_of array) query)
    end
  else
    let* d := condition_doc (Logic v) (Value v) (Values v) in
    match d with
    | None => Ok query
    | Some d => Ok (doc_set (getKey (Key v)) d query)
    end.

(** A filter without conditions is nil. *)
Definition nil_or_doc (conditions : list (Condition value)) (query : doc) : bson :=
  match conditions with [] => BV VNil | _ => BDoc query end.

Fixpoint match_value (v : value) : option (outcome string bson) :=
  match v with
  | VCnd c => Some (let* q := foldl (match_step match_value) (Ok []) (Conditions c) in Ok (nil_or_doc (Conditions c) q))
  | _ => None
  end.

(** The entries of the filter; none for a nil filter. *)
Definition buildMongoMatch (cnd : Cnd) : outcome string doc := foldl (match_step match_value) (Ok []) (Conditions cnd).

(** ** The other parts of a query *)

Definition one (n : Z) : bson := BV (VInt n).

Definition buildMongoProject (cnd : Cnd) : doc :=
  let project := foldl (fun m v => doc_set (getKey v) (one 1) m) [] (AnyFields cnd) in
  foldl (fun m v => doc_set (getKey v) (one 0) m) project (AnyNotFields cnd).

(** [None]: there is nothing to set. *)
Definition buildMongoUpset (cnd : Cnd) : option doc :=
  match List.filter (fun p => negb (String.eqb p.1 JID || String.eqb p.1 BID)) (Upsets cnd) with
  | [] => None
  | upset => Some [("$set", BDoc (map (fun p => (p.1, BV p.2)) upset))]
  end.

Record SortBy := mk_sort { s_Key : string; s_Sort : Z }.

Definition order_of (v : value) : Z := match v with VInt z => if z =? DESC_ then -1 else 1 | _ => 1 end.

Definition buildMongoSortBy (cnd : Cnd) : list SortBy :=
  let pg := Pagination cnd in
  let fast := if IsFastPage pg then [mk_sort (getKey (FastPageKey pg)) (if FastPageSortParam pg =? DESC_ then -1 else 1)] else [] in
  let rest := List.filter (fun v => negb (String.eqb (getKey (Key v)) (getKey (FastPageKey pg)))) (Orderbys cnd) in
  (fast ++ map (fun v => mk_sort (getKey (Key v)) (order_of (Value v))) rest)%list.

Definition buildMongoSample (cnd : Cnd) : option bson :=
  if SampleSize cnd =? 0 then None else Some (op "$sample" (op "size" (one (SampleSize cnd)))).

(** The number of documents that are skipped, and the largest number returned. *)
Definition buildMongoLimit (cnd : Cnd) : Z * Z :=
  if 0 <? LimitSize cnd then (0, LimitSize cnd)
  else
    let pg := Pagination cnd in
    if (PageNo pg =? 0) && (PageSize pg =? 0) then (0, 0)
    else
      let pageSize := if PageSize pg <=? 0 then 10 else PageSize pg in
      if IsOffset pg then (PageNo pg, pageSize)
      else (int64 (int64 (PageNo pg - 1) * pageSize), pageSize).

(** The options of [Find], and of [FindOne], which have no window. *)
Record FindOptions := mk_find {
  projection : option doc;
  sort : option (list SortBy);
  collation : option Collation;
  skip : option Z;
  limit : option Z
}.

Definition nonempty {A} (l : list A) : option (list A) := match l with [] => None | _ => Some l end.

Definition buildQueryOneOptions (cnd : Cnd) : FindOptions :=
  let sortBy := buildMongoSortBy cnd in
  mk_find (nonempty (buildMongoProject cnd)) (nonempty sortBy)
    (match sortBy with [] => None | _ => CollationConfig cnd end) None None.

Definition buildQueryOptions (cnd : Cnd) : FindOptions :=
  let o := buildQueryOneOptions cnd in
  let '(offset, n) := buildMongoLimit cnd in
  mk_find (projection o) (sort o) (collation o)
    (if 0 <? offset then Some offset else None) (if 0 <? n then Some n else None).

(** ** The aggregation *)

Definition SUM_ : Z := 20.
Definition AVG_ : Z := 21.
Definition MIN_ : Z := 22.
Definition MAX_ : Z := 23.
Definition CNT_ : Z := 24.

Record Aggregation := mk_aggregation { group : doc; group2 : doc; project : doc; idMap : doc; idMap2 : doc }.

Definition text (s : string) : bson := BV (VStr s).

Definition group_by (a : Aggregation) (v : string) : Aggregation :=
  if String.eqb v JID then
    mk_aggregation (group a) (group2 a) (doc_set BID (text "$_id.id") (project a))
      (doc_set JID (text "$_id") (idMap a)) (doc_set JID (text "$_id.id") (idMap2 a))
  else
    mk_aggregation (group a) (group2 a) (doc_set v (text ("$_id." +:+ v)) (project a))
      (doc_set v (text ("$" +:+ v)) (idMap a)) (doc_set v (text ("$_id." +:+ v)) (idMap2 a)).

Definition agg_name (logic : Z) : option string :=
  if logic =? SUM_ then Some "$sum" else if logic =? MAX_ then Some "$max"
  else if logic =? MIN_ then Some "$min" else if logic =? AVG_ then Some "$avg" else None.

Definition set_group (a : Aggregation) (k : string) (logic : Z) (field : string) : doc :=
  match agg_name logic with Some n => doc_set k (op n (text field)) (group a) | None => group a end.

Definition aggregate (a : Aggregation) (v : Condition value) : Aggregation :=
  let k := Key v in
  if String.eqb k JID then
    mk_aggregation (set_group a k (Logic v) "$_id") (group2 a) (doc_set BID (text ("$" +:+ k)) (project a)) (idMap a) (idMap2 a)
  else if Logic v =? CNT_ then
    mk_aggregation (group a) (doc_set (Alias v) (op "$sum" (one 1)) (group2 a)) (doc_set (Alias v) (one 1) (project a))
      (idMap a) (List.filter (fun p => negb (String.eqb p.1 k)) (idMap2 a))
  else
    mk_aggregation (set_group a k (Logic v) ("$" +:+ k)) (group2 a) (doc_set (Alias v) (text ("$" +:+ k)) (project a)) (idMap a) (idMap2 a).

(** The stages of the pipeline. *)
Definition buildMongoAggregate (cnd : Cnd) : list bson :=
  match Groupbys cnd, Aggregates cnd with
  | [], [] => []
  | _, _ =>
      let a := foldl group_by (mk_aggregation [] [] [(BID, one 0)] [] []) (Groupbys cnd) in
      let g := match Groupbys cnd with [] => [] | _ => doc_set BID (BDoc (idMap a)) (group a) end in
      let g := match Aggregates cnd with
               | [] => g
               | _ => if existsb (fun p => String.eqb p.1 BID) g then g else doc_set BID (one 0) g
               end in
      let a := foldl aggregate (mk_aggregation g (group2 a) (project a) (idMap a) (idMap2 a)) (Aggregates cnd) in
      ((match group a with [] => [] | g => [op "$group" (BDoc g)] end) ++
       (match group2 a with [] => [] | g => [op "$group" (BDoc (doc_set BID (BDoc (idMap2 a)) g))] end) ++
       (match project a with [] => [] | p => [op "$project" (BDoc p)] end))%list
  end.

(** Two conditions on a key: the first is lost. *)
Example range_lost :
  buildMongoMatch (Lt_ (Gt_ (M ["t"]) "age" (VInt 1)) "age" (VInt 9)) = Ok [("age", op "$lt" (BV (VInt 9)))].
Proof. reflexivity. Qed.

(** Three logics are dropped without an error. *)
Example not_like_dropped :
  buildMongoMatch (NotLike (Eq (M ["t"]) "a" (VInt 1)) "b" (VStr "x")) = Ok [("a", BV (VInt 1))].
Proof. reflexivity. Qed.
