(* ===== verification/MongoSpec.v ===== *)
(** * What a Mongo filter selects

    The server is an interface: [selects] says which documents a filter selects, and
    the laws are those of the documentation of the query language.  A filter selects
    what all its entries select; an operator in an entry compares the field with a
    value; [$or] asks for one of its filters.  Against the interface the filter of a
    condition object is shown to select what the conditions say, with one exception
    that the statement makes: of the conditions on one key only the last counts. *)

From S2P Require Import Prelude GoStrings Sqlc MongoQuery.

#[local] Open Scope string_scope.
#[local] Open Scope Z_scope.

(** ** The server *)

(** The operators that compare a field with one value. *)
Inductive comparison_op := CEq | CLt | CLte | CGt | CGte | CLike.

Definition field_name (k : string) : bool := negb (String.prefix "$" k).

(** The operators that make a range. *)
Definition range_op (n : string) : bool := existsb (String.eqb n) ["$gt"; "$gte"; "$lt"; "$lte"].

Class mongo_server (Doc : Type) := {
  selects : doc -> Doc -> bool;
  compares : comparison_op -> string -> value -> Doc -> bool;
  (* all the entries of a filter must hold, and both operators of a range *)
  selects_all : forall f d, selects f d = forallb (fun e => selects [e] d) f;
  selects_both : forall k n1 n2 v1 v2 d, field_name k = true -> range_op n1 = true -> range_op n2 = true -> n1 <> n2 ->
    selects [(k, BDoc [(n1, BV v1); (n2, BV v2)])] d = selects [(k, op n1 (BV v1))] d && selects [(k, op n2 (BV v2))] d;
  (* a value stands for equality *)
  selects_eq : forall k v d, field_name k = true -> selects [(k, BV v)] d = compares CEq k v d;
  selects_ne : forall k v d, field_name k = true -> selects [(k, op "$ne" (BV v))] d = negb (compares CEq k v d);
  selects_lt : forall k v d, field_name k = true -> selects [(k, op "$lt" (BV v))] d = compares CLt k v d;
  selects_lte : forall k v d, field_name k = true -> selects [(k, op "$lte" (BV v))] d = compares CLte k v d;
  selects_gt : forall k v d, field_name k = true -> selects [(k, op "$gt" (BV v))] d = compares CGt k v d;
  selects_gte : forall k v d, field_name k = true -> selects [(k, op "$gte" (BV v))] d = compares CGte k v d;
  selects_like : forall k v d, field_name k = true -> selects [(k, op "$regex" (BV v))] d = compares CLike k v d;
  selects_in : forall k vs d, field_name k = true ->
    selects [(k, op "$in" (BArr (map BV vs)))] d = existsb (fun v => compares CEq k v d) vs;
  selects_nin : forall k vs d, field_name k = true ->
    selects [(k, op "$nin" (BArr (map BV vs)))] d = negb (existsb (fun v => compares CEq k v d) vs);
  selects_or : forall fs d, fs <> [] -> selects [("$or", BArr (map BDoc fs))] d = existsb (fun f => selects f d) fs
}.

(** ** What the conditions say *)

(** The entry that a condition writes; [None] for a condition that writes nothing. *)
Definition supported (logic : Z) : bool :=
  ((EQ_ <=? logic) && (logic <=? IS_NULL_)) || (logic =? BETWEEN_) || (logic =? BETWEEN2_) || (logic =? IN_) ||
  (logic =? NOT_IN_) || (logic =? LIKE_).

Definition slot (c : Condition value) : option string :=
  if Logic c =? OR_ then match Values c with [] => None | _ => Some "$or" end
  else if supported (Logic c) then Some (getKey (Key c)) else None.

(** The elements with a slot that no later element takes. *)
Fixpoint effective {A} (slot : A -> option string) (l : list A) : list A :=
  match l with
  | [] => []
  | x :: l =>
      match slot x with
      | None => effective slot l
      | Some k => if existsb (fun y => bool_decide (slot y = Some k)) l then effective slot l else x :: effective slot l
      end
  end.

Section Meaning.
Context {Doc : Type} `{mongo_server Doc}.

Definition plain_holds (d : Doc) (c : Condition value) : bool :=
  let k := getKey (Key c) in
  let v := Value c in
  let vs := Values c in
  let bound i := nth i vs VNil in
  let l := Logic c in
  if l =? EQ_ then compares CEq k v d
  else if l =? NOT_EQ_ then negb (compares CEq k v d)
  else if l =? LT_ then compares CLt k v d
  else if l =? LTE_ then compares CLte k v d
  else if l =? GT_ then compares CGt k v d
  else if l =? GTE_ then compares CGte k v d
  else if l =? IS_NULL_ then compares CEq k VNil d
  else if l =? BETWEEN_ then compares CGte k (bound 0%nat) d && compares CLte k (bound 1%nat) d
  else if l =? BETWEEN2_ then compares CGte k (bound 0%nat) d && compares CLt k (bound 1%nat) d
  else if l =? IN_ then existsb (fun v => compares CEq k v d) vs
  else if l =? NOT_IN_ then negb (existsb (fun v => compares CEq k v d) vs)
  else compares CLike k v d.

Definition condition_holds (rec : value -> bool) (d : Doc) (c : Condition value) : bool :=
  if Logic c =? OR_ then existsb rec (Values c) else plain_holds d c.

Definition tagged_slot (p : Condition value * bool) : option string := slot p.1.

(** A document satisfies a condition object: the conditions that count hold. *)
Fixpoint satisfies (d : Doc) (v : value) : bool :=
  match v with
  | VCnd c => forallb snd (effective tagged_slot (map (fun k => (k, condition_holds (satisfies d) d k)) (Conditions c)))
  | _ => false
  end.
End Meaning.

(** Ranges have their two bounds, the disjuncts of an [Or] are condition objects
    with a condition each, and no key is an operator. *)
Definition condition_formed (rec : value -> bool) (c : Condition value) : bool :=
  if Logic c =? OR_ then
    match Values c with
    | [] => true
    | vs => existsb is_cnd vs && forallb (fun v => match v with VCnd k => negb (length (Conditions k) =? 0)%nat | _ => true end && rec v) vs
    end
  else
    field_name (getKey (Key c)) && (negb ((Logic c =? BETWEEN_) || (Logic c =? BETWEEN2_)) || (2 <=? length (Values c))%nat).

Fixpoint well_formed (v : value) : bool :=
  match v with VCnd c => forallb (condition_formed well_formed) (Conditions c) | _ => true end.

(** ** Assignments to a document *)

Definition set_entry (m : doc) (e : option (string * bson)) : doc :=
  match e with Some e => doc_set e.1 e.2 m | None => m end.

Definition entry_slot (e : option (string * bson)) : option string := option_map fst e.

Lemma in_doc_set k v m e : List.In e (doc_set k v m) <-> e = (k, v) \/ (e.1 <> k /\ List.In e m).
Proof.
  unfold doc_set. destruct (existsb _ m) eqn:E.
  - rewrite in_map_iff. split.
    + intros (x & <- & Hx). destruct (String.eqb_spec x.1 k); [by left|by right].
    + intros [->|[Hne Hin]]; [|exists e; destruct (String.eqb_spec e.1 k); done].
      apply existsb_exists in E. destruct E as (x & Hx & Ex). exists x. by rewrite Ex.
  - rewrite in_app_iff. cbn [List.In]. split; [|intuition].
    intros [Hin|[<-|[]]]; [right; split; [|done]|by left].
    intros <-. rewrite <- not_true_iff_false, existsb_exists in E. apply E. exists e. by rewrite String.eqb_refl.
Qed.

(** After the assignments a document holds those that count, and what it held under
    other keys. *)
Lemma in_set_entries l m e :
  List.In e (foldl set_entry m l) <->
  List.In (Some e) (effective entry_slot l) \/ (List.In e m /\ existsb (fun y => bool_decide (entry_slot y = Some e.1)) l = false).
Proof.
  revert m. induction l as [|[[k v]|] l IH]; intros m; cbn [foldl set_entry effective entry_slot option_map fst snd existsb].
  - cbn. intuition.
  - rewrite IH, in_doc_set.
    destruct (existsb (fun y => bool_decide (entry_slot y = Some k)) l) eqn:E; cbn [List.In].
    + rewrite orb_false_iff, bool_decide_eq_false. split; [|intros [?|(? & Hk & ?)]; [by left|right; intuition congruence]].
      intros [?|[[->|[? ?]] Hl]]; [by left|cbn in Hl; congruence|right; intuition congruence].
    + rewrite orb_false_iff, bool_decide_eq_false. split.
      * intros [?|[[->|[? ?]] Hl]]; [intuition|intuition|right; intuition congruence].
      * intros [[[= <-]|?]|(? & Hk & ?)]; [right; intuition|intuition|right; split; [right; intuition congruence|done]].
  - by rewrite IH.
Qed.

Lemma effective_some l x : List.In x (effective entry_slot l) -> exists e, x = Some e.
Proof.
  induction l as [|[e|] l IH]; cbn [effective entry_slot option_map]; [done| |exact IH].
  case_match; [exact IH|]. intros [<-|?]; eauto.
Qed.

(** The elements that count are found by their slots alone. *)
Lemma effective_related {A B} (R : A -> B -> Prop) (sa : A -> option string) (sb : B -> option string) l1 l2 :
  Forall2 R l1 l2 -> (forall a b, R a b -> sa a = sb b) -> Forall2 (fun a b => R a b /\ sa a <> None) (effective sa l1) (effective sb l2).
Proof.
  intros Hl Hs.
  assert (forall k l1 l2, Forall2 R l1 l2 ->
    existsb (fun y => bool_decide (sa y = k)) l1 = existsb (fun y => bool_decide (sb y = k)) l2) as Hex.
  { intros k l l' Hll. induction Hll as [|a b l l' Hab _ IH]; [done|]. cbn [existsb]. by rewrite IH, (Hs a b Hab). }
  induction Hl as [|a b l1 l2 Hab Hl IH]; [constructor|]. cbn [effective]. rewrite (Hs a b Hab).
  destruct (sb b) as [k|] eqn:E; [|exact IH]. rewrite (Hex (Some k) l1 l2 Hl). case_match; [exact IH|].
  constructor; [|exact IH]. split; [done|]. by rewrite (Hs a b Hab), E.
Qed.

Lemma effective_distinct {A} (slot : A -> option string) l :
  Forall (fun x => slot x <> None) l -> NoDup (map slot l) -> effective slot l = l.
Proof.
  induction 1 as [|x l Hx _ IH]; [done|]. cbn [map effective]. intros [Hni Hnd]%NoDup_cons.
  destruct (slot x) as [k|] eqn:E; [|done].
  assert (existsb (fun y => bool_decide (slot y = Some k)) l = false) as ->.
  { apply not_true_iff_false. rewrite existsb_exists. intros (y & Hy & Ey%bool_decide_eq_true). apply Hni.
    rewrite list_elem_of_In, <- Ey. by apply in_map. }
  by rewrite IH.
Qed.

Lemma forallb_related {A B} (f : A -> bool) (g : B -> bool) l1 l2 :
  Forall2 (fun a b => f a = g b) l1 l2 -> forallb f l1 = forallb g l2.
Proof. induction 1 as [|a b l1 l2 E _ IH]; [done|]. cbn [forallb]. by rewrite E, IH. Qed.

(** ** The filter of a condition object *)

Section Filter.
Context {Doc : Type} `{mongo_server Doc}.

(** The entry [e] is what the condition writes, and it means what it says. *)
Definition writes_entry (c : Condition value) (e : option (string * bson)) : Prop :=
  slot c = entry_slot e /\
  (forall q, match_step match_value (Ok q) c = Ok (set_entry q e)) /\
  match e with
  | Some e => forall d, selects [e] d = condition_holds (satisfies d) d c
  | None => True
  end.

Definition faithful (v : value) : Prop :=
  forall c, v = VCnd c -> well_formed v = true ->
  exists f, buildMongoMatch c = Ok f /\ forall d, selects f d = satisfies d v.

Lemma or_docs_faithful vs :
  Forall faithful vs ->
  forallb (fun v => match v with VCnd k => negb (length (Conditions k) =? 0)%nat | _ => true end && well_formed v) vs = true ->
  exists fs, or_docs match_value vs = Ok (map BDoc fs) /\ (existsb is_cnd vs = true -> fs <> []) /\
    forall d, existsb (fun f => selects f d) fs = existsb (satisfies d) vs.
Proof.
  induction 1 as [|v vs Hv _ IH]; [by exists []|]. cbn [forallb]. rewrite andb_true_iff. intros [[Hc Hw]%andb_prop Hvs].
  destruct (IH Hvs) as (fs & E & Hne & Hd). cbn [or_docs existsb].
  destruct v as [| | | | |c]; cbn [match_value is_cnd orb]; try (exists fs; by repeat split).
  destruct (Hv c eq_refl Hw) as (f & Ef & Hf). unfold buildMongoMatch in Ef. rewrite Ef, E. cbn [bind_outcome].
  exists (f :: fs). split; [|split; [done|]].
  - unfold nil_or_doc. by destruct (Conditions c).
  - intros d. cbn [existsb]. by rewrite Hf, Hd.
Qed.

Lemma or_entry c :
  Forall faithful (Values c) -> Logic c = OR_ -> condition_formed well_formed c = true -> exists e, writes_entry c e.
Proof.
  intros Hv Hl. unfold condition_formed, writes_entry, slot, match_step, condition_holds. rewrite Hl, Z.eqb_refl. cbn [bind_outcome].
  destruct (Values c) as [|v vs] eqn:E; [by exists None|]. intros [Hc Hf]%andb_prop.
  destruct (or_docs_faithful _ Hv Hf) as (fs & Efs & Hne & Hd). rewrite Efs. cbn [bind_outcome].
  specialize (Hne Hc). exists (Some ("$or", BArr (map BDoc fs))). split; [done|]. split.
  - intros q. unfold array_of. by destruct fs.
  - intros d. rewrite selects_or by done. apply Hd.
Qed.

Lemma unsupported l :
  l <> EQ_ -> l <> NOT_EQ_ -> l <> LT_ -> l <> LTE_ -> l <> GT_ -> l <> GTE_ -> l <> IS_NULL_ -> l <> BETWEEN_ ->
  l <> BETWEEN2_ -> l <> IN_ -> l <> NOT_IN_ -> l <> LIKE_ -> supported l = false.
Proof.
  unfold EQ_, NOT_EQ_, LT_, LTE_, GT_, GTE_, IS_NULL_, BETWEEN_, BETWEEN2_, IN_, NOT_IN_, LIKE_.
  intros. apply not_true_is_false. unfold supported, EQ_, IS_NULL_, BETWEEN_, BETWEEN2_, IN_, NOT_IN_, LIKE_.
  rewrite !orb_true_iff, andb_true_iff, !Z.leb_le, !Z.eqb_eq. lia.
Qed.

Lemma plain_entry c : Logic c <> OR_ -> condition_formed well_formed c = true -> exists e, writes_entry c e.
Proof.
  intros Hl%Z.eqb_neq. unfold condition_formed, writes_entry, slot, match_step, condition_holds, plain_holds, condition_doc. rewrite Hl.
  intros [Hk Hr]%andb_prop. set (k := getKey (Key c)) in *. set (v := Value c). set (vs := Values c) in *.
  repeat match goal with
  | |- context [if Logic c =? ?x then _ else _] =>
      destruct (Logic c =? x) eqn:?;
      [match goal with E : (Logic c =? x) = true |- _ =>
         apply Z.eqb_eq in E; rewrite E in *; change (supported x) with true; cbn in Hr end |]
  end.
  all: try (eexists (Some (k, BV _)); split; [done|]; split; [done|]; intros d; by apply selects_eq).
  all: try (eexists (Some (k, op _ (BV v))); split; [done|]; split; [done|]; intros d;
            (by apply selects_ne) || (by apply selects_lt) || (by apply selects_lte) || (by apply selects_gt) ||
            (by apply selects_gte) || (by apply selects_like)).
  all: try (eexists (Some (k, op _ (BArr (map BV vs)))); split; [done|]; split; [done|]; intros d;
            (by apply selects_in) || (by apply selects_nin)).
  1-2: clearbody vs; destruct vs as [|a [|b l]]; [done|done|]; eexists (Some (k, BDoc [(_, BV a); (_, BV b)])); split; [done|]; split; [done|];
       intros d; rewrite selects_both by done; f_equal; [by apply selects_gte|]; (by apply selects_lte) || (by apply selects_lt).
  z_bools. exists None. by rewrite unsupported by done.
Qed.

Lemma condition_entry c :
  Forall faithful (Values c) -> condition_formed well_formed c = true -> exists e, writes_entry c e.
Proof. intros Hv. destruct (Z.eq_dec (Logic c) OR_); [by apply or_entry|by apply plain_entry]. Qed.

Lemma entries_faithful l :
  Forall (fun c => exists e, writes_entry c e) l ->
  exists es, Forall2 writes_entry l es /\ forall q, foldl (match_step match_value) (Ok q) l = Ok (foldl set_entry q es).
Proof.
  induction 1 as [|c l (e & He) _ (es & Hes & Hq)]; [by exists []|].
  exists (e :: es). split; [by constructor|]. intros q. cbn [foldl]. destruct He as (_ & -> & _). apply Hq.
Qed.

Definition entry_holds (d : Doc) (e : option (string * bson)) : bool :=
  match e with Some e => selects [e] d | None => true end.

(** The filter selects what the entries that count select. *)
Lemma selects_entries es d : selects (foldl set_entry [] es) d = forallb (entry_holds d) (effective entry_slot es).
Proof.
  rewrite selects_all. apply eq_true_iff_eq. rewrite !forallb_forall. split.
  - intros Hf x Hx. destruct (effective_some es x Hx) as [e ->]. apply Hf, in_set_entries. by left.
  - intros Hf e [He|[[] _]]%in_set_entries. exact (Hf (Some e) He).
Qed.

Lemma satisfies_all d c :
  Forall (fun k => slot k <> None) (Conditions c) -> NoDup (map slot (Conditions c)) ->
  satisfies d (VCnd c) = forallb (condition_holds (satisfies d) d) (Conditions c).
Proof.
  intros Hs Hn. cbn [satisfies]. rewrite effective_distinct.
  - induction (Conditions c) as [|k l IH]; [done|]. cbn [map forallb snd]. rewrite IH; [done|by inversion Hs|by inversion Hn].
  - apply Forall_map. exact Hs.
  - rewrite map_map. exact Hn.
Qed.

Lemma filter_faithful v : faithful v.
Proof.
  induction v as [| | | | |c IH] using value_nested_ind; intros c' E; simplify_eq. cbn [well_formed]. intros Hw.
  destruct (entries_faithful (Conditions c')) as (es & Hes & Hq).
  { rewrite Forall_forall in IH |- *. intros k Hk. apply condition_entry; [by apply IH|].
    rewrite forallb_forall in Hw. by apply Hw, list_elem_of_In. }
  exists (foldl set_entry [] es). split; [apply Hq|]. intros d. rewrite selects_entries. cbn [satisfies].
  apply forallb_related.
  eapply Forall2_impl; [apply (effective_related
    (fun e (p : Condition value * bool) => entry_slot e = tagged_slot p /\ (e <> None -> entry_holds d e = p.2)))|].
  - clear Hq IH Hw. induction Hes as [|k e l es (Hs & _ & He) _ IHes]; cbn [map]; constructor; [|exact IHes].
    split; [done|]. destruct e as [e|]; [|done]. intros _. apply He.
  - by intros e p [? _].
  - cbn. intros e p [[_ Hh] Hne]. apply Hh. by destruct e.
Qed.

(** C13: the filter of a well-formed condition object can be built, and a document is
    selected by it exactly when it satisfies the conditions that count: on every key
    (an [Or] being a key of its own) the last condition whose logic is supported.
    Where the keys are distinct and all the logics supported, these are all the
    conditions. *)
Theorem filter_selects c :
  well_formed (VCnd c) = true ->
  exists f, buildMongoMatch c = Ok f /\ (forall d, selects f d = satisfies d (VCnd c)) /\
    (Forall (fun k => slot k <> None) (Conditions c) -> NoDup (map slot (Conditions c)) ->
     forall d, selects f d = forallb (condition_holds (satisfies d) d) (Conditions c)).
Proof.
  intros Hw. destruct (filter_faithful (VCnd c) c eq_refl Hw) as (f & Ef & Hf).
  exists f. split; [done|]. split; [done|]. intros Hs Hn d. rewrite Hf. by apply satisfies_all.
Qed.
End Filter.

(** ** A server for concrete documents *)

Abbreviation flat := (list (string * value)).

Definition field_of (k : string) (d : flat) : value :=
  match List.find (fun p => String.eqb p.1 k) d with Some p => p.2 | None => VNil end.

Definition same_value (a b : value) : bool :=
  match a, b with
  | VNil, VNil => true
  | VInt x, VInt y => x =? y
  | VStr x, VStr y => String.eqb x y
  | VBool x, VBool y => Bool.eqb x y
  | _, _ => false
  end.

Definition flat_compares (o : comparison_op) (k : string) (v : value) (d : flat) : bool :=
  let x := field_of k d in
  let ints (f : Z -> Z -> bool) := match x, v with VInt a, VInt b => f a b | _, _ => false end in
  match o with
  | CEq => same_value x v
  | CLt => ints Z.ltb | CLte => ints Z.leb | CGt => ints Z.gtb | CGte => ints Z.geb
  | CLike => match x, v with VStr a, VStr b => negb (bool_decide (String.index 0 b a = None)) | _, _ => false end
  end.

Definition value_of (b : bson) : value := match b with BV v => v | _ => VNil end.

Definition flat_op (name : string) (k : string) (b : bson) (d : flat) : bool :=
  let is_ n := String.eqb name n in
  match b with
  | BArr l =>
      let any := existsb (fun x => flat_compares CEq k (value_of x) d) l in
      if is_ "$in" then any else if is_ "$nin" then negb any else false
  | _ =>
      let v := value_of b in
      if is_ "$ne" then negb (flat_compares CEq k v d)
      else if is_ "$lt" then flat_compares CLt k v d
      else if is_ "$lte" then flat_compares CLte k v d
      else if is_ "$gt" then flat_compares CGt k v d
      else if is_ "$gte" then flat_compares CGte k v d
      else if is_ "$regex" then flat_compares CLike k v d
      else false
  end.

Fixpoint flat_entry (d : flat) (k : string) (b : bson) : bool :=
  match b with
  | BV v => flat_compares CEq k v d
  | BDoc ops => forallb (fun o => flat_op o.1 k o.2 d) ops
  | BArr fs => String.eqb k "$or" && existsb (fun f => match f with BDoc l => forallb (fun e => flat_entry d e.1 e.2) l | _ => false end) fs
  end.

Definition flat_selects (f : doc) (d : flat) : bool := forallb (fun e => flat_entry d e.1 e.2) f.

Lemma existsb_values k vs d :
  existsb (fun x => flat_compares CEq k (value_of x) d) (map BV vs) = existsb (fun v => flat_compares CEq k v d) vs.
Proof. induction vs as [|v vs IH]; [done|]. cbn [map existsb value_of]. by rewrite IH. Qed.

#[export] Instance flat_server : mongo_server flat.
Proof.
  refine {| selects := flat_selects; compares := flat_compares |}; unfold flat_selects, op; intros;
    cbn -[flat_compares existsb]; rewrite ?andb_true_r, ?existsb_values; try done.
  - induction f as [|e f IH]; [done|]. cbn [forallb]. by rewrite IH, andb_true_r.
  - match goal with Hne : fs <> [] |- _ => clear Hne end.
    induction fs as [|f fs IH]; [done|]. cbn [map existsb]. by rewrite IH.
Defined.

Definition two_ways : Cnd :=
  Or (In (Gte (Eq (M ["t"]) "id" (VInt 7)) "age" (VInt 18)) "city" [VStr "a"; VStr "b"])
    [VCnd (Like (M []) "name" (VStr "ann")); VCnd (InDate (M []) "at" (VInt 5) (VInt 9))].

Lemma filter_selects_witness :
  well_formed (VCnd two_ways) = true /\
  exists f, buildMongoMatch two_ways = Ok f /\ (forall d : flat, selects f d = satisfies d (VCnd two_ways)) /\
    (Forall (fun k => slot k <> None) (Conditions two_ways) -> NoDup (map slot (Conditions two_ways)) ->
     forall d : flat, selects f d = forallb (condition_holds (satisfies d) d) (Conditions two_ways)).
Proof. split; [reflexivity|]. apply filter_selects. reflexivity. Defined.

Example two_ways_selected :
  satisfies [("_id", VInt 7); ("age", VInt 20); ("city", VStr "b"); ("at", VInt 8)] (VCnd two_ways) = true.
Proof. reflexivity. Qed.

(** A document of the wrong age satisfies the conditions that count: the lower bound
    is overwritten. *)
Example lower_bound_lost :
  satisfies [("age", VInt 3)] (VCnd (Lt_ (Gt_ (M ["t"]) "age" (VInt 18)) "age" (VInt 60))) = true.
Proof. reflexivity. Qed.
