(* ===== verification/MongoManager.v ===== *)
(** * The Mongo manager ([MGOManager] of [src/ormx/sqld/mongo_manager.go])

    The manager shares its fields with the relational one, and with them the state
    and the computations of [RdbManager]; [Tx] says that a session context is set.
    The driver is the interface [mongo_database]: each command is given the session,
    the database, the collection and what the manager has built, and answers with
    the number of documents it hit, with documents, or with an error.  A document of
    a collection is the object it is decoded to. *)

From S2P Require Import Prelude GoStrings GoTime TimeUtils Sqlc Model SqlBuilder RdbManager MongoQuery.

#[local] Open Scope string_scope.
#[local] Open Scope Z_scope.

(** What a list query answers: the cursor can fail after the query has not. *)
Abbreviation found := (outcome string (outcome string (list Object))).

Class mongo_database (D : Type) := {
  m_insert : bool -> string -> string -> list Object -> D -> outcome string nat * D;
  m_replace : bool -> string -> string -> doc -> Object -> D -> outcome string Z * D;
  m_update : bool -> string -> string -> doc -> doc -> D -> outcome string Z * D;
  m_delete : bool -> string -> string -> doc -> D -> outcome string Z * D;
  m_count : bool -> string -> string -> doc -> D -> outcome string Z * D;
  m_estimate : bool -> string -> string -> D -> outcome string Z * D;
  (* the object as the decoder leaves it; [false] when there is no document *)
  m_find_one : bool -> string -> string -> doc -> FindOptions -> Object -> D -> outcome string bool * Object * D;
  m_find : bool -> string -> string -> doc -> FindOptions -> D -> found * D;
  m_session : D -> option string * D;
  m_end_session : D -> D;
  m_start : D -> option string * D;
  m_commit : D -> option string * D;
  m_abort : D -> option string * D
}.

Section Mongo.
Context {D : Type} `{mongo_database D}
  (modelDrivers : drivers)
  (null_oid : value -> bool) (new_oid : Z -> value).      (* [primitive.ObjectID] *)

Abbreviation run := (run D).

(** A command on the database of the manager, in its session. *)
Definition command {A} (f : bool -> string -> D -> A * D) : run A := fun s =>
  let '(r, d) := f (Tx s) (Database (settings s)) (db s) in (Ok r, with_db s d).

(** The table whose driver is looked up: that of the first object, or of the first
    change that is to be sent to Mongo. *)
Definition sync_table (table : string) : run string :=
  s ← get; mret (match SyncData s with d :: _ => CacheModel d | [] => table end).

(** Both the driver and the collection are those of [sync_table]. *)
Definition registered (label table : string) : run (string * MdlDriver) :=
  t ← sync_table table;
  obv ← driver_of modelDrivers label t;
  mret (t, obv).

Definition oid_type : string := "primitive.ObjectID".

(** The identifier of an object, [None] when it is not set. *)
Definition mongo_id (obv : MdlDriver) (r : nat) : run (option value) :=
  match PkKind obv with
  | KInt64 => c ← cell r (PkOffset obv); mret (if int_cell c =? 0 then None else Some (VInt (int_cell c)))
  | KString => c ← cell r (PkOffset obv); mret (if slen (str_cell c) =? 0 then None else Some (VStr (str_cell c)))
  | _ =>
      if String.eqb (PkType obv) oid_type then
        c ← cell r (PkOffset obv); mret (if null_oid c then None else Some c)
      else fail "only Int64 and string and ObjectID type IDs are supported"
  end.

(** A new identifier of the kind of the model. *)
Definition next_id (obv : MdlDriver) : run value :=
  i ← NextIID;
  mret (match PkKind obv with KInt64 => VInt i | KString => VStr (format_int i) | _ => new_oid i end).

(** The size of the data of a write. *)
Definition write_size {A} (label : string) (data : list A) : run unit :=
  if (length data =? 0)%nat then fail ("[" +:+ label +:+ "] data is nil")
  else if (2000 <? length data)%nat then fail ("[" +:+ label +:+ "] data length > 2000")
  else mret tt.

Definition first_table (data : list nat) : run string :=
  match data with r :: _ => o ← object r; mret (o_table o) | [] => mret "" end.

Definition Save (data : list nat) : run unit :=
  _ ← write_size "Mongo.Save" data;
  t ← first_table data;
  '(tb, obv) ← registered "Mongo.Save" t;
  _ ← each (fun _ r =>
        id ← mongo_id obv r;
        match id with
        | Some _ => mret tt
        | None => i ← next_id obv; set_cell r (PkOffset obv) i
        end) tt data;
  adds ← each (fun acc r => o ← object r; mret (acc ++ [o])%list) [] data;
  res ← command (fun tx base => m_insert tx base tb adds);
  n ← or_fail "[Mongo.Save] save failed: " res;
  if negb (n =? length adds)%nat then fail "[Mongo.Save] save failed: InsertedIDs length invalid" else mret tt.

(** The identifier that an object must have. *)
Definition need_id (label : string) (obv : MdlDriver) (r : nat) : run value :=
  id ← mongo_id obv r;
  match id with Some id => mret id | None => fail ("[" +:+ label +:+ "] data object id is nil") end.

(** Each object is replaced in turn, up to the first that fails. *)
Definition Update (data : list nat) : run unit :=
  _ ← write_size "Mongo.Update" data;
  t ← first_table data;
  '(tb, obv) ← registered "Mongo.Update" t;
  each (fun _ r =>
    id ← need_id "Mongo.Update" obv r;
    o ← object r;
    res ← command (fun tx base => m_replace tx base tb [(BID, BV id)] o);
    n ← or_fail "[Mongo.Update] update failed: " res;
    if n =? 0 then fail "[Mongo.Update] update failed: ModifiedCount = 0" else mret tt) tt data.

(** The message of a missing ObjectID names another operation. *)
Definition delete_id (obv : MdlDriver) (r : nat) : run value :=
  need_id (match PkKind obv with KInt64 | KString => "Mongo.Delete" | _ => "Mongo.Update" end) obv r.

Definition in_ids (ids : list value) : doc := [(BID, op "$in" (BArr (map BV ids)))].

Definition Delete (data : list nat) : run unit :=
  _ ← write_size "Mongo.Delete" data;
  t ← first_table data;
  '(tb, obv) ← registered "Mongo.Delete" t;
  delIds ← each (fun acc r => id ← delete_id obv r; mret (acc ++ [id])%list) [] data;
  res ← command (fun tx base => m_delete tx base tb (in_ids delIds));
  _ ← or_fail "[Mongo.Delete] delete failed: " res;
  mret tt.

Definition DeleteById (table : string) (data : list value) : run Z :=
  _ ← write_size "Mongo.DeleteById" data;
  '(tb, _) ← registered "Mongo.DeleteById" table;
  res ← command (fun tx base => m_delete tx base tb (in_ids data));
  or_fail "[Mongo.DeleteById] delete failed: " res.

(** ** Statements on a condition *)

(** The filter of the condition object of the state. *)
Definition filter_of : run doc := s ← get; lift (buildMongoMatch (cnd s)).

(** What hit no document is an error. *)
Definition some_hit (msg : string) (n : Z) : run Z := if n =? 0 then fail msg else mret n.

Definition UpdateByCnd : run Z :=
  tb ← model_of "[Mongo.UpdateByCnd] data model is nil";
  f ← filter_of;
  s ← get;
  match f, buildMongoUpset (cnd s) with
  | [], _ => fail "pipe match is nil"
  | _, None => fail "pipe upset is nil"
  | _, Some upset =>
      res ← command (fun tx base => m_update tx base tb f upset);
      n ← or_fail "[Mongo.UpdateByCnd] update failed: " res;
      some_hit "[Mongo.Update] update failed: ModifiedCount = 0" n
  end.

Definition DeleteByCnd : run Z :=
  tb ← model_of "[Mongo.DeleteByCnd] data model is nil";
  f ← filter_of;
  match f with
  | [] => fail "pipe match is nil"
  | _ =>
      res ← command (fun tx base => m_delete tx base tb f);
      n ← or_fail "[Mongo.DeleteByCnd] delete failed: " res;
      some_hit "[Mongo.DeleteByCnd] delete failed: ModifiedCount = 0" n
  end.

(** ** Queries *)

Definition Count : run Z :=
  tb ← model_of "[Mongo.Count] data model is nil";
  f ← filter_of;
  res ← (match f with
         | [] => command (fun tx base => m_estimate tx base tb)
         | _ => command (fun tx base => m_count tx base tb f)
         end);
  total ← or_fail "[Mongo.Count] count failed: " res;
  s ← get;
  let size := PageSize (Pagination (cnd s)) in
  pages ← (if (0 <? total) && (0 <? size) then lift (page_count total size) else mret 0);
  _ ← set_totals total pages;
  mret total.

Definition Exists : run bool := n ← Count; mret (0 <? n).

(** A nil [data] is [None]; the pointer it holds is never nil. *)
Definition FindOne (data : option nat) : run unit :=
  match data with
  | None => fail "[Mongo.FindOne] data is nil"
  | Some r =>
      o ← object r;
      f ← filter_of;
      s ← get;
      '(res, o') ← command (fun tx base d =>
        let '(res, o', d) := m_find_one tx base (o_table o) f (buildQueryOneOptions (cnd s)) o d in ((res, o'), d));
      _ ← ((fun s => (Ok tt, with_heap s (<[r := o']> (heap s)))) : run unit);
      _ ← or_fail "" res;
      mret tt
  end.

(** *** Fast paging *)

Definition set_sort_param (sort : Z) (c : Cnd) : Cnd :=
  let d := Pagination c in
  set_pagination c (mk_dialect (PageNo d) (PageSize d) (PageTotal d) (PageCount d) (Spilled d) (IsOffset d) (IsPage d)
    (IsFastPage d) (FastPageKey d) (FastPageSort d) (FastPageParam d) sort (FastPageSortCountQ d)).

(** The bound that one of the two identifiers sets, and the order it asks for. *)
Definition fast_bound (key : string) (id : Z) (above : bool) (order : Z) (c : Cnd) : Cnd :=
  if 0 <? id then set_sort_param order ((if above then Gt_ else Lt_) c key (VInt id)) else c.

(** [FastPageParam[i]]. *)
Definition fast_param (d : Dialect) (i : nat) : outcome string Z :=
  match FastPageParam d !! i with Some z => Ok z | None => Panic "index out of range" end.

Definition fast_page (c : Cnd) : outcome string Cnd :=
  let d := Pagination c in
  let key := FastPageKey d in
  let sort := FastPageSort d in
  let* prevID := fast_param d 0 in
  let* lastID := fast_param d 1 in
  let c := ResultSize c (PageSize d) in
  let* c := (if (prevID =? 0) && (lastID =? 0)
             then let* c := Orderby c key sort in Ok (set_sort_param sort c) else Ok c) in
  if sort =? DESC_ then Ok (fast_bound key lastID false DESC_ (fast_bound key prevID true ASC_ c))
  else if sort =? ASC_ then Ok (fast_bound key lastID true ASC_ (fast_bound key prevID false DESC_ c))
  else Panic "sort value invalid".

(** An error of [Count] is returned as it is. *)
Definition counted (b : bool) : run unit := if b then _ ← Count; mret tt else mret tt.

Definition new_objects (l : list Object) : run (list nat) := fun s =>
  (Ok (seq (length (heap s)) (length l)), with_heap s (heap s ++ l)%list).

(** [data] is nil, or points to a slice that the cursor replaces. *)
Definition FindList (data : bool) : run (list nat) :=
  if negb data then fail "[Mongo.FindList] data is nil"
  else
    tb ← model_of "[Mongo.FindList] data model is nil";
    s ← get;
    _ ← (if IsFastPage (Pagination (cnd s)) then
           _ ← counted (FastPageSortCountQ (Pagination (cnd s)));
           s ← get;
           c ← lift (fast_page (cnd s));
           set_query (fun _ => c)
         else mret tt);
    s ← get;
    _ ← counted (negb (IsOffset (Pagination (cnd s))) && IsPage (Pagination (cnd s)));
    f ← filter_of;
    s ← get;
    res ← command (fun tx base => m_find tx base tb f (buildQueryOptions (cnd s)));
    out ← or_fail "[Mongo.FindList] query failed: " res;
    out ← or_fail "" out;
    new_objects out.

(** ** Sessions *)

(** [GetDB] on the sources that were set up, by name. *)
Definition GetDB (mgoSessions : gmap string Source) (options : list Option_) : run unit := fun s =>
  let '(dsName, option) := named_option options in
  match mgoSessions !! dsName with
  | None => fail ("mongo session [" +:+ dsName +:+ "] not found...") s
  | Some mgo =>
      let s := with_session s (mk_settings (src_DsName mgo) (src_Database mgo) 60000) (OpenTx s) (AutoID s) (MongoSync s) in
      if 0 <? slen (op_DsName option) then
        (Ok tt, with_session s
          (mk_settings (op_DsName option)
             (if 0 <? slen (op_Database option) then op_Database option else src_Database mgo)
             (if 0 <? op_Timeout option then op_Timeout option else 60000))
          (OpenTx s || op_OpenTx option) (AutoID s) (MongoSync s))
      else (Ok tt, s)
  end.

(** The body of [UseSession]: the transaction in the session that was opened. *)
Definition in_transaction (fn : run unit) : run unit := fun s =>
  let s := with_tx s (db s) in
  match m_start (db s) with
  | (Some e, d) => (Err e, with_db s d)
  | (None, d) =>
      match fn (with_db s d) with
      | (Ok _, s) => let '(r, d) := m_commit (db s) in (match r with None => Ok tt | Some e => Err e end, with_db s d)
      | (Err e, s) => let '(_, d) := m_abort (db s) in (Err e, with_db s d)
      | (Panic w, s) => (Panic w, s)
      end
  end.

(** [UseSession]: the session ends whatever happened in it. *)
Definition in_session (fn : run unit) : run unit := fun s =>
  match m_session (db s) with
  | (Some e, d) => (Err e, with_db s d)
  | (None, d) => let '(r, s) := in_transaction fn (with_db s d) in (r, with_db s (m_end_session (db s)))
  end.

Definition UseTransaction (mgoSessions : gmap string Source) (fn : run unit) (options : list Option_) : run unit :=
  _ ← GetDB mgoSessions options; in_session fn.
End Mongo.

(** ** Setting up the sources *)

Record MGOConfig := mk_mgo {
  mgo_option : Option_;
  ConnectionURI : string;
  Addrs : list string;
  mgo_refused : option string      (* the error of [Connect] or of [Ping] *)
}.

(** The address that is connected to. *)
Definition mongo_uri (v : MGOConfig) : outcome string string :=
  if slen (ConnectionURI v) =? 0 then
    match Addrs v with [] => Panic "index out of range" | a :: _ => Ok ("mongodb://" +:+ a) end
  else Ok (ConnectionURI v).

Definition add_mongo (sessions : gmap string Source) (v : MGOConfig) : outcome string (gmap string Source) :=
  let o := mgo_option v in
  if slen (op_Database o) =? 0 then Panic "mongo database is nil"
  else
    let dsName := if 0 <? slen (op_DsName o) then op_DsName o else MASTER in
    match sessions !! dsName with
    | Some _ => Err ("mongo init failed: [" +:+ op_DsName o +:+ "] exist")
    | None =>
        let* _ := mongo_uri v in
        match mgo_refused v with
        | Some e => Panic e
        | None => Ok (<[dsName := mk_source dsName (op_Database o) false]> sessions)
        end
    end.

(** The sources set up before an error or a panic stay. *)
Fixpoint buildByConfig (sessions : gmap string Source) (input : list MGOConfig) : outcome string unit * gmap string Source :=
  match input with
  | [] => (if bool_decide (sessions = ∅) then Err "mongo init failed: sessions is nil" else Ok tt, sessions)
  | v :: input =>
      match add_mongo sessions v with
      | Ok sessions => buildByConfig sessions input
      | Err e => (Err e, sessions)
      | Panic w => (Panic w, sessions)
      end
  end.
