(* ===== verification/MongoProofs.v ===== *)
(** * Theorems on the Mongo manager

    Transactions are all or nothing; writes by condition hit exactly the documents
    that satisfy the conditions; fast paging asks for the neighbouring page.  What the
    driver does is stated by the laws of two classes, after its documentation. *)

From Stdlib Require Import Ascii.
From S2P Require Import Prelude GoStrings GoTime TimeUtils Sqlc Model SqlBuilder RdbManager RdbProofs RdbRows MongoQuery MongoSpec MongoManager.

#[local] Open Scope string_scope.
#[local] Open Scope Z_scope.

(** ** Transactions *)

(** [committed] is what other clients see: the commands of a session with an open
    transaction do not change it, nor do starting, aborting and ending one. *)
Class transactions (D C : Type) `{mongo_database D} := {
  committed : D -> C;
  insert_pending : forall b t o d, committed (m_insert true b t o d).2 = committed d;
  replace_pending : forall b t f o d, committed (m_replace true b t f o d).2 = committed d;
  update_pending : forall b t f u d, committed (m_update true b t f u d).2 = committed d;
  delete_pending : forall b t f d, committed (m_delete true b t f d).2 = committed d;
  count_pending : forall b t f d, committed (m_count true b t f d).2 = committed d;
  estimate_pending : forall b t d, committed (m_estimate true b t d).2 = committed d;
  find_one_pending : forall b t f p o d, committed (m_find_one true b t f p o d).2 = committed d;
  find_pending : forall b t f p d, committed (m_find true b t f p d).2 = committed d;
  session_pending : forall d, committed (m_session d).2 = committed d;
  start_pending : forall d, committed (m_start d).2 = committed d;
  abort_pending : forall d, committed (m_abort d).2 = committed d;
  end_pending : forall d, committed (m_end_session d) = committed d
}.

#[export] Hint Rewrite @insert_pending @replace_pending @update_pending @delete_pending @count_pending @estimate_pending
  @find_one_pending @find_pending @session_pending @start_pending @abort_pending @end_pending : pending.

(** The calls a client makes in a transaction. *)
Inductive mongo_call :=
  | CallSave (data : list nat) | CallUpdate (data : list nat) | CallDelete (data : list nat)
  | CallDeleteById (table : string) (data : list value)
  | CallUpdateByCnd (c : Cnd) | CallDeleteByCnd (c : Cnd) | CallCount (c : Cnd) | CallExists (c : Cnd)
  | CallFindOne (c : Cnd) (data : option nat) | CallFindList (c : Cnd) (data : bool).

Section Transactions.
Context {D C : Type} `{transactions D C} (modelDrivers : drivers) (null_oid : value -> bool) (new_oid : Z -> value).

Definition on_condition {A} (c : Cnd) (m : run D A) : run D unit := _ ← set_query (fun _ => c); _ ← m; mret tt.

Definition call (o : mongo_call) : run D unit :=
  match o with
  | CallSave data => Save modelDrivers null_oid new_oid data
  | CallUpdate data => Update modelDrivers null_oid data
  | CallDelete data => Delete modelDrivers null_oid data
  | CallDeleteById t data => _ ← DeleteById modelDrivers t data; mret tt
  | CallUpdateByCnd c => on_condition c UpdateByCnd
  | CallDeleteByCnd c => on_condition c DeleteByCnd
  | CallCount c => on_condition c Count
  | CallExists c => on_condition c Exists
  | CallFindOne c data => on_condition c (FindOne data)
  | CallFindList c data => on_condition c (FindList data)
  end.

(** A function that makes the calls and returns the first error. *)
Definition calls (os : list mongo_call) : run D unit := each (fun _ o => call o) tt os.

(** In a session nothing becomes visible, and the session stays. *)
Definition pending {A} (m : run D A) : Prop :=
  forall s, Tx s = true -> Tx (m s).2 = true /\ committed (db (m s).2) = committed (db s).

Lemma pending_bind {A B} (m : run D A) (k : A -> run D B) :
  pending m -> (forall a, pending (k a)) -> pending (m ≫= k).
Proof.
  intros Hm Hk s Hs. destruct (Hm s Hs) as [H1 H2]. unfold mbind, run_bind.
  destruct (m s) as [[a| |] s1]; cbn [snd] in *; [|done..]. destruct (Hk a s1 H1) as [H3 H4]. split; [done|congruence].
Qed.

Lemma pending_ret {A} (a : A) : pending (mret a). Proof. by intros s. Qed.
Lemma pending_lift {A} (o : outcome string A) : pending (lift o). Proof. by intros s. Qed.
Lemma pending_get : pending get. Proof. by intros s. Qed.
Lemma pending_fail {A} e : pending (fail e : run D A). Proof. by intros s. Qed.
Lemma pending_or_fail {A} msg (o : outcome string A) : pending (or_fail msg o : run D A).
Proof. intros s Hs. by destruct o. Qed.
Lemma pending_object r : pending (object r). Proof. intros s Hs. unfold object. by case_match. Qed.
Lemma pending_query f : pending (set_query f). Proof. by intros s. Qed.
Lemma pending_next : pending NextIID. Proof. intros s Hs. unfold NextIID. by case_match. Qed.
Lemma pending_heap (f : list Object -> list Object) : pending ((fun s => (Ok tt, with_heap s (f (heap s)))) : run D unit).
Proof. by intros s. Qed.
Lemma pending_objects l : pending (new_objects l). Proof. by intros s. Qed.

Lemma pending_each {A B} (f : B -> A -> run D B) l : (forall b a, pending (f b a)) -> forall b, pending (each f b l).
Proof.
  intros Hf. induction l as [|a l IH]; intros b; [apply pending_ret|]. cbn [each]. by apply pending_bind.
Qed.

Lemma pending_command {A} (f : bool -> string -> D -> A * D) :
  (forall b d, committed (f true b d).2 = committed d) -> pending (command f).
Proof.
  intros Hf s Hs. unfold command. rewrite Hs. specialize (Hf (Database (settings s)) (db s)).
  destruct (f true _ _) as [r d]. cbn in *. done.
Qed.

Lemma pending_cell r i : pending (cell r i).
Proof. apply pending_bind; [apply pending_object|intros o; apply pending_ret]. Qed.

Lemma pending_set_cell r i v : pending (set_cell r i v).
Proof. apply pending_bind; [apply pending_object|intros o; apply pending_heap]. Qed.

Ltac pending_step :=
  match goal with
  | |- pending (mbind _ _) => apply pending_bind; [|intros ?]
  | |- pending (mret _) => apply pending_ret
  | |- pending get => apply pending_get
  | |- pending (fail _) => apply pending_fail
  | |- pending (lift _) => apply pending_lift
  | |- pending (or_fail _ _) => apply pending_or_fail
  | |- pending (object _) => apply pending_object
  | |- pending (cell _ _) => apply pending_cell
  | |- pending (set_cell _ _ _) => apply pending_set_cell
  | |- pending NextIID => apply pending_next
  | |- pending (set_query _) => apply pending_query
  | |- pending (new_objects _) => apply pending_objects
  | |- pending (each _ _ _) => apply pending_each; intros ??
  | |- pending (command _) => apply pending_command; intros ??; by autorewrite with pending
  | |- pending (fun s => (Ok tt, with_heap s _)) => by intros ?
  | |- pending (match ?x with _ => _ end) => destruct x
  end.
Ltac pend := repeat pending_step.

Lemma pending_registered label t : pending (registered modelDrivers label t).
Proof. unfold registered, sync_table, driver_of. pend. Qed.

Lemma pending_first data : pending (first_table data).
Proof. unfold first_table. pend. Qed.

Lemma pending_size {A} label (data : list A) : pending (write_size label data).
Proof. unfold write_size. pend. Qed.

Lemma pending_id obv r : pending (mongo_id null_oid obv r).
Proof. unfold mongo_id. pend. Qed.

Lemma pending_filter : pending filter_of.
Proof. unfold filter_of. pend. Qed.

Lemma pending_model msg : pending (model_of msg).
Proof. unfold model_of. pend. Qed.

#[local] Hint Resolve pending_registered pending_first pending_size pending_id pending_filter pending_model : core.

Ltac pend ::= repeat (pending_step || solve [auto]).

Lemma pending_Count : pending Count.
Proof. unfold Count, set_totals. pend. Qed.

Lemma pending_FindOne data : pending (FindOne data).
Proof.
  unfold FindOne. pend. apply pending_command. intros b d.
  pose proof (find_one_pending b (o_table a) a0 (buildQueryOneOptions (cnd a1)) a d) as E.
  destruct (m_find_one true _ _ _ _ _ d) as [[r o] d']. exact E.
Qed.

#[local] Hint Resolve pending_Count : core.

Lemma pending_call o : pending (call o).
Proof.
  destruct o; cbn [call]; unfold on_condition.
  - unfold Save, next_id. pend.
  - unfold Update, need_id. pend.
  - unfold Delete, delete_id, need_id. pend.
  - unfold DeleteById. pend.
  - unfold UpdateByCnd, some_hit. pend.
  - unfold DeleteByCnd, some_hit. pend.
  - pend.
  - unfold Exists. pend.
  - pend. apply pending_FindOne.
  - unfold FindList, counted. pend.
Qed.

Lemma pending_calls os : pending (calls os).
Proof. unfold calls. pend. apply pending_call. Qed.
End Transactions.


(** ** Writes by condition *)

(** The value that a list of assignments gives to a field. *)
Definition assigned (k : string) (l : list (string * value)) : option value := snd <$> List.find (fun p => String.eqb p.1 k) l.

(** A name that is not a path into a document or an operator. *)
Definition plain_name (k : string) : bool := field_name k && (index_byte "."%char k <? 0).

(** [docs] are the documents of a collection, as a client in or out of a session
    sees them.  An update makes of a selected document [apply_update], and counts it
    when that is another document; a [$set] document gives its fields their values. *)
Class documents (D Doc : Type) `{mongo_database D} `{mongo_server Doc} := {
  docs : bool -> string -> string -> D -> list Doc;
  apply_update : doc -> Doc -> Doc;
  altered : doc -> Doc -> bool;
  field : string -> Doc -> option value;
  altered_iff : forall u x, altered u x = false <-> apply_update u x = x;
  update_sets : forall l k x, NoDup (map fst l) -> forallb plain_name (k :: map fst l) = true ->
    field k (apply_update [("$set", BDoc (map (fun p => (p.1, BV p.2)) l))] x) =
    match assigned k l with Some v => Some v | None => field k x end;
  delete_selected : forall tx b t f d n d', m_delete tx b t f d = (Ok n, d') ->
    docs tx b t d' = List.filter (fun x => negb (selects f x)) (docs tx b t d) /\
    n = Z.of_nat (length (List.filter (selects f) (docs tx b t d)));
  delete_elsewhere : forall tx b t f d b' t', (b', t') <> (b, t) -> docs tx b' t' (m_delete tx b t f d).2 = docs tx b' t' d;
  update_selected : forall tx b t f u d n d', m_update tx b t f u d = (Ok n, d') ->
    docs tx b t d' = map (fun x => if selects f x then apply_update u x else x) (docs tx b t d) /\
    n = Z.of_nat (length (List.filter (fun x => selects f x && altered u x) (docs tx b t d)));
  update_elsewhere : forall tx b t f u d b' t', (b', t') <> (b, t) -> docs tx b' t' (m_update tx b t f u d).2 = docs tx b' t' d;
  count_selected : forall tx b t f d n d', m_count tx b t f d = (Ok n, d') ->
    n = Z.of_nat (length (List.filter (selects f) (docs tx b t d)))
}.

Section ByCondition.
Context {D Doc : Type} `{documents D Doc}.

(** The documents of a collection of the manager's database. *)
Definition collection (s : state D) (t : string) : list Doc := docs (Tx s) (Database (settings s)) t (db s).

Definition wanted (s : state D) (d : Doc) : bool := satisfies d (VCnd (cnd s)).

Lemma command_ok {A} (f : bool -> string -> D -> A * D) s a s' :
  command f s = (Ok a, s') -> exists d, f (Tx s) (Database (settings s)) (db s) = (a, d) /\ s' = with_db s d.
Proof. unfold command. destruct (f _ _ _) as [b d]. intros [= -> <-]. by exists d. Qed.

Lemma model_of_ok msg (s : state D) t s' : model_of msg s = (Ok t, s') -> Model (cnd s) = Some t /\ s' = s.
Proof. unfold model_of. intros (? & ? & [-> ->]%get_ok & Hm)%bind_ok. case_match; [|done]. by apply ret_ok in Hm as [-> ->]. Qed.

Lemma filter_of_ok (s : state D) f s' : filter_of s = (Ok f, s') -> buildMongoMatch (cnd s) = Ok f /\ s' = s.
Proof. unfold filter_of. intros (? & ? & [-> ->]%get_ok & Hm)%bind_ok. by apply lift_ok in Hm. Qed.

Lemma some_hit_ok msg n m (s s' : state D) : some_hit msg n s = (Ok m, s') -> m = n /\ n <> 0 /\ s' = s.
Proof. unfold some_hit. destruct (n =? 0) eqn:E; [done|]. z_bools. by intros [-> ->]%ret_ok. Qed.

Lemma DeleteByCnd_ok (s s' : state D) n :
  DeleteByCnd s = (Ok n, s') ->
  exists t f d, Model (cnd s) = Some t /\ buildMongoMatch (cnd s) = Ok f /\ f <> [] /\ n <> 0 /\
    m_delete (Tx s) (Database (settings s)) t f (db s) = (Ok n, d) /\ s' = with_db s d.
Proof.
  intros (t & ? & [Ht ->]%model_of_ok & Hr)%bind_ok. apply bind_ok in Hr as (f & ? & [Hf ->]%filter_of_ok & Hr).
  destruct f as [|e f]; [done|]. apply bind_ok in Hr as (res & ? & (d & Hd & ->)%command_ok & Hr).
  apply bind_ok in Hr as (m & ? & [-> ->]%or_fail_ok & (-> & Hn & ->)%some_hit_ok). by exists t, (e :: f), d.
Qed.

Lemma UpdateByCnd_ok (s s' : state D) n :
  UpdateByCnd s = (Ok n, s') ->
  exists t f u d, Model (cnd s) = Some t /\ buildMongoMatch (cnd s) = Ok f /\ f <> [] /\ buildMongoUpset (cnd s) = Some u /\ n <> 0 /\
    m_update (Tx s) (Database (settings s)) t f u (db s) = (Ok n, d) /\ s' = with_db s d.
Proof.
  intros (t & ? & [Ht ->]%model_of_ok & Hr)%bind_ok. apply bind_ok in Hr as (f & ? & [Hf ->]%filter_of_ok & Hr).
  apply bind_ok in Hr as (? & ? & [-> ->]%get_ok & Hr).
  destruct f as [|e f]; [done|]. destruct (buildMongoUpset (cnd s)) as [u|] eqn:Eu; [|done].
  apply bind_ok in Hr as (res & ? & (d & Hd & ->)%command_ok & Hr).
  apply bind_ok in Hr as (m & ? & [-> ->]%or_fail_ok & (-> & Hn & ->)%some_hit_ok). by exists t, (e :: f), u, d.
Qed.

Lemma Count_ok (s s' : state D) n :
  Count s = (Ok n, s') ->
  exists t f, Model (cnd s) = Some t /\ buildMongoMatch (cnd s) = Ok f /\
    (f = [] \/ exists d, m_count (Tx s) (Database (settings s)) t f (db s) = (Ok n, d)).
Proof.
  intros (t & ? & [Ht ->]%model_of_ok & Hr)%bind_ok. apply bind_ok in Hr as (f & ? & [Hf ->]%filter_of_ok & Hr).
  exists t, f. split_and!; [done|done|]. destruct f as [|e f]; [by left|right].
  apply bind_ok in Hr as (res & ? & (d & Hd & ->)%command_ok & Hr). exists d.
  apply bind_ok in Hr as (m & ? & [-> ->]%or_fail_ok & Hr). apply bind_ok in Hr as (? & ? & [-> ->]%get_ok & Hr).
  apply bind_ok in Hr as (? & ? & _ & Hr). by apply bind_ok in Hr as (? & ? & _ & [-> _]%ret_ok).
Qed.

(** What an update assigns: the upsets, without those of the identifier. *)
Definition assignments (c : Cnd) : list (string * value) :=
  List.filter (fun p => negb (String.eqb p.1 JID || String.eqb p.1 BID)) (Upsets c).

Lemma filter_NoDup_fst {A} (p : string * A -> bool) l : NoDup (map fst l) -> NoDup (map fst (List.filter p l)).
Proof.
  induction l as [|x l IH]; cbn [map List.filter]; [done|]. intros [Hx Hl]%NoDup_cons. destruct (p x); [|by apply IH].
  cbn [map]. apply NoDup_cons. split; [|by apply IH]. intros Hin. apply Hx.
  apply list_elem_of_In in Hin. apply list_elem_of_In. apply in_map_iff in Hin as (y & E & Hy). apply in_map_iff. exists y.
  split; [done|]. by apply filter_In in Hy as [??].
Qed.

Lemma upset_sets c u k (x : Doc) :
  buildMongoUpset c = Some u -> NoDup (map fst (Upsets c)) -> forallb plain_name (k :: map fst (assignments c)) = true ->
  field k (apply_update u x) = match assigned k (assignments c) with Some v => Some v | None => field k x end.
Proof.
  unfold buildMongoUpset. fold (assignments c). intros Hu Hn Hp. destruct (assignments c) as [|p l] eqn:E; [done|].
  injection Hu as <-. apply (update_sets (p :: l)); [|done]. rewrite <- E. by apply filter_NoDup_fst.
Qed.

(** C14: Writes by condition hit what the conditions say, and nothing else.  When
    [DeleteByCnd] succeeds on a well-formed condition object, exactly the documents
    of the model's collection that satisfy the conditions that count are gone, there
    was one, and their number is returned.  When [UpdateByCnd] succeeds, exactly those
    documents are updated with the [$set] document of the upsets, which gives every
    field the value it is assigned and leaves the others; the number returned is that
    of the documents that this changed, and there was one.  Neither touches another
    collection.  [Count] is the number of the documents that satisfy the conditions,
    unless no condition counts. *)
Theorem writes_by_condition (s s' : state D) t n :
  well_formed (VCnd (cnd s)) = true -> Model (cnd s) = Some t ->
  (DeleteByCnd s = (Ok n, s') ->
     collection s' t = List.filter (fun d => negb (wanted s d)) (collection s t) /\
     n = Z.of_nat (length (List.filter (wanted s) (collection s t))) /\ n <> 0 /\
     forall t', t' <> t -> collection s' t' = collection s t') /\
  (UpdateByCnd s = (Ok n, s') ->
     exists u : Doc -> Doc,
       collection s' t = map (fun d => if wanted s d then u d else d) (collection s t) /\
       (NoDup (map fst (Upsets (cnd s))) -> forall k d, forallb plain_name (k :: map fst (assignments (cnd s))) = true ->
          field k (u d) = match assigned k (assignments (cnd s)) with Some v => Some v | None => field k d end) /\
       (exists changed : Doc -> bool, (forall d, changed d = false <-> u d = d) /\
          n = Z.of_nat (length (List.filter (fun d => wanted s d && changed d) (collection s t)))) /\ n <> 0 /\
       forall t', t' <> t -> collection s' t' = collection s t') /\
  (Count s = (Ok n, s') ->
     n = Z.of_nat (length (List.filter (wanted s) (collection s t))) \/ buildMongoMatch (cnd s) = Ok []).
Proof.
  intros Hw Ht. destruct (filter_faithful (VCnd (cnd s)) (cnd s) eq_refl Hw) as (f & Ef & Hf).
  split_and!.
  - intros (t0 & f0 & d & E1 & E2 & _ & Hn & Hd & ->)%DeleteByCnd_ok. rewrite Ht in E1. rewrite Ef in E2. injection E1 as <-. injection E2 as <-.
    destruct (delete_selected _ _ _ _ _ _ _ Hd) as [Hl ->].
    unfold collection, wanted. cbn [with_db db Tx settings]. split_and!; [| |done|].
    + rewrite Hl. apply List.filter_ext. intros x. by rewrite Hf.
    + do 2 f_equal. apply List.filter_ext, Hf.
    + intros t' Hne. pose proof (delete_elsewhere (Tx s) (Database (settings s)) t f (db s) (Database (settings s)) t') as He.
      rewrite Hd in He. apply He. congruence.
  - intros (t0 & f0 & u & d & E1 & E2 & _ & Hu & Hn & Hd & ->)%UpdateByCnd_ok. rewrite Ht in E1. rewrite Ef in E2. injection E1 as <-. injection E2 as <-.
    destruct (update_selected _ _ _ _ _ _ _ _ Hd) as [Hl ->]. exists (apply_update u).
    unfold collection, wanted. cbn [with_db db Tx settings]. split_and!; [| | |done|].
    + rewrite Hl. apply map_ext. intros x. by rewrite Hf.
    + intros Hnd k x Hk. by apply upset_sets.
    + exists (altered u). split; [apply altered_iff|]. do 2 f_equal. apply List.filter_ext. intros x. by rewrite Hf.
    + intros t' Hne. pose proof (update_elsewhere (Tx s) (Database (settings s)) t f u (db s) (Database (settings s)) t') as He.
      rewrite Hd in He. apply He. congruence.
  - intros (t0 & f0 & E1 & E2 & Hc)%Count_ok. rewrite Ht in E1. rewrite Ef in E2. injection E1 as <-. injection E2 as <-. destruct Hc as [->|[d Hd]]; [by right|left].
    rewrite (count_selected _ _ _ _ _ _ _ Hd). do 2 f_equal. apply List.filter_ext, Hf.
Qed.
End ByCondition.

(** ** Fast paging *)

(** The first page, or the page after or before a document. *)
Inductive fast := First | After (id : Z) | Before (id : Z).

Definition prev_id (p : fast) : Z := match p with Before id => id | _ => 0 end.
Definition last_id (p : fast) : Z := match p with After id => id | _ => 0 end.
Definition fast_id (p : fast) : Z := prev_id p + last_id p.

(** A page before goes against the order of the list. *)
Definition ascending (p : fast) (sort : Z) : bool :=
  match p with Before _ => negb (sort =? ASC_) | _ => sort =? ASC_ end.

Definition fast_conditions (p : fast) (key : string) (sort : Z) : list (Condition value) :=
  match p with
  | First => []
  | _ => [mk_condition (if ascending p sort then GT_ else LT_) key (VInt (fast_id p)) [] ""]
  end.

Definition beyond {Doc} `{mongo_server Doc} (p : fast) (key : string) (sort : Z) (d : Doc) : bool :=
  match p with
  | First => true
  | _ => compares (if ascending p sort then CGt else CLt) (getKey key) (VInt (fast_id p)) d
  end.

Lemma page_size_idem n : page_size (page_size n) = page_size n.
Proof.
  pose proof (page_size_range n). unfold page_size at 1. destruct (page_size n <=? 0) eqn:E, (5000 <? page_size n) eqn:E2; z_bools; cbn; lia.
Qed.

Lemma fast_page_built c key sort p size countQ c1 :
  (sort = ASC_ \/ sort = DESC_) -> (p = First \/ 0 < fast_id p) ->
  FastPage c key sort (prev_id p) (last_id p) size countQ = Ok c1 ->
  exists c2, fast_page c1 = Ok c2 /\
    Conditions c2 = (Conditions c ++ fast_conditions p key sort)%list /\ Model c2 = Model c /\
    LimitSize c2 = page_size size /\
    (exists rest, buildMongoSortBy c2 = mk_sort (getKey key) (if ascending p sort then 1 else -1) :: rest) /\
    IsPage (Pagination c2) = false.
Proof.
  unfold FastPage. intros Hs Hp. case_match; [done|]. intros [= <-]. unfold fast_page.
  destruct p as [|id|id].
  2-3: destruct Hp as [?|Hid]; [done|]; assert (0 < id) by (unfold fast_id, prev_id, last_id in Hid; lia).
  all: destruct Hs as [->| ->]; unfold fast_param, fast_bound; cbn [Pagination set_pagination FastPageKey FastPageSort FastPageParam
         prev_id last_id lookup list_lookup bind_outcome].
  3-6: rewrite (proj2 (Z.ltb_lt 0 id)), (proj2 (Z.eqb_neq id 0)) by lia.
  all: eexists; split; [reflexivity|]; cbn -[fast_id page_size]; rewrite ?app_nil_r, ?page_size_idem.
  all: unfold fast_id, prev_id, last_id; rewrite ?Z.add_0_r, ?Z.add_0_l.
  all: split_and!; try done; by eexists.
Qed.

Lemma effective_snoc {A} (slot : A -> option string) l x k :
  slot x = Some k -> (forall y, List.In y l -> slot y <> Some k) -> effective slot (l ++ [x]) = (effective slot l ++ [x])%list.
Proof.
  intros Hx. induction l as [|y l IH]; intros Hl; cbn [app effective]; [by rewrite Hx|].
  rewrite IH by (intros z Hz; apply Hl; by right). destruct (slot y) as [ky|] eqn:Ey; [|done].
  rewrite existsb_app. cbn [existsb]. rewrite (bool_decide_eq_false_2 (slot x = Some ky)), !orb_false_r; [by case_match|].
  intros E. apply (Hl y); [by left|]. congruence.
Qed.

Lemma satisfies_snoc `{mongo_server Doc} d c c' x k :
  Conditions c' = (Conditions c ++ [x])%list -> slot x = Some k -> (forall y, List.In y (Conditions c) -> slot y <> Some k) ->
  satisfies d (VCnd c') = satisfies d (VCnd c) && condition_holds (satisfies d) d x.
Proof.
  intros E Hx Hl. cbn [satisfies]. rewrite E, map_app. cbn [map].
  rewrite (effective_snoc _ _ _ k); [|done|].
  - rewrite forallb_app. cbn [forallb snd]. by rewrite andb_true_r.
  - intros [y b] (z & [= <- _] & Hz)%in_map_iff. by apply Hl.
Qed.

Lemma fast_satisfies `{mongo_server Doc} c c2 p key sort d :
  Conditions c2 = (Conditions c ++ fast_conditions p key sort)%list ->
  (forall k, List.In k (Conditions c) -> slot k <> Some (getKey key)) ->
  satisfies d (VCnd c2) = satisfies d (VCnd c) && beyond p key sort d.
Proof.
  intros E Hk. destruct p as [|id|id]; cbn [fast_conditions beyond] in *.
  1: rewrite app_nil_r in E; cbn [satisfies]; by rewrite E, andb_true_r.
  all: rewrite (satisfies_snoc d c c2 _ (getKey key) E); [by destruct (ascending _ sort)|by destruct (ascending _ sort)|done].
Qed.

Lemma fast_formed c c2 p key sort :
  Conditions c2 = (Conditions c ++ fast_conditions p key sort)%list -> well_formed (VCnd c) = true -> field_name (getKey key) = true ->
  well_formed (VCnd c2) = true.
Proof.
  intros E Hw Hk. cbn [well_formed] in *. rewrite E, forallb_app, Hw.
  destruct p; cbn [fast_conditions]; [done|destruct (ascending _ sort)..]; cbn [forallb]; unfold condition_formed; cbn [Logic Key];
    by rewrite Hk.
Qed.

Lemma FindList_fast `{mongo_database D} (s s' : state D) c2 l :
  IsFastPage (Pagination (cnd s)) = true -> FastPageSortCountQ (Pagination (cnd s)) = false ->
  fast_page (cnd s) = Ok c2 -> IsPage (Pagination c2) = false ->
  FindList true s = (Ok l, s') ->
  exists t f out, Model (cnd s) = Some t /\ buildMongoMatch c2 = Ok f /\
    m_find (Tx s) (Database (settings s)) t f (buildQueryOptions c2) (db s) = (Ok (Ok out), db s') /\
    heap s' = (heap s ++ out)%list /\ length l = length out.
Proof.
  intros Hf Hq Hc Hp. unfold FindList. cbn [negb]. intros (t & ? & [Ht ->]%model_of_ok & Hr)%bind_ok.
  apply bind_ok in Hr as (? & ? & [-> ->]%get_ok & Hr). rewrite Hf, Hq in Hr.
  apply bind_ok in Hr as ([] & s1 & H1 & Hr).
  apply bind_ok in H1 as ([] & ? & [_ ->]%ret_ok & H1). apply bind_ok in H1 as (? & ? & [-> ->]%get_ok & H1).
  rewrite Hc in H1. apply bind_ok in H1 as (? & ? & [[= <-] ->]%lift_ok & H1). injection H1 as <-.
  apply bind_ok in Hr as (? & ? & [-> ->]%get_ok & Hr). cbn [cnd with_cnd] in Hr. rewrite Hp, andb_false_r in Hr.
  apply bind_ok in Hr as ([] & ? & [_ ->]%ret_ok & Hr). apply bind_ok in Hr as (f & ? & [Ef ->]%filter_of_ok & Hr).
  apply bind_ok in Hr as (? & ? & [-> ->]%get_ok & Hr). apply bind_ok in Hr as (res & ? & (d & Hd & ->)%command_ok & Hr).
  apply bind_ok in Hr as (out & ? & [-> ->]%or_fail_ok & Hr). apply bind_ok in Hr as (out' & ? & [-> ->]%or_fail_ok & Hr).
  injection Hr as <- <-. exists t, f, out'. cbn in *. split_and!; try done. by rewrite length_seq.
Qed.

(** C35: Fast paging asks for the neighbouring page.  The query that [FindList] runs
    after [FastPage] selects the documents that satisfy the conditions and lie on the
    right side of the given one; it sorts them by the key, ascending exactly when the
    page follows in an ascending list or precedes in a descending one; it skips
    nothing, and it asks for as many as the page size allows; what it answers is what
    the caller gets. *)
Theorem fast_page_answers `{Hm : mongo_database D} `{Hs : mongo_server Doc} c key order p size (s s' : state D) t l :
  (order = ASC_ \/ order = DESC_) -> (p = First \/ 0 < fast_id p) ->
  FastPage c key order (prev_id p) (last_id p) size [] = Ok (cnd s) -> Model c = Some t ->
  well_formed (VCnd c) = true -> field_name (getKey key) = true ->
  (forall k, List.In k (Conditions c) -> slot k <> Some (getKey key)) ->
  FindList true s = (Ok l, s') ->
  exists f o out, m_find (Tx s) (Database (settings s)) t f o (db s) = (Ok (Ok out), db s') /\
    heap s' = (heap s ++ out)%list /\ length l = length out /\
    (forall d : Doc, selects f d = satisfies d (VCnd c) && beyond p key order d) /\
    (exists rest, sort o = Some (mk_sort (getKey key) (if ascending p order then 1 else -1) :: rest)) /\
    skip o = None /\ limit o = Some (page_size size).
Proof.
  intros Ho Hp Hc Ht Hw Hk Hn Hf.
  destruct (fast_page_built c key order p size [] _ Ho Hp Hc) as (c2 & E2 & Econd & Emod & Elim & (rest & Esort) & Epage).
  assert (Model (cnd s) = Model c /\ IsFastPage (Pagination (cnd s)) = true /\ FastPageSortCountQ (Pagination (cnd s)) = false)
    as (Em & Efast & Eq) by (unfold FastPage in Hc; destruct (slen key =? 0); [done|]; injection Hc as Ec; by rewrite <- Ec).
  destruct (FindList_fast s s' c2 l Efast Eq E2 Epage Hf) as (t' & f & out & Et & Ef & Hfind & Hheap & Hlen).
  destruct (filter_faithful (VCnd c2) c2 eq_refl (fast_formed c c2 p key order Econd Hw Hk)) as (f' & Ef' & Hsel).
  rewrite Ef in Ef'. injection Ef' as <-. rewrite Em, Ht in Et. injection Et as <-.
  exists f, (buildQueryOptions c2), out. split_and!; [exact Hfind|exact Hheap|exact Hlen| | | |].
  - intros d. rewrite Hsel. by apply fast_satisfies.
  - exists rest. unfold buildQueryOptions, buildQueryOneOptions. by rewrite Esort, (surjective_pairing (buildMongoLimit c2)).
  - unfold buildQueryOptions, buildMongoLimit. rewrite Elim. pose proof (page_size_range size).
    by rewrite (proj2 (Z.ltb_lt 0 (page_size size))) by lia.
  - unfold buildQueryOptions, buildMongoLimit. rewrite Elim. pose proof (page_size_range size).
    rewrite (proj2 (Z.ltb_lt 0 (page_size size))) by lia. cbn [limit]. by rewrite (proj2 (Z.ltb_lt 0 (page_size size))) by lia.
Qed.
