(* ===== verification/MongoStore.v ===== *)
(** * A small document store

    An executable driver for the Mongo manager: documents are lists of fields, a
    transaction works on a copy that a commit makes visible.  Projections and sort
    orders are left out.  It satisfies the laws of [MongoProofs], whose theorems are
    applied to it here. *)

From S2P Require Import Prelude GoStrings GoTime TimeUtils Sqlc Model SqlBuilder RdbManager MongoQuery MongoSpec MongoManager MongoProofs.

#[local] Open Scope string_scope.
#[local] Open Scope Z_scope.

(** A document, under the names of its database and its collection. *)
Definition stored_doc : Type := (string * string) * flat.

Record store := mk_store { live : list stored_doc; work : option (list stored_doc) }.

Definition visible (tx : bool) (d : store) : option (list stored_doc) := if tx then work d else Some (live d).
Definition put_visible (tx : bool) (l : list stored_doc) (d : store) : store :=
  if tx then mk_store (live d) (Some l) else mk_store l (work d).

(** A command on the documents that can be seen. *)
Definition on_visible {A} (tx : bool) (f : list stored_doc -> A * list stored_doc) (d : store) : outcome string A * store :=
  match visible tx d with
  | None => (Err "no transaction", d)
  | Some l => let '(a, l') := f l in (Ok a, put_visible tx l' d)
  end.

Definition inside (b t : string) (r : stored_doc) : bool := String.eqb r.1.1 b && String.eqb r.1.2 t.
Definition hit (b t : string) (f : doc) (r : stored_doc) : bool := inside b t r && flat_selects f r.2.
Definition hits (b t : string) (f : doc) (l : list stored_doc) : Z := Z.of_nat (length (List.filter (hit b t f) l)).

Definition names : list string := ["_id"; "name"; "age"].
Definition flat_of (o : Object) : flat := zip names (o_cells o).
Definition object_of (t : string) (r : stored_doc) : Object := mk_object t (map (fun n => field_of n r.2) names).

(** [d[k] = v], in the place of the field or behind the others. *)
Definition flat_set (k : string) (v : value) (d : flat) : flat :=
  if existsb (fun p => String.eqb p.1 k) d then map (fun p => if String.eqb p.1 k then (k, v) else p) d
  else (d ++ [(k, v)])%list.

Definition set_flat (upset : doc) (d : flat) : flat :=
  match upset with
  | [("$set", BDoc l)] => foldl (fun d p => flat_set p.1 (value_of p.2) d) d l
  | _ => d
  end.

Definition set_alters (upset : doc) (d : flat) : bool := negb (bool_decide (set_flat upset d = d)).
Definition alterations (b t : string) (f u : doc) (l : list stored_doc) : Z :=
  Z.of_nat (length (List.filter (fun r => hit b t f r && set_alters u r.2) l)).

#[export] Instance store_database : mongo_database store := {
  m_insert tx b t os := on_visible tx (fun l => (length os, (l ++ map (fun o => ((b, t), flat_of o)) os)%list));
  m_replace tx b t f o := on_visible tx (fun l => (hits b t f l, map (fun r => if hit b t f r then (r.1, flat_of o) else r) l));
  m_update tx b t f u := on_visible tx (fun l => (alterations b t f u l, map (fun r => if hit b t f r then (r.1, set_flat u r.2) else r) l));
  m_delete tx b t f := on_visible tx (fun l => (hits b t f l, List.filter (fun r => negb (hit b t f r)) l));
  m_count tx b t f := on_visible tx (fun l => (hits b t f l, l));
  m_estimate tx b t := on_visible tx (fun l => (Z.of_nat (length (List.filter (inside b t) l)), l));
  m_find_one tx b t f _ o d :=
    let '(r, d') := on_visible tx (fun l => (List.find (hit b t f) l, l)) d in
    match r with
    | Ok (Some x) => (Ok true, object_of t x, d')
    | Ok None => (Ok false, o, d')
    | Err e => (Err e, o, d')
    | Panic w => (Panic w, o, d')
    end;
  m_find tx b t f p := on_visible tx (fun l =>
    (Ok (map (object_of t) (take (Z.to_nat (default 1000 (limit p))) (drop (Z.to_nat (default 0 (skip p))) (List.filter (hit b t f) l)))), l));
  m_session d := (None, d);
  m_end_session d := mk_store (live d) None;
  m_start d := (None, mk_store (live d) (Some (live d)));
  m_commit d := match work d with Some l => (None, mk_store l None) | None => (Some "no transaction", d) end;
  m_abort d := (None, mk_store (live d) None)
}.

Lemma on_visible_live {A} (f : list stored_doc -> A * list stored_doc) d : live (on_visible true f d).2 = live d.
Proof. unfold on_visible. destruct (visible true d); [|done]. by destruct (f l). Qed.

#[export] Program Instance store_transactions : transactions store (list stored_doc) := {| committed := live |}.
Solve All Obligations with (intros; cbn [m_insert m_replace m_update m_delete m_count m_estimate m_find store_database]; apply on_visible_live).
Next Obligation.
  intros. cbn. rewrite <- (on_visible_live (fun l => (List.find (hit b t f) l, l)) d).
  destruct (on_visible true _ d) as [[[x|]| |] d']; done.
Qed.
Solve All Obligations with done.

(** ** The documents of a collection *)

Definition store_docs (tx : bool) (b t : string) (d : store) : list flat :=
  map snd (List.filter (inside b t) (default [] (visible tx d))).

Lemma visible_put tx l d : visible tx (put_visible tx l d) = Some l.
Proof. by destruct tx. Qed.

Lemma on_visible_docs {A} tx b t (f : list stored_doc -> A * list stored_doc) d a d' :
  on_visible tx f d = (Ok a, d') ->
  exists l, visible tx d = Some l /\ a = (f l).1 /\ store_docs tx b t d' = map snd (List.filter (inside b t) (f l).2).
Proof.
  unfold on_visible. destruct (visible tx d) as [l|]; [|done]. destruct (f l) as [x l'] eqn:E. intros [= <- <-].
  exists l. rewrite E. split_and!; [done|done|]. unfold store_docs. by rewrite visible_put.
Qed.

Lemma selected_docs b t f l : 
  map snd (List.filter (fun r => inside b t r && flat_selects f r.2) l) =
  List.filter (flat_selects f) (map snd (List.filter (inside b t) l)).
Proof.
  induction l as [|r l IH]; [done|]. cbn [List.filter]. destruct (inside b t r); cbn [andb]; [|exact IH].
  cbn [map List.filter]. destruct (flat_selects f r.2); cbn [map]; by rewrite IH.
Qed.

Lemma kept_docs b t f l : 
  map snd (List.filter (inside b t) (List.filter (fun r => negb (hit b t f r)) l)) =
  List.filter (fun x => negb (flat_selects f x)) (map snd (List.filter (inside b t) l)).
Proof.
  unfold hit. induction l as [|r l IH]; [done|]. cbn [List.filter]. destruct (inside b t r) eqn:E; cbn [andb negb].
  - cbn [map List.filter]. destruct (flat_selects f r.2); cbn [negb List.filter]; [exact IH|]. rewrite E. cbn [map]. by rewrite IH.
  - cbn [List.filter]. by rewrite E, IH.
Qed.

Lemma hits_docs b t f l : hits b t f l = Z.of_nat (length (List.filter (flat_selects f) (map snd (List.filter (inside b t) l)))).
Proof. unfold hits, hit. by rewrite <- selected_docs, length_map. Qed.

Lemma other_inside b t b' t' r : (b', t') <> (b, t) -> inside b' t' r = true -> inside b t r = false.
Proof.
  unfold inside. intros Hne [<-%String.eqb_eq <-%String.eqb_eq]%andb_prop. apply not_true_iff_false.
  intros [E1%String.eqb_eq E2%String.eqb_eq]%andb_prop. apply Hne. by rewrite E1, E2.
Qed.

(** A command that leaves the documents of other collections alone. *)
Lemma elsewhere {A} tx b' t' (f : list stored_doc -> A * list stored_doc) d :
  (forall l, List.filter (inside b' t') (f l).2 = List.filter (inside b' t') l) ->
  store_docs tx b' t' (on_visible tx f d).2 = store_docs tx b' t' d.
Proof.
  intros Hf. unfold on_visible, store_docs. destruct (visible tx d) as [l|] eqn:E; [|cbn; by rewrite E].
  specialize (Hf l). destruct (f l) as [a l']. cbn in *. by rewrite visible_put, <- Hf.
Qed.

(** *** Setting fields *)

Definition flat_field (k : string) (d : flat) : option value := assigned k d.

Lemma assigned_app k l l' : assigned k (l ++ l') = match assigned k l with Some v => Some v | None => assigned k l' end.
Proof. unfold assigned. induction l as [|p l IH]; [done|]. cbn. by destruct (String.eqb p.1 k). Qed.

Lemma assigned_none k l : existsb (fun p : string * value => String.eqb p.1 k) l = false -> assigned k l = None.
Proof. unfold assigned. induction l as [|p l IH]; [done|]. cbn. by destruct (String.eqb p.1 k). Qed.

Lemma assigned_replace k k' v l :
  assigned k (map (fun p => if String.eqb p.1 k' then (k', v) else p) l) =
  if String.eqb k' k then (if existsb (fun p => String.eqb p.1 k') l then Some v else None) else assigned k l.
Proof.
  unfold assigned. induction l as [|p l IH]; cbn [map List.find existsb fmap option_fmap option_map]; [by destruct (String.eqb k' k)|].
  destruct (String.eqb p.1 k') eqn:E; cbn [fst orb].
  - apply String.eqb_eq in E. rewrite E. destruct (String.eqb k' k) eqn:Ek; [done|]. rewrite IH. by rewrite ?Ek.
  - destruct (String.eqb k' k) eqn:Ek; [|destruct (String.eqb p.1 k); [done|exact IH]].
    apply String.eqb_eq in Ek. subst k'. rewrite E. exact IH.
Qed.

Lemma flat_set_field k k' v d : flat_field k (flat_set k' v d) = if String.eqb k' k then Some v else flat_field k d.
Proof.
  unfold flat_field, flat_set. destruct (existsb _ d) eqn:E.
  - rewrite assigned_replace, E. done.
  - rewrite assigned_app. destruct (String.eqb k' k) eqn:Ek.
    + apply String.eqb_eq in Ek. subst k'. rewrite (assigned_none k d E). unfold assigned. cbn. by rewrite String.eqb_refl.
    + destruct (assigned k d); [done|]. unfold assigned. cbn. by rewrite Ek.
Qed.

Lemma set_flat_field l k d :
  NoDup (map fst l) ->
  flat_field k (foldl (fun d p => flat_set p.1 (value_of p.2) d) d (map (fun p => (p.1, BV p.2)) l)) =
  match assigned k l with Some v => Some v | None => flat_field k d end.
Proof.
  revert d. induction l as [|p l IH]; intros d Hn; [done|]. cbn [map foldl fst snd value_of] in *. apply NoDup_cons in Hn as [Hp Hn].
  rewrite IH by done. rewrite flat_set_field. unfold assigned at 2. cbn [List.find]. destruct (String.eqb p.1 k) eqn:E; [|done].
  apply String.eqb_eq in E. subst k. rewrite assigned_none; [done|]. apply not_true_iff_false. intros (q & Hq & Eq)%existsb_exists.
  apply String.eqb_eq in Eq. apply Hp. rewrite <- Eq. apply list_elem_of_In. by apply in_map.
Qed.

#[export] Program Instance store_documents : documents store flat :=
  {| docs := store_docs; apply_update := set_flat; altered := set_alters; field := flat_field |}.
Next Obligation. intros u x. unfold set_alters. rewrite negb_false_iff. apply bool_decide_eq_true. Qed.
Next Obligation. intros l k x Hn _. by apply set_flat_field. Qed.
Next Obligation.
  intros tx b t f d n d' E. destruct (on_visible_docs tx b t _ d n d' E) as (l & Ev & -> & ->). cbn [fst snd].
  unfold store_docs. rewrite Ev. split; [apply kept_docs|apply hits_docs].
Qed.
Next Obligation.
  intros tx b t f d b' t' Hne. apply elsewhere. intros l. cbn [snd].
  induction l as [|r l IH]; [done|]. cbn [List.filter]. destruct (inside b' t' r) eqn:E.
  - unfold hit at 1. rewrite (other_inside b t b' t' r Hne E). cbn [andb negb List.filter]. by rewrite E, IH.
  - destruct (negb (hit b t f r)); cbn [List.filter]; [by rewrite E|done].
Qed.
Next Obligation.
  intros tx b t f u d n d' E. destruct (on_visible_docs tx b t _ d n d' E) as (l & Ev & -> & ->). cbn [fst snd].
  unfold store_docs. rewrite Ev. cbn [default from_option id]. clear Ev E. unfold alterations, hit.
  change (@selects flat flat_server f) with (flat_selects f). induction l as [|r l [IH1 IH2]]; [done|]. cbn [map List.filter]. destruct (inside b t r) eqn:E; cbn [andb].
  - cbn [map List.filter]. destruct (flat_selects f r.2) eqn:Es; cbn [fst andb].
    + change (inside b t (r.1, set_flat u r.2)) with (inside b t r). rewrite E. cbn [map snd]. rewrite IH1. cbn [andb]. split; [done|].
      destruct (set_alters u r.2); cbn [length]; [by rewrite Nat2Z.inj_succ, IH2, <- Nat2Z.inj_succ|exact IH2].
    + rewrite E. cbn [map]. rewrite IH1. cbn [andb]. by rewrite IH2.
  - rewrite E. done.
Qed.
Next Obligation.
  intros tx b t f u d b' t' Hne. apply elsewhere. intros l. cbn [snd].
  induction l as [|r l IH]; [done|]. cbn [List.filter map]. destruct (inside b' t' r) eqn:E.
  - assert (hit b t f r = false) as -> by (unfold hit; by rewrite (other_inside b t b' t' r Hne E)). by rewrite E, IH.
  - destruct (hit b t f r); [change (inside b' t' (r.1, set_flat u r.2)) with (inside b' t' r)|]; rewrite E; exact IH.
Qed.
Next Obligation.
  intros tx b t f d n d' E. destruct (on_visible_docs tx b t _ d n d' E) as (l & Ev & -> & _). cbn [fst].
  unfold store_docs. rewrite Ev. apply hits_docs.
Qed.

(** ** The theorems at work *)

Definition people : list stored_doc :=
  [(("shop", "user"), [("_id", VInt 1); ("name", VStr "ann"); ("age", VInt 30)]);
   (("shop", "user"), [("_id", VInt 2); ("name", VStr "bob"); ("age", VInt 20)]);
   (("shop", "user"), [("_id", VInt 3); ("name", VStr "cyd"); ("age", VInt 40)]);
   (("shop", "item"), [("_id", VInt 1); ("name", VStr "pen"); ("age", VInt 30)])].

Definition at_shop (c : Cnd) (heap : list Object) : state store :=
  mk_state false false false false [] [] heap [11; 12] 0 c (mk_store people None) (mk_settings "master" "shop" 60000).

Definition user_types : drivers :=
  {[ "user" := mk_driver "user" true 0 KInt64 "id" "_id" false "int64" "" ""
       [mk_field true false false false "Id" "id" "_id" KInt64 "int64" "" "" 0] ]}.

Definition shop_sources : gmap string Source := (buildByConfig ∅ [mk_mgo (mk_option "" "shop" false false false 0) "" ["db:27017"] None]).2.

(** A new user, and then a delete that hits nobody: neither is seen. *)
Definition failing_calls : list mongo_call := [CallSave [0%nat]; CallDeleteByCnd (Gt_ (M ["user"]) "age" (VInt 99))].
Definition new_user : Object := mk_object "user" [VInt 0; VStr "dan"; VInt 50].

Definition run_calls (os : list mongo_call) : outcome string unit * state store :=
  UseTransaction shop_sources (calls user_types is_nil VInt os) [] (at_shop (M []) [new_user]).


Definition adults : Cnd := Gte (M ["user"]) "age" (VInt 30).

Definition after_delete : state store := (DeleteByCnd (at_shop adults [])).2.

Definition promoted : Cnd := Upset adults ["name"; "rank"] [VStr "ann"; VInt 1].
Definition after_update : state store := (UpdateByCnd (at_shop promoted [])).2.

(** A document that is selected but stays as it was is not counted. *)
Example unchanged_not_counted :
  UpdateByCnd (at_shop (Upset adults ["name"] [VStr "ann"]) []) =
  (Ok 1, (UpdateByCnd (at_shop (Upset adults ["name"] [VStr "ann"]) [])).2).
Proof. vm_compute. reflexivity. Qed.

Lemma writes_by_condition_witness :
  DeleteByCnd (at_shop adults []) = (Ok 2, after_delete) /\
  collection after_delete "user" = [[("_id", VInt 2); ("name", VStr "bob"); ("age", VInt 20)]] /\
  collection after_delete "user" = List.filter (fun d => negb (wanted (at_shop adults []) d)) (collection (at_shop adults []) "user") /\
  collection after_delete "item" = collection (at_shop adults []) "item" /\
  collection after_update "user" =
    [[("_id", VInt 1); ("name", VStr "ann"); ("age", VInt 30); ("rank", VInt 1)];
     [("_id", VInt 2); ("name", VStr "bob"); ("age", VInt 20)];
     [("_id", VInt 3); ("name", VStr "ann"); ("age", VInt 40); ("rank", VInt 1)]] /\
  exists u : flat -> flat,
    collection after_update "user" = map (fun d => if wanted (at_shop promoted []) d then u d else d) (collection (at_shop promoted []) "user") /\
    forall d, field "rank" (u d) = Some (VInt 1).
Proof.
  assert (DeleteByCnd (at_shop adults []) = (Ok 2, after_delete)) as E by (vm_compute; reflexivity).
  assert (UpdateByCnd (at_shop promoted []) = (Ok 2, after_update)) as E' by (vm_compute; reflexivity).
  destruct (proj1 (writes_by_condition (Doc := flat) (at_shop adults []) after_delete "user" 2 eq_refl eq_refl) E) as (H1 & _ & _ & H2).
  destruct (proj1 (proj2 (writes_by_condition (Doc := flat) (at_shop promoted []) after_update "user" 2 eq_refl eq_refl)) E') as (u & Hu & Hf & _).
  split; [exact E|]. split; [vm_compute; reflexivity|]. split; [exact H1|]. split; [apply H2; discriminate|].
  split; [vm_compute; reflexivity|]. exists u. split; [exact Hu|]. intros d.
  apply (Hf ltac:(apply (bool_decide_unpack _); vm_compute; exact I) "rank" d). vm_compute. reflexivity.
Defined.

(** The page after user 1 of the users in ascending order, two on a page. *)
Definition next_page : Cnd :=
  match FastPage adults "id" ASC_ 0 1 2 [] with Ok c => c | _ => adults end.

Lemma fast_page_answers_witness :
  let s' := (FindList true (at_shop next_page [])).2 in
  heap s' = [mk_object "user" [VInt 3; VStr "cyd"; VInt 40]] /\
  exists f o out, m_find false "shop" "user" f o (db (at_shop next_page [])) = (Ok (Ok out), db s') /\
    heap s' = ([] ++ out)%list /\ length [0%nat] = length out /\
    (forall d : flat, selects f d = satisfies d (VCnd adults) && beyond (After 1) "id" ASC_ d) /\
    (exists rest, sort o = Some (mk_sort "_id" 1 :: rest)) /\ skip o = None /\ limit o = Some 2.
Proof.
  split; [vm_compute; reflexivity|].
  refine (fast_page_answers (Doc := flat) adults "id" ASC_ (After 1) 2 (at_shop next_page []) _ "user" [0%nat]
    (or_introl eq_refl) (or_intror _) eq_refl eq_refl eq_refl eq_refl _ _); [reflexivity| |vm_compute; reflexivity].
  intros k [<-|[]]. discriminate.
Defined.
