(* ===== verification/Crypto.v ===== *)
(** * Hashes, encodings and AES ([src/utils/crypto_aes.go] and the wrappers of
    [src/utils/common.go])

    A byte slice is a string of bytes.  The digests, the block cipher in CBC mode and
    the base-64 codec belong to Go's library: they are the operations of the class
    [crypto_lib], with what their documentation promises in [crypto_laws].  A MAC
    is taken as a function of the text and the key, nothing more. *)

From Stdlib Require Import Ascii.
From S2P Require Import Prelude GoStrings.

#[local] Open Scope string_scope.
#[local] Open Scope Z_scope.

Class crypto_lib := {
  md5_sum : string -> string;
  sha256_mac : string -> string -> string;      (* the text, the key *)
  sha512_mac : string -> string -> string;
  cbc_encrypt : string -> string -> string -> string;   (* key, initial vector, blocks *)
  cbc_decrypt : string -> string -> string -> string;
  b64_encode : string -> string;
  b64_decode : string -> option string
}.

Class crypto_laws (C : crypto_lib) := {
  md5_length : forall s, String.length (md5_sum s) = 16%nat;
  cbc_length : forall k iv p, String.length (cbc_encrypt k iv p) = String.length p;
  cbc_inverse : forall k iv p, (String.length p mod 16 = 0)%nat -> cbc_decrypt k iv (cbc_encrypt k iv p) = p;
  b64_inverse : forall s, b64_decode (b64_encode s) = Some s;
  b64_nonempty : forall s, s <> "" -> b64_encode s <> "";
  b64_no_dot : forall s, all_bytes (not_byte "."%char) (b64_encode s) = true
}.

(** [hex.EncodeToString]. *)
Definition hex_digit (z : Z) : ascii := ascii_of_Z (if z <? 10 then 48 + z else 87 + z).

Fixpoint hex (s : string) : string :=
  match s with
  | "" => ""
  | String c s => String (hex_digit (byte_val c / 16)) (String (hex_digit (byte_val c mod 16)) (hex s))
  end.

Lemma hex_length s : String.length (hex s) = (2 * String.length s)%nat.
Proof. induction s as [|c s IH]; [done|]. cbn [hex String.length]. rewrite IH. lia. Qed.

Section Crypto.
Context `{C : crypto_lib}.

Definition Base64Encode (s : string) : string := if slen s =? 0 then "" else b64_encode s.

(** A nil slice and an empty one are told apart by no caller. *)
Definition Base64Decode (s : string) : string :=
  if slen s =? 0 then "" else match b64_decode s with Some r => r | None => "" end.

Definition MD5 (s : string) : string := hex (md5_sum s).
Definition HMAC_SHA256 (data key : string) (useBase64 : bool) : string :=
  if useBase64 then Base64Encode (sha256_mac data key) else hex (sha256_mac data key).
Definition HMAC_SHA512 (data key : string) (useBase64 : bool) : string :=
  if useBase64 then Base64Encode (sha512_mac data key) else hex (sha512_mac data key).

(** The 16 random bytes of [RandStr2(16)], or [None] when there are none. *)
Definition RandStr2 (r : option string) : string := match r with Some b => hex b | None => "" end.

(** ** AES *)

Definition keyLen32 : Z := 32.
Definition blockSize : nat := 16.

Definition PKCS7Padding (s : string) : string :=
  let padding := (blockSize - String.length s mod blockSize)%nat in
  s +:+ String.string_of_list_ascii (repeat (ascii_of_Z (Z.of_nat padding)) padding).

(** The last byte of a text. *)
Fixpoint last_byte (s : string) : option ascii :=
  match s with
  | "" => None
  | String c "" => Some c
  | String _ s => last_byte s
  end.

(** [None] is a nil slice. *)
Definition PKCS7UnPadding (s : string) : option string :=
  match last_byte s with
  | None => None
  | Some c =>
      let length := slen s in
      if length - byte_val c <=? 0 then None
      else Some (String.substring 0 (Z.to_nat (length - byte_val c)) s)
  end.

Definition GetAesKey (key : string) : string := MD5 key.
Definition GetAesIV {E} (iv : string) : outcome E string := slice (MD5 iv) 0 16.

(** [aes.NewCipher] takes keys of 16, 24 and 32 bytes. *)
Definition new_cipher (key : string) : outcome string unit :=
  if (slen key =? 16) || (slen key =? 24) || (slen key =? 32) then Ok tt else Err "crypto/aes: invalid key size".

(** [CryptBlocks] of a mode takes whole blocks only. *)
Definition crypt_blocks (f : string -> string) (s : string) : outcome string string :=
  if (String.length s mod blockSize =? 0)%nat then Ok (f s) else Panic "crypto/cipher: input not full blocks".

Definition AesEncrypt2 (r : option string) (plantText key : string) : outcome string string :=
  match new_cipher (GetAesKey key) with
  | Ok _ =>
      let iv := RandStr2 r in
      let plantText := PKCS7Padding plantText in
      let* v := GetAesIV iv in
      let* ciphertext := crypt_blocks (cbc_encrypt (GetAesKey key) v) plantText in
      Ok (Base64Encode (iv +:+ ciphertext))
  | _ => Ok ""
  end.

Definition AesDecrypt2 (msg key : string) : outcome string string :=
  let* _ := new_cipher (GetAesKey key) in
  let bs := Base64Decode msg in
  if slen bs <=? keyLen32 then Err "msg bs invalid"
  else
    let* iv := slice bs 0 keyLen32 in
    let* ciphertext := slice bs keyLen32 (slen bs) in
    let* v := GetAesIV iv in
    let* plantText := crypt_blocks (cbc_decrypt (GetAesKey key) v) ciphertext in
    match PKCS7UnPadding plantText with
    | None => Err "unPadding data failed"
    | Some t => Ok t
    end.
End Crypto.

(** ** Lemmas *)

Definition repeat_str (c : ascii) (n : nat) : string := String.string_of_list_ascii (repeat c n).

Lemma repeat_str_length c n : String.length (repeat_str c n) = n.
Proof. unfold repeat_str. induction n as [|n IH]; cbn; [done|]. by rewrite IH. Qed.

Lemma last_byte_cons c s : s <> "" -> last_byte (String c s) = last_byte s.
Proof. by destruct s. Qed.

Lemma last_byte_repeat s c n : last_byte (s +:+ repeat_str c (S n)) = Some c.
Proof.
  induction s as [|d s IH].
  - induction n as [|n IH]; [done|]. change (last_byte (String c (repeat_str c (S n))) = Some c). by rewrite last_byte_cons.
  - change (last_byte (String d (s +:+ repeat_str c (S n))) = Some c). rewrite last_byte_cons; [done|]. by destruct s.
Qed.

Section Laws.
Context `{C : crypto_lib} {L : crypto_laws C}.

Lemma new_cipher_ok key : new_cipher (GetAesKey key) = Ok tt.
Proof.
  unfold new_cipher, GetAesKey, MD5, slen. rewrite hex_length, md5_length. done.
Qed.

Lemma GetAesIV_ok {E} iv : exists v, GetAesIV (E := E) iv = Ok v.
Proof.
  unfold GetAesIV, slice, MD5. unfold slen at 1. rewrite hex_length, md5_length. cbn. by eexists.
Qed.

Lemma padding_range s : (1 <= blockSize - String.length s mod blockSize <= 16)%nat.
Proof. unfold blockSize. pose proof (Nat.mod_upper_bound (String.length s) 16). lia. Qed.

Lemma padded_length s : (String.length (PKCS7Padding s) mod 16 = 0)%nat.
Proof.
  unfold PKCS7Padding. fold (repeat_str (ascii_of_Z (Z.of_nat (blockSize - String.length s mod blockSize)%nat)) (blockSize - String.length s mod blockSize)).
  rewrite length_app_str, repeat_str_length. unfold blockSize.
  pose proof (Nat.div_mod_eq (String.length s) 16) as Hd. pose proof (Nat.mod_upper_bound (String.length s) 16 ltac:(lia)).
  replace (String.length s + (16 - String.length s mod 16))%nat with ((String.length s / 16 + 1) * 16)%nat by lia.
  apply Nat.Div0.mod_mul.
Qed.

(** Padding is taken off again, except when the text is empty. *)
Lemma unpad_pad s : PKCS7UnPadding (PKCS7Padding s) = if slen s =? 0 then None else Some s.
Proof.
  pose proof (padding_range s) as Hr. unfold PKCS7Padding.
  set (n := (blockSize - String.length s mod blockSize)%nat) in *.
  fold (repeat_str (ascii_of_Z (Z.of_nat n)) n).
  destruct n as [|m] eqn:En; [lia|]. unfold PKCS7UnPadding. rewrite last_byte_repeat, byte_val_ascii by lia.
  rewrite slen_app.
  replace (slen (repeat_str (ascii_of_Z (Z.of_nat (S m))) (S m))) with (Z.of_nat (S m)) by (unfold slen; by rewrite repeat_str_length).
  replace (slen s + Z.of_nat (S m) - Z.of_nat (S m)) with (slen s) by lia.
  assert (0 <= slen s) by (unfold slen; lia).
  destruct (Z.eqb_spec (slen s) 0) as [->|Hne]; [done|]. replace (slen s <=? 0) with false by (symmetry; apply Z.leb_gt; lia).
  f_equal. unfold slen. rewrite Nat2Z.id. apply substring_prefix.
Qed.
End Laws.

(** The decryption of an encryption. *)
Lemma decrypt_encrypt `{C : crypto_lib, !crypto_laws C} bytes text key :
  String.length bytes = 16%nat ->
  exists msg, AesEncrypt2 (Some bytes) text key = Ok msg /\
    AesDecrypt2 msg key = if slen text =? 0 then Err "unPadding data failed" else Ok text.
Proof.
  intros Hb. unfold AesEncrypt2. rewrite new_cipher_ok. cbn [RandStr2].
  destruct (GetAesIV_ok (E := string) (hex bytes)) as [v Hv]. rewrite Hv. cbn [bind_outcome].
  unfold crypt_blocks at 1. unfold blockSize at 1. rewrite padded_length. cbn [Nat.eqb bind_outcome].
  set (ct := cbc_encrypt (GetAesKey key) v (PKCS7Padding text)). eexists. split; [reflexivity|].
  assert (slen (hex bytes) = 32) as Hiv by (unfold slen; rewrite hex_length, Hb; done).
  assert (1 <= slen ct) as Hct.
  { unfold slen, ct. rewrite cbc_length. unfold PKCS7Padding. rewrite length_app_str.
    fold (repeat_str (ascii_of_Z (Z.of_nat (blockSize - String.length text mod blockSize)%nat)) (blockSize - String.length text mod blockSize)).
    rewrite repeat_str_length. pose proof (padding_range text). lia. }
  unfold AesDecrypt2. rewrite new_cipher_ok. cbn [bind_outcome].
  assert (Base64Decode (Base64Encode (hex bytes +:+ ct)) = hex bytes +:+ ct) as ->.
  { unfold Base64Encode. rewrite slen_app, Hiv. replace (32 + slen ct =? 0) with false by (symmetry; apply Z.eqb_neq; lia).
    unfold Base64Decode. rewrite b64_inverse. case_match eqn:E; [|done]. z_bools.
    assert (b64_encode (hex bytes +:+ ct) = "") as Hn by (destruct (b64_encode _); [done|unfold slen in E; cbn in E; lia]).
    destruct (b64_nonempty (hex bytes +:+ ct)); [|done]. intros Hz. pose proof (f_equal slen Hz) as Hs.
    rewrite slen_app, Hiv in Hs. change (slen "") with 0 in Hs. lia. }
  rewrite slen_app, Hiv. unfold keyLen32. replace (32 + slen ct <=? 32) with false by (symmetry; apply Z.leb_gt; lia).
  rewrite <- Hiv at 1. rewrite slice_prefix. cbn [bind_outcome].
  rewrite <- Hiv at 1. rewrite <- Hiv at 1. rewrite <- slen_app, slice_suffix. cbn [bind_outcome]. rewrite Hv. cbn [bind_outcome].
  unfold crypt_blocks. unfold ct. rewrite cbc_length. unfold blockSize. rewrite padded_length. cbn [Nat.eqb bind_outcome].
  rewrite cbc_inverse by apply padded_length. rewrite unpad_pad. by destruct (slen text =? 0).
Qed.

(** C33: what [AesEncrypt2] makes of a text and a key, with any 16 random bytes,
    [AesDecrypt2] takes back to the text with the same key; the empty text is the
    only one that does not come back, with an error. *)
Theorem aes_round_trip `{C : crypto_lib, !crypto_laws C} bytes text key :
  String.length bytes = 16%nat ->
  exists msg, AesEncrypt2 (Some bytes) text key = Ok msg /\
    AesDecrypt2 msg key = if slen text =? 0 then Err "unPadding data failed" else Ok text.
Proof. apply decrypt_encrypt. Qed.

(** [AesDecrypt2] panics exactly on a text that decodes to more than 32 bytes and to
    a length that is not a number of blocks. *)
Theorem AesDecrypt2_panics `{C : crypto_lib, !crypto_laws C} msg key :
  is_panic (AesDecrypt2 msg key) =
  (32 <? slen (Base64Decode msg)) && negb (slen (Base64Decode msg) mod 16 =? 0).
Proof.
  unfold AesDecrypt2. rewrite new_cipher_ok. cbn [bind_outcome]. unfold keyLen32.
  set (bs := Base64Decode msg). destruct (Z.leb_spec (slen bs) 32) as [Hle|Hgt].
  { by replace (32 <? slen bs) with false by (symmetry; apply Z.ltb_ge; lia). }
  replace (32 <? slen bs) with true by (symmetry; apply Z.ltb_lt; lia). cbn [andb].
  unfold slice. replace ((0 <=? 0) && (0 <=? 32) && (32 <=? slen bs)) with true by (symmetry; rewrite !andb_true_iff, !Z.leb_le; lia).
  replace ((0 <=? 32) && (32 <=? slen bs) && (slen bs <=? slen bs)) with true by (symmetry; rewrite !andb_true_iff, !Z.leb_le; lia).
  cbn [bind_outcome]. match goal with |- context [GetAesIV ?i] => destruct (GetAesIV_ok (E := string) i) as [v ->] end.
  cbn [bind_outcome]. unfold crypt_blocks, blockSize.
  assert (forall s n m, (n + m <= String.length s)%nat -> String.length (String.substring n m s) = m) as Hsub.
  { induction s as [|c s IH]; intros n m Hnm; cbn in Hnm; [by destruct n, m; try lia|].
    destruct n as [|n]; [destruct m as [|m]; cbn; [done|]; rewrite (IH 0%nat m); lia|]. cbn. apply IH. lia. }
  rewrite Hsub by (unfold slen in *; lia).
  replace (slen bs mod 16 =? 0) with (Z.to_nat (slen bs - 32) mod 16 =? 0)%nat.
  - destruct (_ =? 0)%nat; cbn [bind_outcome negb is_panic]; [|done]. by case_match.
  - assert ((slen bs - 32) mod 16 = slen bs mod 16) as Hm.
    { replace (slen bs - 32) with (slen bs + (-2) * 16) by lia. apply Z.mod_add. lia. }
    pose proof (Nat2Z.inj_mod (Z.to_nat (slen bs - 32)) 16) as Hz. rewrite Z2Nat.id in Hz by lia. cbn [Z.of_nat Pos.of_succ_nat] in Hz.
    change (Z.of_nat 16) with 16 in Hz. rewrite Hm in Hz.
    destruct (Nat.eqb_spec (Z.to_nat (slen bs - 32) mod 16) 0), (Z.eqb_spec (slen bs mod 16) 0); lia.
Qed.

(** ** A library to compute with: no secrecy, but the laws hold *)

Definition hex_val (c : ascii) : Z := if byte_val c <? 58 then byte_val c - 48 else byte_val c - 87.

Fixpoint unhex (s : string) : option string :=
  match s with
  | "" => Some ""
  | String a (String b s) =>
      match unhex s with Some r => Some (String (ascii_of_Z (16 * hex_val a + hex_val b)) r) | None => None end
  | _ => None
  end.

Lemma hex_digit_value z : 0 <= z < 16 -> byte_val (hex_digit z) = if z <? 10 then 48 + z else 87 + z.
Proof. intros Hz. unfold hex_digit. apply byte_val_ascii. destruct (z <? 10) eqn:E; z_bools; lia. Qed.

Lemma hex_digit_val z : 0 <= z < 16 -> hex_val (hex_digit z) = z.
Proof.
  intros Hz. unfold hex_val. rewrite hex_digit_value by done.
  destruct (z <? 10) eqn:E; z_bools; case_match eqn:E2; z_bools; lia.
Qed.

Lemma byte_val_range c : 0 <= byte_val c < 256.
Proof. unfold byte_val. pose proof (N_ascii_bounded c). lia. Qed.

Lemma hex_digits_range c : 0 <= byte_val c / 16 < 16 /\ 0 <= byte_val c mod 16 < 16.
Proof.
  pose proof (byte_val_range c). split; [|apply Z.mod_pos_bound; lia].
  split; [apply Z.div_pos; lia|apply Z.div_lt_upper_bound; lia].
Qed.

Lemma unhex_hex s : unhex (hex s) = Some s.
Proof.
  induction s as [|c s IH]; [done|]. cbn [hex unhex]. rewrite IH. pose proof (hex_digits_range c) as [H1 H2].
  rewrite !hex_digit_val by done. do 2 f_equal. rewrite <- Z.div_mod by lia.
  unfold ascii_of_Z, byte_val. rewrite N2Z.id. apply ascii_N_embedding.
Qed.

Lemma hex_no_dot s : all_bytes (not_byte "."%char) (hex s) = true.
Proof.
  assert (forall z, 0 <= z < 16 -> not_byte "."%char (hex_digit z) = true) as Hd.
  { intros z Hz. unfold not_byte. apply negb_true_iff, Ascii.eqb_neq. intros E. pose proof (hex_digit_value z Hz) as Hv.
    rewrite <- E in Hv. change (byte_val "."%char) with 46 in Hv. destruct (z <? 10) eqn:E2; z_bools; lia. }
  induction s as [|c s IH]; [done|]. cbn [hex all_bytes]. pose proof (hex_digits_range c) as [H1 H2].
  by rewrite !Hd, IH.
Qed.

#[export] Instance toy_crypto : crypto_lib := {
  md5_sum _ := "0123456789abcdef";
  sha256_mac text key := text +:+ "/" +:+ key;
  sha512_mac text key := key +:+ "/" +:+ text;
  cbc_encrypt _ _ p := p;
  cbc_decrypt _ _ p := p;
  b64_encode := hex;
  b64_decode := unhex
}.

#[export] Instance toy_laws : crypto_laws toy_crypto.
Proof.
  constructor; try done; [exact unhex_hex| |exact hex_no_dot]. intros s Hs. by destruct s.
Qed.

Lemma aes_round_trip_witness :
  exists msg, AesEncrypt2 (Some "0123456789abcdef") "hello" "key" = Ok msg /\ AesDecrypt2 msg "key" = Ok "hello".
Proof. exact (aes_round_trip "0123456789abcdef" "hello" "key" eq_refl). Defined.

(** 33 bytes are not a number of blocks. *)
Lemma AesDecrypt2_panics_witness :
  is_panic (AesDecrypt2 (hex "0123456789abcdef0123456789abcdef!") "key") = true.
Proof. rewrite AesDecrypt2_panics. vm_compute. reflexivity. Defined.
