(* ===== verification/Jwt.v ===== *)
(** * Tokens ([src/utils/jwt/subject.go])

    A [Subject] carries the payload it was built from or has verified, and the raw
    bytes of a token.  JSON comes from outside: the encoders of the two records and
    the two readers of a field are operations of the class [json_lib].  The clock
    is an argument. *)

From Stdlib Require Import Ascii.
From S2P Require Import Prelude GoStrings Common Crypto.

#[local] Open Scope string_scope.
#[local] Open Scope Z_scope.

Definition FIVE_MINUTES : Z := 300.
Definition TWO_WEEK : Z := 1209600.

Record JwtConfig := mk_jwt_config { TokenKey : string; TokenAlg : string; TokenTyp : string; TokenExp : Z }.
Record Header := mk_header { Alg : string; Typ : string }.

Record Payload := mk_payload {
  Sub : string; Aud : string; Iss : string;
  Iat : Z; Exp : Z;
  Dev : string; Jti : string; Ext : string
}.

Definition no_payload : Payload := mk_payload "" "" "" 0 0 "" "" "".

Class json_lib := {
  json_header : Header -> outcome string string;
  json_payload : Payload -> outcome string string;
  GetJsonString : string -> string -> string;     (* the text, the field *)
  GetJsonInt : string -> string -> Z
}.

Record Subject := mk_subject {
  s_Header : Header;
  s_Payload : option Payload;
  tokenBytes : string;
  payloadBytes : string
}.

Definition no_subject : Subject := mk_subject (mk_header "" "") None "" "".

Definition set_payload (s : Subject) (p : option Payload) : Subject :=
  mk_subject (s_Header s) p (tokenBytes s) (payloadBytes s).

(** ** The keys built into the program *)

Definition text_of (o : outcome string string) : string := match o with Ok s => s | _ => "" end.
Definition GetLocalSecretKey : string := Eval vm_compute in text_of createDefaultLocalSecretKey.
Definition GetLocalTokenSecretKey : string := Eval vm_compute in text_of createLocalTokenSecretKey.

Section Tokens.
Context `{C : crypto_lib} `{J : json_lib}.

(** ** Building a subject *)

Definition AddHeader (s : Subject) (config : JwtConfig) : Subject :=
  mk_subject (mk_header (TokenAlg config) (TokenTyp config)) (s_Payload s) (tokenBytes s) (payloadBytes s).

(** [jti] is the random identity of the token. *)
Definition Create (s : Subject) (now : Z) (jti sub : string) : Subject :=
  set_payload s (Some (mk_payload sub "" "" 0 (int64 (now + TWO_WEEK)) "" jti "")).

(** The setters read the payload through its pointer. *)
Definition on_payload (s : Subject) (f : Payload -> Payload) : outcome string Subject :=
  match s_Payload s with
  | None => Panic "invalid memory address or nil pointer dereference"
  | Some p => Ok (set_payload s (Some (f p)))
  end.

Definition set_exp (p : Payload) (e : Z) : Payload :=
  mk_payload (Sub p) (Aud p) (Iss p) (Iat p) e (Dev p) (Jti p) (Ext p).

Definition expires (now exp : Z) (p : Payload) : Payload :=
  set_exp p (if 0 <? Iat p then int64 (Iat p + exp) else int64 (now + exp)).

Definition Expired (s : Subject) (now exp : Z) : outcome string Subject :=
  if 0 <? exp then on_payload s (expires now exp) else Ok s.

Definition set_Dev (s : Subject) (dev : string) : outcome string Subject :=
  if 0 <? slen dev then on_payload s (fun p => mk_payload (Sub p) (Aud p) (Iss p) (Iat p) (Exp p) dev (Jti p) (Ext p)) else Ok s.
Definition set_Iss (s : Subject) (iss : string) : outcome string Subject :=
  if 0 <? slen iss then on_payload s (fun p => mk_payload (Sub p) (Aud p) iss (Iat p) (Exp p) (Dev p) (Jti p) (Ext p)) else Ok s.
Definition set_Aud (s : Subject) (aud : string) : outcome string Subject :=
  if 0 <? slen aud then on_payload s (fun p => mk_payload (Sub p) aud (Iss p) (Iat p) (Exp p) (Dev p) (Jti p) (Ext p)) else Ok s.

(** ** Tokens *)

Definition Signature (text key : string) : string := HMAC_SHA256 text (GetLocalSecretKey +:+ key) true.

Definition ToJsonBase64 (b : outcome string string) : outcome string string :=
  let* b := b in Ok (Base64Encode b).

(** A nil pointer is encoded as [null]. *)
Definition json_pointer (p : option Payload) : outcome string string :=
  match p with None => Ok "null" | Some p => json_payload p end.

(** The first two parts; an error of the encoder gives the empty text. *)
Definition Generate2 (s : Subject) (now : Z) (config : JwtConfig) : outcome string (option string * Subject) :=
  let s := AddHeader s config in
  match ToJsonBase64 (json_header (s_Header s)) with
  | Ok header =>
      let* s := if 0 <? TokenExp config then on_payload s (expires now (TokenExp config)) else Ok s in
      match ToJsonBase64 (json_pointer (s_Payload s)) with
      | Ok payload => Ok (Some (header +:+ "." +:+ payload), s)
      | _ => Ok (None, s)
      end
  | _ => Ok (None, s)
  end.

Definition Generate (s : Subject) (now : Z) (config : JwtConfig) : outcome string (string * Subject) :=
  let* (part1, s) := Generate2 s now config in
  match part1 with
  | None => Ok ("", s)
  | Some part1 => Ok (part1 +:+ "." +:+ Signature part1 (TokenKey config), s)
  end.

(** The key that the requests of a token are signed with. *)
Definition GetTokenSecret (token secret : string) : string :=
  if slen token =? 0 then ""
  else
    let res := HMAC_SHA512 (token +:+ GetLocalTokenSecretKey +:+ GetLocalSecretKey) secret false in
    HMAC_SHA256 res secret false +:+ res.

Definition getStringValue (s : Subject) (k : string) : string :=
  if slen (payloadBytes s) =? 0 then "" else GetJsonString (payloadBytes s) k.
Definition getInt64Value (s : Subject) (k : string) : Z :=
  if slen (payloadBytes s) =? 0 then 0 else GetJsonInt (payloadBytes s) k.

Definition with_sub (p : Payload) (sub : string) : Payload :=
  mk_payload sub (Aud p) (Iss p) (Iat p) (Exp p) (Dev p) (Jti p) (Ext p).

Definition Verify (s : Subject) (now : Z) (token key : string) (decode : bool) : outcome string Subject :=
  if slen token =? 0 then Err "token is nil"
  else match split_on "."%char token with
       | [part0; part1; part2] =>
           if negb (String.eqb (Signature (part0 +:+ "." +:+ part1) key) part2) then Err "token signature invalid"
           else
             let b64 := Base64Decode part1 in
             if slen b64 =? 0 then Err "token part base64 data decode failed"
             else if GetJsonInt b64 "exp" <=? now then Err "token expired or invalid"
             else if negb decode then Ok s
             else
               let s := mk_subject (s_Header s) (Some (default no_payload (s_Payload s))) (tokenBytes s) b64 in
               Ok (set_payload s (Some (with_sub (default no_payload (s_Payload s)) (getStringValue s "sub"))))
       | _ => Err "token part length invalid"
       end.

Definition CheckReady (s : Subject) : bool :=
  match s_Payload s with None => false | Some p => negb (slen (Sub p) =? 0) end.

Definition ResetTokenBytes (s : Subject) (b : string) : Subject :=
  mk_subject (s_Header s) (s_Payload s) b (payloadBytes s).
Definition ResetPayloadBytes (s : Subject) (b : string) : Subject :=
  mk_subject (s_Header s) (s_Payload s) (tokenBytes s) b.
Definition GetRawBytes (s : Subject) : string := tokenBytes s.

Definition GetSub (s : Subject) : string * Subject :=
  let p := default no_payload (s_Payload s) in
  let p := if slen (Sub p) =? 0 then with_sub p (getStringValue s "sub") else p in
  (Sub p, set_payload s (Some p)).

Definition GetIss (s : Subject) : string := getStringValue s "iss".
Definition GetAud (s : Subject) : string := getStringValue s "aud".
Definition GetIat (s : Subject) : Z := getInt64Value s "iat".
Definition GetExp (s : Subject) : Z := getInt64Value s "exp".
Definition GetDev (s : Subject) : string := getStringValue s "dev".
Definition GetJti (s : Subject) : string := getStringValue s "jti".
Definition GetExt (s : Subject) : string := getStringValue s "ext".
End Tokens.

(** ** A token is accepted until it expires *)

(** What the token of a payload is checked against: the encoder writes the expiry
    and the subject of this payload so that the readers find them. *)
Definition readable `{J : json_lib} (p : Payload) : Prop :=
  exists b, json_payload p = Ok b /\ b <> "" /\ GetJsonInt b "exp" = Exp p /\ GetJsonString b "sub" = Sub p.

Section Verified.
Context `{C : crypto_lib, !crypto_laws C} `{J : json_lib}.

Lemma Base64_no_dot s : all_bytes (not_byte "."%char) (Base64Encode s) = true.
Proof. unfold Base64Encode. case_match; [done|]. apply b64_no_dot. Qed.

Lemma Base64_round s : Base64Decode (Base64Encode s) = s.
Proof.
  unfold Base64Encode. destruct (Z.eqb_spec (slen s) 0) as [E|Hne].
  - destruct s; [done|unfold slen in E; cbn in E; lia].
  - unfold Base64Decode. rewrite b64_inverse. case_match eqn:E; [|done]. z_bools.
    destruct (b64_nonempty s); [by intros ->|]. destruct (b64_encode s); [done|unfold slen in E; cbn in E; lia].
Qed.

(** A token of three parts without dots. *)
Lemma Verify_parts s now p0 p1 p2 key :
  all_bytes (not_byte "."%char) p0 = true -> all_bytes (not_byte "."%char) p1 = true -> all_bytes (not_byte "."%char) p2 = true ->
  Verify s now (p0 +:+ "." +:+ p1 +:+ "." +:+ p2) key true =
  if negb (String.eqb (Signature (p0 +:+ "." +:+ p1) key) p2) then Err "token signature invalid"
  else if slen (Base64Decode p1) =? 0 then Err "token part base64 data decode failed"
  else if GetJsonInt (Base64Decode p1) "exp" <=? now then Err "token expired or invalid"
  else Ok (mk_subject (s_Header s) (Some (with_sub (default no_payload (s_Payload s)) (GetJsonString (Base64Decode p1) "sub")))
             (tokenBytes s) (Base64Decode p1)).
Proof.
  intros H0 H1 H2. unfold Verify.
  replace (slen (p0 +:+ "." +:+ p1 +:+ "." +:+ p2) =? 0) with false.
  2: { symmetry. apply Z.eqb_neq. rewrite !slen_app. change (slen ".") with 1. unfold slen. lia. }
  change ("." +:+ p1 +:+ "." +:+ p2) with (String "."%char (p1 +:+ "." +:+ p2)). rewrite split_on_app by done.
  change ("." +:+ p2) with (String "."%char p2). rewrite split_on_app, split_on_none by done.
  case_match; [done|]. case_match eqn:Hb; [done|]. case_match; [done|]. cbn [negb].
  unfold getStringValue. cbn [payloadBytes]. by rewrite Hb.
Qed.
End Verified.

(** C34: What [Generate] issues is accepted under the key it was issued with, gives back
    the subject, and stops being accepted at the second of its expiry; under a key
    that signs differently it is rejected from the start.  The expiry is the
    configured time after the issue, when the configuration sets one. *)
Theorem token_round_trip `{C : crypto_lib, !crypto_laws C} `{J : json_lib} s now config token s' p :
  Generate s now config = Ok (token, s') -> s_Payload s' = Some p -> readable p -> is_ok (json_header (mk_header (TokenAlg config) (TokenTyp config))) = true ->
  (forall v later, later < Exp p -> exists v', Verify v later token (TokenKey config) true = Ok v' /\ (GetSub v').1 = Sub p) /\
  (forall v later, Exp p <= later -> Verify v later token (TokenKey config) true = Err "token expired or invalid") /\
  (exists part1, forall v later key, Signature part1 key <> Signature part1 (TokenKey config) ->
     Verify v later token key true = Err "token signature invalid") /\
  (0 < TokenExp config -> Exp p = int64 ((if 0 <? Iat p then Iat p else now) + TokenExp config)).
Proof.
  intros Hg Hp (b & Hb & Hne & Hexp & Hsub) Hh. unfold Generate, Generate2 in Hg.
  destruct (json_header (s_Header (AddHeader s config))) as [h| |] eqn:Eh; try (cbn [AddHeader s_Header] in Eh; by rewrite Eh in Hh).
  cbn [ToJsonBase64 bind_outcome] in Hg.
  destruct (if 0 <? TokenExp config then on_payload (AddHeader s config) (expires now (TokenExp config)) else Ok (AddHeader s config)) as [s1| |] eqn:Es;
    cbn [bind_outcome] in Hg; [|done..].
  assert (s_Payload s1 = Some p) as Hp1.
  { destruct (ToJsonBase64 (json_pointer (s_Payload s1))); cbn [bind_outcome] in Hg; by injection Hg as _ <-. }
  rewrite Hp1 in Hg. cbn [json_pointer] in Hg. rewrite Hb in Hg. cbn [ToJsonBase64 bind_outcome] in Hg. injection Hg as <- _.
  set (part1 := Base64Encode h +:+ "." +:+ Base64Encode b).
  assert (part1 +:+ "." +:+ Signature part1 (TokenKey config) =
          Base64Encode h +:+ "." +:+ Base64Encode b +:+ "." +:+ Signature part1 (TokenKey config)) as ->.
  { unfold part1. rewrite !str_app_assoc. reflexivity. }
  assert (slen b =? 0 = false) as Hlen by (apply Z.eqb_neq; destruct b; [done|unfold slen; cbn; lia]).
  split_and!.
  - intros v later Hl. rewrite Verify_parts by apply Base64_no_dot. fold part1.
    rewrite String.eqb_refl, Base64_round, Hexp, Hlen. cbn [negb]. replace (Exp p <=? later) with false by (symmetry; apply Z.leb_gt; lia).
    eexists. split; [reflexivity|]. rewrite Hsub. unfold GetSub, getStringValue.
    cbn [s_Payload default from_option id Sub with_sub payloadBytes fst]. rewrite Hlen, Hsub. destruct (slen (Sub p) =? 0); reflexivity.
  - intros v later Hl. rewrite Verify_parts by apply Base64_no_dot. fold part1.
    rewrite String.eqb_refl, Base64_round, Hexp, Hlen. cbn [negb]. by replace (Exp p <=? later) with true by (symmetry; apply Z.leb_le; lia).
  - exists part1. intros v later key Hk. rewrite Verify_parts by apply Base64_no_dot. fold part1. by apply String.eqb_neq in Hk as ->.
  - intros He. rewrite (proj2 (Z.ltb_lt _ _) He) in Es. unfold on_payload in Es. destruct (s_Payload (AddHeader s config)) as [p0|]; [|done].
    injection Es as <-. cbn [set_payload s_Payload] in Hp1. injection Hp1 as <-. cbn [expires set_exp Exp Iat].
    by destruct (0 <? Iat p0).
Qed.

(** Readers that find what the encoder wrote for one payload. *)
#[local] Instance demo_json : json_lib := {
  json_header _ := Ok "H";
  json_payload p := Ok ("{" +:+ Sub p);
  GetJsonString b _ := drop_str 1 b;
  GetJsonInt _ _ := 1600
}.

Lemma token_round_trip_witness :
  let config := mk_jwt_config "k" "HS256" "JWT" 600 in
  let s := Create no_subject 1000 "j" "user" in
  exists token s', Generate s 1000 config = Ok (token, s') /\
    exists v', Verify no_subject 1599 token "k" true = Ok v' /\ (GetSub v').1 = "user".
Proof.
  intros config s. destruct (Generate s 1000 config) as [[token s']| |] eqn:E; [|vm_compute in E; discriminate E..].
  exists token, s'. split; [reflexivity|].
  assert (exists p, s_Payload s' = Some p /\ Exp p = 1600 /\ Sub p = "user") as (p & Hp & He & Hs).
  { vm_compute in E. injection E as _ <-. eexists. split; [reflexivity|]. split; reflexivity. }
  assert (readable p) as Hr.
  { exists ("{" +:+ Sub p). split; [reflexivity|]. rewrite Hs, He. split; [discriminate|]. split; reflexivity. }
  destruct (token_round_trip s 1000 config token s' p E Hp Hr eq_refl) as (Hok & _).
  rewrite <- Hs. apply Hok. rewrite He. reflexivity.
Defined.
