(* ===== verification/Request.v ===== *)
(** * A request on its way to its handler ([src/node/node.go], [src/node/filter.go] and
    the rendering of [src/node/node_http.go])

    A [Context] carries a request through the chain of filters.  The computations
    ([action]) change the context, and end with a value, an error ([ex.Throw]) or a
    panic.  The state holds the shared cache as well, the clock, in nanoseconds,
    and the calls of the handler that were made.

    What is outside comes in as operations: the certificate ([Cipher]), the remote
    service behind [EncipherClient], the cache ([cache_store]), the handler and the
    callbacks that the application installs. *)

From Stdlib Require Import Ascii.
From S2P Require Import Prelude GoStrings Common Exception Crypto Jwt.

#[local] Open Scope string_scope.
#[local] Open Scope Z_scope.

(** ** Data *)

Record RouterConfig := mk_router { Guest : bool; UseRSA : bool; AesRequest : bool; AesResponse : bool }.

(** An [interface{}] that holds nothing, a string or bytes. *)
Inductive jdata := DNil | DStr (s : string) | DBytes (s : string).

Record JsonBody := mk_body { Data : jdata; Time : Z; Nonce : string; Plan : Z; Sign : string }.
Definition no_body : JsonBody := mk_body DNil 0 "" 0 "".

Record JsonResp := mk_resp { r_Code : Z; r_Message : string; r_Data : string; r_Time : Z; r_Nonce : string; r_Plan : Z; r_Sign : string }.

(** An error of the node: no address, no arguments, and the cause is left out. *)
Definition new_throw (code : Z) (msg : string) : Throw := mk_throw code msg "" None [].

Record Permission := mk_permission { MatchAll : bool; NeedLogin : bool; HasRole : list Z; NeedRole : list Z }.

Definition BadRequest : Z := 400.
Definition Unauthorized : Z := 401.
Definition LengthRequired : Z := 411.
Definition InternalServerError : Z := 500.
Definition UnsupportedMediaType : Z := 415.

Definition MAX_VALUE_LEN : Z := 200000.
Definition MAX_TOKEN_LEN : Z := 2048.
Definition MAX_CODE_LEN : Z := 1024.

(** The incoming request: its body is empty when there is none, and so is a header. *)
Record HttpRequest := mk_request { Body : string; Header_ : string -> string }.

Inductive content := TEXT_PLAIN | APPLICATION_JSON | OtherContent.

(** What was written to the client. *)
Inductive reply := RPlain (s : string) | RJson (r : JsonResp) | RRaw (s : string).

(** A call of the handler: the subject, the token and the data it can see. *)
Record call := mk_call { c_sub : string; c_token : string; c_data : jdata }.

Record Cipher := mk_cipher { GetPublicKey : string; Decrypt : string -> outcome string string }.

Record EncipherClient := mk_encipher {
  Config : string -> outcome string string;
  TokenSignature : string -> string -> outcome string string;   (* the token, the text *)
  TokenEncrypt : string -> string -> outcome string string;
  TokenDecrypt : string -> string -> outcome string string;
  EccDecrypt : string -> outcome string string
}.

(** The cache that [CacheAware] gives; times are nanoseconds, the expiry is in
    seconds. *)
Class cache_store (K : Type) := {
  c_exists : string -> Z -> K -> outcome string bool;
  c_put : string -> Z -> Z -> K -> outcome string unit * K
}.

Record Context (K : Type) := mk_context {
  Method : string;
  Path : string;
  RequestCtx : HttpRequest;
  Router : option RouterConfig;
  Subj : Subject;
  Json : JsonBody;
  Storage : gmap string string;
  postCompleted : bool;
  ContentType : content;
  ContentEntity : option string;       (* its JSON text, or a plain text *)
  written : list reply;
  pos : nat;                           (* of the filter chain *)
  handled : list call;
  cache : option K;                    (* [None]: [CacheAware] is nil *)
  clock_ns : Z
}.
Arguments mk_context {K}. Arguments Method {K}. Arguments Path {K}. Arguments RequestCtx {K}. Arguments Router {K}.
Arguments Subj {K}. Arguments Json {K}. Arguments Storage {K}. Arguments postCompleted {K}. Arguments ContentType {K}.
Arguments ContentEntity {K}. Arguments written {K}. Arguments pos {K}. Arguments handled {K}. Arguments cache {K}.
Arguments clock_ns {K}.

Section Fields.
Context {K : Type} (c : Context K).
Definition with_subject x := mk_context (Method c) (Path c) (RequestCtx c) (Router c) x (Json c) (Storage c) (postCompleted c) (ContentType c) (ContentEntity c) (written c) (pos c) (handled c) (cache c) (clock_ns c).
Definition with_json x := mk_context (Method c) (Path c) (RequestCtx c) (Router c) (Subj c) x (Storage c) (postCompleted c) (ContentType c) (ContentEntity c) (written c) (pos c) (handled c) (cache c) (clock_ns c).
Definition with_storage x := mk_context (Method c) (Path c) (RequestCtx c) (Router c) (Subj c) (Json c) x (postCompleted c) (ContentType c) (ContentEntity c) (written c) (pos c) (handled c) (cache c) (clock_ns c).
Definition with_handled x := mk_context (Method c) (Path c) (RequestCtx c) (Router c) (Subj c) (Json c) (Storage c) true (ContentType c) (ContentEntity c) (written c) (pos c) x (cache c) (clock_ns c).
Definition with_response t e w := mk_context (Method c) (Path c) (RequestCtx c) (Router c) (Subj c) (Json c) (Storage c) (postCompleted c) t e w (pos c) (handled c) (cache c) (clock_ns c).
Definition with_pos x := mk_context (Method c) (Path c) (RequestCtx c) (Router c) (Subj c) (Json c) (Storage c) (postCompleted c) (ContentType c) (ContentEntity c) (written c) x (handled c) (cache c) (clock_ns c).
Definition with_cache (x : option K) := mk_context (Method c) (Path c) (RequestCtx c) (Router c) (Subj c) (Json c) (Storage c) (postCompleted c) (ContentType c) (ContentEntity c) (written c) (pos c) (handled c) x (clock_ns c).
Definition with_clock (x : Z) := mk_context (Method c) (Path c) (RequestCtx c) (Router c) (Subj c) (Json c) (Storage c) (postCompleted c) (ContentType c) (ContentEntity c) (written c) (pos c) (handled c) (cache c) x.
Definition with_data x := with_json (mk_body x (Time (Json c)) (Nonce (Json c)) (Plan (Json c)) (Sign (Json c))).
End Fields.

(** ** Computations *)

Definition action (K A : Type) : Type := Context K -> outcome Throw A * Context K.

#[export] Instance action_ret {K} : MRet (action K) := fun A a c => (Ok a, c).
#[export] Instance action_bind {K} : MBind (action K) := fun A B k m c =>
  match m c with
  | (Ok a, c') => k a c'
  | (Err e, c') => (Err e, c')
  | (Panic w, c') => (Panic w, c')
  end.

Definition ask {K} : action K (Context K) := fun c => (Ok c, c).
Definition done_with {K A} (o : outcome Throw A) : action K A := fun c => (o, c).
Definition throw {K A} (code : Z) (msg : string) : action K A := done_with (Err (new_throw code msg)).
Definition reject {K A} (msg : string) : action K A := throw BadRequest msg.
Definition change {K} (f : Context K -> Context K) : action K unit := fun c => (Ok tt, f c).
Definition check {K} (b : bool) (msg : string) : action K unit := if b then reject msg else mret tt.

(** An error of a call, reported with a message of its own. *)
Definition or_throw {K A} (code : Z) (msg : string) (o : outcome string A) : action K A :=
  done_with (map_err (fun _ => new_throw code msg) o).

Definition UnixSecond {K} (c : Context K) : Z := clock_ns c / 1000000000.
Definition UnixMilli {K} (c : Context K) : Z := clock_ns c / 1000000.

(** ** The body of a request *)

Section Node.
Context `{C : crypto_lib} `{J : json_lib} {K : Type} `{store : cache_store K}
  (TokenKey : string)                       (* of the [JwtConfig] *)
  (RSA : Cipher) (Encipher : option EncipherClient).

Abbreviation action := (action K).

Definition token_secret (c : Context K) : string := Jwt.GetTokenSecret (GetRawBytes (Subj c)) TokenKey.

(** [RouterConfig] is nil on a path that was not registered as it is. *)
Definition router : action RouterConfig :=
  c ← ask;
  match Router c with
  | Some r => mret r
  | None => done_with (Panic "invalid memory address or nil pointer dereference")
  end.

(** The text that a request and a reply sign; nothing separates its parts. *)
Definition sign_text (path d nonce : string) (time plan : Z) : string :=
  path +:+ d +:+ nonce +:+ format_int time +:+ format_int plan.

Definition GetHmac256Sign (c : Context K) (d n : string) (t p : Z) (key : string) : string :=
  HMAC_SHA256 (sign_text (Path c) d n t p) (if 0 <? slen key then key else token_secret c) true.

(** A signature that the cache holds is refused; the cache is not locked between this look
    and the store. *)
Definition replay_check (sign : string) : action unit :=
  c ← ask;
  match cache c with
  | None => mret tt
  | Some k =>
      b ← or_throw BadRequest "replay attack invalid" (c_exists sign (clock_ns c) k);
      check b "replay attack invalid"
  end.

Definition replay_store (sign : string) : action unit :=
  c ← ask;
  match cache c with
  | None => mret tt
  | Some k =>
      let '(r, k) := c_put sign 600 (clock_ns c) k in
      _ ← change (fun c => with_cache c (Some k));
      or_throw BadRequest "cache replay attack value error" r
  end.

Definition validReplayAttack (sign : string) : action unit := _ ← replay_check sign; replay_store sign.

(** The key that signs the requests of an anonymous route; empty on the others. *)
Definition anonymous_key (r : RouterConfig) : action string :=
  if UseRSA r then
    match Encipher with
    | None => mret (GetPublicKey RSA)
    | Some e => or_throw 0 "publicKey is nil" (Config e "ecdsa")
    end
  else mret "".

(** The signature a request must carry. *)
Definition expected_sign (key checkBody : string) : action string :=
  if slen key =? 0 then
    c ← ask;
    match Encipher with
    | None => mret (HMAC_SHA256 checkBody (token_secret c) true)
    | Some e => or_throw BadRequest "encipher request signature invalid" (TokenSignature e checkBody "")
    end
  else mret (HMAC_SHA256 checkBody key true).

(** Raw data of a decryption that must not be empty. *)
Definition decrypted (d key : string) : action string :=
  raw ← or_throw BadRequest "AES failed to parse data" (AesDecrypt2 d key);
  _ ← check (slen raw =? 0) "AES failed to parse data is nil";
  mret raw.

(** The random code of the client, which encrypts an anonymous request. *)
Definition random_code : action string :=
  c ← ask;
  let codeBs := Header_ (RequestCtx c) "RandomCode" in
  _ ← check (MAX_CODE_LEN <? slen codeBs) "client random code invalid";
  _ ← check (slen codeBs =? 0) "client random code invalid";
  code ← match Encipher with
         | None => or_throw BadRequest "server private-key decrypt failed" (Decrypt RSA codeBs)
         | Some e =>
             code ← or_throw BadRequest "server private-key decrypt failed" (EccDecrypt e codeBs);
             _ ← check (slen code =? 0) "server private-key decrypt failed";
             mret code
         end;
  _ ← check (slen code =? 0) "server private-key decrypt data is nil";
  _ ← check ((slen code <? 64) || (128 <? slen code)) "client random code length must >= 64 and <= 128";
  mret code.

Definition AddStorage (k v : string) : action unit :=
  if slen k =? 0 then mret tt else change (fun c => with_storage c (<[k := v]> (Storage c))).

(** The data behind the text [d] of a body, by its plan. *)
Definition raw_data (r : RouterConfig) (plan : Z) (d : string) : action string :=
  c ← ask;
  let anonymous := UseRSA r in
  if (plan =? 0) && negb anonymous then
    let raw := Base64Decode d in
    _ ← check (slen raw =? 0) "parameter Base64 parsing failed";
    mret raw
  else if (plan =? 1) && negb anonymous then
    match Encipher with
    | None => decrypted d (token_secret c)
    | Some e => or_throw BadRequest "AES failed to parse data" (TokenDecrypt e (GetRawBytes (Subj c)) d)
    end
  else if (plan =? 2) && UseRSA r && anonymous then
    code ← random_code;
    raw ← decrypted d code;
    _ ← AddStorage "RandomCode" code;
    mret raw
  else reject "request parameters plan invalid".

(** The checks of a body; with its text, its router configuration. *)
Definition body_checks : action (RouterConfig * string) :=
  c ← ask;
  let body := Json c in
  d ← match Data body with
      | DStr d => _ ← check (slen d =? 0) "request data is nil"; mret d
      | _ => reject "request data is nil"
      end;
  _ ← check (negb (CheckInt64 (Plan body) [0; 1; 2])) "request plan invalid";
  _ ← check (negb (CheckLen (AStr (Nonce body)) 32 96)) "request nonce length invalid [32-96]";
  _ ← check (Time body <=? 0) "request time must be > 0";
  _ ← check (FIVE_MINUTES <? MathAbs (int64 (UnixSecond c - Time body))) "request time invalid";
  r ← router;
  _ ← check (AesRequest r && negb (Plan body =? 1)) "request parameters must use AES encryption";
  _ ← check (negb (CheckStrLen (Sign body) 32 96)) "request signature length invalid [32-96]";
  _ ← check (CheckInt64 (Plan body) [0; 1] && (slen (GetRawBytes (Subj c)) =? 0)) "request header token is nil";
  _ ← check (CheckInt64 (Plan body) [2] && negb (UseRSA r)) "request parameters must use RSA encryption";
  key ← anonymous_key r;
  sign ← expected_sign key (sign_text (Path c) d (Nonce body) (Time body) (Plan body));
  _ ← check (negb (String.eqb sign (Sign body))) "request signature invalid";
  mret (r, d).

(** The data of a body that passed the checks. *)
Definition body_data (r : RouterConfig) (body : JsonBody) (d : string) : action unit :=
  raw ← raw_data r (Plan body) d;
  change (fun c => with_data c (DBytes raw)).

Definition validJsonBody : action unit :=
  c ← ask;
  let body := Json c in
  '(r, d) ← body_checks;
  _ ← validReplayAttack (Sign body);
  body_data r body d.

Definition readParams : action unit :=
  c ← ask;
  if negb (String.eqb (Method c) "POST") then mret tt
  else
    let body := Body (RequestCtx c) in
    r ← router;
    if Guest r then
      if slen body =? 0 then mret tt else change (fun c => with_data c (DBytes body))
    else
      let auth := Header_ (RequestCtx c) "Authorization" in
      _ ← check (MAX_TOKEN_LEN <? slen auth) "authorization parameters length is too long";
      _ ← change (fun c => with_subject c (ResetTokenBytes (Subj c) auth));
      _ ← check (slen body =? 0) "body parameters is nil";
      _ ← (if MAX_VALUE_LEN <? slen body then throw LengthRequired "body parameters length is too long" else mret tt);
      _ ← change (fun c => with_json c (mk_body (DStr (GetJsonString body "d")) (GetJsonInt body "t") (GetJsonString body "n")
                                          (GetJsonInt body "p") (GetJsonString body "s")));
      validJsonBody.

(** ** The filters *)

Definition Authenticated (c : Context K) : bool := CheckReady (Subj c).

Definition SessionFilter (chain : action unit) : action unit :=
  r ← router;
  if UseRSA r || Guest r then chain
  else
    c ← ask;
    let token := GetRawBytes (Subj c) in
    if slen token =? 0 then throw Unauthorized "token is nil"
    else
      s ← done_with (map_err (fun _ => new_throw Unauthorized "token invalid or expired")
                       (Verify (Subj c) (UnixSecond c) token TokenKey true));
      _ ← change (fun c => with_subject c s);
      chain.

(** The loops over the roles one has and the roles one needs; true when access is
    granted. *)
Fixpoint role_needs (matchAll : bool) (needAccess hasRole : Z) (needs : list Z) (count : Z) : bool * Z :=
  match needs with
  | [] => (false, count)
  | needRole :: needs =>
      if hasRole =? needRole then
        let count := count + 1 in
        if negb matchAll || (count =? needAccess) then (true, count)
        else role_needs matchAll needAccess hasRole needs count
      else role_needs matchAll needAccess hasRole needs count
  end.

Fixpoint role_access (matchAll : bool) (needs has : list Z) (count : Z) : bool :=
  match has with
  | [] => false
  | hasRole :: has =>
      let '(granted, count) := role_needs matchAll (Z.of_nat (length needs)) hasRole needs count in
      if granted then true else role_access matchAll needs has count
  end.

Context (roleRealm : option (Context K -> bool -> outcome Throw (option Permission))).

Definition RoleFilter (chain : action unit) : action unit :=
  c ← ask;
  match roleRealm with
  | None => chain
  | Some realm =>
      if negb (Authenticated c) then chain
      else
        need ← done_with (realm c false);
        match need with
        | None => chain
        | Some need =>
            if (length (NeedRole need) =? 0)%nat then chain
            else
              has ← done_with (realm c true);
              let hasRoles := match has with Some h => HasRole h | None => [] end in
              if role_access (MatchAll need) (NeedRole need) hasRoles 0 then chain
              else throw Unauthorized "access defined"
        end
  end.

Context (postHandle : action unit).

(** [Handle] calls the handler once; the call is recorded with what the handler
    can see. *)
Definition Handle : action unit :=
  c ← ask;
  if postCompleted c then mret tt
  else
    _ ← change (fun c => with_handled c (handled c ++ [mk_call (match s_Payload (Subj c) with Some p => Sub p | None => "" end)
                                          (GetRawBytes (Subj c)) (Data (Json c))])%list);
    postHandle.

(** ** Rendering *)

(** What a reply draws on besides the context: random bytes for its nonce and for
    an initial vector. *)
Context (nonce : string) (iv : option string).

Definition JsonOk (data : string) (time plan : Z) (sign : string) : JsonResp := mk_resp 200 "" data time nonce plan sign.

Definition write (r : reply) : action unit :=
  change (fun c => with_response c (ContentType c) (ContentEntity c) (written c ++ [r])%list).

Definition remote {A} (msg : string) (o : outcome string A) : action A := or_throw InternalServerError msg o.

(** The text that goes back and what signs it. *)
Definition sealed (data : string) (r : RouterConfig) : action JsonResp :=
  c ← ask;
  let time := UnixMilli c in
  let token := GetRawBytes (Subj c) in
  if UseRSA r then
    if Plan (Json c) =? 2 then
      match Storage c !! "RandomCode" with
      | None => throw 0 "encryption random code is nil"
      | Some key =>
          aesData ← done_with (map_err (fun e => new_throw 0 e) (AesEncrypt2 iv data key));
          _ ← change (fun c => with_storage c (delete "RandomCode" (Storage c)));
          mret (JsonOk aesData time 2 (GetHmac256Sign c aesData nonce time 2 key))
      end
    else throw 0 "anonymous response plan invalid"
  else if AesResponse r then
    match Encipher with
    | None =>
        aesData ← done_with (map_err (fun e => new_throw 0 e) (AesEncrypt2 iv data (token_secret c)));
        mret (JsonOk aesData time 1 (GetHmac256Sign c aesData nonce time 1 ""))
    | Some e =>
        aesData ← remote "AES encryption response data failed" (TokenEncrypt e token data);
        sign ← remote "encipher encryption response data failed" (TokenSignature e token (sign_text (Path c) aesData nonce time 1));
        mret (JsonOk aesData time 1 sign)
    end
  else
    let b64 := Base64Encode data in
    match Encipher with
    | None => mret (JsonOk b64 time 0 (GetHmac256Sign c b64 nonce time 0 ""))
    | Some e =>
        sign ← remote "encipher encryption response data failed" (TokenSignature e token (sign_text (Path c) b64 nonce time 0));
        mret (JsonOk b64 time 0 sign)
    end.

Definition defaultRenderPre : action unit :=
  c ← ask;
  match ContentType c with
  | TEXT_PLAIN => write (RPlain (default "" (ContentEntity c)))
  | APPLICATION_JSON =>
      match ContentEntity c with
      | None => throw InternalServerError "response ContentEntity is nil"
      | Some data =>
          r ← router;
          if Guest r then write (RRaw data)
          else resp ← sealed data r; write (RJson resp)
      end
  | OtherContent => throw UnsupportedMediaType "invalid response ContentType"
  end.

(** The message before its translation. *)
Definition defaultRenderError (t : Throw) : action unit :=
  r ← router;
  if Guest r then
    _ ← change (fun c => with_response c TEXT_PLAIN (ContentEntity c) (written c));
    write (RPlain (Msg t))
  else
    c ← ask;
    _ ← change (fun c => with_response c APPLICATION_JSON (ContentEntity c) (written c));
    write (RJson (mk_resp (Code t) (Msg t) "" (UnixMilli c) nonce 0 "")).

Definition RenderHandleFilter (chain : action unit) : action unit := fun c =>
  let '(r, c) := match chain c with
                 | (Ok _, c) => defaultRenderPre c
                 | r => r
                 end in
  match r with
  | Err t => defaultRenderError t c
  | _ => (r, c)
  end.

(** ** The chain *)

Inductive Filter :=
  | GatewayRateLimiterF | ParameterF | SessionF | UserRateLimiterF | RoleF | PostHandleF | RenderHandleF
  | ExtF (n : nat).                 (* a filter of the application *)

Record FilterObject := mk_filter { Name : string; Order : Z; Filter_ : option Filter; MatchPattern : list string }.

Definition filterMap : list FilterObject :=
  [mk_filter "GatewayRateLimiterFilter" (-100) (Some GatewayRateLimiterF) [];
   mk_filter "ParameterFilter" (-90) (Some ParameterF) [];
   mk_filter "SessionFilter" (-80) (Some SessionF) [];
   mk_filter "UserRateLimiterFilter" (-70) (Some UserRateLimiterF) [];
   mk_filter "RoleFilter" (-60) (Some RoleF) [];
   mk_filter "PostHandleFilter" max_int64 (Some PostHandleF) [];
   mk_filter "RenderHandleFilter" min_int64 (Some RenderHandleF) []].

(** What [createFilterChain] can return: the filters of the application and those
    above, no name twice, in ascending order; filters of equal order come in any
    order, since neither the map nor the sort keeps one. *)
Definition createFilterChain (extFilters fs : list FilterObject) : Prop :=
  Permutation fs (extFilters ++ filterMap) /\ NoDup (map Name fs) /\
  StronglySorted (fun a b => Order a <= Order b) fs.

Context (ext : nat -> action unit -> action unit).

Definition DoFilter_of (f : Filter) (chain : action unit) : action unit :=
  match f with
  | GatewayRateLimiterF | UserRateLimiterF => chain
  | ParameterF => _ ← readParams; chain
  | SessionF => SessionFilter chain
  | RoleF => RoleFilter chain
  | PostHandleF => _ ← Handle; chain
  | RenderHandleF => RenderHandleFilter chain
  | ExtF n => ext n chain
  end.

(** [filterChain.DoFilter]: the position is shared by all the calls of the chain,
    so a filter that calls it twice finds it where the first call left it.  The
    fuel is the number of filters. *)
Fixpoint DoFilter (fs : list FilterObject) (fuel : nat) : action unit := fun c =>
  match fuel with
  | O => (Ok tt, c)
  | S fuel =>
      match fs !! pos c with
      | None => (Ok tt, c)
      | Some f =>
          match Filter_ f with
          | None => (Err (new_throw SYSTEM ("filter [" +:+ Name f +:+ "] is nil")), c)
          | Some g =>
              let c := with_pos c (S (pos c)) in
              if MatchFilterURL (Path c) (MatchPattern f) then DoFilter_of g (DoFilter fs fuel) c
              else DoFilter fs fuel c
          end
      end
  end.

(** A request from the pool of contexts: [reset], then the chain. *)
Definition reset (c : Context K) (method path : string) (request : HttpRequest) (routers : gmap string RouterConfig) (now : Z) : Context K :=
  mk_context method path request (routers !! path)
    (mk_subject (s_Header (Subj c)) (Some no_payload) "" "") no_body ∅ false
    (ContentType c) None [] 0 (handled c) (cache c) now.

Definition doRequest (fs : list FilterObject) (c : Context K) (method path : string) (request : HttpRequest)
    (routers : gmap string RouterConfig) (now : Z) : outcome Throw unit * Context K :=
  DoFilter fs (length fs) (reset c method path request routers now).
End Node.

(** ** Caches *)

(** What an expiring cache promises: [lives k s u] says that [k] holds the key [s] at
    least until the time [u]; an entry that is written lives until its expiry, and a
    write shortens the life of no other entry. *)
Class cache_laws (K : Type) `{store : cache_store K} := {
  lives : K -> string -> Z -> Prop;
  lives_le k s u v : lives k s u -> v <= u -> lives k s v;
  put_lives k s expire now k' : c_put s expire now k = (Ok tt, k') -> lives k' s (now + expire * 1000000000);
  put_keeps k s u s' expire now : lives k s u -> lives (c_put s' expire now k).2 s (Z.min u (now + expire * 1000000000));
  lives_exists k s u now : lives k s u -> now <= u -> c_exists s now k = Ok true
}.

(** A cache that keeps the promises: a map from keys to expiries. *)
#[export] Instance local_cache : cache_store (gmap string Z) := {
  c_exists k now m := Ok (match m !! k with Some e => negb (e <? now) | None => false end);
  c_put k expire now m := (Ok tt, <[k := now + expire * 1000000000]> m)
}.

#[export] Instance local_cache_laws : cache_laws (gmap string Z).
Proof.
  refine {| lives m s u := exists e, m !! s = Some e /\ u <= e |}.
  - intros m s u v (e & He & Hu) Hv. exists e. split; [done|lia].
  - intros m s expire now m' [= <-]. eexists. split; [apply lookup_insert_eq|done].
  - intros m s u s' expire now (e & He & Hu). cbn. destruct (decide (s = s')) as [->|Hne].
    + eexists. split; [apply lookup_insert_eq|lia].
    + exists e. split; [by rewrite lookup_insert_ne|lia].
  - intros m s u now (e & He & Hu) Hle. cbn. rewrite He. by replace (e <? now) with false by (symmetry; apply Z.ltb_ge; lia).
Defined.

(** The default [CacheAware]: a new local cache at each call. *)
Inductive fresh_cache := Fresh.

#[export] Instance fresh_cache_store : cache_store fresh_cache := {
  c_exists _ _ _ := Ok false;
  c_put _ _ _ k := (Ok tt, k)
}.
