(* ===== verification/RequestProofs.v ===== *)
(** * What the node guarantees about requests (the definitions of Request.v)

    Roles, what a request has passed after [readParams], and the guard of the chain in
    front of a handler. *)

From Stdlib Require Import Ascii.
From S2P Require Import Prelude GoStrings Common Exception Crypto Jwt Request.

#[local] Open Scope string_scope.
#[local] Open Scope Z_scope.

(** ** Roles *)

Lemma role_needs_spec m n h needs : NoDup needs -> forall count,
  role_needs m n h needs count =
  if decide (h ∈ needs) then (negb m || (count + 1 =? n), count + 1) else (false, count).
Proof.
  induction 1 as [|x needs Hx Hn IH]; intros count; [done|]. cbn [role_needs].
  destruct (Z.eqb_spec h x) as [->|Hne].
  - rewrite decide_True by by left. destruct (negb m || (count + 1 =? n)); [done|]. rewrite IH. by rewrite decide_False.
  - rewrite IH. destruct (decide (h ∈ needs)) as [Hin|Hout].
    + by rewrite decide_True by by right.
    + rewrite decide_False; [done|]. by intros [->|?]%elem_of_cons.
Qed.

(** The roles one has among those that are needed. *)
Definition matching (needs has : list Z) : list Z := filter (fun r => r ∈ needs) has.

Lemma role_access_all needs has : NoDup needs -> forall count,
  0 <= count < Z.of_nat (length needs) ->
  role_access true needs has count = (Z.of_nat (length needs) <=? count + Z.of_nat (length (matching needs has))).
Proof.
  intros Hn. induction has as [|h has IH]; intros count Hc; cbn [role_access].
  { symmetry. apply Z.leb_gt. cbn. lia. }
  rewrite role_needs_spec by done. unfold matching. rewrite filter_cons. destruct (decide (h ∈ needs)) as [Hin|Hout]; [|by apply IH].
  cbn [negb orb length]. fold (matching needs has). destruct (Z.eqb_spec (count + 1) (Z.of_nat (length needs))) as [E|E].
  - symmetry. apply Z.leb_le. lia.
  - rewrite IH by lia. f_equal. lia.
Qed.

Lemma role_access_any needs has : NoDup needs -> forall count,
  role_access false needs has count = negb (length (matching needs has) =? 0)%nat.
Proof.
  intros Hn. induction has as [|h has IH]; intros count; cbn [role_access]; [done|].
  rewrite role_needs_spec by done. unfold matching. rewrite filter_cons. by destruct (decide (h ∈ needs)).
Qed.

(** C38: [RoleFilter] grants exactly what the permission says, as long as neither the
    roles that are needed nor the roles that one has list a role twice: with
    [MatchAll], when every needed role is there, and otherwise when one is. *)
Theorem role_access_exact matchAll needs has :
  NoDup needs -> NoDup has -> needs <> [] ->
  role_access matchAll needs has 0 = true <->
  if matchAll then forall r, r ∈ needs -> r ∈ has else exists r, r ∈ needs /\ r ∈ has.
Proof.
  intros Hn Hh Hne. destruct matchAll.
  - assert (0 <= 0 < Z.of_nat (length needs)) as Hlen by (destruct needs; [done|cbn; lia]).
    rewrite role_access_all, Z.leb_le by done.
    assert (matching needs has ⊆+ needs) as Hsub.
    { apply NoDup_submseteq; [by apply NoDup_filter|]. intros r Hr. by apply list_elem_of_filter in Hr as [? _]. }
    split.
    + intros Hle. pose proof (submseteq_length_Permutation _ _ Hsub ltac:(lia)) as Hp.
      intros r Hr. rewrite <- Hp in Hr. by apply list_elem_of_filter in Hr as [_ ?].
    + intros Hall. assert (needs ⊆+ matching needs has) as Hsub2.
      { apply NoDup_submseteq; [done|]. intros r Hr. apply list_elem_of_filter. auto. }
      apply submseteq_length in Hsub2. lia.
  - rewrite role_access_any by done. rewrite negb_true_iff, Nat.eqb_neq. split.
    + destruct (matching needs has) as [|r l] eqn:E; [done|]. intros _. exists r.
      assert (r ∈ matching needs has) as Hr by (rewrite E; by left). apply list_elem_of_filter in Hr. done.
    + intros (r & Hr1 & Hr2) E. apply nil_length_inv in E.
      assert (r ∈ matching needs has) as Hr by (by apply list_elem_of_filter). rewrite E in Hr. by apply elem_of_nil in Hr.
Qed.

Lemma role_access_exact_witness :
  role_access true [1; 2] [2; 3] 0 = false /\ ~ (forall r, r ∈ [1; 2] -> r ∈ [2; 3]).
Proof.
  split; [reflexivity|]. intros Hall.
  assert (role_access true [1; 2] [2; 3] 0 = true) as E; [|vm_compute in E; discriminate E].
  apply (role_access_exact true [1; 2] [2; 3]); [apply (bool_decide_unpack _); exact I|apply (bool_decide_unpack _); exact I|discriminate|exact Hall].
Defined.

(** A role that is listed twice counts twice: here the role 2 is missing. *)
Example role_counted_twice : role_access true [1; 2] [1; 1] 0 = true.
Proof. reflexivity. Qed.

(** A pattern with a star that is longer than the path hides the patterns after it. *)
Example pattern_hidden :
  MatchFilterURL "/api" ["/api/user/*"; "/api*"] = false /\ MatchFilterURL "/api" ["/api*"; "/api/user/*"] = true.
Proof. split; reflexivity. Qed.

(** ** Computations on a context *)

Section Actions.
Context {K : Type}.
Implicit Types (c : Context K).

Lemma act_bind {A B} (m : action K A) (k : A -> action K B) c :
  (m ≫= k) c = match m c with (Ok a, c') => k a c' | (Err e, c') => (Err e, c') | (Panic w, c') => (Panic w, c') end.
Proof. done. Qed.

Lemma act_bind_ok {A B} (m : action K A) (k : A -> action K B) c b c2 :
  (m ≫= k) c = (Ok b, c2) -> exists a c1, m c = (Ok a, c1) /\ k a c1 = (Ok b, c2).
Proof. rewrite act_bind. destruct (m c) as [[a| |] c1]; try done. by exists a, c1. Qed.

Lemma check_ok b msg c u c' : check (K := K) b msg c = (Ok u, c') -> b = false /\ c' = c.
Proof. unfold check. destruct b; [done|]. by intros [= _ <-]. Qed.

Lemma ret_act_ok {A} (x : A) c a c' : (mret x : action K A) c = (Ok a, c') -> a = x /\ c' = c.
Proof. by intros [= -> ->]. Qed.

Lemma ask_ok c a c' : (ask : action K (Context K)) c = (Ok a, c') -> a = c /\ c' = c.
Proof. by intros [= -> ->]. Qed.

Lemma change_ok f c u c' : change (K := K) f c = (Ok u, c') -> c' = f c.
Proof. by intros [= _ <-]. Qed.

Lemma done_with_ok {A} (o : outcome Throw A) c a c' : (done_with o : action K A) c = (Ok a, c') -> o = Ok a /\ c' = c.
Proof. by intros [= -> ->]. Qed.

Lemma or_throw_ok {A} code msg (o : outcome string A) c a c' :
  (or_throw code msg o : action K A) c = (Ok a, c') -> o = Ok a /\ c' = c.
Proof. unfold or_throw. destruct o; intros [= -> ->]. done. Qed.

Lemma router_ok c r c' : (router : action K RouterConfig) c = (Ok r, c') -> Router c = Some r /\ c' = c.
Proof. unfold router, ask. rewrite act_bind. destruct (Router c) eqn:E; [|done]. by intros [= -> <-]. Qed.

(** What a computation leaves alone, whatever its outcome. *)
Definition keeps {A} (R : Context K -> Context K -> Prop) (m : action K A) : Prop := forall c, R c (m c).2.

(** The request, its route, the clock, and the calls of the handler. *)
Definition framed c c' : Prop :=
  Method c' = Method c /\ Path c' = Path c /\ RequestCtx c' = RequestCtx c /\ Router c' = Router c /\
  clock_ns c' = clock_ns c /\ handled c' = handled c /\ postCompleted c' = postCompleted c /\ pos c' = pos c.

(** Also who made it and what it holds: storage, cache and reply may change. *)
Definition same_core c c' : Prop := framed c c' /\ Subj c' = Subj c /\ Json c' = Json c.

#[export] Instance framed_preorder : PreOrder framed.
Proof.
  split; [by intros c|]. unfold framed. intros c1 c2 c3 (?&?&?&?&?&?&?&?) (?&?&?&?&?&?&?&?). split_and!; congruence.
Qed.

#[export] Instance same_core_preorder : PreOrder same_core.
Proof.
  split; [by intros c|]. intros c1 c2 c3 (?&?&?) (?&?&?). split; [by etrans|]. split; congruence.
Qed.

Section Keeps.
Context (R : Context K -> Context K -> Prop) `{!PreOrder R}.

Lemma keeps_done {A} (o : outcome Throw A) : keeps R (done_with o : action K A).
Proof. intros c. cbn. reflexivity. Qed.

Lemma act_keeps_ret {A} (a : A) : keeps R (mret a : action K A).
Proof. intros c. cbn. reflexivity. Qed.

Lemma keeps_ask : keeps R (ask : action K _).
Proof. intros c. cbn. reflexivity. Qed.

Lemma keeps_check b msg : keeps R (check (K := K) b msg).
Proof. unfold check. destruct b; [apply keeps_done|apply act_keeps_ret]. Qed.

Lemma keeps_or_throw {A} code msg (o : outcome string A) : keeps R (or_throw code msg o : action K A).
Proof. apply keeps_done. Qed.

Lemma act_keeps_bind {A B} (m : action K A) (k : A -> action K B) : keeps R m -> (forall a, keeps R (k a)) -> keeps R (m ≫= k).
Proof.
  intros Hm Hk c. rewrite act_bind. specialize (Hm c). destruct (m c) as [[a| |] c1]; cbn [snd] in Hm |- *; [|done..].
  specialize (Hk a c1). by etrans.
Qed.

Lemma keeps_router : keeps R (router : action K _).
Proof. apply act_keeps_bind; [apply keeps_ask|]. intros c. destruct (Router c); [apply act_keeps_ret|apply keeps_done]. Qed.
End Keeps.

Lemma framed_change f : (forall c, framed c (f c)) -> keeps framed (change f).
Proof. intros Hf c. apply Hf. Qed.

Lemma same_core_framed {A} (m : action K A) : keeps same_core m -> keeps framed m.
Proof. intros Hm c. apply Hm. Qed.
End Actions.

Create HintDb keeps.
#[export] Hint Resolve keeps_done act_keeps_ret keeps_ask keeps_check keeps_or_throw keeps_router : keeps.
#[export] Hint Extern 1 (keeps framed (change _)) => (by apply framed_change) : keeps.
#[export] Hint Extern 1 (keeps same_core (change _)) => (by intros ?) : keeps.

(** Walks through a computation. *)
Ltac keep :=
  repeat first
    [ solve [auto with keeps typeclass_instances]
    | match goal with
      | |- keeps _ (_ ≫= _) => apply act_keeps_bind; [exact _| |intros ?]
      | |- keeps _ (throw _ _) => apply keeps_done; exact _
      | |- keeps _ (reject _) => apply keeps_done; exact _
      | |- keeps _ (match ?x with _ => _ end) => destruct x
      end ].

(** Takes a successful computation apart. *)
Ltac act_step :=
  match goal with
  | H : (_ ≫= _) _ = (Ok _, _) |- _ => let E := fresh "E" in apply act_bind_ok in H as (? & ? & E & H); cbn beta in H
  | H : ask _ = (Ok _, _) |- _ => apply ask_ok in H as [-> ->]
  | H : mret _ _ = (Ok _, _) |- _ => apply ret_act_ok in H as [? ->]
  | H : check _ _ _ = (Ok _, _) |- _ => apply check_ok in H as [? ->]
  | H : reject _ _ = (Ok _, _) |- _ => discriminate H
  | H : throw _ _ _ = (Ok _, _) |- _ => discriminate H
  | H : change _ _ = (Ok _, _) |- _ => apply change_ok in H
  | H : or_throw _ _ _ _ = (Ok _, _) |- _ => apply or_throw_ok in H as [H ->]
  | H : done_with _ _ = (Ok _, _) |- _ => apply done_with_ok in H as [H ->]
  | H : router _ = (Ok _, _) |- _ => apply router_ok in H as [H ->]
  end.
Ltac act_inv := repeat act_step; subst; cbn beta in *.

(** ** A request that passed [readParams] *)

Section Body.
Context `{C : crypto_lib} `{J : json_lib} {K : Type} `{store : cache_store K}
  (TokenKey : string) (RSA : Cipher).
Implicit Types (c : Context K) (Encipher : option EncipherClient).

Lemma keeps_validReplay sign : keeps framed (validReplayAttack (K := K) sign).
Proof.
  unfold validReplayAttack, replay_check, replay_store. keep.
Qed.

Lemma keeps_validJsonBody Encipher : keeps framed (validJsonBody (K := K) TokenKey RSA Encipher).
Proof.
  unfold validJsonBody, body_checks, body_data, anonymous_key, expected_sign, raw_data, random_code, decrypted, AddStorage. keep.
  all: try apply keeps_validReplay.
Qed.

Lemma keeps_readParams Encipher : keeps framed (readParams (K := K) TokenKey RSA Encipher).
Proof. unfold readParams. keep. all: try apply keeps_validJsonBody. Qed.

(** The raw data that the text [d] of a body stands for, under the secret of its
    token. *)
Definition opens (plan : Z) (d secret raw : string) : Prop :=
  (plan = 0 /\ raw = Base64Decode d) \/ (plan = 1 /\ AesDecrypt2 d secret = Ok raw).

(** A body that is signed with the secret of a token, less than five minutes from
    the clock of the node, and what it holds. *)
Definition signed_body (path body token : string) (now : Z) (raw : string) : Prop :=
  let secret := Jwt.GetTokenSecret token TokenKey in
  let d := GetJsonString body "d" in
  let time := GetJsonInt body "t" in
  let plan := GetJsonInt body "p" in
  HMAC_SHA256 (sign_text path d (GetJsonString body "n") time plan) secret true = GetJsonString body "s" /\
  MathAbs (int64 (now - time)) <= FIVE_MINUTES /\ opens plan d secret raw.

Lemma validReplay_keeps_body sign c u c' :
  validReplayAttack (K := K) sign c = (Ok u, c') -> Subj c' = Subj c /\ Json c' = Json c.
Proof.
  unfold validReplayAttack, replay_check, replay_store. intros H. act_inv. destruct (cache c) as [k|] eqn:Ek; act_inv; rewrite Ek in H.
  - destruct (c_put sign 600 (clock_ns c) k). by act_inv.
  - by act_inv.
Qed.

Lemma validJsonBody_signed c c' r :
  validJsonBody (K := K) TokenKey RSA None c = (Ok tt, c') -> Router c = Some r -> UseRSA r = false ->
  exists d raw, Data (Json c) = DStr d /\ Subj c' = Subj c /\ Data (Json c') = DBytes raw /\
    HMAC_SHA256 (sign_text (Path c) d (Nonce (Json c)) (Time (Json c)) (Plan (Json c))) (token_secret TokenKey c) true = Sign (Json c) /\
    MathAbs (int64 (UnixSecond c - Time (Json c))) <= FIVE_MINUTES /\ opens (Plan (Json c)) d (token_secret TokenKey c) raw.
Proof.
  intros H Hr Hu. unfold validJsonBody, body_checks, body_data in H. act_inv.
  destruct (Data (Json c)) as [|d|d] eqn:Ed; act_inv; try done. rewrite Hr in *. simplify_eq.
  unfold anonymous_key in *. rewrite Hu in *. act_inv. unfold expected_sign in *. change (slen "" =? 0) with true in *. cbn iota in *. act_inv.
  match goal with E : validReplayAttack _ _ = _ |- _ => apply validReplay_keeps_body in E as [Es Ej] end.
  repeat match goal with E : negb _ = false |- _ => apply negb_false_iff in E end.
  match goal with E : String.eqb _ _ = true |- _ => apply String.eqb_eq in E; rename E into Hsign end.
  match goal with E : (FIVE_MINUTES <? _) = false |- _ => apply Z.ltb_ge in E; rename E into Htime end.
  match goal with E : raw_data _ _ _ _ _ _ _ = (Ok ?raw, _) |- _ => rename E into Hraw; exists d, raw end.
  unfold raw_data in Hraw. rewrite Hu in Hraw. cbn [negb] in Hraw. rewrite !andb_true_r, !andb_false_r in Hraw.
  act_inv. destruct (Z.eqb_spec (Plan (Json c)) 0) as [E0|_]; [|destruct (Z.eqb_spec (Plan (Json c)) 1) as [E1|_]].
  - act_inv. split_and!; try done. left. by rewrite E0.
  - unfold decrypted in Hraw. act_inv. split_and!; try done. right. split; [done|]. unfold token_secret in *. by rewrite Es in *.
  - by act_inv.
Qed.

(** What [readParams] leaves on a route that needs a token. *)
Definition params_ok c : Prop :=
  if String.eqb (Method c) "POST" then
    GetRawBytes (Subj c) = Header_ (RequestCtx c) "Authorization" /\
    exists raw, Data (Json c) = DBytes raw /\ signed_body (Path c) (Body (RequestCtx c)) (GetRawBytes (Subj c)) (UnixSecond c) raw
  else GetRawBytes (Subj c) = "".

Lemma readParams_ok c c' r :
  readParams (K := K) TokenKey RSA None c = (Ok tt, c') -> Router c = Some r -> Guest r = false -> UseRSA r = false ->
  GetRawBytes (Subj c) = "" -> params_ok c'.
Proof.
  intros H Hr Hg Hu Ht. pose proof (keeps_readParams None c) as Hframe. rewrite H in Hframe. cbn [snd] in Hframe.
  destruct Hframe as (Fm & Fp & Fr & _ & Fc & _). unfold params_ok.
  unfold readParams in H. act_inv. destruct (String.eqb (Method c) "POST") eqn:Em; cbn [negb] in H.
  2: { act_inv. by rewrite Em. }
  rewrite Fm, Fp, Fr, Em. unfold UnixSecond at 1. rewrite Fc.
  act_inv. rewrite Hr in *. simplify_eq. rewrite Hg in H. act_inv.
  match goal with E : (if _ then _ else _) _ = _ |- _ => destruct (MAX_VALUE_LEN <? _); [discriminate E|] end. act_inv.
  eapply validJsonBody_signed in H as (d & raw & Hd & Hs & Hraw & Hsign & Htime & Ho); [|done|done].
  injection Hd as <-. unfold GetRawBytes. rewrite Hs. split; [done|]. exists raw. by split_and!.
Qed.
End Body.

(** ** The guard of the chain *)

Section Chains.
Implicit Types (f g : FilterObject) (fs : list FilterObject).

(** In a chain, what is lower in order is earlier. *)
Lemma chain_before fs i j f g :
  StronglySorted (fun a b => Order a <= Order b) fs -> fs !! i = Some f -> fs !! j = Some g -> Order f < Order g -> (i < j)%nat.
Proof.
  intros Hs. revert i j. induction Hs as [|x fs Hs IH Hx]; intros i j Hi Hj Ho; [done|].
  destruct i as [|i], j as [|j]; cbn in Hi, Hj.
  - simplify_eq. lia.
  - lia.
  - simplify_eq. rewrite Forall_forall in Hx. apply list_elem_of_lookup_2 in Hi. specialize (Hx f Hi). lia.
  - specialize (IH i j Hi Hj Ho). lia.
Qed.

(** The filters of the application are its own. *)
Definition own_filters (ext : list FilterObject) : Prop := Forall (fun f => exists n, Filter_ f = Some (ExtF n)) ext.

(** A filter of the node, and its order. *)
Definition builtin (g : Filter) : bool := match g with ExtF _ => false | _ => true end.

Definition rank (g : Filter) : Z :=
  match g with
  | RenderHandleF => min_int64 | GatewayRateLimiterF => -100 | ParameterF => -90 | SessionF => -80
  | UserRateLimiterF => -70 | RoleF => -60 | PostHandleF => max_int64 | ExtF _ => 0
  end.

Lemma chain_builtin ext fs f (g : Filter) :
  createFilterChain ext fs -> own_filters ext -> f ∈ fs -> Filter_ f = Some g -> builtin g = true -> f ∈ filterMap.
Proof.
  intros (Hp & _) Ho Hf Hg Hn. rewrite Hp in Hf. apply elem_of_app in Hf as [Hf|Hf]; [|done].
  unfold own_filters in Ho. rewrite Forall_forall in Ho. destruct (Ho f Hf) as [n En].
  rewrite Hg in En. by injection En as ->.
Qed.

Lemma builtin_exists (g : Filter) : builtin g = true -> exists f, f ∈ filterMap /\ Filter_ f = Some g.
Proof.
  intros Hg. assert (Exists (fun f => Filter_ f = Some g) filterMap) as He; [|by apply Exists_exists in He as (f & ? & ?); exists f].
  unfold filterMap. destruct g; try done; repeat (first [by apply Exists_cons_hd|apply Exists_cons_tl]).
Qed.

Lemma builtin_rank f (g : Filter) : f ∈ filterMap -> Filter_ f = Some g -> Order f = rank g.
Proof.
  unfold filterMap. intros Hf E. repeat (apply elem_of_cons in Hf as [->|Hf]; [by injection E as <-|]). by apply elem_of_nil in Hf.
Qed.

Lemma builtin_unique f g : f ∈ filterMap -> g ∈ filterMap -> Filter_ f = Filter_ g -> f = g.
Proof.
  unfold filterMap. intros Hf Hg E. repeat (apply elem_of_cons in Hf as [->|Hf]; [|]); [..|by apply elem_of_nil in Hf].
  all: repeat (apply elem_of_cons in Hg as [->|Hg]; [|]); [..|by apply elem_of_nil in Hg]; try discriminate E; done.
Qed.

Lemma builtin_pattern f : f ∈ filterMap -> MatchPattern f = [].
Proof.
  unfold filterMap. intros Hf. by repeat (apply elem_of_cons in Hf as [->|Hf]; [done|]); apply elem_of_nil in Hf.
Qed.

Lemma builtin_in ext fs f : createFilterChain ext fs -> f ∈ filterMap -> exists i, fs !! i = Some f.
Proof. intros (Hp & _) Hf. apply list_elem_of_lookup. rewrite Hp. apply elem_of_app. by right. Qed.
End Chains.

(** The filters that a walk has passed. *)
Definition seen (fs : list FilterObject) (g : Filter) (i : nat) : Prop :=
  exists j f, (j < i)%nat /\ fs !! j = Some f /\ Filter_ f = Some g.

Lemma seen_step fs f g h i : fs !! i = Some f -> Filter_ f = Some h -> seen fs g (S i) <-> seen fs g i \/ g = h.
Proof.
  intros Hi Hf. split.
  - intros (j & x & Hj & Hx & Hg). destruct (decide (j = i)) as [->|]; [right; congruence|].
    left. exists j, x. split; [lia|done].
  - intros [(j & x & Hj & Hx)| ->]; [exists j, x; split; [lia|done]|]. exists i, f. split; [lia|done].
Qed.

(** In a chain, a filter of the node comes after those of a lower order. *)
Lemma seen_before own fs a b i f :
  createFilterChain own fs -> own_filters own -> builtin a = true -> builtin b = true -> rank a < rank b ->
  fs !! i = Some f -> Filter_ f = Some b -> seen fs a i.
Proof.
  intros Hc Ho Ha Hb Hlt Hi Hf. destruct (builtin_exists a Ha) as (x & Hx & Ex). destruct (builtin_in own fs x Hc Hx) as [j Hj].
  exists j, x. split; [|done]. assert (f ∈ filterMap) by (by eapply chain_builtin; eauto using list_elem_of_lookup_2).
  destruct Hc as (_ & _ & Hs). apply (chain_before fs j i x f); [done..|]. by rewrite (builtin_rank x a), (builtin_rank f b).
Qed.

Lemma seen_earlier own fs a b i :
  createFilterChain own fs -> own_filters own -> builtin a = true -> builtin b = true -> rank a < rank b ->
  seen fs b i -> seen fs a i.
Proof.
  intros Hc Ho Ha Hb Hlt (j & f & Hj & Hf & Ef). destruct (seen_before own fs a b j f) as (k & x & Hk & Hx); try done.
  exists k, x. split; [lia|done].
Qed.

Lemma not_seen_again ext fs f g i :
  createFilterChain ext fs -> own_filters ext -> fs !! i = Some f -> Filter_ f = Some g -> builtin g = true -> ~ seen fs g i.
Proof.
  intros Hc Ho Hi Hf Hn (j & x & Hj & Hx & Hg).
  assert (x = f) as ->.
  { apply builtin_unique; [eapply chain_builtin; eauto using list_elem_of_lookup_2..|]. by rewrite Hg. }
  destruct Hc as (_ & Hnd & _). assert (i = j) as ->; [|lia].
  apply (NoDup_lookup (map Name fs) i j (Name f)); [done|rewrite list_lookup_fmap; by rewrite ?Hi, ?Hx..].
Qed.

Section Guard.
Context `{C : crypto_lib} `{J : json_lib} {K : Type} `{store : cache_store K}
  (TokenKey : string) (RSA : Cipher)
  (roleRealm : option (Context K -> bool -> outcome Throw (option Permission)))
  (postHandle : action K unit) (nonce : string) (iv : option string)
  (ext : nat -> action K unit -> action K unit).
Implicit Types (c : Context K).

(** A filter of the application that lets the rest of the chain run at most once,
    between two computations that leave the request, the session and the calls of
    the handler alone. *)
Definition polite (e : action K unit -> action K unit) : Prop :=
  exists (pre : action K bool) (post : outcome Throw unit -> action K unit),
    keeps same_core pre /\ (forall r, keeps same_core (post r)) /\
    forall chain c, e chain c =
      match pre c with
      | (Ok true, c1) => let '(r, c2) := chain c1 in post r c2
      | (Ok false, c1) => (Ok tt, c1)
      | (Err t, c1) => (Err t, c1)
      | (Panic w, c1) => (Panic w, c1)
      end.

Hypothesis polite_ext : forall n, polite (ext n).
Hypothesis postHandle_core : keeps same_core postHandle.

(** A computation that takes [P] to [Q] whatever its outcome, when [P] leads to [Q]
    by itself. *)
Definition leads (P Q : Context K -> Prop) (m : action K unit) : Prop := forall c, P c -> Q (m c).2.

Lemma sealed_core data r : keeps same_core (sealed (K := K) TokenKey None nonce iv data r).
Proof. unfold sealed. keep. Qed.

Lemma render_core : keeps same_core (defaultRenderPre (K := K) TokenKey None nonce iv).
Proof. unfold defaultRenderPre, write. keep. all: apply sealed_core. Qed.

Lemma render_error_core t : keeps same_core (defaultRenderError (K := K) nonce t).
Proof. unfold defaultRenderError, write. keep. Qed.

Section Walk.
Variables (P Q : Context K -> Prop).
Hypothesis P_Q : forall c, P c -> Q c.
Hypothesis P_core : forall c c', same_core c c' -> P c -> P c'.
Hypothesis Q_core : forall c c', same_core c c' -> Q c -> Q c'.

Lemma leads_polite e chain : polite e -> leads P Q chain -> leads P Q (e chain).
Proof.
  intros (pre & post & Hpre & Hpost & He) Hc c Hp. rewrite He. specialize (Hpre c).
  destruct (pre c) as [[[|]| |] c1]; cbn [snd] in Hpre |- *; [|by eauto..].
  pose proof (Hc c1 ltac:(by eauto)) as Hq. destruct (chain c1) as [r c2]. cbn [snd] in Hq.
  eapply Q_core; [apply (Hpost r c2)|done].
Qed.

Lemma leads_render chain : leads P Q chain -> leads P Q (RenderHandleFilter TokenKey None nonce iv chain).
Proof.
  intros Hc c Hp. specialize (Hc c Hp). unfold RenderHandleFilter.
  assert (Q (match chain c with (Ok _, c) => defaultRenderPre TokenKey None nonce iv c | r => r end).2) as Hq.
  { destruct (chain c) as [[[]| |] c1]; [|done..]. eapply Q_core; [apply render_core|done]. }
  destruct (match chain c with (Ok _, c) => _ | r => r end) as [[[]|t|w] c1]; cbn [snd] in Hq |- *; [done| |done].
  eapply Q_core; [apply render_error_core|done].
Qed.

Lemma leads_role chain : leads P Q chain -> leads P Q (RoleFilter roleRealm chain).
Proof.
  intros Hc c Hp. unfold RoleFilter. rewrite act_bind. cbn [ask]. destruct roleRealm as [realm|]; [|by apply Hc].
  destruct (negb (Authenticated c)); [by apply Hc|]. rewrite act_bind. unfold done_with. destruct (realm c false) as [[need|]| |]; try by auto.
  destruct (length (NeedRole need) =? 0)%nat; [by apply Hc|]. rewrite act_bind.
  destruct (realm c true); try by auto. destruct (role_access _ _ _ _); [by apply Hc|by auto].
Qed.

Lemma leads_after (m chain : action K unit) :
  (forall c, P c -> Q (m c).2) -> (forall c c', P c -> m c = (Ok tt, c') -> Q (chain c').2) -> leads P Q (_ ← m; chain).
Proof.
  intros Hm Hc c Hp. rewrite act_bind. specialize (Hm c Hp). destruct (m c) as [[[]| |] c1] eqn:E; [|done..].
  by apply (Hc c).
Qed.
End Walk.

(** The subject that a session carries. *)
Definition subject_of (s : Subject) : string := match s_Payload s with Some p => Sub p | None => "" end.

(** A token that is signed under the key of the node and has not expired. *)
Definition token_ok (now : Z) (token sub : string) : Prop :=
  exists v, Verify no_subject now token TokenKey true = Ok v /\ subject_of v = sub.

(** A call of the handler that the request and its token justify. *)
Definition authorised (method path : string) (request : HttpRequest) (now : Z) (cl : call) : Prop :=
  method = "POST" /\ c_token cl = Header_ request "Authorization" /\ token_ok now (c_token cl) (c_sub cl) /\
  exists raw, c_data cl = DBytes raw /\ signed_body TokenKey path (Body request) (c_token cl) now raw.

Lemma Verify_subject s now token s' :
  Verify s now token TokenKey true = Ok s' -> GetRawBytes s' = GetRawBytes s /\ token_ok now token (subject_of s').
Proof.
  unfold token_ok, Verify. intros H. destruct (slen token =? 0); [done|].
  destruct (split_on "."%char token) as [|p0 [|p1 [|p2 [|]]]]; try done.
  destruct (negb _); [done|]. destruct (slen (Base64Decode p1) =? 0); [done|]. destruct (_ <=? now); [done|].
  cbn [negb] in *. injection H as <-. split; [done|]. by eexists.
Qed.

Section Guarded.
Variables (method path : string) (request : HttpRequest) (r : RouterConfig) (now : Z) (H0 : list call)
  (own fs : list FilterObject).
Hypothesis chain_of : createFilterChain own fs.
Hypothesis own_own : own_filters own.
Hypothesis needs_token : Guest r = false.
Hypothesis not_anonymous : UseRSA r = false.

Definition fixed c : Prop :=
  Method c = method /\ Path c = path /\ RequestCtx c = request /\ Router c = Some r /\ UnixSecond c = now.

(** Before the handler: what the filters that were passed have checked. *)
Definition waiting c : Prop :=
  fixed c /\ handled c = H0 /\
  (seen fs ParameterF (pos c) -> params_ok TokenKey c) /\
  (~ seen fs ParameterF (pos c) -> GetRawBytes (Subj c) = "") /\
  (seen fs SessionF (pos c) -> GetRawBytes (Subj c) <> "" /\ token_ok now (GetRawBytes (Subj c)) (subject_of (Subj c))).

(** After it. *)
Definition called c : Prop :=
  Router c = Some r /\ postCompleted c = true /\ exists cl, handled c = (H0 ++ [cl])%list /\ authorised method path request now cl.

Definition guarded c : Prop := waiting c \/ called c.
Definition outcome_ok c : Prop := handled c = H0 \/ exists cl, handled c = (H0 ++ [cl])%list /\ authorised method path request now cl.

Lemma guarded_outcome c : guarded c -> outcome_ok c.
Proof. intros [(_ & H & _)|(_ & _ & H)]; [by left|by right]. Qed.

Lemma fixed_framed c c' : framed c c' -> fixed c -> fixed c'.
Proof.
  intros (Fm & Fp & Fr & Fo & Fc & _) (?&?&?&?&?). unfold fixed, UnixSecond in *. rewrite Fm, Fp, Fr, Fo, Fc. by split_and!.
Qed.

Lemma guarded_core c c' : same_core c c' -> guarded c -> guarded c'.
Proof.
  intros (Hf & Hs & Hj). pose proof (fixed_framed c c' Hf) as Hx. destruct Hf as (Fm & Fp & Fr & Fo & Fc & Fh & Fd & Fpos).
  intros [(Hfix & Hh & H1 & H2 & H3)|(Ho & Hd & Hc)].
  - left. unfold waiting, params_ok, UnixSecond in *. rewrite Fm, Fp, Fr, Fc, Fh, Fpos, Hs, Hj. by auto.
  - right. unfold called. by rewrite Fo, Fd, Fh.
Qed.

Lemma outcome_core c c' : same_core c c' -> outcome_ok c -> outcome_ok c'.
Proof. intros ((_ & _ & _ & _ & _ & Fh & _) & _ & _). unfold outcome_ok. by rewrite Fh. Qed.

Lemma guarded_advance c f g :
  guarded c -> fs !! pos c = Some f -> Filter_ f = Some g -> g <> ParameterF -> g <> SessionF -> guarded (with_pos c (S (pos c))).
Proof.
  intros [(Hfix & Hh & H1 & H2 & H3)|Hc] Hf Hg Np Ns; [left|by right].
  unfold waiting. cbn [pos with_pos handled]. rewrite !(seen_step fs f _ g (pos c)) by done.
  split_and!; try done; [intros [?|<-]; [by apply H1|done]|intros Hn; apply H2; tauto|intros [?|<-]; [by apply H3|done]].
Qed.

Section Steps.
Variable chain : action K unit.
Hypothesis chain_leads : leads guarded outcome_ok chain.

Lemma session_after_params i : seen fs SessionF i -> seen fs ParameterF i.
Proof. by apply (seen_earlier own). Qed.

Lemma step_params c f :
  guarded c -> fs !! pos c = Some f -> Filter_ f = Some ParameterF ->
  outcome_ok ((_ ← readParams TokenKey RSA None; chain) (with_pos c (S (pos c)))).2.
Proof.
  intros Hg Hf Ef. set (c1 := with_pos c (S (pos c))). rewrite act_bind.
  pose proof (keeps_readParams TokenKey RSA None c1) as Hk.
  destruct (readParams TokenKey RSA None c1) as [o c2] eqn:E. cbn [snd] in Hk. destruct Hg as [Hw|(Hr & Hd & Hc)].
  - destruct Hw as (Hfix & Hh & _ & Hraw & _).
    assert (~ seen fs ParameterF (pos c)) as Hns by by eapply not_seen_again.
    destruct o as [[]|t|w]; cbn [snd]; [|left; by destruct Hk as (_ & _ & _ & _ & _ & -> & _)..].
    apply chain_leads. left. split; [by apply (fixed_framed c1)|].
    pose proof (readParams_ok TokenKey RSA c1 c2 r E) as Hok. destruct Hk as (_ & _ & _ & _ & _ & -> & _ & ->).
    assert (params_ok TokenKey c2) by (apply Hok; [apply Hfix|done..|by apply Hraw]).
    split; [done|]. cbn [pos with_pos c1]. rewrite !(seen_step fs f _ ParameterF (pos c)) by done.
    split_and!; [done|by intros []; right|]. intros [Hs|]; [|done]. by destruct Hns; apply session_after_params.
  - assert (called c2) as Hc2.
    { destruct Hk as (_ & _ & _ & Fo & _ & Fh & Fd & _). unfold called. by rewrite Fo, Fh, Fd. }
    destruct o as [[]|t|w]; cbn [snd]; [apply chain_leads; by right|apply guarded_outcome; by right..].
Qed.

Lemma step_session c f :
  guarded c -> fs !! pos c = Some f -> Filter_ f = Some SessionF ->
  outcome_ok (SessionFilter TokenKey chain (with_pos c (S (pos c)))).2.
Proof.
  intros Hg Hf Ef. set (c1 := with_pos c (S (pos c))).
  assert (outcome_ok c1) as Ho by (apply guarded_outcome in Hg; exact Hg).
  assert (Router c1 = Some r) as Hr by (destruct Hg as [((_ & _ & _ & H & _) & _)|(H & _)]; exact H).
  unfold SessionFilter. rewrite act_bind. unfold router at 1. rewrite act_bind. cbn [ask]. rewrite Hr. cbn [mret action_ret].
  rewrite needs_token, not_anonymous. cbn [orb]. rewrite act_bind. cbn [ask].
  destruct (Z.eqb_spec (slen (GetRawBytes (Subj c1))) 0) as [|Hne]; [exact Ho|]. rewrite act_bind. unfold done_with.
  destruct (Verify _ _ _ _ _) as [s| |] eqn:Ev; [|exact Ho..]. cbn [map_err]. rewrite act_bind. unfold change.
  apply Verify_subject in Ev as [Hraw Hok]. apply chain_leads. destruct Hg as [Hw|Hc]; [left|by right].
  destruct Hw as (Hfix & Hh & Hpar & Hn & _). split; [done|]. split; [done|].
  assert (seen fs ParameterF (pos c)) as Hp by by apply (seen_before own fs _ SessionF _ f).
  cbn [pos with_pos with_subject Subj]. split_and!.
  - intros _. specialize (Hpar Hp). unfold params_ok in *. cbn [Method with_subject with_pos Subj]. by rewrite Hraw.
  - intros Hns. destruct Hns. apply (seen_step fs f _ SessionF); [done..|]. by left.
  - intros _. rewrite Hraw. destruct Hfix as (_ & _ & _ & _ & Hnow). split; [|by rewrite <- Hnow].
    intros E. apply Hne. by rewrite E.
Qed.

Lemma step_post c f :
  guarded c -> fs !! pos c = Some f -> Filter_ f = Some PostHandleF ->
  outcome_ok ((_ ← Handle postHandle; chain) (with_pos c (S (pos c)))).2.
Proof.
  intros Hg Hf Ef. set (c1 := with_pos c (S (pos c))). rewrite act_bind.
  enough (called (Handle postHandle c1).2 \/ (waiting (Handle postHandle c1).2 /\ postCompleted c1 = true /\ Handle postHandle c1 = (Ok tt, c1))) as Hh.
  { destruct (Handle postHandle c1) as [[[]| |] c2]; cbn [snd] in *.
    - apply chain_leads. unfold guarded. tauto.
    - apply guarded_outcome. unfold guarded. tauto.
    - apply guarded_outcome. unfold guarded. tauto. }
  assert (guarded c1) as Hg1 by (by eapply guarded_advance).
  unfold Handle. rewrite act_bind. cbn [ask]. destruct (postCompleted c1) eqn:Ep.
  { cbn [mret action_ret snd]. destruct Hg1; [right; by split_and!|by left]. }
  left. rewrite act_bind. unfold change. destruct Hg as [(Hfix & Hh & Hpar & _ & Hses)|(_ & Hd & _)]; [|unfold c1 in Ep; cbn in Ep; congruence].
  set (c2 := with_handled _ _). assert (called c2) as Hc2.
  2: { pose proof (postHandle_core c2) as ((_ & _ & _ & Fo & _ & Fh & Fd & _) & _). unfold called. by rewrite Fo, Fh, Fd. }
  assert (seen fs SessionF (pos c)) as Hs by by apply (seen_before own fs _ PostHandleF _ f).
  specialize (Hpar (session_after_params _ Hs)) as Hp. destruct (Hses Hs) as [Hne Htok].
  destruct Hfix as (Em & Epath & Ereq & Er & Enow). split; [exact Er|]. split; [done|].
  eexists. split; [unfold c2, c1; cbn [handled with_handled with_pos]; by rewrite Hh|].
  unfold params_ok in Hp. destruct (String.eqb_spec (Method c) "POST") as [Epost|]; [|done].
  destruct Hp as (Hauth & raw & Hraw & Hsig). rewrite Epath, Ereq, Enow in Hsig. split_and!; [congruence|cbn; congruence|exact Htok|].
  by exists raw.
Qed.
End Steps.

Lemma chain_guarded fuel : leads guarded outcome_ok (DoFilter TokenKey RSA None roleRealm postHandle nonce iv ext fs fuel).
Proof.
  induction fuel as [|fuel IH]; intros c Hg; cbn [DoFilter]; [by apply guarded_outcome|].
  destruct (fs !! pos c) as [f|] eqn:Hf; [|by apply guarded_outcome].
  destruct (Filter_ f) as [g|] eqn:Eg; [|by apply guarded_outcome].
  assert (g <> ParameterF -> g <> SessionF -> guarded (with_pos c (S (pos c)))) as Hadv by (by intros; eapply guarded_advance).
  destruct (MatchFilterURL (Path (with_pos c (S (pos c)))) (MatchPattern f)) eqn:Em.
  2: { apply IH, Hadv; intros ->; (assert (f ∈ filterMap) as Hb by (eapply chain_builtin; eauto using list_elem_of_lookup_2)); apply builtin_pattern in Hb;
       by rewrite Hb in Em. }
  destruct g; cbn [DoFilter_of].
  - by apply IH, Hadv.
  - by apply (step_params _ IH c f).
  - by apply (step_session _ IH c f).
  - by apply IH, Hadv.
  - apply (leads_role guarded outcome_ok); eauto using guarded_outcome.
  - by apply (step_post _ IH c f).
  - apply (leads_render guarded outcome_ok); eauto using guarded_outcome, outcome_core.
  - apply (leads_polite guarded outcome_ok); eauto using guarded_outcome, guarded_core, outcome_core.
Qed.
End Guarded.
End Guard.

(** ** The fuel of the chain

    Two walks that agree from a position on lead a filter to the same result: the
    number of filters is as good a fuel as any larger one. *)

Section Fuel.
Context `{C : crypto_lib} `{J : json_lib} {K : Type} `{store : cache_store K}
  (TokenKey : string) (RSA : Cipher) (Encipher : option EncipherClient)
  (roleRealm : option (Context K -> bool -> outcome Throw (option Permission)))
  (postHandle : action K unit) (nonce : string) (iv : option string)
  (ext : nat -> action K unit -> action K unit).
Implicit Types (c : Context K).

Definition agree (p : nat) (m1 m2 : action K unit) : Prop := forall c, (p <= pos c)%nat -> m1 c = m2 c.

Lemma agree_bind {A} p (m : action K A) (k1 k2 : A -> action K unit) :
  (forall c, pos (m c).2 = pos c) -> (forall a, agree p (k1 a) (k2 a)) -> agree p (m ≫= k1) (m ≫= k2).
Proof.
  intros Hm Hk c Hc. rewrite !act_bind. specialize (Hm c). destruct (m c) as [[a| |] c1]; [|done..]. apply Hk. cbn in Hm. lia.
Qed.

Lemma framed_pos {A} (m : action K A) : keeps framed m -> forall c, pos (m c).2 = pos c.
Proof. intros Hm c. by destruct (Hm c) as (_ & _ & _ & _ & _ & _ & _ & ->). Qed.

Hypothesis polite_ext : forall n, polite (ext n).
Hypothesis postHandle_core : keeps same_core postHandle.

Lemma handle_pos c : pos (Handle postHandle c).2 = pos c.
Proof.
  unfold Handle. rewrite act_bind. cbn [ask]. destruct (postCompleted c); [done|]. rewrite act_bind. cbn [change].
  by rewrite (framed_pos _ (same_core_framed _ postHandle_core)).
Qed.

Lemma agree_filter p g m1 m2 :
  agree p m1 m2 -> agree p (DoFilter_of TokenKey RSA Encipher roleRealm postHandle nonce iv ext g m1)
                     (DoFilter_of TokenKey RSA Encipher roleRealm postHandle nonce iv ext g m2).
Proof.
  intros Ha. destruct g; cbn [DoFilter_of]; try done.
  - apply agree_bind; [apply framed_pos, keeps_readParams|done].
  - unfold SessionFilter. apply agree_bind; [apply framed_pos; auto with keeps typeclass_instances|]. intros r.
    destruct (UseRSA r || Guest r); [done|]. apply agree_bind; [done|]. intros c. destruct (_ =? 0); [done|].
    apply agree_bind; [done|]. intros s. by apply agree_bind.
  - unfold RoleFilter. apply agree_bind; [done|]. intros c. destruct roleRealm as [realm|]; [|done]. destruct (negb _); [done|].
    apply agree_bind; [done|]. intros [need|]; [|done]. destruct (_ =? 0)%nat; [done|]. apply agree_bind; [done|]. intros has.
    by destruct (role_access _ _ _ _).
  - by apply agree_bind; [apply handle_pos|].
  - intros c Hc. unfold RenderHandleFilter. by rewrite (Ha c Hc).
  - destruct (polite_ext n) as (pre & post & Hpre & _ & He). intros c Hc. rewrite !He. specialize (Hpre c).
    destruct (pre c) as [[[|]| |] c1]; [|done..]. rewrite (Ha c1); [done|]. destruct Hpre as ((_ & _ & _ & _ & _ & _ & _ & Hpos) & _). cbn in Hpos. lia.
Qed.
End Fuel.

(** C1: on a route that is neither for guests nor anonymous, whatever the filters of
    the application are (as long as they run the rest of the chain at most once and
    leave the request and the session alone), the handler runs at most once for a
    request, and then the request was a POST, its token was signed by this node
    and had not expired, the handler saw the subject of that token, and the data it
    saw is what the body holds, signed with the secret of the token less than five
    minutes from the clock of the node. *)
Theorem handler_guarded `{C : crypto_lib} `{J : json_lib} {K : Type} `{store : cache_store K}
    TokenKey RSA roleRealm (postHandle : action K unit) nonce iv ext own fs (c : Context K) method path request routers r now :
  (forall n, polite (ext n)) -> keeps same_core postHandle -> createFilterChain own fs -> own_filters own ->
  routers !! path = Some r -> Guest r = false -> UseRSA r = false ->
  let c' := (doRequest TokenKey RSA None roleRealm postHandle nonce iv ext fs c method path request routers now).2 in
  handled c' = handled c \/
  exists cl, handled c' = (handled c ++ [cl])%list /\ authorised TokenKey method path request (now / 1000000000) cl.
Proof.
  intros Hext Hpost Hc Ho Hr Hg Hu c'. unfold c', doRequest.
  apply (chain_guarded TokenKey RSA roleRealm postHandle nonce iv ext Hext Hpost method path request r _ _ own); [done..|].
  assert (forall g, ~ seen fs g 0) as Hn by (intros g (j & f & Hj & _); lia).
  left. split; [by split_and!|]. split; [done|]. cbn [reset pos]. by split_and!; intros ?%Hn || intros _.
Qed.

(** C39: a walk along the chain ends by itself: any fuel that is not less than the number
    of filters ahead gives the same result, so the model of [DoFilter] never stops
    short. *)
Theorem chain_ends `{C : crypto_lib} `{J : json_lib} {K : Type} `{store : cache_store K}
    TokenKey RSA Encipher roleRealm (postHandle : action K unit) nonce iv ext fs fuel1 fuel2 (c : Context K) :
  (forall n, polite (ext n)) -> keeps same_core postHandle ->
  (length fs - pos c <= fuel1)%nat -> (length fs - pos c <= fuel2)%nat ->
  DoFilter TokenKey RSA Encipher roleRealm postHandle nonce iv ext fs fuel1 c =
  DoFilter TokenKey RSA Encipher roleRealm postHandle nonce iv ext fs fuel2 c.
Proof.
  intros Hext Hpost. revert fuel2 c. induction fuel1 as [|fuel1 IH]; intros fuel2 c H1 H2.
  { destruct fuel2; cbn [DoFilter]; [done|]. by rewrite lookup_ge_None_2 by lia. }
  destruct fuel2 as [|fuel2]; cbn [DoFilter]; [by rewrite lookup_ge_None_2 by lia|].
  destruct (fs !! pos c) as [f|] eqn:Hf; [|done]. apply lookup_lt_Some in Hf. destruct (Filter_ f) as [g|]; [|done].
  assert (agree (S (pos c)) (DoFilter TokenKey RSA Encipher roleRealm postHandle nonce iv ext fs fuel1)
            (DoFilter TokenKey RSA Encipher roleRealm postHandle nonce iv ext fs fuel2)) as Ha by (intros d Hd; apply IH; lia).
  destruct (MatchFilterURL _ _); [|by apply Ha].
  by apply (agree_filter TokenKey RSA Encipher roleRealm postHandle nonce iv ext Hext Hpost (S (pos c))).
Qed.

(** A library that reads the same request out of every text. *)
#[local] Instance one_crypto : crypto_lib := {
  md5_sum _ := "0123456789abcdef";
  sha256_mac _ _ := "0123456789abcdef0123";
  sha512_mac _ _ := "0123456789abcdef0123";
  cbc_encrypt _ _ p := p; cbc_decrypt _ _ p := p;
  b64_encode := hex; b64_decode := unhex
}.

#[local] Instance one_json : json_lib := {
  json_header _ := Ok "H"; json_payload _ := Ok "P";
  GetJsonString _ k :=
    if String.eqb k "d" then "4142" else if String.eqb k "n" then "0123456789abcdef0123456789abcdef"
    else if String.eqb k "s" then hex "0123456789abcdef0123" else "user";
  GetJsonInt _ k := if String.eqb k "t" then 1000 else if String.eqb k "exp" then 2000 else 0
}.

Definition one_token : string := "48.50." +:+ hex "0123456789abcdef0123".
Definition no_cipher : Cipher := mk_cipher "" (fun _ => Err "none").
Definition one_request : HttpRequest := mk_request "body" (fun h => if String.eqb h "Authorization" then one_token else "").
Definition sorted_filters : list FilterObject :=
  match filterMap with
  | [g; p; s; u; o; h; r] => [r; g; p; s; u; o; h]
  | l => l
  end.
Definition first_context {K} (k : option K) : Context K :=
  mk_context "" "" one_request None no_subject no_body ∅ false APPLICATION_JSON None [] 0 [] k 0.

Lemma sorted_filters_chain : createFilterChain [] sorted_filters.
Proof.
  split; [|split].
  - cbn. apply (Permutation_app_comm [mk_filter "RenderHandleFilter" min_int64 (Some RenderHandleF) []]).
  - apply (bool_decide_unpack _). exact I.
  - repeat constructor; unfold min_int64, max_int64; cbn; lia.
Qed.

Lemma handler_guarded_witness :
  let c := (doRequest (K := gmap string Z) "key" no_cipher None None (mret tt) "" None (fun _ chain => chain) sorted_filters
              (first_context (Some ∅)) "POST" "/a" one_request {["/a" := mk_router false false false false]} 1000000000000).2 in
  exists cl, handled c = [cl] /\ authorised "key" "POST" "/a" one_request 1000 cl.
Proof.
  intros c. destruct (handler_guarded (K := gmap string Z) "key" no_cipher None (mret tt) "" None (fun _ chain => chain) [] sorted_filters
    (first_context (Some ∅)) "POST" "/a" one_request {["/a" := mk_router false false false false]} (mk_router false false false false) 1000000000000)
    as [E|E].
  - intros _. exists (mret true), (fun r => done_with r). split; [by intros ?|]. split; [by intros ? ?|].
    intros chain d. cbn. by destruct (chain d).
  - by intros ?.
  - exact sorted_filters_chain.
  - apply Forall_nil. exact I.
  - reflexivity.
  - reflexivity.
  - reflexivity.
  - exfalso. vm_compute in E. discriminate E.
  - exact E.
Defined.

Lemma chain_ends_witness :
  let c := first_context (Some (∅ : gmap string Z)) in
  DoFilter "key" no_cipher None None (mret tt) "" None (fun _ chain => chain) sorted_filters 7 c =
  DoFilter "key" no_cipher None None (mret tt) "" None (fun _ chain => chain) sorted_filters 100 c.
Proof.
  apply chain_ends.
  - intros _. exists (mret true), (fun r => done_with r). split; [by intros ?|]. split; [by intros ? ?|].
    intros chain d. cbn. by destruct (chain d).
  - by intros ?.
  - vm_compute. lia.
  - vm_compute. lia.
Defined.
