(* ===== verification/Replay.v ===== *)
(** * Replayed requests and replies (the definitions of Request.v)

    How often a signed body is accepted, when any number of copies of it are in the node at
    the same time, and what the client finds in a reply. *)

From Stdlib Require Import Ascii.
From S2P Require Import Prelude GoStrings Common Exception Crypto Jwt Request RequestProofs.

#[local] Open Scope string_scope.
#[local] Open Scope Z_scope.
#[local] Existing Instances one_crypto one_json.

(** ** Replayed requests *)

Section Replays.
Context `{C : crypto_lib} {K : Type} `{laws : cache_laws K} (TokenKey : string) (RSA : Cipher) (Encipher : option EncipherClient).
Implicit Types (c : Context K) (k : K).

Definition window : Z := 600 * 1000000000.

(** The clock stands still, and what the cache knows it goes on knowing: an entry
    lives no shorter than it did, or than one that is written now. *)
Definition remembers c c' : Prop :=
  clock_ns c' = clock_ns c /\
  forall s u k, cache c = Some k -> lives k s u -> exists k', cache c' = Some k' /\ lives k' s (Z.min u (clock_ns c + window)).

#[local] Instance remembers_preorder : PreOrder remembers.
Proof.
  split.
  - intros c. split; [done|]. intros s u k Hk Hu. exists k. split; [done|]. apply (lives_le k s u); [done|lia].
  - intros c1 c2 c3 (E1 & H1) (E2 & H2). split; [congruence|]. intros s u k Hk Hu.
    destruct (H1 s u k Hk Hu) as (k2 & Hk2 & Hu2). destruct (H2 s _ k2 Hk2 Hu2) as (k3 & Hk3 & Hu3).
    exists k3. split; [done|]. apply (lives_le k3 s _ _ Hu3). rewrite E1. lia.
Qed.

Lemma remembers_change (f : Context K -> Context K) :
  (forall c, clock_ns (f c) = clock_ns c /\ cache (f c) = cache c) -> keeps remembers (change f).
Proof.
  intros Hf c. destruct (Hf c) as [E1 E2]. split; [done|]. intros s u k Hk Hu. exists k. cbn. rewrite E2. split; [done|].
  apply (lives_le k s u); [done|lia].
Qed.

#[local] Hint Extern 1 (keeps remembers (change _)) => (by apply remembers_change) : keeps.

Lemma remembers_raw r plan d : keeps remembers (raw_data (K := K) TokenKey RSA Encipher r plan d).
Proof. unfold raw_data, random_code, decrypted, AddStorage. keep. Qed.

Lemma remembers_store sign : keeps remembers (replay_store sign).
Proof.
  unfold replay_store. intros c. rewrite act_bind. cbn [ask]. destruct (cache c) as [k|] eqn:Hk; [|reflexivity]. cbn.
  destruct (c_put sign 600 (clock_ns c) k) as [r k'] eqn:Ep. split; [done|]. intros s u k0 Hk0 Hu. rewrite Hk in Hk0. injection Hk0 as <-.
  exists k'. split; [done|]. pose proof (put_keeps k s u sign 600 (clock_ns c) Hu) as H. by rewrite Ep in H.
Qed.

Lemma remembers_data r b d : keeps remembers (body_data (K := K) TokenKey RSA Encipher r b d).
Proof. unfold body_data. keep. apply remembers_raw. Qed.

Lemma keep_all : PreOrder (@eq (Context K)).
Proof. split; [by intros ?|intros ? ? ? -> ->; done]. Qed.
#[local] Existing Instance keep_all.

(** The checks and the look into the cache change nothing. *)
Lemma checks_same c : (body_checks (K := K) TokenKey RSA Encipher c).2 = c.
Proof.
  symmetry. revert c. change (keeps eq (body_checks (K := K) TokenKey RSA Encipher)). unfold body_checks, anonymous_key, expected_sign. keep.
Qed.

Lemma check_same sign c : (replay_check (K := K) sign c).2 = c.
Proof. symmetry. revert c. change (keeps eq (replay_check (K := K) sign)). unfold replay_check. keep. Qed.

Lemma checks_recent c r d c' : body_checks TokenKey RSA Encipher c = (Ok (r, d), c') ->
  0 < Time (Json c) /\ MathAbs (int64 (UnixSecond c - Time (Json c))) <= FIVE_MINUTES.
Proof. unfold body_checks. intros H. act_inv. z_bools. done. Qed.

(** A signature that the look does not find is not alive. *)
Lemma check_unknown sign c k x c' : cache c = Some k -> replay_check sign c = (Ok x, c') -> forall u, lives k sign u -> u < clock_ns c.
Proof.
  unfold replay_check. intros Hk H. rewrite act_bind in H. cbn [ask] in H. rewrite Hk in H. act_inv.
  intros u Hu. destruct (Z.lt_ge_cases u (clock_ns c)) as [|Hle]; [done|]. pose proof (lives_exists k sign u _ Hu Hle). congruence.
Qed.

(** A signature that was stored is alive from then on. *)
Lemma store_lives sign c k x c' : cache c = Some k -> replay_store sign c = (Ok x, c') ->
  clock_ns c' = clock_ns c /\ exists k', cache c' = Some k' /\ lives k' sign (clock_ns c + window).
Proof.
  unfold replay_store. intros Hk H. rewrite act_bind in H. cbn [ask] in H. rewrite Hk in H.
  destruct (c_put sign 600 (clock_ns c) k) as [r k'] eqn:Ep. act_inv. split; [done|].
  exists k'. split; [done|]. destruct x. by apply put_lives in Ep.
Qed.

(** ** Requests at the same time *)

(** The two halves of the check of a body, before and after the unlocked gap between the
    look into the cache and the store. *)
Definition look_half : action K (RouterConfig * string) :=
  c ← ask; x ← body_checks TokenKey RSA Encipher; _ ← replay_check (Sign (Json c)); mret x.

Definition store_half (x : RouterConfig * string) : action K unit :=
  c ← ask; _ ← replay_store (Sign (Json c)); body_data TokenKey RSA Encipher x.1 (Json c) x.2.

Lemma body_in_halves c : validJsonBody TokenKey RSA Encipher c = (look_half ≫= store_half) c.
Proof.
  unfold validJsonBody, look_half, store_half, validReplayAttack. rewrite !act_bind. cbn [ask]. rewrite !act_bind.
  pose proof (checks_same c) as E1. destruct (body_checks TokenKey RSA Encipher c) as [[[r d]| |] c1]; cbn [snd] in E1; subst c1; try done.
  rewrite !act_bind. pose proof (check_same (Sign (Json c)) c) as E2.
  by destruct (replay_check (Sign (Json c)) c) as [[[]| |] c2]; cbn [snd] in E2; subst c2.
Qed.

(** Where a request is: when it looked, and when it stored. *)
Inductive stage := Waiting | Looked (e : Z) (x : RouterConfig * string) | Accepted (e p : Z) | Refused.

(** The requests in the node at the same time, the cache they share, and the clock. *)
Record serving := mk_serving { shared : K; now : Z; flights : list (Context K * stage) }.

Inductive event := Tick (t : Z) | Look (i : nat) | Store (i : nat).

Definition at_time (c : Context K) (s : serving) : Context K := with_clock (with_cache c (Some (shared s))) (now s).

Definition serve_step (s : serving) (e : event) : serving :=
  match e with
  | Tick t => mk_serving (shared s) (Z.max (now s) t) (flights s)
  | Look i =>
      match flights s !! i with
      | Some (c, Waiting) =>
          let g := match (look_half (at_time c s)).1 with Ok x => Looked (now s) x | _ => Refused end in
          mk_serving (shared s) (now s) (<[i := (c, g)]> (flights s))
      | _ => s
      end
  | Store i =>
      match flights s !! i with
      | Some (c, Looked e x) =>
          let '(r, c') := store_half x (at_time c s) in
          mk_serving (default (shared s) (cache c')) (now s) (<[i := (c, if is_ok r then Accepted e (now s) else Refused)]> (flights s))
      | _ => s
      end
  end.

Definition serve (l : list event) (s : serving) : serving := foldl serve_step s l.

Definition arrived (k : K) (t : Z) (l : list (Context K)) : serving := mk_serving k t (map (fun c => (c, Waiting)) l).

Definition sign_of (c : Context K) : string := Sign (Json c).

(** What a request that looked at [e] may rely on, against one that stored at [p]. *)
Definition after (e p : Z) : Prop := p + window < e \/ e <= p.

Definition recent_at (c : Context K) (e : Z) : Prop :=
  0 < Time (Json c) /\ MathAbs (int64 (e / 1000000000 - Time (Json c))) <= FIVE_MINUTES.

Record orderly (s : serving) : Prop := {
  looked_before i c e x : flights s !! i = Some (c, Looked e x) -> e <= now s /\ recent_at c e;
  stored_before i c e p : flights s !! i = Some (c, Accepted e p) -> e <= p <= now s /\ recent_at c e;
  stored_lives i c e p : flights s !! i = Some (c, Accepted e p) -> lives (shared s) (sign_of c) (p + window);
  looked_after i j c d e x e' p : flights s !! i = Some (c, Looked e x) -> flights s !! j = Some (d, Accepted e' p) ->
    sign_of c = sign_of d -> after e p;
  accepted_after i j c d e p e' p' : i <> j -> flights s !! i = Some (c, Accepted e p) -> flights s !! j = Some (d, Accepted e' p') ->
    sign_of c = sign_of d -> p + window < e' \/ p' + window < e \/ (e <= p' /\ e' <= p)
}.

Lemma look_ok c k x : cache c = Some k -> (look_half c).1 = Ok x ->
  recent_at c (clock_ns c) /\ forall u, lives k (sign_of c) u -> u < clock_ns c.
Proof.
  unfold look_half. intros Hk H. destruct ((ask ≫= _) c) as [o c2] eqn:E. cbn [fst] in H. subst o. act_inv.
  match goal with E : body_checks _ _ _ c = (Ok ?y, ?c1) |- _ => pose proof (checks_same c) as Esame; rewrite E in Esame; cbn [snd] in Esame; subst c1; destruct y as [r d] end.
  split; [by eapply checks_recent|]. by eapply check_unknown.
Qed.

Lemma store_ok c k x r c' : cache c = Some k -> store_half x c = (r, c') ->
  (forall s u, lives k s u -> exists k', cache c' = Some k' /\ lives k' s (Z.min u (clock_ns c + window))) /\
  (is_ok r = true -> exists k', cache c' = Some k' /\ lives k' (sign_of c) (clock_ns c + window)).
Proof.
  intros Hk H. unfold store_half in H. rewrite act_bind in H. cbn [ask] in H. rewrite act_bind in H.
  pose proof (remembers_store (Sign (Json c)) c) as Hs. destruct (replay_store (Sign (Json c)) c) as [o c1] eqn:E. cbn [snd] in Hs.
  pose proof (remembers_data x.1 (Json c) x.2 c1) as Hd.
  assert (remembers c c') as Hr by (destruct o as [u| |]; [|by injection H as <- <-..]; rewrite H in Hd; by etrans).
  split; [intros s u Hu; by apply (proj2 Hr s u k)|]. destruct o as [u| |]; [|by injection H as <- <-..].
  intros _. apply (store_lives _ _ k) in E as (Et & k1 & Hk1 & Hl); [|done]. rewrite H in Hd.
  destruct (proj2 Hd _ _ k1 Hk1 Hl) as (k2 & Hk2 & Hl2). exists k2. split; [done|]. apply (lives_le _ _ _ _ Hl2). rewrite Et. unfold sign_of. lia.
Qed.

Lemma flight_at (l : list (Context K * stage)) (i j : nat) (f g : Context K * stage) : <[i := f]> l !! j = Some g -> (i = j /\ g = f) \/ (i <> j /\ l !! j = Some g).
Proof. intros H. apply list_lookup_insert_Some in H as [(-> & -> & _)|[? ?]]; [by left|by right]. Qed.

(** An answer that is not an acceptance, and the look. *)
Lemma orderly_look s i c : orderly s -> flights s !! i = Some (c, Waiting) ->
  orderly (mk_serving (shared s) (now s)
    (<[i := (c, match (look_half (at_time c s)).1 with Ok x => Looked (now s) x | _ => Refused end)]> (flights s))).
Proof.
  intros [H1 H2 H3 H4 H5] Hi. split; cbn [flights shared now].
  - intros j d e x [[<- E]|[_ Hj]]%flight_at; [|by eapply H1]. injection E as <- Es.
    destruct (look_half (at_time d s)).1 eqn:El; try done. injection Es as -> ->. split; [done|]. exact (proj1 (look_ok (at_time d s) (shared s) _ eq_refl El)).
  - intros j d e p [[<- E]|[_ Hj]]%flight_at; [|by eapply H2]. by destruct (look_half _).1.
  - intros j d e p [[<- E]|[_ Hj]]%flight_at; [|by eapply H3]. by destruct (look_half _).1.
  - intros j j' d d' e x e' p [[<- E]|[_ Hj]]%flight_at [[<- E']|[_ Hj']]%flight_at Hs; try by eapply H4.
    + by destruct (look_half _).1.
    + injection E as -> Es. destruct (look_half (at_time c s)).1 eqn:El; try done. injection Es as -> ->. left.
      apply (proj2 (look_ok (at_time c s) (shared s) _ eq_refl El)). change (sign_of (at_time c s)) with (sign_of c). rewrite Hs. by eapply H3.
    + by destruct (look_half _).1.
  - intros j j' d d' e p e' p' Hne [[<- E]|[_ Hj]]%flight_at [[<- E']|[_ Hj']]%flight_at; try (by destruct (look_half _).1). by eapply H5.
Qed.

Lemma orderly_store s i c e x r c' : orderly s -> flights s !! i = Some (c, Looked e x) -> store_half x (at_time c s) = (r, c') ->
  orderly (mk_serving (default (shared s) (cache c')) (now s) (<[i := (c, if is_ok r then Accepted e (now s) else Refused)]> (flights s))).
Proof.
  intros [H1 H2 H3 H4 H5] Hi Hr. destruct (store_ok (at_time c s) (shared s) x r c' eq_refl Hr) as [Hkeep Hnew]. cbn [at_time with_clock clock_ns] in Hkeep, Hnew.
  assert (forall sg u, u <= now s + window -> lives (shared s) sg u -> lives (default (shared s) (cache c')) sg u) as Hk.
  { intros sg u Hu Hl. destruct (Hkeep sg u Hl) as (k' & -> & Hl'). apply (lives_le _ _ _ _ Hl'). lia. }
  destruct (H1 i c e x Hi) as [He Hrec].
  split; cbn [flights shared now].
  - intros j d e1 x1 [[<- E]|[_ Hj]]%flight_at; [|by eapply H1]. by destruct (is_ok r).
  - intros j d e1 p [[<- E]|[_ Hj]]%flight_at; [|by eapply H2]. destruct (is_ok r); [|done]. injection E as -> -> ->. by split.
  - intros j d e1 p [[<- E]|[_ Hj]]%flight_at.
    + destruct (is_ok r); [|done]. injection E as -> -> ->. destruct (Hnew eq_refl) as (k' & -> & Hl). exact Hl.
    + apply Hk; [|by eapply H3]. destruct (H2 _ _ _ _ Hj). lia.
  - intros j j' d d' e1 x1 e' p [[<- E]|[_ Hj]]%flight_at [[<- E']|[_ Hj']]%flight_at Hs; try (by destruct (is_ok r)); try by eapply H4.
    destruct (is_ok r); [|done]. injection E' as -> -> ->. right. by eapply H1.
  - intros j j' d d' e1 p e' p' Hne [[<- E]|[_ Hj]]%flight_at [[<- E']|[_ Hj']]%flight_at Hs; try done; try by eapply H5.
    + destruct (is_ok r); [|done]. injection E as -> -> ->. destruct (H4 i j' c d' e x e' p' Hi Hj' Hs); destruct (H2 _ _ _ _ Hj'); [right; left; lia|right; right; lia].
    + destruct (is_ok r); [|done]. injection E' as -> -> ->. destruct (H4 i j c d e x e1 p Hi Hj (eq_sym Hs)); destruct (H2 _ _ _ _ Hj); [left; lia|right; right; lia].
Qed.

Lemma orderly_step s e : orderly s -> orderly (serve_step s e).
Proof.
  intros H. destruct e as [t|i|i]; cbn [serve_step].
  - destruct H as [H1 H2 H3 H4 H5]. split; cbn [flights shared now]; try done.
    + intros i c e x Hi. destruct (H1 _ _ _ _ Hi). split; [lia|done].
    + intros i c e p Hi. destruct (H2 _ _ _ _ Hi). split; [lia|done].
  - destruct (flights s !! i) as [[c []]|] eqn:Hi; try done. by apply orderly_look.
  - destruct (flights s !! i) as [[c [|e x| |]]|] eqn:Hi; try done. destruct (store_half x (at_time c s)) as [r c'] eqn:Hr. by eapply orderly_store.
Qed.

Lemma orderly_arrived k t l : orderly (arrived k t l).
Proof.
  assert (forall i c g, flights (arrived k t l) !! i = Some (c, g) -> g = Waiting) as Hw.
  { intros i c g. cbn. rewrite list_lookup_fmap. destruct (l !! i); [|done]. by intros [= _ <-]. }
  split; intros; repeat match goal with H : flights _ !! _ = Some _ |- _ => apply Hw in H; try discriminate H end.
Qed.

Lemma serve_orderly l s : orderly s -> orderly (serve l s).
Proof. revert s. induction l as [|e l IH]; intros s H; [done|]. by apply IH, orderly_step. Qed.

(** The clock goes on, and the requests stay what they are. *)
Lemma serve_clock l s : now s <= now (serve l s).
Proof.
  revert s. induction l as [|e l IH]; intros s; [done|]. etrans; [|apply IH]. destruct e as [t|i|i]; cbn [serve_step now]; [lia|..].
  - by destruct (flights s !! i) as [[c []]|].
  - destruct (flights s !! i) as [[c [|e x| |]]|]; try done. by destruct (store_half x (at_time c s)).
Qed.

Lemma MathAbs_small x : - 2 ^ 63 < x < 2 ^ 63 -> MathAbs x = Z.abs x.
Proof.
  intros Hx. rewrite MathAbs_spec by (unfold in_int64, min_int64, max_int64; lia). case_match; z_bools; unfold min_int64 in *; lia.
Qed.

(** The look is within five minutes of the time in the body. *)
Lemma recent_window c e : 0 <= e < 2 ^ 62 -> Time (Json c) <= max_int64 -> recent_at c e ->
  (Time (Json c) - FIVE_MINUTES) * 1000000000 <= e < (Time (Json c) + FIVE_MINUTES + 1) * 1000000000.
Proof.
  unfold max_int64, recent_at, FIVE_MINUTES. intros He Ht [H0 H].
  pose proof (Z.div_mod e 1000000000 ltac:(lia)). pose proof (Z.mod_pos_bound e 1000000000 ltac:(lia)).
  rewrite int64_small in H by (unfold in_int64, min_int64, max_int64; lia). rewrite MathAbs_small in H by lia. lia.
Qed.
End Replays.


(** One request with the time 1300. *)
Definition one_body {K} (k : option K) (now : Z) : Context K :=
  mk_context "POST" "/a" one_request (Some (mk_router false false false false)) (mk_subject (mk_header "" "") None one_token "")
    (mk_body (DStr "4142") 1300 "0123456789abcdef0123456789abcdef" 0 (hex "0123456789abcdef0123")) ∅ false APPLICATION_JSON None [] 0 [] k now.

(** Four copies of it: the first two look before either stores, the third comes a second
    later, the fourth half a second past 1600. *)
Definition four_copies : serving (K := gmap string Z) :=
  serve "key" no_cipher None [Look 0; Look 1; Tick 1000000000500; Store 0; Store 1; Tick 1001000000000; Look 2; Tick 1600500000000; Look 3; Store 3]
    (arrived ∅ 1000000000000 (replicate 4 (one_body None 0))).

(** The two that overlap are both accepted. *)
Example overlapping_accepted : map snd (flights four_copies) =
  [Accepted 1000000000000 1000000000500; Accepted 1000000000000 1000000000500; Refused; Accepted 1600500000000 1600500000000].
Proof. vm_compute. reflexivity. Qed.


(** The cache that a node has by default is new at each request: the same request
    is accepted every time. *)
Example default_cache_forgets :
  let c := one_body (Some Fresh) 1000000000000 in
  let '(r, c') := validJsonBody "key" no_cipher None c in
  is_ok r = true /\ cache c' = cache c /\ is_ok (validJsonBody "key" no_cipher None (with_cache c (cache c'))).1 = true.
Proof. vm_compute. by split_and!. Qed.

(** Nothing separates the parts that are signed. *)
Example sign_text_ambiguous : sign_text "/a" "QUJD" "x0123" 5 1 = sign_text "/aQUJDx0" "" "1" 23 51.
Proof. reflexivity. Qed.

(** ** Replies *)

Section Replies.
Context `{C : crypto_lib, !crypto_laws C} `{J : json_lib} {K : Type} (TokenKey : string).
Implicit Types (c : Context K).

(** The reply to a client that holds [secret] opens to [data]: the text is signed with
    the secret, and its plan says how to read it. *)
Definition opens_to (path secret : string) (resp : JsonResp) (data : string) : Prop :=
  r_Code resp = 200 /\
  HMAC_SHA256 (sign_text path (r_Data resp) (r_Nonce resp) (r_Time resp) (r_Plan resp)) secret true = r_Sign resp /\
  if r_Plan resp =? 0 then Base64Decode (r_Data resp) = data else AesDecrypt2 (r_Data resp) secret = Ok data.

(** Which secret, and which plan, a route and a request call for. *)
Definition reply_secret c (r : RouterConfig) : option string :=
  if UseRSA r then Storage c !! "RandomCode" else Some (token_secret TokenKey c).

Definition reply_plan (r : RouterConfig) : Z := if UseRSA r then 2 else if AesResponse r then 1 else 0.

Lemma sealed_opens nonce bytes data c r secret :
  String.length bytes = 16%nat -> data <> "" -> reply_secret c r = Some secret -> secret <> "" ->
  (UseRSA r = true -> Plan (Json c) = 2) ->
  exists resp c', sealed TokenKey None nonce (Some bytes) data r c = (Ok resp, c') /\ same_core c c' /\ written c' = written c /\
    r_Plan resp = reply_plan r /\ r_Nonce resp = nonce /\ opens_to (Path c) secret resp data.
Proof.
  intros Hb Hd Hs Hne Hp. unfold sealed, reply_secret, reply_plan in *. rewrite act_bind. cbn [ask].
  assert (slen data =? 0 = false) as Hlen by (apply Z.eqb_neq; destruct data; [done|unfold slen; cbn; lia]).
  assert (0 <? slen secret = true) as Hlen2 by (apply Z.ltb_lt; destruct secret; [done|unfold slen; cbn; lia]).
  destruct (UseRSA r).
  - rewrite (Hp eq_refl), Hs. cbn [Z.eqb Pos.eqb].
    destruct (decrypt_encrypt bytes data secret Hb) as (msg & He & Hdec). rewrite Hlen in Hdec.
    rewrite He. do 2 eexists. split; [reflexivity|]. split_and!; try done. unfold opens_to, JsonOk, GetHmac256Sign. cbn. by rewrite Hlen2.
  - injection Hs as Hs. destruct (AesResponse r).
    + destruct (decrypt_encrypt bytes data (token_secret TokenKey c) Hb) as (msg & He & Hdec). rewrite Hlen in Hdec.
      rewrite He. do 2 eexists. split; [reflexivity|]. split_and!; try done. unfold opens_to, GetHmac256Sign. cbn. by rewrite Hs in *.
    + do 2 eexists. split; [reflexivity|]. split_and!; try done. unfold opens_to, GetHmac256Sign. cbn. rewrite <- Hs. split_and!; [done..|].
      apply Base64_round.
Qed.

(** The reply, and what the rendering leaves as it was. *)
Lemma render_opens nonce bytes c r data secret :
  String.length bytes = 16%nat -> Router c = Some r -> Guest r = false ->
  ContentType c = APPLICATION_JSON -> ContentEntity c = Some data -> data <> "" ->
  reply_secret c r = Some secret -> secret <> "" -> (UseRSA r = true -> Plan (Json c) = 2) ->
  exists resp c', (exists c1, sealed TokenKey None nonce (Some bytes) data r c = (Ok resp, c1)) /\
    defaultRenderPre TokenKey None nonce (Some bytes) c = (Ok tt, c') /\
    written c' = (written c ++ [RJson resp])%list /\ handled c' = handled c /\
    r_Plan resp = reply_plan r /\ opens_to (Path c) secret resp data.
Proof.
  intros Hb Hr Hg Ht He Hd Hs Hne Hp.
  destruct (sealed_opens nonce bytes data c r secret Hb Hd Hs Hne Hp) as (resp & c1 & Hsealed & ((_ & _ & _ & _ & _ & Hh & _) & _) & Hw & Hplan & _ & Ho).
  unfold defaultRenderPre. rewrite act_bind. cbn [ask]. rewrite Ht, He, act_bind. unfold router at 1. rewrite act_bind. cbn [ask]. rewrite Hr.
  cbn [mret action_ret]. rewrite Hg, act_bind, Hsealed. do 2 eexists. split; [by eexists|]. split; [reflexivity|]. cbn. rewrite Hw. by split_and!.
Qed.
End Replies.

(** C32: the reply to a request of a route that is not for guests is one JSON reply
    that a client with the secret of the request can verify and open: with the
    secret of its token, or, on an anonymous route, with the random code it sent.
    What it finds is the text of the entity, which must not be empty; it is
    encrypted when the route says so. *)
Theorem reply_opens `{C : crypto_lib, !crypto_laws C} `{J : json_lib} {K : Type} TokenKey nonce bytes (c : Context K) r data secret :
  String.length bytes = 16%nat -> Router c = Some r -> Guest r = false ->
  ContentType c = APPLICATION_JSON -> ContentEntity c = Some data -> data <> "" ->
  reply_secret TokenKey c r = Some secret -> secret <> "" -> (UseRSA r = true -> Plan (Json c) = 2) ->
  exists resp c', defaultRenderPre TokenKey None nonce (Some bytes) c = (Ok tt, c') /\
    written c' = (written c ++ [RJson resp])%list /\ r_Plan resp = reply_plan r /\ opens_to (Path c) secret resp data.
Proof.
  intros Hb Hr Hg Ht He Hd Hs Hne Hp.
  destruct (render_opens TokenKey nonce bytes c r data secret Hb Hr Hg Ht He Hd Hs Hne Hp) as (resp & c1 & _ & Hrun & Hw & _ & Hplan & Ho).
  exists resp, c1. by split_and!.
Qed.

(** An anonymous request with its code, and a route that encrypts. *)
Lemma reply_opens_witness :
  let c := mk_context "POST" "/a" one_request (Some (mk_router false true true true)) no_subject (mk_body DNil 0 "" 2 "")
             {["RandomCode" := "code"]} true APPLICATION_JSON (Some "hello") [] 0 [] (Some Fresh) 7000000 in
  exists resp c', defaultRenderPre (C := toy_crypto) "key" None "n" (Some "0123456789abcdef") c = (Ok tt, c') /\
    written c' = [RJson resp] /\ r_Plan resp = 2 /\ opens_to (C := toy_crypto) "/a" "code" resp "hello".
Proof.
  intros c. apply (reply_opens (C := toy_crypto) "key" "n" "0123456789abcdef" c (mk_router false true true true) "hello" "code");
    try reflexivity; discriminate.
Defined.
