(* ===== verification/Sdk.v ===== *)
(** * The client of a node ([src/utils/sdk/auth.go])

    A call changes the client and the world around it: its clock, its random source
    and the network behind [fasthttp], which are operations of a class.  Objects are
    given by what their JSON encoder answers, and an answer is decoded into an object
    that there is.  What the client prints when it debugs is left out. *)

From Stdlib Require Import Ascii.
From S2P Require Import Prelude GoStrings Common Exception Crypto Jwt Request.

#[local] Open Scope string_scope.
#[local] Open Scope Z_scope.

Record AuthToken := mk_auth { Token : string; Secret : string; a_Expired : Z }.
Definition no_auth : AuthToken := mk_auth "" "" 0.

(** An object, nil or the answer of its JSON encoder. *)
Abbreviation jobject := (option (outcome string string)).

Record HttpSDK := mk_sdk {
  Domain : string;
  AuthDomain : string;
  KeyPath : string;
  LoginPath : string;
  publicKey : string;
  language : string;
  timeout : Z;
  authObject : jobject;
  authToken : AuthToken
}.

Definition set_AuthObject (s : HttpSDK) x := mk_sdk (Domain s) (AuthDomain s) (KeyPath s) (LoginPath s) (publicKey s) (language s) (timeout s) x (authToken s).
Definition set_AuthToken (s : HttpSDK) x := mk_sdk (Domain s) (AuthDomain s) (KeyPath s) (LoginPath s) (publicKey s) (language s) (timeout s) (authObject s) x.
Definition SetTimeout (s : HttpSDK) x := mk_sdk (Domain s) (AuthDomain s) (KeyPath s) (LoginPath s) (publicKey s) (language s) x (authObject s) (authToken s).
Definition SetPublicKey (s : HttpSDK) x := mk_sdk (Domain s) (AuthDomain s) (KeyPath s) (LoginPath s) x (language s) (timeout s) (authObject s) (authToken s).
Definition SetLanguage (s : HttpSDK) x := mk_sdk (Domain s) (AuthDomain s) (KeyPath s) (LoginPath s) (publicKey s) x (timeout s) (authObject s) (authToken s).

Definition getURI (s : HttpSDK) (path : string) : string :=
  if String.eqb (KeyPath s) path || String.eqb (LoginPath s) path then AuthDomain s +:+ path else Domain s +:+ path.

(** A request on the wire; the time-out is in nanoseconds. *)
Record http_request := mk_http {
  URI : string;
  Authorization : string;
  RandomCode : string;
  Language : string;
  h_Body : string;
  h_Timeout : Z
}.

Class body_json := {
  json_body : JsonBody -> outcome string string;
  JsonValid : string -> bool
}.

(** Around the client: its clock, in seconds, its random source, of which a draw can
    fail, the public-key library and the network. *)
Class client_world (N : Type) := {
  now_second : N -> Z;
  draw_16 : N -> option string * N;
  CreateSafeRandom : N -> string * N;
  LoadBase64PublicKey : string -> outcome string string;
  ecc_Encrypt : string -> string -> N -> outcome string string * N;
  http_get : string -> N -> outcome string string * N;
  http_post : http_request -> N -> outcome string string * N
}.

Section Client.
Context `{C : crypto_lib} `{J : json_lib} `{B : body_json} {N : Type} `{W : client_world N}.

(** ** Computations *)

Definition sdk (A : Type) : Type := HttpSDK * N -> outcome Throw A * (HttpSDK * N).

#[export] Instance sdk_ret : MRet sdk := fun A a w => (Ok a, w).
#[export] Instance sdk_bind : MBind sdk := fun A B k m w =>
  match m w with
  | (Ok a, w) => k a w
  | (Err e, w) => (Err e, w)
  | (Panic p, w) => (Panic p, w)
  end.

Definition self : sdk HttpSDK := fun w => (Ok w.1, w).
Definition world : sdk N := fun w => (Ok w.2, w).
Definition refuse {A} (code : Z) (msg : string) : sdk A := fun w => (Err (new_throw code msg), w).
Definition ensure (b : bool) (msg : string) : sdk unit := if b then mret tt else refuse 0 msg.
Definition or_refuse {A} (msg : string) (o : outcome string A) : sdk A := fun w => (map_err (fun _ => new_throw 0 msg) o, w).
Definition outside {A} (f : N -> A * N) : sdk A := fun w => let '(a, n) := f w.2 in (Ok a, (w.1, n)).
Definition update_self (f : HttpSDK -> HttpSDK) : sdk unit := fun w => (Ok tt, (f w.1, w.2)).

(** ** Requests and replies *)

Definition RandNonce : sdk string := r ← outside draw_16; mret (RandStr2 r).

Definition sdk_encrypt (data key : string) : sdk string :=
  r ← outside draw_16; or_refuse "" (AesEncrypt2 r data key).

Definition signed (path data nonce : string) (time plan : Z) (key : string) : string :=
  HMAC_SHA256 (sign_text path data nonce time plan) key true.

(** The reply to a request, read field by field. *)
Definition read_resp (b : string) : JsonResp :=
  mk_resp (GetJsonInt b "c") (GetJsonString b "m") (GetJsonString b "d") (GetJsonInt b "t") (GetJsonString b "n")
    (GetJsonInt b "p") (GetJsonString b "s").

Definition post (path auth code body : string) : sdk string :=
  s ← self;
  let t := if 0 <? timeout s then int64 (timeout s * 1000000000) else 120000000000 in
  r ← outside (http_post (mk_http (getURI s path) auth code (language s) body t));
  match r with
  | Ok b => mret b
  | Err e => refuse 0 ("post request failed: " +:+ e)
  | Panic p => fun w => (Panic p, w)
  end.

(** [JsonUnmarshal] of a text into an object. *)
Definition JsonUnmarshal {R} (unjson : string -> R -> outcome string R) (dec : string) (old : R) : outcome string R :=
  if slen dec =? 0 then Ok old
  else if negb (JsonValid dec) then Err "JSON format invalid"
  else unjson dec old.

(** A reply that carries an error. *)
Definition refused {A} (resp : JsonResp) : sdk A :=
  refuse (if 0 <? r_Code resp then r_Code resp else 0) (r_Message resp).

Definition check_reply (path key : string) (resp : JsonResp) : sdk unit :=
  ensure (String.eqb (signed path (r_Data resp) (r_Nonce resp) (r_Time resp) (r_Plan resp) key) (r_Sign resp))
    "post response sign verify invalid".

Definition fetch_public_key : sdk string :=
  s ← self;
  if 0 <? slen (publicKey s) then mret (publicKey s)
  else
    r ← outside (http_get (getURI s (KeyPath s)));
    b ← or_refuse "request public key failed" r;
    _ ← ensure (negb (slen b =? 0)) "request public key invalid";
    mret b.

(** The request of [PostByECC]: the data under a new key, which goes along, encrypted
    for the node; the signature is keyed with the public key. *)
Definition ecc_body (path jsonData pub clientKey nonce : string) (time : Z) : sdk JsonBody :=
  d ← sdk_encrypt jsonData clientKey;
  mret (mk_body (DStr d) time nonce 2 (signed path d nonce time 2 pub)).

Definition PostByECC {R} (unjson : string -> R -> outcome string R) (path : string) (requestObj : jobject) (responseObj : option R) : sdk R :=
  match requestObj, responseObj with
  | Some requestObj, Some responseObj =>
      _ ← ensure (negb (slen path =? 0)) "params invalid";
      jsonData ← or_refuse "request data JsonMarshal invalid" requestObj;
      n ← world;
      let time := now_second n in
      nonce ← RandNonce;
      pub ← fetch_public_key;
      clientSecretKey ← outside CreateSafeRandom;
      pubBs ← or_refuse "load ECC public key failed" (LoadBase64PublicKey pub);
      r ← outside (ecc_Encrypt pubBs clientSecretKey);
      r ← or_refuse "ECC encrypt failed" r;
      let randomCode := Base64Encode r in
      body ← ecc_body path jsonData pub clientSecretKey nonce time;
      bytesData ← or_refuse "jsonBody data JsonMarshal invalid" (json_body body);
      b ← post path "" randomCode bytesData;
      let resp := read_resp b in
      if negb (r_Code resp =? 200) then
        if negb (JsonValid b) && (slen (r_Message resp) =? 0) then refuse 0 b else refused resp
      else
        _ ← check_reply path clientSecretKey resp;
        dec ← or_refuse "post response data AES decrypt failed" (AesDecrypt2 (r_Data resp) clientSecretKey);
        or_refuse "response data JsonUnmarshal invalid" (JsonUnmarshal unjson dec responseObj)
  | _, _ => refuse 0 "params invalid"
  end.

(** ** The session of the client *)

Definition valid (s : HttpSDK) (now : Z) : bool :=
  negb (slen (Token (authToken s)) =? 0) && negb (slen (Secret (authToken s)) =? 0) &&
  negb (int64 (a_Expired (authToken s) - 3600) <? now).

Context (unjson_token : string -> AuthToken -> outcome string AuthToken).

Definition checkAuth : sdk unit :=
  s ← self;
  n ← world;
  if valid s (now_second n) then mret tt
  else match authObject s with
       | None => mret tt
       | Some obj =>
           _ ← ensure (negb (slen (Domain s) =? 0)) "domain is nil";
           _ ← ensure (negb (slen (KeyPath s) =? 0)) "keyPath is nil";
           _ ← ensure (negb (slen (LoginPath s) =? 0)) "loginPath is nil";
           t ← PostByECC unjson_token (LoginPath s) (Some obj) (Some no_auth);
           update_self (fun s => set_AuthToken s t)
       end.

(** The request of [PostByAuth]. *)
Definition auth_body (path jsonData secret nonce : string) (time : Z) (encrypted : bool) : sdk JsonBody :=
  d ← (if encrypted then sdk_encrypt jsonData secret else mret (Base64Encode jsonData));
  let plan := if encrypted then 1 else 0 in
  mret (mk_body (DStr d) time nonce plan (signed path d nonce time plan secret)).

(** The data of a reply, by its plan. *)
Definition reply_data (secret : string) (resp : JsonResp) : sdk string :=
  if r_Plan resp =? 0 then mret (Base64Decode (r_Data resp))
  else if r_Plan resp =? 1 then or_refuse "post response data AES decrypt failed" (AesDecrypt2 (r_Data resp) secret)
  else refuse 0 "response sign plan invalid".

Definition PostByAuth {R} (unjson : string -> R -> outcome string R) (path : string) (requestObj : jobject) (responseObj : option R)
    (encrypted : bool) : sdk R :=
  match requestObj, responseObj with
  | Some requestObj, Some responseObj =>
      _ ← ensure (negb (slen path =? 0)) "params invalid";
      _ ← checkAuth;
      s ← self;
      let token := Token (authToken s) in
      let secret := Secret (authToken s) in
      _ ← ensure (negb (slen token =? 0) && negb (slen secret =? 0)) "token or secret can't be empty";
      jsonData ← or_refuse "request data JsonMarshal invalid" requestObj;
      n ← world;
      let time := now_second n in
      nonce ← RandNonce;
      body ← auth_body path jsonData secret nonce time encrypted;
      bytesData ← or_refuse "jsonBody data JsonMarshal invalid" (json_body body);
      b ← post path token "" bytesData;
      let resp := read_resp b in
      if negb (r_Code resp =? 200) then refused resp
      else
        _ ← check_reply path secret resp;
        dec ← reply_data secret resp;
        or_refuse "response data JsonUnmarshal invalid" (JsonUnmarshal unjson dec responseObj)
  | _, _ => refuse 0 "params invalid"
  end.
End Client.
