(* ===== verification/SdkProofs.v ===== *)
(** * The client and the node together (the definitions of Sdk.v and Request.v)

    The network of the client is the node itself: a request that the client posts is
    run through the chain of filters, and what the chain wrote is the reply.  The
    library for JSON is only asked to read back the fields it wrote, the public-key
    library to decrypt what it encrypted. *)

From Stdlib Require Import Ascii.
From S2P Require Import Prelude GoStrings Common Exception Crypto Jwt Request RequestProofs Replay Sdk.

#[local] Open Scope string_scope.
#[local] Open Scope Z_scope.

Definition plain (s : string) : bool := all_bytes plain_byte s.

Lemma runes_plain s : plain s = true -> length (Runes.runes s) = String.length s.
Proof.
  unfold plain, Runes.runes, values_of. induction s as [|a s IH]; [done|]. cbn [all_bytes String.list_ascii_of_string map String.length].
  intros [Ha Hs]%andb_prop. cbn [Runes.decode Runes.decode_rune]. unfold plain_byte in Ha. rewrite Ha. cbn [Nat.sub length]. by rewrite IH.
Qed.

Lemma hex_plain s : plain (hex s) = true.
Proof.
  unfold plain. induction s as [|c s IH]; [done|]. cbn [hex all_bytes]. rewrite IH, andb_true_r. apply andb_true_iff.
  assert (forall z, 0 <= z < 16 -> plain_byte (hex_digit z) = true) as Hd.
  { intros z Hz. unfold plain_byte, hex_digit. rewrite byte_val_ascii by (case_match; lia). destruct (z <? 10) eqn:E; z_bools; lia. }
  pose proof (byte_val_range c). split; apply Hd; [split; [apply Z.div_pos; lia|apply Z.div_lt_upper_bound; lia]|apply Z.mod_pos_bound; lia].
Qed.

Lemma slen_nonzero s : s <> "" -> slen s =? 0 = false.
Proof. intros Hs. apply Z.eqb_neq. destruct s; [done|unfold slen; cbn; lia]. Qed.

Lemma prefix_host h p : String.prefix h (h +:+ p) = true.
Proof. induction h as [|c h IH]; [by destruct p|].
  change (String.prefix (String c h) (String c (h +:+ p)) = true). cbn [String.prefix]. by case_match. Qed.

Lemma drop_host h p : drop_str (String.length h) (h +:+ p) = p.
Proof. induction h as [|c h IH]; [by destruct p|exact IH]. Qed.

(** What the node writes of a reply. *)
Class reply_json := { json_resp : JsonResp -> string }.

Class wire_laws `{C : crypto_lib} `{J : json_lib} `{B : body_json} `{P : reply_json} := {
  body_fields b d : Data b = DStr d -> plain d = true -> plain (Nonce b) = true -> plain (Sign b) = true ->
    in_int64 (Time b) -> in_int64 (Plan b) ->
    exists text, json_body b = Ok text /\ text <> "" /\
      GetJsonString text "d" = d /\ GetJsonInt text "t" = Time b /\ GetJsonString text "n" = Nonce b /\
      GetJsonInt text "p" = Plan b /\ GetJsonString text "s" = Sign b;
  resp_fields r : plain (r_Message r) = true -> plain (r_Data r) = true -> plain (r_Nonce r) = true -> plain (r_Sign r) = true ->
    in_int64 (r_Code r) -> in_int64 (r_Time r) -> in_int64 (r_Plan r) -> read_resp (json_resp r) = r;
  b64_plain s : plain (b64_encode s) = true;
  mac_length data key : 32 <= slen (Base64Encode (sha256_mac data key)) <= 96
}.

(** The node, the clock of the client and the random bytes to come. *)
Record system (K : Type) := mk_system { node : Context K; seconds : Z; entropy : list string }.
Arguments mk_system {K}. Arguments node {K}. Arguments seconds {K}. Arguments entropy {K}.

Section System.
Context `{C : crypto_lib, !crypto_laws C} `{J : json_lib} `{B : body_json} `{P : reply_json} `{!wire_laws} {K : Type} `{store : cache_store K}
  (TokenKey : string) (RSA : Cipher) (postHandle : action K unit)
  (routers : gmap string RouterConfig)
  (now : Z)                                  (* the clock of the node, in nanoseconds *)
  (nonce iv : string)                        (* what the node draws for a reply *)
  (host : string)
  (code : string) (load : string -> outcome string string) (encrypt : string -> string -> outcome string string).

Definition reply_text (c : Context K) : string :=
  match last (written c) with
  | Some (RJson r) => json_resp r
  | Some (RPlain s) | Some (RRaw s) => s
  | None => ""
  end.

Definition as_request (q : http_request) : HttpRequest :=
  mk_request (h_Body q) (fun h => if String.eqb h "Authorization" then Authorization q
                                  else if String.eqb h "RandomCode" then RandomCode q else "").

Definition node_run (c : Context K) (path : string) (q : http_request) : Context K :=
  (doRequest TokenKey RSA None None postHandle nonce (Some iv) (fun _ chain => chain) sorted_filters c "POST" path (as_request q) routers now).2.

#[export] Instance node_world : client_world (system K) := {
  now_second s := seconds s;
  draw_16 s := match entropy s with [] => (None, s) | r :: rs => (Some r, mk_system (node s) (seconds s) rs) end;
  CreateSafeRandom s := (code, s);
  LoadBase64PublicKey := load;
  ecc_Encrypt pub data s := (encrypt pub data, s);
  http_get _ s := (Ok (GetPublicKey RSA), s);
  http_post q s :=
    if String.prefix host (URI q) then
      let c := node_run (node s) (drop_str (String.length host) (URI q)) q in
      (Ok (reply_text c), mk_system c (seconds s) (entropy s))
    else (Err "no such host", s)
}.

Lemma base64_ascii s : plain (Base64Encode s) = true.
Proof. unfold Base64Encode. case_match; [done|]. apply b64_plain. Qed.

(** ** Steps of a computation that go through *)

Lemma pass_ask {A} (k : Context K -> action K A) c : (ask ≫= k) c = k c c.
Proof. done. Qed.
Lemma pass_ret {A X} (x : X) (k : X -> action K A) c : (mret x ≫= k) c = k x c.
Proof. done. Qed.
Lemma pass_change {A} f (k : unit -> action K A) c : (change f ≫= k) c = k tt (f c).
Proof. done. Qed.
Lemma pass_check {A} b msg (k : unit -> action K A) c : b = false -> (check b msg ≫= k) c = k tt c.
Proof. by intros ->. Qed.
Lemma pass_ok {A X} (m : action K X) x c' (k : X -> action K A) c : m c = (Ok x, c') -> (m ≫= k) c = k x c'.
Proof. intros E. by rewrite act_bind, E. Qed.
Lemma pass_router {A} r (k : RouterConfig -> action K A) c : Router c = Some r -> (router ≫= k) c = k r c.
Proof. intros E. rewrite (pass_ok router r c); [done|]. unfold router. by rewrite pass_ask, E. Qed.

(** ** What the node makes of a body that is right *)

Definition unseen (sign : string) (k : option K) (k' : option K) : Prop :=
  match k with
  | None => k' = None
  | Some k => c_exists sign now k = Ok false /\ exists k1, c_put sign 600 now k = (Ok tt, k1) /\ k' = Some k1
  end.

Lemma replay_unseen sign c k' :
  clock_ns c = now -> unseen sign (cache c) k' -> validReplayAttack sign c = (Ok tt, with_cache c k').
Proof.
  intros Ht Hu. unfold validReplayAttack, replay_check, replay_store. rewrite act_bind. unfold unseen in Hu.
  destruct c as [? ? ? ? ? ? ? ? ? ? ? ? ? [k|] ?]; cbn in *; subst.
  - destruct Hu as (He & k1 & Hp & ->). rewrite (act_bind ask). cbn. rewrite act_bind. unfold or_throw at 1. rewrite He. cbn. rewrite (act_bind ask). cbn. by rewrite Hp.
  - done.
Qed.

(** What every body has to have. *)
Definition well_made (c : Context K) (r : RouterConfig) (b : JsonBody) (d : string) : Prop :=
  Data b = DStr d /\ d <> "" /\ plain (Nonce b) = true /\ 32 <= slen (Nonce b) <= 96 /\ 0 < Time b /\
  MathAbs (int64 (UnixSecond c - Time b)) <= FIVE_MINUTES /\ (AesRequest r = true -> Plan b = 1) /\ 32 <= slen (Sign b) <= 96.

Lemma session_accepts c r d raw k' :
  clock_ns c = now -> Router c = Some r -> UseRSA r = false -> well_made c r (Json c) d -> GetRawBytes (Subj c) <> "" ->
  (Plan (Json c) = 0 \/ Plan (Json c) = 1) -> opens (Plan (Json c)) d (token_secret TokenKey c) raw -> raw <> "" ->
  Sign (Json c) = HMAC_SHA256 (sign_text (Path c) d (Nonce (Json c)) (Time (Json c)) (Plan (Json c))) (token_secret TokenKey c) true ->
  unseen (Sign (Json c)) (cache c) k' ->
  validJsonBody TokenKey RSA None c = (Ok tt, with_data (with_cache c k') (DBytes raw)).
Proof.
  intros Ht Hr Hu (Hd & Hne & Hpn & Hn & Htime & Hwin & Haes & Hs) Htok Hp Ho Hraw Hsign Hk.
  unfold validJsonBody. rewrite pass_ask. rewrite (pass_ok _ (r, d) c).
  2: { unfold body_checks. rewrite pass_ask, Hd. rewrite (pass_ok _ d c).
    2: { by rewrite pass_check by (by apply slen_nonzero). }
  rewrite pass_check by (by destruct Hp as [->| ->]).
  rewrite pass_check. 2: { unfold CheckLen, Len. cbn [AnyToStr]. rewrite runes_plain by done. fold (slen (Nonce (Json c))). apply negb_false_iff, andb_true_iff. lia. }
  rewrite pass_check by lia. rewrite pass_check by lia. rewrite (pass_router r) by done.
  rewrite pass_check. 2: { destruct (AesRequest r); [|done]. by rewrite Haes. }
  rewrite pass_check. 2: { unfold CheckStrLen. apply negb_false_iff, andb_true_iff. lia. }
  rewrite pass_check by (by rewrite slen_nonzero, andb_false_r).
  rewrite pass_check by (by destruct Hp as [->| ->]).
  rewrite (pass_ok _ "" c) by (unfold anonymous_key; by rewrite Hu).
  rewrite (pass_ok _ (Sign (Json c)) c) by (unfold expected_sign; cbn; by rewrite Hsign).
  rewrite pass_check by (by rewrite String.eqb_refl). done. }
  rewrite (pass_ok _ tt (with_cache c k')) by (by apply replay_unseen). unfold body_data.
  rewrite (pass_ok _ raw (with_cache c k')); [done|].
  unfold raw_data. rewrite pass_ask, Hu. destruct Ho as [[E ->]|[E Hdec]]; rewrite E.
  - cbn. by rewrite pass_check by (by apply slen_nonzero).
  - cbn -[AesDecrypt2]. unfold decrypted, or_throw. unfold token_secret in Hdec |- *. cbn [with_cache Subj]. rewrite act_bind. unfold done_with. rewrite Hdec. cbn [map_err].
    by rewrite pass_check by (by apply slen_nonzero).
Qed.
Lemma login_accepts c r d raw cipher k' :
  clock_ns c = now -> Router c = Some r -> UseRSA r = true -> well_made c r (Json c) d -> Plan (Json c) = 2 ->
  GetPublicKey RSA <> "" -> Sign (Json c) = HMAC_SHA256 (sign_text (Path c) d (Nonce (Json c)) (Time (Json c)) 2) (GetPublicKey RSA) true ->
  Header_ (RequestCtx c) "RandomCode" = cipher -> 0 < slen cipher <= MAX_CODE_LEN -> Decrypt RSA cipher = Ok code -> 64 <= slen code <= 128 ->
  AesDecrypt2 d code = Ok raw -> raw <> "" -> unseen (Sign (Json c)) (cache c) k' ->
  validJsonBody TokenKey RSA None c =
    (Ok tt, with_data (with_storage (with_cache c k') (<["RandomCode" := code]> (Storage c))) (DBytes raw)).
Proof.
  intros Ht Hr Hu (Hd & Hne & Hpn & Hn & Htime & Hwin & Haes & Hs) Hp Hkey Hsign Hcode Hcl Hdec Hkl Ho Hraw Hk.
  unfold validJsonBody. rewrite pass_ask. rewrite (pass_ok _ (r, d) c).
  2: { unfold body_checks. rewrite pass_ask, Hd. rewrite (pass_ok _ d c).
    2: { by rewrite pass_check by (by apply slen_nonzero). }
  rewrite Hp. rewrite pass_check by done.
  rewrite pass_check. 2: { unfold CheckLen, Len. cbn [AnyToStr]. rewrite runes_plain by done. fold (slen (Nonce (Json c))). apply negb_false_iff, andb_true_iff. lia. }
  rewrite pass_check by lia. rewrite pass_check by lia. rewrite (pass_router r) by done.
  rewrite pass_check. 2: { destruct (AesRequest r); [|done]. by rewrite Haes in Hp. }
  rewrite pass_check. 2: { unfold CheckStrLen. apply negb_false_iff, andb_true_iff. lia. }
  rewrite pass_check by done. rewrite pass_check by (by rewrite Hu).
  rewrite (pass_ok _ (GetPublicKey RSA) c) by (unfold anonymous_key; by rewrite Hu).
  rewrite (pass_ok _ (Sign (Json c)) c) by (unfold expected_sign; rewrite slen_nonzero by done; by rewrite Hsign).
  rewrite pass_check by (by rewrite String.eqb_refl). done. }
  rewrite (pass_ok _ tt (with_cache c k')) by (by apply replay_unseen). unfold body_data.
  assert (random_code RSA None (with_cache c k') = (Ok code, with_cache c k')) as Hrc.
  { unfold random_code, or_throw, done_with. rewrite pass_ask. cbn [with_cache RequestCtx]. rewrite Hcode.
    rewrite pass_check by lia. rewrite pass_check by lia. rewrite act_bind, Hdec. cbn [map_err].
    rewrite pass_check by lia. rewrite pass_check; [done|]. apply orb_false_iff. lia. }
  rewrite (pass_ok _ raw (with_storage (with_cache c k') (<["RandomCode" := code]> (Storage c)))); [done|].
  unfold raw_data. rewrite pass_ask, Hu, Hp. cbn [Z.eqb Pos.eqb andb negb]. rewrite (pass_ok _ code (with_cache c k')) by done.
  rewrite (pass_ok _ raw (with_cache c k')); [done|].
  unfold decrypted, or_throw, done_with. rewrite act_bind, Ho. cbn [map_err]. by rewrite pass_check by (by apply slen_nonzero).
Qed.

(** The fields of a request reach the check of the body. *)
Lemma params_read c r b d text :
  Method c = "POST" -> Router c = Some r -> Guest r = false ->
  slen (Header_ (RequestCtx c) "Authorization") <= MAX_TOKEN_LEN -> Body (RequestCtx c) = text -> slen text <= MAX_VALUE_LEN ->
  Data b = DStr d -> plain d = true -> plain (Nonce b) = true -> plain (Sign b) = true -> in_int64 (Time b) -> in_int64 (Plan b) ->
  json_body b = Ok text ->
  readParams TokenKey RSA None c =
    validJsonBody TokenKey RSA None (with_json (with_subject c (ResetTokenBytes (Subj c) (Header_ (RequestCtx c) "Authorization"))) b).
Proof.
  intros Hm Hr Hg Ha Hb Hl Hd H1 H2 H3 H4 H5 Ht.
  destruct (body_fields b d Hd H1 H2 H3 H4 H5) as (text' & Ht' & Hne & E1 & E2 & E3 & E4 & E5). rewrite Ht in Ht'. injection Ht' as <-.
  unfold readParams. rewrite pass_ask, Hm. cbn [String.eqb Ascii.eqb Bool.eqb negb]. rewrite (pass_router r) by done. rewrite Hg, Hb.
  rewrite pass_check by (apply Z.ltb_ge; lia). rewrite pass_change. rewrite pass_check by (by apply slen_nonzero).
  replace (MAX_VALUE_LEN <? slen text) with false by (symmetry; apply Z.ltb_ge; lia). rewrite pass_ret, pass_change.
  rewrite E1, E2, E3, E4, E5, <- Hd. by destruct b.
Qed.
(** ** The chain in front of a handler that answers *)

Abbreviation walk := (DoFilter TokenKey RSA None None postHandle nonce (Some iv) (fun _ chain => chain) sorted_filters).
Abbreviation filter := (DoFilter_of TokenKey RSA None None postHandle nonce (Some iv) (fun _ chain => chain)).

Lemma chain_step n c f g :
  sorted_filters !! pos c = Some f -> Filter_ f = Some g -> MatchPattern f = [] ->
  walk (S n) c = filter g (walk n) (with_pos c (S (pos c))).
Proof. intros Hf Hg Hm. cbn [DoFilter]. by rewrite Hf, Hg, Hm. Qed.

(** The context of a request when its body is about to be read. *)
Definition at_params (c : Context K) (path : string) (q : http_request) : Context K :=
  with_pos (reset c "POST" path (as_request q) routers now) 3.

(** The handler of a path answers what the client sent. *)
Definition answers (path raw answer : string) : Prop :=
  forall c, Path c = path -> Data (Json c) = DBytes raw -> postHandle c = (Ok tt, with_response c APPLICATION_JSON (Some answer) (written c)).

(** The context that the reply is rendered from. *)
Definition answered (c : Context K) (answer : string) : Context K :=
  with_response
    (with_handled (with_pos c 7)
      (handled c ++ [mk_call (match s_Payload (Subj c) with Some p => Sub p | None => "" end) (GetRawBytes (Subj c)) (Data (Json c))])%list)
    APPLICATION_JSON (Some answer) (written c).

Lemma with_subject_same (c : Context K) : with_subject c (Subj c) = c.
Proof. by destruct c. Qed.

Lemma after_session c path raw answer :
  Path c = path -> pos c = 4%nat -> postCompleted c = false -> Data (Json c) = DBytes raw -> answers path raw answer ->
  walk 3 c = (Ok tt, answered c answer).
Proof.
  intros Hpath Hp Hc Hd Ha.
  erewrite chain_step by (rewrite ?Hp; reflexivity). cbn [DoFilter_of]. rewrite Hp.
  erewrite chain_step by reflexivity. cbn [DoFilter_of RoleFilter]. unfold RoleFilter. rewrite pass_ask.
  erewrite chain_step by reflexivity. cbn [DoFilter_of].
  rewrite (pass_ok _ tt (answered c answer)); [done|].
  unfold Handle. rewrite pass_ask. cbn [with_pos postCompleted pos]. rewrite Hc, pass_change. by rewrite Ha.
Qed.

Lemma node_serves c path q c1 v r raw answer :
  readParams TokenKey RSA None (at_params c path q) = (Ok tt, c1) -> Path c1 = path -> pos c1 = 3%nat -> Router c1 = Some r -> postCompleted c1 = false ->
  Data (Json c1) = DBytes raw -> answers path raw answer ->
  (if UseRSA r || Guest r then v = Subj c1
   else GetRawBytes (Subj c1) <> "" /\ Verify (Subj c1) (UnixSecond c1) (GetRawBytes (Subj c1)) TokenKey true = Ok v) ->
  node_run c path q =
    (RenderHandleFilter TokenKey None nonce (Some iv) (fun _ => (Ok tt, answered (with_subject c1 v) answer)) (reset c "POST" path (as_request q) routers now)).2.
Proof.
  intros Hp Hpath Hpos Hr Hc Hd Ha Hv. unfold node_run, doRequest.
  erewrite (chain_step 6) by reflexivity. cbn [DoFilter_of]. unfold RenderHandleFilter.
  erewrite (chain_step 5) by reflexivity. cbn [DoFilter_of].
  erewrite (chain_step 4) by reflexivity. cbn [DoFilter_of].
  rewrite (pass_ok _ tt c1) by exact Hp.
  erewrite (chain_step 3) by (rewrite ?Hpos; reflexivity). cbn [DoFilter_of]. rewrite Hpos.
  assert (SessionFilter TokenKey (walk 3) (with_pos c1 4) = (Ok tt, answered (with_subject c1 v) answer)) as ->; [|done].
  unfold SessionFilter. rewrite (pass_router r) by done. destruct (UseRSA r || Guest r).
  - subst v. rewrite with_subject_same. by rewrite (after_session _ path raw answer).
  - destruct Hv as [Ht Hv]. rewrite pass_ask. cbn [with_pos Subj]. rewrite slen_nonzero by done.
    unfold done_with. rewrite act_bind. change (UnixSecond (with_pos c1 4)) with (UnixSecond c1). rewrite Hv. cbn [map_err]. rewrite pass_change.
    by rewrite (after_session _ path raw answer).
Qed.
(** ** The reply on its way back *)

Lemma encrypted_plain {E} (f : string -> E) bytes text key msg : map_err f (AesEncrypt2 bytes text key) = Ok msg -> plain msg = true.
Proof.
  destruct (AesEncrypt2 bytes text key) as [m| |] eqn:Em; [|done..]. intros [= <-]. revert Em.
  unfold AesEncrypt2. destruct (new_cipher _); [|by intros [= <-]..]. unfold bind_outcome.
  destruct (GetAesIV _); [|done..]. destruct (crypt_blocks _ _); [|done..]. intros [= <-]. apply base64_ascii.
Qed.

(** The parts of a reply are texts that the wire carries. *)
Lemma sealed_wire data r (c : Context K) resp c1 :
  plain nonce = true -> in_int64 (UnixMilli c) -> sealed TokenKey None nonce (Some iv) data r c = (Ok resp, c1) ->
  read_resp (json_resp resp) = resp.
Proof.
  intros Hn Ht Hs.
  assert (r_Code resp = 200 /\ r_Message resp = "" /\ r_Nonce resp = nonce /\ r_Time resp = UnixMilli c /\ plain (r_Data resp) = true /\
          plain (r_Sign resp) = true /\ 0 <= r_Plan resp <= 2) as (E1 & E2 & E3 & E4 & E5 & E6 & E7).
  { unfold sealed, GetHmac256Sign in Hs. act_inv. destruct (UseRSA r); [|destruct (AesResponse r)]; act_inv.
    - destruct (Plan (Json c) =? 2); act_inv; try done. destruct (Storage c !! "RandomCode"); act_inv; try done.
      cbn. split_and!; try done; try lia; [by eapply encrypted_plain|apply base64_ascii].
    - cbn. split_and!; try done; try lia; [by eapply encrypted_plain|apply base64_ascii].
    - cbn. split_and!; try done; try lia; apply base64_ascii. }
  apply resp_fields; rewrite ?E1, ?E2, ?E3, ?E4; try done; unfold in_int64, min_int64, max_int64; lia.
Qed.
(** The call of the handler that a context stands for. *)
Definition call_of (c : Context K) : call :=
  mk_call (match s_Payload (Subj c) with Some p => Sub p | None => "" end) (GetRawBytes (Subj c)) (Data (Json c)).

Lemma node_replies c path q c1 v r raw answer secret :
  readParams TokenKey RSA None (at_params c path q) = (Ok tt, c1) -> Path c1 = path -> pos c1 = 3%nat -> Router c1 = Some r -> postCompleted c1 = false ->
  Data (Json c1) = DBytes raw -> answers path raw answer ->
  (if UseRSA r || Guest r then v = Subj c1
   else GetRawBytes (Subj c1) <> "" /\ Verify (Subj c1) (UnixSecond c1) (GetRawBytes (Subj c1)) TokenKey true = Ok v) ->
  Guest r = false -> String.length iv = 16%nat -> plain nonce = true -> in_int64 (UnixMilli c1) -> answer <> "" ->
  reply_secret TokenKey (with_subject c1 v) r = Some secret -> secret <> "" -> (UseRSA r = true -> Plan (Json c1) = 2) ->
  exists resp, reply_text (node_run c path q) = json_resp resp /\ read_resp (json_resp resp) = resp /\
    handled (node_run c path q) = (handled c1 ++ [call_of (with_subject c1 v)])%list /\
    r_Plan resp = reply_plan r /\ opens_to path secret resp answer.
Proof.
  intros Hp Hpath Hpos Hr Hc Hd Ha Hv Hg Hiv Hn Ht Hne Hs Hsec Hplan. rewrite (node_serves c path q c1 v r raw answer) by done.
  set (a := answered (with_subject c1 v) answer).
  destruct (render_opens TokenKey nonce iv a r answer secret) as (resp & c' & [c2 Hsealed] & Hrun & Hw & Hh & Hpl & Ho); try done.
  exists resp. unfold RenderHandleFilter. rewrite Hrun. cbn [snd]. unfold reply_text. rewrite Hw, Hh, last_snoc.
  rewrite <- Hpath. split_and!; try done. by apply (sealed_wire answer r a resp c2).
Qed.

(** ** Steps of the client *)

Abbreviation client := (sdk (N := system K)).

Lemma step_ok {A X} (m : client X) x w' (k : X -> client A) w : m w = (Ok x, w') -> (m ≫= k) w = k x w'.
Proof. intros E. cbv [mbind sdk_bind]. by rewrite E. Qed.
Lemma step_self {A} (k : HttpSDK -> client A) w : (self ≫= k) w = k w.1 w.
Proof. done. Qed.
Lemma step_world {A} (k : system K -> client A) w : (world ≫= k) w = k w.2 w.
Proof. done. Qed.
Lemma step_ret {A X} (x : X) (k : X -> client A) w : ((mret x : client X) ≫= k) w = k x w.
Proof. done. Qed.
Lemma step_ensure {A} b msg (k : unit -> client A) w : b = true -> ((ensure b msg : client unit) ≫= k) w = k tt w.
Proof. by intros ->. Qed.
Lemma step_refuse {A X} msg (o : outcome string X) x (k : X -> client A) w : o = Ok x -> ((or_refuse msg o : client X) ≫= k) w = k x w.
Proof. by intros ->. Qed.

Lemma post_node (s : HttpSDK) (w : system K) path auth rc body :
  getURI s path = host +:+ path ->
  exists q, h_Body q = body /\ Authorization q = auth /\ RandomCode q = rc /\
    (post path auth rc body : client string) (s, w) =
      (Ok (reply_text (node_run (node w) path q)), (s, mk_system (node_run (node w) path q) (seconds w) (entropy w))).
Proof.
  intros Hu. exists (mk_http (getURI s path) auth rc (language s) body (if 0 <? timeout s then int64 (timeout s * 1000000000) else 120000000000)).
  split_and!; [done..|].
  unfold post. rewrite step_self. unfold outside. cbn [fst snd]. erewrite step_ok.
  2: { cbn [http_post node_world URI snd]. rewrite Hu, prefix_host, drop_host. reflexivity. }
  reflexivity.
Qed.
(** ** The bodies that the client makes *)

Lemma encrypt_ok (s : HttpSDK) (w : system K) r es raw key :
  entropy w = r :: es -> String.length r = 16%nat -> raw <> "" ->
  exists d, (sdk_encrypt raw key : client string) (s, w) = (Ok d, (s, mk_system (node w) (seconds w) es)) /\
    d <> "" /\ plain d = true /\ AesDecrypt2 d key = Ok raw.
Proof.
  intros He Hr Hne. destruct (decrypt_encrypt r raw key Hr) as (d & Henc & Hdec). rewrite slen_nonzero in Hdec by done.
  exists d. unfold sdk_encrypt. rewrite (step_ok _ (Some r) (s, mk_system (node w) (seconds w) es)).
  2: { unfold outside. cbn [fst snd draw_16 node_world]. by rewrite He. }
  unfold or_refuse. rewrite Henc. split_and!; try done.
  - intros ->. unfold AesDecrypt2 in Hdec. rewrite new_cipher_ok in Hdec. discriminate Hdec.
  - apply (encrypted_plain id (Some r) raw key). by rewrite Henc.
Qed.

(** What the node asks of a body that is signed with a key. *)
Definition body_of (path d n : string) (time plan : Z) (key : string) (b : JsonBody) : Prop :=
  b = mk_body (DStr d) time n plan (HMAC_SHA256 (sign_text path d n time plan) key true) /\ d <> "" /\ plain d = true.

Lemma auth_body_ok (s : HttpSDK) (w : system K) path raw secret n time (encrypted : bool) r es :
  entropy w = r :: es -> String.length r = 16%nat -> raw <> "" ->
  exists b d w', (auth_body path raw secret n time encrypted : client JsonBody) (s, w) = (Ok b, (s, w')) /\
    node w' = node w /\ seconds w' = seconds w /\ body_of path d n time (if encrypted then 1 else 0) secret b /\
    opens (if encrypted then 1 else 0) d secret raw.
Proof.
  intros He Hr Hne. unfold auth_body, body_of, opens. destruct encrypted.
  - destruct (encrypt_ok s w r es raw secret He Hr Hne) as (d & Hrun & Hd & Hp & Hdec).
    do 3 eexists. split; [by rewrite (step_ok _ _ _ _ _ Hrun)|]. split_and!; try done. by right.
  - do 3 eexists. split; [by rewrite step_ret|]. split_and!; try done.
    + unfold Base64Encode. rewrite slen_nonzero by done. by apply b64_nonempty.
    + apply base64_ascii.
    + left. by rewrite Base64_round.
Qed.

Lemma ecc_body_ok (s : HttpSDK) (w : system K) path raw pub key n time r es :
  entropy w = r :: es -> String.length r = 16%nat -> raw <> "" ->
  exists b d w', (ecc_body path raw pub key n time : client JsonBody) (s, w) = (Ok b, (s, w')) /\
    node w' = node w /\ seconds w' = seconds w /\ entropy w' = es /\ body_of path d n time 2 pub b /\ AesDecrypt2 d key = Ok raw.
Proof.
  intros He Hr Hne. unfold ecc_body, body_of. destruct (encrypt_ok s w r es raw key He Hr Hne) as (d & Hrun & Hd & Hp & Hdec).
  do 3 eexists. split; [by rewrite (step_ok _ _ _ _ _ Hrun)|]. by split_and!.
Qed.

Lemma made_well (c : Context K) r path d n time plan key b :
  body_of path d n time plan key b -> plain n = true -> 32 <= slen n <= 96 -> 0 < time ->
  MathAbs (int64 (UnixSecond c - time)) <= FIVE_MINUTES -> (AesRequest r = true -> plan = 1) -> well_made c r b d.
Proof. intros (-> & Hd & Hp) Hn Hl Ht Hw Ha. split_and!; try done; cbn; try lia; apply mac_length. Qed.
(** A token that is good is good for every context. *)
Lemma token_subject (u : Subject) sec token sub :
  token_ok TokenKey sec token sub -> s_Payload u = None \/ s_Payload u = Some no_payload ->
  exists v, Verify u sec token TokenKey true = Ok v /\ GetRawBytes v = GetRawBytes u /\ subject_of v = sub.
Proof.
  intros (v & Hv & Hsub) Hu. unfold Verify in *. destruct (slen token =? 0); [done|].
  destruct (split_on "."%char token) as [|p0 [|p1 [|p2 [|]]]]; try done.
  destruct (negb _); [done|]. destruct (slen (Base64Decode p1) =? 0); [done|]. destruct (_ <=? sec); [done|].
  cbn [negb] in *. injection Hv as <-. eexists. split; [reflexivity|]. split; [done|]. rewrite <- Hsub. by destruct Hu as [-> | ->].
Qed.

(** ** Client and node *)

(** The client reaches the node on a route, their clocks are close, and the node can
    draw what a reply needs. *)
Record connected (s : HttpSDK) (w : system K) (path : string) (r : RouterConfig) : Prop := {
  con_route : routers !! path = Some r;
  con_guest : Guest r = false;
  con_path : path <> "";
  con_uri : getURI s path = host +:+ path;
  con_time : 0 < seconds w <= max_int64;
  con_near : MathAbs (int64 (now / 1000000000 - seconds w)) <= FIVE_MINUTES;
  con_clock : in_int64 (now / 1000000);
  con_iv : String.length iv = 16%nat;
  con_nonce : plain nonce = true
}.

(** A body that is not too long, and whose signature the cache has not seen. *)
Definition acceptable (c : Context K) (k' : option K) (b : JsonBody) : Prop :=
  (forall text, json_body b = Ok text -> slen text <= MAX_VALUE_LEN) /\ unseen (Sign b) (cache c) k'.

(** The clock and the random bytes of the client. *)
Definition spend (w : system K) (es : list string) : system K := mk_system (node w) (seconds w) es.

Lemma nonce_ok (s : HttpSDK) (w : system K) r es :
  entropy w = r :: es -> (RandNonce : client string) (s, w) = (Ok (hex r), (s, spend w es)).
Proof. intros He. unfold RandNonce, outside. cbv [mbind sdk_bind]. cbn [fst snd draw_16 node_world]. by rewrite He. Qed.

Lemma hex_16 r : String.length r = 16%nat -> plain (hex r) = true /\ 32 <= slen (hex r) <= 96.
Proof. intros Hr. split; [apply hex_plain|]. unfold slen. rewrite hex_length, Hr. lia. Qed.

Lemma body_text path d n time plan key b :
  body_of path d n time plan key b -> plain n = true -> in_int64 time -> in_int64 plan -> exists text, json_body b = Ok text.
Proof.
  intros (-> & Hd & Hp) Hn Ht Hpl. edestruct (body_fields (mk_body (DStr d) time n plan (HMAC_SHA256 (sign_text path d n time plan) key true)) d) as (text & E & _);
    try done; [apply base64_ascii|by exists text].
Qed.

(** The node runs the handler for a body that is made for the session of a token. *)
Lemma session_run s w path r sub raw answer secret (encrypted : bool) d n b text q k' :
  connected s w path r -> UseRSA r = false -> (AesRequest r = true -> encrypted = true) ->
  Authorization q <> "" -> slen (Authorization q) <= MAX_TOKEN_LEN -> secret = GetTokenSecret (Authorization q) TokenKey -> secret <> "" ->
  token_ok TokenKey (now / 1000000000) (Authorization q) sub ->
  body_of path d n (seconds w) (if encrypted then 1 else 0) secret b -> opens (if encrypted then 1 else 0) d secret raw ->
  plain n = true -> 32 <= slen n <= 96 -> json_body b = Ok text -> h_Body q = text -> acceptable (node w) k' b ->
  answers path raw answer -> raw <> "" -> answer <> "" ->
  exists resp, reply_text (node_run (node w) path q) = json_resp resp /\ read_resp (json_resp resp) = resp /\
    handled (node_run (node w) path q) = (handled (node w) ++ [mk_call sub (Authorization q) (DBytes raw)])%list /\
    r_Plan resp = reply_plan r /\ opens_to path secret resp answer.
Proof.
  intros [Hr Hg Hpath Hu Ht Hnear Hclock Hiv Hnonce] Hrsa Haes Htok Hlen Hsec Hne Hv Hb Ho Hn Hnl Htext Hq [Hsize Hk] Ha Hraw Hans.
  set (c0 := at_params (node w) path q). set (token := Authorization q) in *.
  set (cj := with_json (with_subject c0 (ResetTokenBytes (Subj c0) token)) b).
  set (c1 := with_data (with_cache cj k') (DBytes raw)).
  assert (validJsonBody TokenKey RSA None cj = (Ok tt, c1)) as Hvalid.
  { destruct (made_well cj r path d n (seconds w) (if encrypted then 1 else 0) secret b) as (E1 & E2 & E3 & E4 & E5 & E6 & E7 & E8); try done; try lia.
    { intros E. by rewrite Haes. }
    destruct Hb as (-> & Hd & Hp). apply (session_accepts cj r d raw k'); try done.
    - by destruct encrypted; [right|left].
    - cbn. unfold token_secret. cbn. by rewrite <- Hsec.
    - cbn. unfold token_secret. cbn. by rewrite <- Hsec. }
  assert (readParams TokenKey RSA None c0 = (Ok tt, c1)) as Hparams.
  { pose proof Hb as (Eb & Hd & Hp). rewrite (params_read c0 r b d text); [exact Hvalid|..]; try done; try exact Hq.
    - by apply Hsize.
    - by rewrite Eb.
    - by rewrite Eb.
    - rewrite Eb. apply base64_ascii.
    - rewrite Eb. cbn. unfold in_int64, min_int64. lia.
    - rewrite Eb. by destruct encrypted. }
  destruct (token_subject (Subj c1) _ _ _ Hv) as (v & Hverify & Htb & Hsub); [by right|].
  destruct (node_replies (node w) path q c1 v r raw answer secret) as (resp & H1 & H2 & H3 & H4 & H5); try done.
  - rewrite Hrsa, Hg. by split.
  - unfold reply_secret. rewrite Hrsa. unfold token_secret. cbn [with_subject Subj]. rewrite Htb. cbn. by rewrite Hsec.
  - by rewrite Hrsa.
  - exists resp. split_and!; try done. rewrite H3. unfold call_of. fold (subject_of (Subj (with_subject c1 v))). cbn [with_subject Subj]. by rewrite Htb, Hsub.
Qed.
(** The end of a call: the answer is decoded into the object of the caller. *)
Definition decoded {R} (unjson : string -> R -> outcome string R) (answer : string) (old : R) : outcome Throw R :=
  map_err (fun _ => new_throw 0 "response data JsonUnmarshal invalid") (JsonUnmarshal unjson answer old).

Lemma check_reply_ok path key resp answer (w : HttpSDK * system K) {A} (k : unit -> client A) :
  opens_to path key resp answer -> ((check_reply path key resp : client unit) ≫= k) w = k tt w.
Proof. intros (_ & Hs & _). apply step_ensure. unfold signed. by rewrite Hs, String.eqb_refl. Qed.

Lemma reply_data_ok path key resp answer r (w : HttpSDK * system K) :
  UseRSA r = false -> r_Plan resp = reply_plan r -> opens_to path key resp answer -> (reply_data key resp : client string) w = (Ok answer, w).
Proof.
  intros Hu Hp (_ & _ & Ho). unfold reply_data, reply_plan in *. rewrite Hu in Hp. destruct (AesResponse r); rewrite Hp in *; cbn in *.
  - unfold or_refuse. by rewrite Ho.
  - by rewrite Ho.
Qed.

Lemma session_served {R} (unjson : string -> R -> outcome string R) unjson_token (old : R) w0 s w path r (encrypted : bool) raw answer sub r1 r2 es k' :
  checkAuth unjson_token w0 = (Ok tt, (s, w)) -> connected s w path r -> UseRSA r = false -> (AesRequest r = true -> encrypted = true) ->
  let token := Token (authToken s) in
  let secret := Secret (authToken s) in
  token <> "" -> slen token <= MAX_TOKEN_LEN -> secret = GetTokenSecret token TokenKey -> secret <> "" ->
  token_ok TokenKey (now / 1000000000) token sub ->
  entropy w = r1 :: r2 :: es -> String.length r1 = 16%nat -> String.length r2 = 16%nat ->
  (forall b w', auth_body path raw secret (hex r1) (seconds w) encrypted (s, spend w (r2 :: es)) = (Ok b, w') -> acceptable (node w) k' b) ->
  answers path raw answer -> raw <> "" -> answer <> "" ->
  exists w', PostByAuth unjson_token unjson path (Some (Ok raw)) (Some old) encrypted w0 = (decoded unjson answer old, (s, w')) /\
    handled (node w') = (handled (node w) ++ [mk_call sub token (DBytes raw)])%list.
Proof.
  intros Hauth Hcon Hrsa Haes token secret Htok Hlen Hsec Hne Hv He Hr1 Hr2 Hacc Ha Hraw Hans.
  pose proof Hcon as [Hr Hg Hpath Hu Ht Hnear Hclock Hiv Hnonce]. destruct (hex_16 r1 Hr1) as [Hn Hnl].
  unfold PostByAuth. rewrite step_ensure by (by rewrite slen_nonzero).
  rewrite (step_ok _ _ _ _ _ Hauth).
  rewrite step_self. cbn [fst]. fold token secret. rewrite step_ensure by (by rewrite !slen_nonzero).
  rewrite (step_refuse _ _ raw) by done. rewrite step_world. cbn [snd now_second node_world].
  rewrite (step_ok _ _ _ _ _ (nonce_ok s w r1 (r2 :: es) He)).
  destruct (auth_body_ok s (spend w (r2 :: es)) path raw secret (hex r1) (seconds w) encrypted r2 es) as (b & d & w1 & Hrun & Ew & Es & Hb & Ho); try done.
  rewrite (step_ok _ _ _ _ _ Hrun). specialize (Hacc b _ Hrun).
  destruct (body_text path d (hex r1) (seconds w) (if encrypted then 1 else 0) secret b) as (text & Htext); try done.
  { unfold in_int64, min_int64. lia. }
  { by destruct encrypted. }
  rewrite (step_refuse _ _ text) by done.
  destruct (post_node s w1 path token "" text Hu) as (q & Hq1 & Hq2 & _ & Hpost). cbn [spend node] in Ew. rewrite Ew in Hpost. rewrite (step_ok _ _ _ _ _ Hpost).
  destruct (session_run s w path r sub raw answer secret encrypted d (hex r1) b text q k') as (resp & E1 & E2 & E3 & E4 & E5); rewrite ?Hq2; try done.
  rewrite E1, E2. pose proof E5 as (Hcode & _). rewrite Hcode. cbn [Z.eqb Pos.eqb negb].
  rewrite (check_reply_ok path secret resp answer _ _ E5). rewrite (step_ok _ _ _ _ _ (reply_data_ok path secret resp answer r _ Hrsa E4 E5)).
  eexists. split; [reflexivity|]. cbn [node]. by rewrite E3, Hq2.
Qed.
(** ** The first call of a client *)

(** The keys of the node fit those of the client: what is encrypted under the public
    key the node decrypts, and the key that goes along has the right length. *)
Record keys_fit (s : HttpSDK) (cipher : string) : Prop := {
  key_known : publicKey s = "" \/ publicKey s = GetPublicKey RSA;
  key_there : GetPublicKey RSA <> "";
  key_encrypts : exists pub, load (GetPublicKey RSA) = Ok pub /\ encrypt pub code = Ok cipher;
  key_decrypts : Decrypt RSA (Base64Encode cipher) = Ok code;
  key_fits : 0 < slen (Base64Encode cipher) <= MAX_CODE_LEN;
  key_length : 64 <= slen code <= 128
}.

Lemma login_run s w path r raw answer cipher d n b text q k' :
  connected s w path r -> UseRSA r = true -> AesRequest r = false -> keys_fit s cipher ->
  Authorization q = "" -> RandomCode q = Base64Encode cipher ->
  body_of path d n (seconds w) 2 (GetPublicKey RSA) b -> AesDecrypt2 d code = Ok raw ->
  plain n = true -> 32 <= slen n <= 96 -> json_body b = Ok text -> h_Body q = text -> acceptable (node w) k' b ->
  answers path raw answer -> raw <> "" -> answer <> "" ->
  exists resp, reply_text (node_run (node w) path q) = json_resp resp /\ read_resp (json_resp resp) = resp /\
    handled (node_run (node w) path q) = (handled (node w) ++ [mk_call "" "" (DBytes raw)])%list /\
    r_Plan resp = 2 /\ opens_to path code resp answer.
Proof.
  intros [Hr Hg Hpath Hu Ht Hnear Hclock Hiv Hnonce] Hrsa Haes [_ Hkey _ Hdec Hfit Hcl] Hauth Hrc Hb Ho Hn Hnl Htext Hq [Hsize Hk] Ha Hraw Hans.
  set (c0 := at_params (node w) path q).
  set (cj := with_json (with_subject c0 (ResetTokenBytes (Subj c0) (Authorization q))) b).
  set (c1 := with_data (with_storage (with_cache cj k') (<["RandomCode" := code]> (Storage cj))) (DBytes raw)).
  assert (validJsonBody TokenKey RSA None cj = (Ok tt, c1)) as Hvalid.
  { destruct (made_well cj r path d n (seconds w) 2 (GetPublicKey RSA) b) as (E1 & E2 & E3 & E4 & E5 & E6 & E7 & E8); try done; try lia.
    { by rewrite Haes. }
    destruct Hb as (-> & Hd & Hp). by apply (login_accepts cj r d raw (Base64Encode cipher) k'). }
  assert (readParams TokenKey RSA None c0 = (Ok tt, c1)) as Hparams.
  { pose proof Hb as (Eb & Hd & Hp). rewrite (params_read c0 r b d text); [exact Hvalid|..]; try done; try exact Hq.
    - cbn. by rewrite Hauth.
    - by apply Hsize.
    - by rewrite Eb.
    - by rewrite Eb.
    - rewrite Eb. apply base64_ascii.
    - rewrite Eb. cbn. unfold in_int64, min_int64. lia.
    - by rewrite Eb. }
  assert (code <> "") as Hcode by (intros E; rewrite E in Hcl; change (slen "") with 0 in Hcl; lia).
  destruct (node_replies (node w) path q c1 (Subj c1) r raw answer code) as (resp & H1 & H2 & H3 & H4 & H5); try done.
  - by rewrite Hrsa.
  - unfold reply_secret. rewrite Hrsa. apply lookup_insert_eq.
  - intros _. by destruct Hb as (-> & _).
  - exists resp. split_and!; try done; [|by rewrite H4; unfold reply_plan; rewrite Hrsa]. rewrite H3. unfold call_of. cbn. by rewrite Hauth.
Qed.

Lemma fetch_ok (s : HttpSDK) (w : system K) cipher : keys_fit s cipher -> (fetch_public_key : client string) (s, w) = (Ok (GetPublicKey RSA), (s, w)).
Proof.
  intros [[E|E] Hk _ _ _ _]; unfold fetch_public_key; rewrite step_self; cbn [fst].
  - rewrite E. change (0 <? slen "") with false. cbn iota. rewrite (step_ok _ (Ok (GetPublicKey RSA)) (s, w)) by done. rewrite (step_refuse _ _ (GetPublicKey RSA)) by done.
    by rewrite step_ensure by (by rewrite slen_nonzero).
  - rewrite E. replace (0 <? slen (GetPublicKey RSA)) with true; [done|]. symmetry. apply Z.ltb_lt. pose proof (slen_nonzero _ Hk) as E0%Z.eqb_neq. unfold slen in *. lia.
Qed.
Lemma login_served {R} (unjson : string -> R -> outcome string R) (old : R) s w path l raw answer cipher r1 r2 es k' :
  connected s w path l -> UseRSA l = true -> AesRequest l = false -> keys_fit s cipher ->
  entropy w = r1 :: r2 :: es -> String.length r1 = 16%nat -> String.length r2 = 16%nat ->
  (forall b w', ecc_body path raw (GetPublicKey RSA) code (hex r1) (seconds w) (s, spend w (r2 :: es)) = (Ok b, w') -> acceptable (node w) k' b) ->
  answers path raw answer -> raw <> "" -> answer <> "" ->
  exists w', PostByECC unjson path (Some (Ok raw)) (Some old) (s, w) = (decoded unjson answer old, (s, w')) /\
    handled (node w') = (handled (node w) ++ [mk_call "" "" (DBytes raw)])%list /\ seconds w' = seconds w /\ entropy w' = es.
Proof.
  intros Hcon Hrsa Haes Hfit He Hr1 Hr2 Hacc Ha Hraw Hans.
  pose proof Hcon as [Hr Hg Hpath Hu Ht Hnear Hclock Hiv Hnonce]. destruct (hex_16 r1 Hr1) as [Hn Hnl].
  pose proof Hfit as [_ _ (pub & Hload & Henc) _ _ _].
  unfold PostByECC. rewrite step_ensure by (by rewrite slen_nonzero). rewrite (step_refuse _ _ raw) by done. rewrite step_world. cbn [snd now_second node_world].
  rewrite (step_ok _ _ _ _ _ (nonce_ok s w r1 (r2 :: es) He)).
  rewrite (step_ok _ _ _ _ _ (fetch_ok s (spend w (r2 :: es)) cipher Hfit)).
  rewrite (step_ok _ code (s, spend w (r2 :: es))) by done. rewrite (step_refuse _ _ pub) by done.
  rewrite (step_ok _ (Ok cipher) (s, spend w (r2 :: es))) by (unfold outside; cbn; by rewrite Henc).
  rewrite (step_refuse _ _ cipher) by done.
  destruct (ecc_body_ok s (spend w (r2 :: es)) path raw (GetPublicKey RSA) code (hex r1) (seconds w) r2 es) as (b & d & w1 & Hrun & Ew & Es & Ee & Hb & Ho); try done.
  rewrite (step_ok _ _ _ _ _ Hrun). specialize (Hacc b _ Hrun).
  destruct (body_text path d (hex r1) (seconds w) 2 (GetPublicKey RSA) b) as (text & Htext); try done.
  { unfold in_int64, min_int64. lia. }
  rewrite (step_refuse _ _ text) by done.
  destruct (post_node s w1 path "" (Base64Encode cipher) text Hu) as (q & Hq1 & Hq2 & Hq3 & Hpost). cbn [spend node] in Ew. rewrite Ew in Hpost.
  rewrite (step_ok _ _ _ _ _ Hpost).
  destruct (login_run s w path l raw answer cipher d (hex r1) b text q k') as (resp & E1 & E2 & E3 & E4 & E5); try done.
  rewrite E1, E2. pose proof E5 as (Hcode & _ & Hdata). rewrite Hcode. cbn [Z.eqb Pos.eqb negb].
  rewrite (check_reply_ok path code resp answer _ _ E5). rewrite E4 in Hdata. cbn in Hdata. rewrite (step_refuse _ _ answer) by done.
  eexists. split; [reflexivity|]. cbn [node seconds entropy]. by rewrite E3, Es, Ee.
Qed.

Lemma connected_again s w w' path r t :
  connected s w path r -> seconds w' = seconds w -> connected (set_AuthToken s t) w' path r.
Proof. intros [Hr Hg Hpath Hu Ht Hnear Hclock Hiv Hnonce] Es. constructor; rewrite ?Es; done. Qed.
(** C2: the client and the node understand each other.  A client without a session,
    with the credentials [cred], that posts [raw] to a route: the client logs in on the
    anonymous route, under a key of its own that only the node can read, takes the
    token of the answer, and posts the data for the session of that token, encrypted
    or not; the node runs the handler twice, without a session for [cred] and then
    for the subject of the token with [raw]; and the caller gets the decoded answer
    of the second handler. *)
Theorem client_served {R} (unjson : string -> R -> outcome string R) unjson_token (old : R)
    s w path l r (encrypted : bool) cred granted t raw answer sub cipher r1 r2 r3 r4 es k1 k2 :
  (* a login *)
  valid s (seconds w) = false -> authObject s = Some (Ok cred) -> Domain s <> "" -> KeyPath s <> "" ->
  connected s w (LoginPath s) l -> UseRSA l = true -> AesRequest l = false -> keys_fit s cipher ->
  answers (LoginPath s) cred granted -> cred <> "" -> granted <> "" ->
  (* the token it grants *)
  JsonUnmarshal unjson_token granted no_auth = Ok t -> Token t <> "" -> slen (Token t) <= MAX_TOKEN_LEN ->
  Secret t = GetTokenSecret (Token t) TokenKey -> Secret t <> "" -> token_ok TokenKey (now / 1000000000) (Token t) sub ->
  (* the call *)
  connected s w path r -> UseRSA r = false -> (AesRequest r = true -> encrypted = true) ->
  answers path raw answer -> raw <> "" -> answer <> "" ->
  (* the random bytes, and the two bodies *)
  entropy w = r1 :: r2 :: r3 :: r4 :: es -> Forall (fun x => String.length x = 16%nat) [r1; r2; r3; r4] ->
  (forall b w', ecc_body (LoginPath s) cred (GetPublicKey RSA) code (hex r1) (seconds w) (s, spend w (r2 :: r3 :: r4 :: es)) = (Ok b, w') ->
     acceptable (node w) k1 b) ->
  (forall s1 w1 b w', checkAuth unjson_token (s, w) = (Ok tt, (s1, w1)) ->
     auth_body path raw (Secret t) (hex r3) (seconds w1) encrypted (s1, spend w1 (r4 :: es)) = (Ok b, w') -> acceptable (node w1) k2 b) ->
  exists w', PostByAuth unjson_token unjson path (Some (Ok raw)) (Some old) encrypted (s, w) = (decoded unjson answer old, (set_AuthToken s t, w')) /\
    handled (node w') = (handled (node w) ++ [mk_call "" "" (DBytes cred); mk_call sub (Token t) (DBytes raw)])%list.
Proof.
  intros Hvalid Hobj Hdom Hkp Hlogin Hl Hla Hkeys Hga Hcred Hgranted Ht Htok Hlen Hsec Hne Hgood Hcon Hr Hra Ha Hraw Hans He Hdraws Hacc1 Hacc2.
  apply Forall_cons in Hdraws as [H1 [H2 [H3 [H4 _]%Forall_cons]%Forall_cons]%Forall_cons].
  destruct (login_served unjson_token no_auth s w (LoginPath s) l cred granted cipher r1 r2 (r3 :: r4 :: es) k1) as (w1 & Hpost & Hh & Hs & Hent); try done.
  assert (checkAuth unjson_token (s, w) = (Ok tt, (set_AuthToken s t, w1))) as Hcheck.
  { unfold checkAuth. rewrite step_self, step_world. cbn [fst snd now_second node_world]. rewrite Hvalid, Hobj.
    rewrite step_ensure by (by rewrite slen_nonzero). rewrite step_ensure by (by rewrite slen_nonzero).
    rewrite step_ensure by (rewrite slen_nonzero; [done|]; by destruct Hlogin). unfold decoded in Hpost. rewrite Ht in Hpost. by rewrite (step_ok _ _ _ _ _ Hpost). }
  destruct (session_served unjson unjson_token old (s, w) (set_AuthToken s t) w1 path r encrypted raw answer sub r3 r4 es k2) as (w' & Hrun & Hh'); try done.
  { by apply (connected_again s w). }
  { intros b w'. by apply Hacc2. }
  exists w'. split; [done|]. by rewrite Hh', Hh, <- app_assoc.
Qed.
End System.

(** ** A node and a client that run *)

(** Digests of a fixed length, and fields between bytes that no plain text has. *)
#[local] Instance wire_crypto : crypto_lib := {
  md5_sum _ := "0123456789abcdef";
  sha256_mac text key := take_str 20 (key +:+ text +:+ "00000000000000000000");
  sha512_mac text key := take_str 20 (key +:+ text +:+ "00000000000000000000");
  cbc_encrypt _ _ p := p; cbc_decrypt _ _ p := p;
  b64_encode := hex; b64_decode := unhex
}.

#[local] Instance wire_crypto_laws : crypto_laws wire_crypto.
Proof. constructor; try done; [exact unhex_hex| |exact hex_no_dot]. intros s Hs. by destruct s. Qed.

Definition bar : ascii := ascii_of_Z 255.

Fixpoint field (k : string) (l : list string) : string :=
  match l with k' :: v :: l => if String.eqb k k' then v else field k l | _ => "" end.

Definition int_field (k : string) (l : list string) : Z := match parse_int 64 (field k l) with Ok z => z | _ => 0 end.

#[local] Instance wire_json : json_lib := {
  json_header _ := Ok "H";
  json_payload p := Ok (join bar ["exp"; format_int (Exp p); "sub"; Sub p]);
  GetJsonString b k := field k (split_on bar b);
  GetJsonInt b k := int_field k (split_on bar b)
}.

Definition data_text (d : jdata) : string := match d with DStr s | DBytes s => s | DNil => "" end.

#[local] Instance wire_body : body_json := {
  json_body b := Ok (join bar ["d"; data_text (Data b); "t"; format_int (Time b); "n"; Nonce b; "p"; format_int (Plan b); "s"; Sign b]);
  JsonValid _ := true
}.

#[local] Instance wire_reply : reply_json := {
  json_resp r := join bar ["c"; format_int (r_Code r); "m"; r_Message r; "d"; r_Data r; "t"; format_int (r_Time r); "n"; r_Nonce r;
                           "p"; format_int (r_Plan r); "s"; r_Sign r]
}.

Lemma no_bar s : plain s = true -> all_bytes (not_byte bar) s = true.
Proof. apply all_bytes_impl. intros c Hc. unfold not_byte. destruct (Ascii.eqb_spec bar c) as [<-|]; [discriminate Hc|done]. Qed.

Lemma format_parse z : in_int64 z -> parse_int 64 (format_int z) = Ok z.
Proof. intros Hz. apply parse_int_format; [lia|]. unfold in_int64, min_int64, max_int64 in Hz. cbn. lia. Qed.

Lemma fields_read l : l <> [] -> Forall (fun s => plain s = true) l -> split_on bar (join bar l) = l.
Proof. intros Hne Hl. apply split_on_join; [done|]. eapply Forall_impl; [exact Hl|]. intros s. apply no_bar. Qed.

Lemma take_20 s t : (20 <= String.length t)%nat -> String.length (take_str 20 (s +:+ t)) = 20%nat.
Proof.
  assert (forall n u, (n <= String.length u)%nat -> String.length (take_str n u) = n) as H.
  { induction n as [|n IH]; intros [|c u] Hn; cbn in *; try lia. rewrite IH; lia. }
  intros Ht. apply H. rewrite length_app_str. lia.
Qed.

#[local] Instance wire_laws_hold : wire_laws.
Proof.
  constructor.
  - intros b d Hd Hp Hn Hs Ht Hpl. eexists. split; [reflexivity|]. rewrite Hd. cbn [data_text].
    assert (forall l, l = ["d"; d; "t"; format_int (Time b); "n"; Nonce b; "p"; format_int (Plan b); "s"; Sign b] -> split_on bar (join bar l) = l) as E.
    { intros l ->. apply fields_read; [done|]. repeat constructor; try done; apply format_int_plain. }
    split; [done|]. cbn [GetJsonString GetJsonInt wire_json]. rewrite E by done. unfold int_field. cbn [field String.eqb Ascii.eqb Bool.eqb].
    by rewrite !format_parse.
  - intros r Hm Hd Hn Hs Hc Ht Hp. unfold read_resp. cbn [GetJsonString GetJsonInt wire_json json_resp wire_reply].
    rewrite fields_read by (try done; repeat constructor; try done; apply format_int_plain). unfold int_field. cbn [field String.eqb Ascii.eqb Bool.eqb].
    rewrite !format_parse by done. by destruct r.
  - intros s. apply hex_plain.
  - intros data key. assert (String.length (sha256_mac data key) = 20%nat) as E by (cbn; rewrite str_app_assoc; by apply take_20).
    unfold Base64Encode. replace (slen (sha256_mac data key) =? 0) with false by (symmetry; apply Z.eqb_neq; unfold slen; lia).
    cbn [b64_encode wire_crypto]. unfold slen. rewrite hex_length, E. lia.
Qed.

Definition demo_token : string :=
  match Generate (set_payload no_subject (Some (mk_payload "user" "" "" 0 2000 "" "" ""))) 1000 (mk_jwt_config "k" "HS256" "JWT" 0) with
  | Ok (token, _) => token
  | _ => ""
  end.
Definition demo_code : string := "0123456789abcdef0123456789abcdef0123456789abcdef0123456789abcdef".
Definition demo_auth : AuthToken := mk_auth demo_token (GetTokenSecret demo_token "k") 9999.

Definition demo_answer (path data : string) : string :=
  if String.eqb path "/login" then join bar ["token"; Token demo_auth; "secret"; Secret demo_auth] else "hello " +:+ data.

Definition demo_handler : action (gmap string Z) unit :=
  c ← ask;
  change (fun c => with_response c APPLICATION_JSON (Some (demo_answer (Path c) (data_text (Data (Json c))))) (written c)).

Definition demo_cipher : Cipher := mk_cipher "PUB" (fun t => match unhex t with Some u => Ok (drop_str 4 u) | None => Err "bad text" end).
Definition demo_encrypt (pub data : string) : outcome string string := Ok (pub +:+ ":" +:+ data).
Definition demo_routers : gmap string RouterConfig :=
  {["/login" := mk_router false true false false; "/api" := mk_router false false true true]}.
Definition demo_sdk : HttpSDK := mk_sdk "http://n" "http://n" "/key" "/login" "" "en" 0 (Some (Ok "me")) no_auth.

Definition demo_bytes : list string := ["000000000000000a"; "000000000000000b"; "000000000000000c"; "000000000000000d"].
Definition demo_system : system (gmap string Z) := mk_system (first_context (Some ∅)) 1010 demo_bytes.

#[local] Instance demo_world : client_world (system (gmap string Z)) :=
  node_world "k" demo_cipher demo_handler demo_routers 1000000000000 "n" "0123456789abcdef" "http://n" demo_code Ok demo_encrypt.

Definition demo_unjson (text : string) (_ : AuthToken) : outcome string AuthToken :=
  Ok (mk_auth (GetJsonString text "token") (GetJsonString text "secret") 9999).

Definition demo_call : outcome Throw string * (HttpSDK * system (gmap string Z)) :=
  PostByAuth demo_unjson (fun text (_ : string) => Ok text) "/api" (Some (Ok "data")) (Some "") true (demo_sdk, demo_system).

Definition sign_of {A} (r : outcome Throw JsonBody * A) : string := match r with (Ok b, _) => Sign b | _ => "" end.

(** What the cache of the node holds after each of the two bodies. *)
Definition after_login : gmap string Z :=
  (c_put (sign_of (ecc_body "/login" "me" "PUB" demo_code (hex "000000000000000a") 1010 (demo_sdk, spend demo_system (tail demo_bytes)))) 600 1000000000000 ∅).2.

Definition after_call : gmap string Z :=
  (c_put (sign_of (auth_body "/api" "data" (Secret demo_auth) (hex "000000000000000c") 1010 true (demo_sdk, spend demo_system ["000000000000000d"])))
     600 1000000000000 after_login).2.

Lemma demo_near path r :
  demo_routers !! path = Some r -> Guest r = false -> path <> "" -> getURI demo_sdk path = "http://n" +:+ path ->
  connected demo_routers 1000000000000 "n" "0123456789abcdef" "http://n" demo_sdk demo_system path r.
Proof. intros H1 H2 H3 H4. constructor; try done; vm_compute; intuition discriminate. Qed.

Lemma demo_keys : keys_fit demo_cipher demo_code Ok demo_encrypt demo_sdk ("PUB:" +:+ demo_code).
Proof. constructor; try done; [by left| |vm_compute; by split..]. exists "PUB". split; reflexivity. Qed.

Lemma demo_answers path data :
  answers demo_handler path data (demo_answer path data).
Proof. intros c Hp Hd. unfold demo_handler. rewrite pass_ask. unfold change. by rewrite Hp, Hd. Qed.

Lemma demo_login_body b w' :
  ecc_body "/login" "me" "PUB" demo_code (hex "000000000000000a") 1010 (demo_sdk, spend demo_system (tail demo_bytes)) = (Ok b, w') ->
  acceptable 1000000000000 (node demo_system) (Some after_login) b.
Proof.
  intros E. vm_compute in E. injection E as <- _. split.
  - intros text Et. vm_compute in Et. injection Et as <-. vm_compute. discriminate.
  - split; [reflexivity|]. eexists. split; [reflexivity|]. vm_compute. reflexivity.
Qed.

Lemma demo_call_body s1 w1 b w' :
  checkAuth demo_unjson (demo_sdk, demo_system) = (Ok tt, (s1, w1)) ->
  auth_body "/api" "data" (Secret demo_auth) (hex "000000000000000c") (seconds w1) true (s1, spend w1 ["000000000000000d"]) = (Ok b, w') ->
  acceptable 1000000000000 (node w1) (Some after_call) b.
Proof.
  intros E Eb.
  assert (cache (node w1) = Some after_login) as Hc.
  { apply (f_equal (fun x => cache (node x.2.2))) in E. cbn [snd] in E. rewrite <- E. vm_compute. reflexivity. }
  assert (seconds w1 = 1010) as Hs.
  { apply (f_equal (fun x => seconds x.2.2)) in E. cbn [snd] in E. rewrite <- E. vm_compute. reflexivity. }
  rewrite Hs in Eb. clear E Hs. vm_compute in Eb. injection Eb as <- _. unfold acceptable. rewrite Hc. split.
  - intros text Et. vm_compute in Et. injection Et as <-. vm_compute. discriminate.
  - split; [vm_compute; reflexivity|]. eexists. split; [reflexivity|]. vm_compute. reflexivity.
Qed.

Lemma demo_token_ok : token_ok "k" 1000 (Token demo_auth) "user".
Proof. vm_compute. eexists. split; reflexivity. Qed.

Lemma client_served_witness :
  exists w', demo_call = (Ok "hello data", (set_AuthToken demo_sdk demo_auth, w')) /\
    handled (node w') = [mk_call "" "" (DBytes "me"); mk_call "user" demo_token (DBytes "data")].
Proof.
  destruct (client_served "k" demo_cipher demo_handler demo_routers 1000000000000 "n" "0123456789abcdef" "http://n" demo_code Ok demo_encrypt
    (fun text (_ : string) => Ok text) demo_unjson "" demo_sdk demo_system "/api"
    (mk_router false true false false) (mk_router false false true true) true "me" (demo_answer "/login" "me") demo_auth "data" (demo_answer "/api" "data")
    "user" ("PUB:" +:+ demo_code) "000000000000000a" "000000000000000b" "000000000000000c" "000000000000000d" [] (Some after_login) (Some after_call))
    as (w' & Hrun & Hh).
  - vm_compute. reflexivity.
  - reflexivity.
  - discriminate.
  - discriminate.
  - apply demo_near; [reflexivity|reflexivity|discriminate|reflexivity].
  - reflexivity.
  - reflexivity.
  - exact demo_keys.
  - apply demo_answers.
  - discriminate.
  - vm_compute. discriminate.
  - vm_compute. reflexivity.
  - vm_compute. discriminate.
  - vm_compute. discriminate.
  - vm_compute. reflexivity.
  - vm_compute. discriminate.
  - exact demo_token_ok.
  - apply demo_near; [reflexivity|reflexivity|discriminate|reflexivity].
  - reflexivity.
  - reflexivity.
  - apply demo_answers.
  - discriminate.
  - vm_compute. discriminate.
  - reflexivity.
  - repeat constructor.
  - exact demo_login_body.
  - exact demo_call_body.
  - exists w'. split; [exact Hrun|]. rewrite Hh. reflexivity.
Defined.
