(* ===== verification/Pool.v ===== *)
(** * The pool of connections ([src/rpcx/pool])

    Connections are objects on a heap, to which the slots of the pool and the clients
    point.  The network is the list of the answers that the next dials get; what was
    dialled and which client connections were closed is recorded.  Every method is
    one step; interleavings of the atomic accesses inside two methods are left out. *)

From S2P Require Import Prelude GoStrings.

#[local] Open Scope string_scope.
#[local] Open Scope Z_scope.

(** ** Data *)

Record ConnConfig := mk_conn_config { Opts : nat; Timeout : Z; Address : string }.

(** [Dial] is set or not; what it does is the network's. *)
Record Options := mk_options { Dial : bool; MaxIdle : Z; MaxActive : Z; MaxConcurrentStreams : Z; Reuse : bool }.

(** The context of a connection: only one with a timeout has a function that cancels it. *)
Inductive conn_context := NoContext | Background | WithTimeout (timeout : Z).

(** A wrapped connection: its client connection, whether it is for one use, and its
    context. *)
Record conn := mk_conn { cc : option nat; once : bool; context : conn_context }.

Record pool := mk_pool {
  index : Z;
  current : Z;
  ref : Z;
  opt : Options;
  conns : list (option nat);
  closed : bool;
  connConfig : ConnConfig;
  heap : list conn;
  answers : list (option string);      (* the error of each dial to come *)
  dialled : list string;
  shut : list nat
}.

Definition with_index p x := mk_pool x (current p) (ref p) (opt p) (conns p) (closed p) (connConfig p) (heap p) (answers p) (dialled p) (shut p).
Definition with_current p x := mk_pool (index p) x (ref p) (opt p) (conns p) (closed p) (connConfig p) (heap p) (answers p) (dialled p) (shut p).
Definition with_ref p x := mk_pool (index p) (current p) x (opt p) (conns p) (closed p) (connConfig p) (heap p) (answers p) (dialled p) (shut p).
Definition with_conns p x := mk_pool (index p) (current p) (ref p) (opt p) x (closed p) (connConfig p) (heap p) (answers p) (dialled p) (shut p).
Definition with_heap p x := mk_pool (index p) (current p) (ref p) (opt p) (conns p) (closed p) (connConfig p) x (answers p) (dialled p) (shut p).

(** ** Connections *)

(** A dial: the number of the new client connection, or an error. *)
Definition dial (address : string) (p : pool) : outcome string nat * pool :=
  let p' := mk_pool (index p) (current p) (ref p) (opt p) (conns p) (closed p) (connConfig p) (heap p) (tail (answers p))
              (dialled p ++ [address]) (shut p) in
  match answers p with
  | Some e :: _ => (Err e, p')
  | _ => (Ok (length (dialled p)), p')
  end.

Definition NewClientConn (p : pool) : outcome string nat * pool := dial (Address (connConfig p)) p.

(** [wrapConn]: the new object. *)
Definition wrapConn (c : option nat) (once : bool) (p : pool) : nat * pool :=
  (length (heap p), with_heap p (heap p ++ [mk_conn c once NoContext])).

(** [conn.reset]. *)
Definition conn_reset (r : nat) (p : pool) : pool :=
  match heap p !! r with
  | None => p
  | Some c =>
      mk_pool (index p) (current p) (ref p) (opt p) (conns p) (closed p) (connConfig p)
        (<[r := mk_conn None false (context c)]> (heap p)) (answers p) (dialled p) (shut p ++ option_list (cc c))
  end.

(** [pool.reset] of a slot. *)
Definition reset (index : nat) (p : pool) : pool :=
  match conns p !! index with
  | Some (Some r) => let p := conn_reset r p in with_conns p (<[index := None]> (conns p))
  | _ => p
  end.

Definition deleteFrom (begin : nat) (p : pool) : pool :=
  foldl (fun p i => reset i p) p (seq begin (Z.to_nat (MaxActive (opt p)) - begin)).

(** [pool.Close]. *)
Definition Close (p : pool) : pool :=
  deleteFrom 0 (mk_pool 0 0 0 (opt p) (conns p) true (connConfig p) (heap p) (answers p) (dialled p) (shut p)).

(** ** A new pool *)

Definition valid_options (o : Options) : outcome string unit :=
  if (MaxIdle o <=? 0) || (MaxActive o <=? 0) || (MaxActive o <? MaxIdle o) then Err "invalid maximum settings"
  else if MaxConcurrentStreams o <=? 0 then Err "invalid maximun settings" else Ok tt.

(** The dials that fill the pool; the first that fails closes it. *)
Fixpoint fill (dial : pool -> outcome string nat * pool) (i n : nat) (p : pool) : outcome string unit * pool :=
  match n with
  | O => (Ok tt, p)
  | S n =>
      match dial p with
      | (Ok c, p) => let '(r, p) := wrapConn (Some c) false p in fill dial (S i) n (with_conns p (<[i := Some r]> (conns p)))
      | (Err e, p) => (Err ("dial is not able to fill the pool: " +:+ e), Close p)
      | (Panic w, p) => (Panic w, p)
      end
  end.

Definition empty_pool (o : Options) (config : ConnConfig) (net : list (option string)) : pool :=
  mk_pool 0 (int32 (MaxIdle o)) 0 o (replicate (Z.to_nat (MaxActive o)) None) false config [] net [] [].

Definition no_config : ConnConfig := mk_conn_config 0 0 "".

Definition New (address : string) (o : Options) (net : list (option string)) : outcome string pool :=
  if String.eqb address "" then Err "invalid address settings"
  else if negb (Dial o) then Err "invalid dial settings"
  else
    let* _ := valid_options o in
    let '(r, p) := fill (dial address) 0 (Z.to_nat (MaxIdle o)) (empty_pool o no_config net) in
    let* _ := r in Ok p.

Definition NewPool (o : Options) (config : ConnConfig) (net : list (option string)) : outcome string pool :=
  if String.eqb (Address config) "" then Err "invalid address settings"
  else if Timeout config =? 0 then Err "invalid timeout settings"
  else if (Opts config =? 0)%nat then Err "invalid opts settings"
  else
    let* _ := valid_options o in
    let '(r, p) := fill NewClientConn 0 (Z.to_nat (MaxIdle o)) (empty_pool o config net) in
    let* _ := r in Ok p.

(** ** [Get] *)

Definition incrRef (p : pool) : outcome string (Z * pool) :=
  let newRef := int32 (ref p + 1) in
  if newRef =? max_int32 then Panic "overflow ref" else Ok (newRef, with_ref p newRef).

(** What [Get] answers: a connection, nil or not, and an error. *)
Definition got : Type := option nat * option string.

(** The next of the connections that there are. *)
Definition next_conn (cur : Z) (p : pool) : outcome string (got * pool) :=
  if cur =? 0 then Panic "integer divide by zero"
  else
    let i := uint32 (index p + 1) in
    match conns p !! Z.to_nat (i mod cur) with
    | Some c => Ok ((c, None), with_index p i)
    | None => Panic "index out of range"
    end.

(** [increment] connections more, into the slots from [cur] on: how many were made, and
    the error of the dial that stopped it. *)
Fixpoint grow (increment : nat) (slot : nat) (p : pool) : Z * option string * pool :=
  match increment with
  | O => (0, None, p)
  | S n =>
      match NewClientConn p with
      | (Ok c, p) =>
          let p := reset slot p in
          let '(r, p) := wrapConn (Some c) false p in
          let '(i, err, p) := grow n (S slot) (with_conns p (<[slot := Some r]> (conns p))) in
          (i + 1, err, p)
      | (Err e, p) | (Panic e, p) => (0, Some e, p)
      end
  end.

Definition Get (p : pool) : outcome string (got * pool) :=
  let* (nextRef, p) := incrRef p in
  let cur := current p in
  let maxActive := int32 (MaxActive (opt p)) in
  let room := int32 (cur * int32 (MaxConcurrentStreams (opt p))) in
  if cur =? 0 then Ok ((None, Some "pool is closed"), p)
  else if nextRef <=? room then next_conn cur p
  else if cur =? maxActive then
    if Reuse (opt p) then next_conn cur p
    else
      (* the wrapper is returned with the error of the dial *)
      let '(c, p) := NewClientConn p in
      let '(r, p) := wrapConn (match c with Ok c => Some c | _ => None end) true p in
      Ok ((Some r, match c with Ok _ => None | Err e | Panic e => Some e end), p)
  else
  (* under the lock; [current] is read again *)
  let cur := current p in
  let room := int32 (cur * int32 (MaxConcurrentStreams (opt p))) in
  if (cur <? maxActive) && (room <? nextRef) then
    let increment := if maxActive <? int32 (cur + cur) then int32 (maxActive - cur) else cur in
    let '(i, err, p) := grow (Z.to_nat increment) (Z.to_nat cur) p in
    let cur := int32 (cur + i) in
    let p := with_current p cur in
    match err with
    | Some e => Ok ((None, Some e), p)
    | None => next_conn cur p
    end
  else next_conn cur p.

(** ** Giving a connection back *)

Definition decrRef (p : pool) : outcome string pool :=
  let newRef := int32 (ref p - 1) in
  if (newRef <? 0) && negb (closed p) then Panic "negative ref"
  else
    let p := with_ref p newRef in
    let idle := int32 (MaxIdle (opt p)) in
    if (newRef =? 0) && (idle <? current p) then
      (* under the lock; [ref] is read again *)
      if ref p =? 0 then Ok (deleteFrom (Z.to_nat (MaxIdle (opt p))) (with_current p idle)) else Ok p
    else Ok p.

(** A context that can be cancelled is cancelled and dropped; another one stays. *)
Definition cancelled (c : conn_context) : conn_context := match c with WithTimeout _ => NoContext | c => c end.

(** [conn.Close]. *)
Definition conn_Close (r : nat) (p : pool) : outcome string pool :=
  let* p := decrRef p in
  match heap p !! r with
  | None => Panic "invalid memory address or nil pointer dereference"
  | Some c =>
      let p := with_heap p (<[r := mk_conn (cc c) (once c) (cancelled (context c))]> (heap p)) in
      Ok (if once c then conn_reset r p else p)
  end.

(** [NewContext]. *)
Definition NewContext (r : nat) (timeout : option Z) (p : pool) : pool :=
  match heap p !! r with
  | Some c => with_heap p (<[r := mk_conn (cc c) (once c) (match timeout with Some t => WithTimeout t | None => Background end)]> (heap p))
  | None => p
  end.

(** [Value]: nil or the client connection. *)
Definition conn_Value (r : nat) (p : pool) : option nat := c ← heap p !! r; cc c.

(** ** Clients *)

(** A client gets a connection, or closes the [k]-th of those it holds. *)
Inductive client_op := OpGet | OpClose (k : nat).

Fixpoint clients (ops : list client_op) (p : pool) (held : list nat) : outcome string (pool * list nat) :=
  match ops with
  | [] => Ok (p, held)
  | OpGet :: ops =>
      let* (g, p) := Get p in
      match g with
      | (Some r, None) => clients ops p (held ++ [r])
      | _ => clients ops p held
      end
  | OpClose k :: ops =>
      match held !! k with
      | None => clients ops p held
      | Some r => let* p := conn_Close r p in clients ops p (delete k held)
      end
  end.
