(* ===== verification/PoolProofs.v ===== *)
(** * Clients of the pool keep their connections

    The state of the pool is well formed between any two calls, and no call of one client
    closes a connection that another one holds. *)

From S2P Require Import Prelude GoStrings Pool.

#[local] Open Scope string_scope.
#[local] Open Scope Z_scope.

Definition options_ok (o : Options) : Prop :=
  0 < MaxIdle o <= MaxActive o /\ 2 * MaxActive o <= max_int32 /\ 0 < MaxConcurrentStreams o.

Definition slot (p : pool) (i r : nat) : Prop := conns p !! i = Some (Some r).
Definition live (p : pool) (r : nat) : Prop := exists c, heap p !! r = Some c /\ cc c <> None.
Definition reusable (p : pool) (r : nat) : Prop := exists c, heap p !! r = Some c /\ cc c <> None /\ once c = false.

(** Exactly the first [k] slots hold connections, all different and open; what the
    clients hold is open, and a connection for one use is held once. *)
Record well_formed (k : nat) (held : list nat) (p : pool) : Prop := {
  wf_options : options_ok (opt p);
  wf_closed : closed p = false;
  wf_length : length (conns p) = Z.to_nat (MaxActive (opt p));
  wf_slots : forall i, (i < k)%nat -> exists r, slot p i r /\ reusable p r;
  wf_free : forall i r, slot p i r -> (i < k)%nat;
  wf_distinct : forall i j r, slot p i r -> slot p j r -> i = j;
  wf_held : forall r, List.In r held -> live p r;
  wf_once : forall i j r c, held !! i = Some r -> held !! j = Some r -> heap p !! r = Some c -> once c = true -> i = j
}.

Definition invariant (held : list nat) (p : pool) : Prop :=
  well_formed (Z.to_nat (current p)) held p /\ MaxIdle (opt p) <= current p <= MaxActive (opt p) /\
  Z.of_nat (length held) <= ref p.

(** Only the connections, the slots and the options matter. *)
Lemma wf_same k held p p' :
  well_formed k held p -> heap p' = heap p -> conns p' = conns p -> opt p' = opt p -> closed p' = closed p -> well_formed k held p'.
Proof.
  intros [H1 H2 H3 H4 H5 H6 H7 H8] Eh Ec Eo Ed.
  split; unfold slot, reusable, live in *; rewrite ?Eh, ?Ec, ?Eo, ?Ed; assumption.
Qed.

Lemma wf_nodata k held p i : well_formed k held p -> (k <= i)%nat -> forall r, ~ slot p i r.
Proof. intros Hw Hi r Hs. pose proof (wf_free k held p Hw i r Hs). lia. Qed.

Lemma reset_free k held p i : well_formed k held p -> (k <= i)%nat -> reset i p = p.
Proof.
  intros Hw Hi. unfold reset. destruct (conns p !! i) as [[r|]|] eqn:E; [|done..].
  by pose proof (wf_nodata k held p i Hw Hi r E).
Qed.

(** A new object on the heap. *)
Lemma wf_heap_app k held p c : well_formed k held p -> well_formed k held (with_heap p (heap p ++ [c])).
Proof.
  intros [H1 H2 H3 H4 H5 H6 H7 H8]. 
  assert (forall r x, heap p !! r = Some x -> (heap p ++ [c])%list !! r = Some x) as Happ by (intros; by apply lookup_app_l_Some).
  split; cbn [opt closed conns with_heap]; try assumption.
  - intros i Hi. destruct (H4 i Hi) as (r & Hs & x & Hx & Hc). exists r. split; [exact Hs|]. exists x. split; [by apply Happ|exact Hc].
  - intros r Hr. destruct (H7 r Hr) as (x & Hx & Hc). exists x. split; [by apply Happ|exact Hc].
  - intros i j r x Hi Hj Hx Ho. destruct (H7 r) as (y & Hy & _); [by eapply list_elem_of_In, list_elem_of_lookup_2|].
    pose proof (Happ r y Hy). cbn in Hx. assert (x = y) as -> by congruence. by eapply H8.
Qed.

(** A connection put into the next slot. *)
Lemma wf_next k held p c :
  well_formed k held p -> (k < length (conns p))%nat -> cc c <> None -> once c = false ->
  well_formed (S k) held (with_conns (with_heap p (heap p ++ [c])) (<[k := Some (length (heap p))]> (conns p))).
Proof.
  intros Hw Hk Hc Ho. pose proof (wf_heap_app k held p c Hw) as [H1 H2 H3 H4 H5 H6 H7 H8].
  assert (forall r i, slot p i r -> (r < length (heap p))%nat) as Hlt.
  { intros r i Hs. pose proof (wf_free k held p Hw i r Hs) as Hi. destruct (wf_slots k held p Hw i Hi) as (r' & Hs' & x & Hx & _).
    unfold slot in *. assert (r = r') as -> by congruence. by eapply lookup_lt_Some. }
  split; cbn [opt closed conns with_conns with_heap] in *; try assumption.
  - by rewrite length_insert.
  - intros i Hi. destruct (decide (i = k)) as [->|Hne].
    + exists (length (heap p)). split; [by apply list_lookup_insert_eq|]. exists c. cbn. rewrite lookup_app_r, Nat.sub_diag by done. done.
    + destruct (H4 i ltac:(lia)) as (r & Hs & Hr). exists r. split; [|exact Hr]. unfold slot. cbn. by rewrite list_lookup_insert_ne.
  - intros i r Hs. unfold slot in Hs. cbn in Hs. apply list_lookup_insert_Some in Hs as [(-> & _ & _)|[_ Hs]]; [lia|].
    pose proof (H5 i r Hs). lia.
  - intros i j r Hi Hj. unfold slot in Hi, Hj. cbn in Hi, Hj.
    apply list_lookup_insert_Some in Hi as [(-> & [= <-] & _)|[Hni Hi]]; apply list_lookup_insert_Some in Hj as [(-> & E & _)|[Hnj Hj]].
    + done.
    + pose proof (Hlt _ _ Hj). lia.
    + injection E as <-. pose proof (Hlt _ _ Hi). lia.
    + by eapply H6.
Qed.

(** ** A new pool *)

Definition same_settings (p p' : pool) : Prop :=
  opt p' = opt p /\ current p' = current p /\ ref p' = ref p /\ closed p' = closed p /\ index p' = index p.

Lemma dial_same address p : let '(r, p') := dial address p in
  heap p' = heap p /\ conns p' = conns p /\ same_settings p p' /\ (forall w, r <> Panic w).
Proof. unfold dial. destruct (answers p) as [|[e|] l]; done. Qed.

Lemma pool_filled (d : pool -> outcome string nat * pool) n : (forall p, exists a, d p = dial a p) -> forall k p p',
  well_formed k [] p -> (k + n <= length (conns p))%nat -> fill d k n p = (Ok tt, p') ->
  well_formed (k + n) [] p' /\ same_settings p p'.
Proof.
  intros Hd. induction n as [|n IH]; intros k p p' Hw Hn Hf; cbn [fill] in Hf.
  { injection Hf as <-. by rewrite Nat.add_0_r. }
  destruct (Hd p) as [a Ea]. rewrite Ea in Hf. pose proof (dial_same a p) as Hs. destruct (dial a p) as [[c|e|w] q]; try done.
  destruct Hs as (Eh & Ec & Es & _). unfold wrapConn in Hf.
  assert (well_formed k [] q) as Hq by (destruct Es as (? & ? & ? & ? & ?); by eapply wf_same).
  apply IH in Hf.
  - rewrite Nat.add_succ_r. destruct Hf as [H1 H2]. split; [exact H1|]. unfold same_settings in *. cbn in H2. intuition congruence.
  - apply (wf_next k [] q (mk_conn (Some c) false NoContext)); [exact Hq|rewrite Ec; lia|done|done].
  - cbn. rewrite length_insert, Ec. lia.
Qed.

Lemma valid_options_ok o : valid_options o = Ok tt -> 2 * MaxActive o <= max_int32 -> options_ok o.
Proof. unfold valid_options. repeat case_match; try done. intros _ Hm. z_bools. unfold options_ok. lia. Qed.

Lemma small_int32 z : 0 <= z -> z <= max_int32 -> int32 z = z.
Proof. intros H1 H2. apply int32_small. unfold in_int32, min_int32, max_int32 in *. lia. Qed.

Lemma empty_wf o config net : options_ok o -> well_formed 0 [] (empty_pool o config net).
Proof.
  intros Ho. assert (forall i r, ~ slot (empty_pool o config net) i r) as Hn.
  { intros i r. unfold slot. cbn. intros [E _]%lookup_replicate. discriminate. }
  split; [exact Ho|done|by cbn; rewrite length_replicate|lia|by intros i r ?%Hn|by intros i j r ?%Hn|done|by intros i j r c ?].
Qed.

Lemma filled_invariant o config net (d : pool -> outcome string nat * pool) p :
  options_ok o -> (forall q, exists a, d q = dial a q) ->
  fill d 0 (Z.to_nat (MaxIdle o)) (empty_pool o config net) = (Ok tt, p) -> invariant [] p /\ opt p = o /\ ref p = 0.
Proof.
  intros Ho Hd Hf. apply pool_filled in Hf as [Hw (Eo & Ec & Er & _)]; [|exact Hd|by apply empty_wf|].
  - unfold options_ok in Ho. cbn in Eo, Ec, Er. rewrite small_int32 in Ec by lia.
    split; [|done]. unfold invariant. rewrite Ec, Eo, Er. cbn. split_and!; [exact Hw|lia|lia|lia].
  - cbn. rewrite length_replicate. unfold options_ok in Ho. lia.
Qed.

(** ** [Get] *)

Lemma slot_at cur p held i :
  well_formed (Z.to_nat cur) held p -> 0 < cur -> exists r, conns p !! Z.to_nat (uint32 i mod cur) = Some (Some r) /\ reusable p r.
Proof.
  intros Hw Hc. apply (wf_slots _ _ _ Hw). pose proof (Z.mod_pos_bound (uint32 i) cur Hc). lia.
Qed.

(** One connection more that is held, which others may hold if it is reusable. *)
Lemma wf_held_more k held p r :
  well_formed k held p -> live p r -> (reusable p r \/ ~ List.In r held) -> well_formed k (held ++ [r]) p.
Proof.
  intros [H1 H2 H3 H4 H5 H6 H7 H8] Hr Hd. split; try assumption.
  - intros x [Hx|[<-|[]]]%in_app_iff; [by apply H7|done].
  - intros i j x c Hi Hj Hx Ho.
    assert (forall l, (held ++ [r])%list !! l = Some x -> held !! l = Some x \/ (l = length held /\ x = r)) as Hcase.
    { intros l [Hl|[Hl E]]%lookup_app_Some; [by left|]. apply list_lookup_singleton_Some in E as [E1 E2]. right. split; [lia|done]. }
    apply Hcase in Hi as [Hi|[-> ->]]; apply Hcase in Hj as [Hj|[-> E]]; [by eapply H8| | |done].
    all: exfalso; destruct Hd as [(c' & Hc' & _ & Ho')|Hni]; [congruence|]; apply Hni; subst; by eapply list_elem_of_In, list_elem_of_lookup_2.
Qed.

Lemma next_conn_ok held p cur :
  well_formed (Z.to_nat cur) held p -> 0 < cur ->
  exists r p', next_conn cur p = Ok ((Some r, None), p') /\ well_formed (Z.to_nat cur) (held ++ [r]) p' /\
    opt p' = opt p /\ current p' = current p /\ ref p' = ref p.
Proof.
  intros Hw Hc. unfold next_conn. rewrite (proj2 (Z.eqb_neq cur 0)) by lia.
  destruct (slot_at cur p held (index p + 1) Hw Hc) as (r & -> & Hr). eexists r, _. split; [reflexivity|].
  split; [|done]. apply (wf_same _ _ p); [|done..]. apply wf_held_more; [done| |by left].
  destruct Hr as (c & Hc1 & Hc2 & _). by exists c.
Qed.

Lemma grow_ok n : forall k held p,
  well_formed k held p -> (k + n <= length (conns p))%nat ->
  let '(i, err, p') := grow n k p in
  0 <= i <= Z.of_nat n /\ (err = None -> i = Z.of_nat n) /\ well_formed (k + Z.to_nat i) held p' /\ same_settings p p'.
Proof.
  induction n as [|n IH]; intros k held p Hw Hn; cbn [grow].
  { split_and!; [done|lia|done|by rewrite Nat.add_0_r|done]. }
  unfold NewClientConn. pose proof (dial_same (Address (connConfig p)) p) as Hs.
  destruct (dial _ p) as [[c|e|w] q]; destruct Hs as (Eh & Ec & Es & Hp).
  - assert (well_formed k held q) as Hq by (destruct Es as (? & ? & ? & ? & ?); by eapply wf_same).
    rewrite (reset_free k held q k Hq) by done. unfold wrapConn.
    pose proof (wf_next k held q (mk_conn (Some c) false NoContext) Hq ltac:(rewrite Ec; lia) ltac:(done) ltac:(done)) as Hnext.
    specialize (IH (S k) held _ Hnext). destruct (grow n (S k) _) as [[i err] p'].
    destruct IH as (Hi & He & Hw' & Hset); [cbn; rewrite length_insert, Ec; lia|].
    split_and!; [lia|lia|intros E; specialize (He E); lia| |].
    + replace (k + Z.to_nat (i + 1))%nat with (S k + Z.to_nat i)%nat by lia. exact Hw'.
    + unfold same_settings in *. cbn in Hset. intuition congruence.
  - split_and!; [lia|lia|done| |exact Es]. cbn [Z.to_nat]. rewrite Nat.add_0_r. destruct Es as (? & ? & ? & ? & ?). by eapply wf_same.
  - by destruct (Hp w).
Qed.

Lemma Get_ok held p :
  invariant held p -> ref p + 1 < max_int32 ->
  exists g p', Get p = Ok (g, p') /\ opt p' = opt p /\ ref p' = ref p + 1 /\
    (forall r, g = (Some r, None) -> invariant (held ++ [r]) p') /\ ((forall r, g <> (Some r, None)) -> invariant held p').
Proof.
  intros (Hw & Hc & Hr) Hmax. pose proof (wf_options _ _ _ Hw) as (Ho1 & Ho2 & _).
  assert (ref p + 1 = int32 (ref p + 1)) as Eref by (symmetry; apply small_int32; lia).
  unfold Get, incrRef. rewrite <- Eref, (proj2 (Z.eqb_neq _ _)) by lia. cbn [bind_outcome current opt with_ref].
  set (p1 := with_ref p (ref p + 1)). assert (well_formed (Z.to_nat (current p)) held p1) as Hw1 by (by apply (wf_same _ _ p)).
  rewrite (proj2 (Z.eqb_neq (current p) 0)) by lia. rewrite (small_int32 (MaxActive (opt p))) by lia.
  set (room := int32 (current p * int32 (MaxConcurrentStreams (opt p)))).
  assert (forall q cur, well_formed (Z.to_nat cur) held q -> MaxIdle (opt p) <= cur <= MaxActive (opt p) -> current q = cur ->
            opt q = opt p -> ref q = ref p + 1 ->
    exists g p', next_conn cur q = Ok (g, p') /\ opt p' = opt p /\ ref p' = ref p + 1 /\
      (forall r, g = (Some r, None) -> invariant (held ++ [r]) p') /\ ((forall r, g <> (Some r, None)) -> invariant held p')) as Hnext.
  { intros q cur Hq Hcur Ecq Eoq Erq. destruct (next_conn_ok held q cur Hq ltac:(lia)) as (r & p' & E & Hw' & Eo & Ecur & Er).
    exists (Some r, None), p'. split_and!; [exact E|congruence|congruence| |intros Hx; by destruct (Hx r)].
    intros r' [= <-]. unfold invariant. rewrite Ecur, Er, Eo, Ecq, Eoq, Erq, length_app. split_and!; [exact Hw'|lia|lia|cbn; lia]. }
  destruct (ref p + 1 <=? room) eqn:Eroom; [by apply Hnext|]. destruct (current p =? MaxActive (opt p)) eqn:Eact; z_bools.
  - destruct (Reuse (opt p)); [by apply Hnext|].
    unfold NewClientConn. pose proof (dial_same (Address (connConfig p1)) p1) as Hs.
    destruct (dial _ p1) as [res q]. destruct Hs as (Eh & Ecn & (Eo & Ecur & Er & Ecl & _) & Hp). cbn in Eo, Ecur, Er.
    assert (well_formed (Z.to_nat (current p)) held q) as Hq by (by apply (wf_same _ _ p1)).
    unfold wrapConn. set (c := mk_conn (match res with Ok c => Some c | _ => None end) true NoContext).
    pose proof (wf_heap_app _ _ _ c Hq) as Hq'. eexists _, _. split; [reflexivity|]. cbn [opt ref with_heap].
    split_and!; [exact Eo|exact Er| |].
    + intros r [= <- Eres]. unfold invariant. cbn [opt ref current with_heap]. rewrite Ecur, Er, Eo, length_app. cbn [length].
      split_and!; [|lia|lia|lia]. apply wf_held_more; [exact Hq'| |right].
      * exists c. cbn. rewrite lookup_app_r, Nat.sub_diag by done. split; [done|]. subst c. by destruct res.
      * intros Hin. destruct (wf_held _ _ _ Hq _ Hin) as (x & Hx & _). apply lookup_lt_Some in Hx. lia.
    + intros _. unfold invariant. cbn [opt ref current with_heap]. rewrite Ecur, Er, Eo. split_and!; [exact Hq'|lia|lia|lia].
  - destruct ((current p <? MaxActive (opt p)) && (room <? ref p + 1)) eqn:Eg; [|by apply Hnext]. z_bools.
    set (increment := if MaxActive (opt p) <? int32 (current p + current p) then int32 (MaxActive (opt p) - current p) else current p).
    assert (0 <= increment <= MaxActive (opt p) - current p) as Hinc.
    { subst increment. rewrite (small_int32 (MaxActive (opt p) - current p)) by lia.
      rewrite (small_int32 (current p + current p)) by lia. destruct (Z.ltb_spec (MaxActive (opt p)) (current p + current p)); lia. }
    pose proof (grow_ok (Z.to_nat increment) (Z.to_nat (current p)) held p1 Hw1) as Hgrow.
    destruct (grow _ _ p1) as [[i err] q].
    destruct Hgrow as (Hi & Herr & Hq & (Eo & Ecur & Er & Ecl & Ei)); [cbn; rewrite (wf_length _ _ _ Hw); lia|]. cbn in Eo, Er.
    rewrite (small_int32 (current p + i)) by lia. set (q' := with_current q (current p + i)).
    assert (well_formed (Z.to_nat (current p + i)) held q') as Hq'.
    { apply (wf_same _ _ q); [|done..]. replace (Z.to_nat (current p + i)) with (Z.to_nat (current p) + Z.to_nat i)%nat by lia. exact Hq. }
    destruct err as [e|]; [|apply Hnext; [exact Hq'|lia|done|exact Eo|exact Er]].
    eexists _, q'. split; [reflexivity|]. split_and!; [exact Eo|exact Er|done|]. intros _.
    unfold invariant. cbn [current q' with_current opt ref]. rewrite Eo, Er. split_and!; [exact Hq'|lia|lia|lia].
Qed.

(** ** Giving back *)

Lemma conn_reset_heap r p r' : heap (conn_reset r p) !! r' = if bool_decide (r = r') then (c ← heap p !! r; Some (mk_conn None false (context c))) else heap p !! r'.
Proof.
  unfold conn_reset. destruct (heap p !! r) as [c|] eqn:E; cbn [heap].
  - case_bool_decide as Hr; [subst; cbn; by rewrite list_lookup_insert_eq by (by eapply lookup_lt_Some)|by rewrite list_lookup_insert_ne].
  - case_bool_decide as Hr; [by subst|done].
Qed.

Lemma conn_reset_same r p : conns (conn_reset r p) = conns p /\ opt (conn_reset r p) = opt p /\ closed (conn_reset r p) = closed p /\
  current (conn_reset r p) = current p /\ ref (conn_reset r p) = ref p.
Proof. unfold conn_reset. by case_match. Qed.

(** While the slots from [k] on are emptied, those before [b] already being empty: the
    slots below [k] are as they must be. *)
Record emptying (k b : nat) (p : pool) : Prop := {
  em_options : options_ok (opt p);
  em_closed : closed p = false;
  em_length : length (conns p) = Z.to_nat (MaxActive (opt p));
  em_slots : forall i, (i < k)%nat -> exists r, slot p i r /\ reusable p r;
  em_free : forall i r, slot p i r -> (i < k)%nat \/ (b <= i)%nat;
  em_distinct : forall i j r, slot p i r -> slot p j r -> i = j
}.

Lemma reset_emptying k b p :
  emptying k b p -> (k <= b)%nat -> emptying k (S b) (reset b p) /\ opt (reset b p) = opt p /\ current (reset b p) = current p /\ ref (reset b p) = ref p.
Proof.
  intros [H1 H2 H3 H4 H5 H6] Hkb. unfold reset. destruct (conns p !! b) as [[r|]|] eqn:Eb.
  2-3: split; [|done]; split; try assumption; intros i r Hs; destruct (H5 i r Hs) as [?|Hb]; [by left|right];
       destruct (decide (i = b)) as [->|]; [unfold slot in Hs; congruence|lia].
  destruct (conn_reset_same r p) as (E1 & E2 & E3 & E4 & E5).
  assert (forall i x, <[b := None]> (conns p) !! i = Some (Some x) -> i <> b /\ slot p i x) as Hs.
  { intros i x Hx. apply list_lookup_insert_Some in Hx as [(_ & [=] & _)|[? Hx]]. by split. }
  split; [|done]. split; unfold slot, reusable; cbn [opt closed conns heap with_conns]; rewrite ?E1, ?E2, ?E3; try assumption.
  - by rewrite length_insert.
  - intros i Hi. destruct (H4 i Hi) as (x & Hx & c & Hc & Hlive). exists x. rewrite list_lookup_insert_ne by lia. split; [exact Hx|].
    exists c. rewrite conn_reset_heap. case_bool_decide as Hrx; [|done]. subst x. pose proof (H6 i b r Hx Eb). lia.
  - intros i x [Hne Hx]%Hs. destruct (H5 i x Hx) as [?|?]; [by left|right; lia].
  - intros i j x [_ Hi]%Hs [_ Hj]%Hs. by eapply H6.
Qed.

Lemma deleteFrom_ok k p :
  emptying k k p -> (k <= Z.to_nat (MaxActive (opt p)))%nat ->
  well_formed k [] (deleteFrom k p) /\ opt (deleteFrom k p) = opt p /\ current (deleteFrom k p) = current p /\ ref (deleteFrom k p) = ref p.
Proof.
  intros Hp Hk. unfold deleteFrom. set (n := Z.to_nat (MaxActive (opt p))) in *.
  assert (forall m b q, (k <= b)%nat -> emptying k b q -> let q' := foldl (fun p i => reset i p) q (seq b m) in
    emptying k (b + m) q' /\ opt q' = opt q /\ current q' = current q /\ ref q' = ref q) as Hfold.
  { induction m as [|m IH]; intros b q Hb Hq; cbn [seq foldl]; [by rewrite Nat.add_0_r|].
    destruct (reset_emptying k b q Hq Hb) as (Hr & E1 & E2 & E3).
    destruct (IH (S b) (reset b q) ltac:(lia) Hr) as (Hr' & F1 & F2 & F3).
    rewrite Nat.add_succ_r. cbn. split_and!; [exact Hr'|congruence..]. }
  destruct (Hfold (n - k)%nat k p ltac:(lia) Hp) as ([H1 H2 H3 H4 H5 H6] & E1 & E2 & E3).
  split; [|done]. split; try assumption; [|done|done].
  intros i r Hs. destruct (H5 i r Hs) as [?|Hge]; [done|]. apply lookup_lt_Some in Hs. rewrite H3, E1 in Hs. fold n in Hs. lia.
Qed.

Lemma deleteFrom_heap k p : length (heap (deleteFrom k p)) = length (heap p).
Proof.
  unfold deleteFrom. generalize (seq k (Z.to_nat (MaxActive (opt p)) - k)). intros l.
  assert (forall l q, length (heap (foldl (fun p i => reset i p) q l)) = length (heap q)) as Hf; [|apply Hf].
  clear. induction l as [|i l IH]; intros q; cbn [foldl]; [done|]. rewrite IH. unfold reset.
  destruct (conns q !! i) as [[r|]|]; [|done..]. unfold conn_reset. destruct (heap q !! r); [cbn; by rewrite length_insert|done].
Qed.

Lemma wf_emptying k b held p : well_formed b held p -> (k <= b)%nat -> emptying k k p.
Proof.
  intros [H1 H2 H3 H4 H5 H6 H7 H8] Hk. split; try assumption; [intros i Hi; apply H4; lia|].
  intros i r _. destruct (decide (i < k)%nat); [by left|right; lia].
Qed.

(** The reference of one of those that are held is given back: the pool shrinks when
    it was the last. *)
Lemma decrRef_ok held r p :
  invariant held p -> List.In r held -> ref p <= max_int32 ->
  exists p', decrRef p = Ok p' /\ well_formed (Z.to_nat (current p')) (if ref p =? 1 then [] else held) p' /\
    MaxIdle (opt p') <= current p' <= MaxActive (opt p') /\ ref p' = ref p - 1 /\ opt p' = opt p /\ length (heap p') = length (heap p) /\
    (ref p <> 1 -> heap p' = heap p).
Proof.
  intros (Hw & Hc & Hr) Hin Hmax. pose proof (wf_options _ _ _ Hw) as (Ho1 & Ho2 & Ho3).
  assert (1 <= Z.of_nat (length held)) as Hlen by (destruct held; [done|cbn; lia]).
  unfold decrRef. rewrite (small_int32 (ref p - 1)), (proj2 (Z.ltb_ge _ _)) by lia. cbn [andb opt with_ref current].
  rewrite (small_int32 (MaxIdle (opt p))) by lia.
  destruct (Z.eqb_spec (ref p) 1) as [Hone|Hmore].
  - assert (well_formed (Z.to_nat (current p)) [] p) as Hw0 by (destruct Hw; split; try assumption; [done|by intros i j x c E]).
    rewrite (proj2 (Z.eqb_eq (ref p - 1) 0)) by lia. destruct (Z.ltb_spec (MaxIdle (opt p)) (current p)); cbn [andb].
    + cbn [ref with_ref]. rewrite (proj2 (Z.eqb_eq (ref p - 1) 0)) by lia.
      set (p1 := with_current (with_ref p (ref p - 1)) (MaxIdle (opt p))).
      assert (well_formed (Z.to_nat (current p)) [] p1) as Hw1 by (by apply (wf_same _ _ p)).
      destruct (deleteFrom_ok (Z.to_nat (MaxIdle (opt p))) p1) as (H1 & E1 & E2 & E3).
      * by eapply wf_emptying; [exact Hw1|lia].
      * cbn. lia.
      * exists (deleteFrom (Z.to_nat (MaxIdle (opt p))) p1). rewrite E1, E2, E3, deleteFrom_heap. cbn [current opt ref p1 with_current with_ref heap].
        split_and!; [done|exact H1|lia|lia|done|done|done|lia].
    + eexists. split; [reflexivity|]. split_and!; try done; [by apply (wf_same _ _ p)|cbn; lia|cbn; lia].
  - rewrite (proj2 (Z.eqb_neq (ref p - 1) 0)) by lia. cbn [andb]. eexists. split; [reflexivity|].
    split_and!; try done; [by apply (wf_same _ _ p)|cbn; lia|cbn; lia].
Qed.

Lemma wf_released k held p r c :
  well_formed k held p -> heap p !! r = Some c -> (once c = true -> ~ List.In r held) ->
  well_formed k held (let p := with_heap p (<[r := mk_conn (cc c) (once c) (cancelled (context c))]> (heap p)) in if once c then conn_reset r p else p).
Proof.
  intros [H1 H2 H3 H4 H5 H6 H7 H8] Hr Ho. cbv zeta. set (p1 := with_heap p _).
  set (p2 := if once c then conn_reset r p1 else p1).
  assert (conns p2 = conns p /\ opt p2 = opt p /\ closed p2 = closed p) as (Ec & Eo & Ed).
  { subst p2. destruct (once c); [|done]. destruct (conn_reset_same r p1) as (? & ? & ? & _). by split_and!. }
  assert (forall x y, r <> x -> heap p2 !! x = Some y -> heap p !! x = Some y) as Hback.
  { intros x y Hne. subst p2. destruct (once c); cbn; rewrite ?conn_reset_heap, ?bool_decide_eq_false_2 by done; cbn; by rewrite list_lookup_insert_ne. }
  assert (forall x y, r <> x -> heap p !! x = Some y -> heap p2 !! x = Some y) as Hforth.
  { intros x y Hne. subst p2. destruct (once c); cbn; rewrite ?conn_reset_heap, ?bool_decide_eq_false_2 by done; cbn; by rewrite list_lookup_insert_ne. }
  assert (once c = false -> heap p2 !! r = Some (mk_conn (cc c) false (cancelled (context c)))) as Hself.
  { intros E. subst p2. rewrite E. cbn. rewrite list_lookup_insert_eq; [by rewrite E|by eapply lookup_lt_Some]. }
  split; unfold slot; rewrite ?Ec, ?Eo, ?Ed; try assumption.
  - intros i Hi. destruct (H4 i Hi) as (x & Hx & y & Hy & Hc & Hn). exists x. split; [exact Hx|]. destruct (decide (r = x)) as [<-|Hne].
    + rewrite Hr in Hy. injection Hy as <-. eexists. split; [by apply Hself|]. by split.
    + exists y. split; [by apply Hforth|by split].
  - intros x Hin. destruct (H7 x Hin) as (y & Hy & Hc). destruct (decide (r = x)) as [<-|Hne].
    + rewrite Hr in Hy. injection Hy as <-. destruct (once c) eqn:Eo'; [by destruct (Ho eq_refl)|]. eexists. split; [by apply Hself|done].
    + exists y. split; [by apply Hforth|done].
  - intros i j x y Hi Hj Hy Hon. destruct (decide (r = x)) as [<-|Hne]; [|by eapply H8, Hon; [..|by apply Hback]].
    assert (List.In r held) as Hin by (by eapply list_elem_of_In, list_elem_of_lookup_2).
    destruct (once c) eqn:Eo'; [by destruct (Ho eq_refl)|]. rewrite (Hself eq_refl) in Hy. by injection Hy as <-.
Qed.

Lemma wf_delete k held p i : well_formed k held p -> well_formed k (delete i held) p.
Proof.
  intros [H1 H2 H3 H4 H5 H6 H7 H8].
  assert (forall a x, delete i held !! a = Some x -> exists b, held !! b = Some x /\ b = if decide (a < i)%nat then a else S a) as Hd.
  { intros a x Ha. case_decide; [rewrite list_lookup_delete_lt in Ha by done|rewrite list_lookup_delete_ge in Ha by lia]; eauto. }
  split; try assumption.
  - intros x Hx. apply H7. apply list_elem_of_In, list_elem_of_lookup in Hx as [a Ha]. apply Hd in Ha as (b & Hb & _).
    by eapply list_elem_of_In, list_elem_of_lookup_2.
  - intros a b x c (a' & Ha & Ea)%Hd (b' & Hb & Eb)%Hd Hx Ho. pose proof (H8 a' b' x c Ha Hb Hx Ho). subst. repeat case_decide; lia.
Qed.

Lemma conn_Close_ok held k r p :
  invariant held p -> held !! k = Some r -> ref p <= max_int32 ->
  exists p', conn_Close r p = Ok p' /\ invariant (delete k held) p' /\ opt p' = opt p /\ ref p' = ref p - 1.
Proof.
  intros Hinv Hk Hmax. pose proof Hinv as (Hw & Hc & Hr).
  assert (List.In r held) as Hin by (by eapply list_elem_of_In, list_elem_of_lookup_2).
  destruct (decrRef_ok held r p Hinv Hin Hmax) as (p1 & E & Hw1 & Hc1 & Er & Eo & El & Eh).
  unfold conn_Close. rewrite E. cbn [bind_outcome].
  destruct (wf_held _ _ _ Hw r Hin) as (c0 & Hc0 & _).
  destruct (lookup_lt_is_Some_2 (heap p1) r) as [c Hcr]; [rewrite El; by eapply lookup_lt_Some|]. rewrite Hcr.
  assert (well_formed (Z.to_nat (current p1)) (delete k held) p1 /\ (once c = true -> ~ List.In r (delete k held))) as [Hd Ho].
  { assert (length held <= 1 -> delete k held = [])%nat as Hnil.
    { intros Hle. apply nil_length_inv. rewrite length_delete by (by eexists). lia. }
    destruct (Z.eqb_spec (ref p) 1) as [Hone|Hmore].
    - rewrite Hnil by lia. split; [exact Hw1|by intros _ []].
    - split; [by apply wf_delete|]. intros Hon Hin'. apply list_elem_of_In, list_elem_of_lookup in Hin' as [a Ha].
      rewrite (Eh Hmore) in Hcr. destruct (decide (a < k)%nat) as [Hlt|Hge].
      + rewrite list_lookup_delete_lt in Ha by done. pose proof (wf_once _ _ _ Hw a k r c Ha Hk Hcr Hon). lia.
      + rewrite list_lookup_delete_ge in Ha by lia. pose proof (wf_once _ _ _ Hw (S a) k r c Ha Hk Hcr Hon). lia. }
  eexists. split; [reflexivity|]. pose proof (wf_released _ _ _ r c Hd Hcr Ho) as Hw2. cbv zeta in Hw2 |- *.
  set (p2 := if once c then _ else _) in *.
  assert (opt p2 = opt p1 /\ current p2 = current p1 /\ ref p2 = ref p1) as (E1 & E2 & E3).
  { subst p2. destruct (once c); [|done]. destruct (conn_reset_same r (with_heap p1 (<[r := mk_conn (cc c) true (cancelled (context c))]> (heap p1)))) as (_ & ? & _ & ? & ?). by split_and!. }
  unfold invariant. rewrite E1, E2, E3, length_delete by (by eexists). split_and!; [exact Hw2|lia|lia| |congruence|congruence].
  assert (0 < length held)%nat by (by eapply Nat.le_lt_trans, lookup_lt_Some; [apply Nat.le_0_l|]). lia.
Qed.

(** ** Any clients *)

Lemma clients_ok ops : forall held p,
  invariant held p -> ref p + Z.of_nat (length ops) < max_int32 ->
  exists p' held', clients ops p held = Ok (p', held') /\ invariant held' p' /\ opt p' = opt p.
Proof.
  induction ops as [|op ops IH]; intros held p Hinv Hmax; cbn [clients length] in *; [by exists p, held|].
  destruct op as [|k].
  - destruct (Get_ok held p Hinv ltac:(lia)) as (g & p1 & -> & Eo & Er & Hyes & Hno). cbn [bind_outcome].
    assert (forall h, invariant h p1 -> exists p' held', clients ops p1 h = Ok (p', held') /\ invariant held' p' /\ opt p' = opt p) as Hrest.
    { intros h Hh. destruct (IH h p1 Hh ltac:(lia)) as (p' & held' & H1 & H2 & H3). exists p', held'. split_and!; congruence. }
    destruct g as [[r|] [e|]]; apply Hrest; first [by apply Hyes|by apply Hno].
  - destruct (held !! k) as [r|] eqn:Ek; [|by apply IH; [|lia]].
    destruct (conn_Close_ok held k r p Hinv Ek ltac:(lia)) as (p1 & -> & H1 & Eo & Er). cbn [bind_outcome].
    destruct (IH (delete k held) p1 H1 ltac:(lia)) as (p' & held' & F1 & F2 & F3). exists p', held'. split_and!; congruence.
Qed.

(** C7: A pool never takes a connection from a client that holds it.  Whatever the
    network answers, and in whatever order clients get connections and close those
    they hold, one call at a time: no call panics, every connection that is held is open, the pool keeps
    between [MaxIdle] and [MaxActive] connections of its own, which are open and
    different, and it has counted at least those that are held. *)
Theorem pool_keeps_connections o config net ops p :
  NewPool o config net = Ok p -> 2 * MaxActive o <= max_int32 -> Z.of_nat (length ops) < max_int32 ->
  exists p' held, clients ops p [] = Ok (p', held) /\
    (forall r, List.In r held -> exists n, conn_Value r p' = Some n) /\
    MaxIdle o <= current p' <= MaxActive o /\
    (forall i, (i < Z.to_nat (current p'))%nat -> exists r n, conns p' !! i = Some (Some r) /\ conn_Value r p' = Some n) /\
    (forall i j r, conns p' !! i = Some (Some r) -> conns p' !! j = Some (Some r) -> i = j) /\
    Z.of_nat (length held) <= ref p'.
Proof.
  unfold NewPool. do 3 (case_match; [done|]). destruct (valid_options o) as [[]| |] eqn:Ev; [|done..]. cbn [bind_outcome].
  destruct (fill _ _ _ _) as [[[]| |] q] eqn:Ef; [|done..]. cbn [bind_outcome]. intros [= ->] Hmax Hops.
  destruct (filled_invariant o config net NewClientConn p) as (Hinv & Eo & Er);
    [by apply valid_options_ok|by intros q; eexists|exact Ef|].
  destruct (clients_ok ops [] p Hinv ltac:(lia)) as (p' & held & Hc & (Hw & Hcur & Href) & Eo').
  exists p', held. rewrite Eo', Eo in Hcur. split_and!; [exact Hc| |lia|lia| |apply (wf_distinct _ _ _ Hw)|exact Href].
  - intros r Hin. destruct (wf_held _ _ _ Hw r Hin) as (c & Hh & Hn). unfold conn_Value. rewrite Hh. cbn. destruct (cc c); [by eexists|done].
  - intros i Hi. destruct (wf_slots _ _ _ Hw i Hi) as (r & Hs & c & Hh & Hn & _). exists r. unfold conn_Value. rewrite Hh. cbn.
    destruct (cc c); [by eexists|done].
Qed.

Definition small : Options := mk_options true 1 4 1 false.
Definition grpc_config : ConnConfig := mk_conn_config 1 5 "srv:1".

Definition demo_ops : list client_op := [OpGet; OpGet; OpGet; OpClose 1; OpGet; OpClose 0].

Definition demo_pool : pool := match NewPool small grpc_config [] with Ok p => p | _ => empty_pool small grpc_config [] end.

Lemma pool_keeps_connections_witness :
  NewPool small grpc_config [] = Ok demo_pool /\
  exists p' held, clients demo_ops demo_pool [] = Ok (p', held) /\
    (forall r, List.In r held -> exists n, conn_Value r p' = Some n) /\
    MaxIdle small <= current p' <= MaxActive small /\
    (forall i, (i < Z.to_nat (current p'))%nat -> exists r n, conns p' !! i = Some (Some r) /\ conn_Value r p' = Some n) /\
    (forall i j r, conns p' !! i = Some (Some r) -> conns p' !! j = Some (Some r) -> i = j) /\
    Z.of_nat (length held) <= ref p'.
Proof.
  split; [reflexivity|]. apply (pool_keeps_connections small grpc_config []); [reflexivity|vm_compute; discriminate|vm_compute; reflexivity].
Defined.

(** The pool shrinks when the last connection is given back: the others are closed. *)
Example shrinks :
  match clients [OpGet; OpGet; OpGet; OpClose 0; OpClose 0; OpClose 0] demo_pool [] with
  | Ok (p, held) => (current p, ref p, shut p, held) = (1, 0, [1; 2; 3]%nat, [])
  | _ => False
  end.
Proof. vm_compute. reflexivity. Qed.

(** A [Get] that fails keeps the reference it has counted: the pool never shrinks
    again. *)
Example failed_get_leaks :
  match NewPool small grpc_config [None; None; Some "down"] with
  | Ok p =>
      match clients [OpGet; OpGet; OpGet; OpClose 0; OpClose 0] p [] with
      | Ok (p, held) => (current p, ref p, held) = (2, 1, [])
      | _ => False
      end
  | _ => False
  end.
Proof. vm_compute. reflexivity. Qed.

(** A pool made with [New] grows with the configuration that only [NewPool] sets. *)
Example grows_with_no_address :
  match New "srv:1" small [] with
  | Ok p => match clients [OpGet; OpGet] p [] with Ok (p, _) => dialled p = ["srv:1"; ""] | _ => False end
  | _ => False
  end.
Proof. vm_compute. reflexivity. Qed.
